(* ===== verification/_CoqProject ===== *)
-Q . S2P
Prelude.v
ByteSwap.v
HeaderStat.v
CLib.v
Ecryptfs.v
Extents.v
PassphraseSig.v
KeyMod.v
PacketLength.v
Packets.v
Miscdev.v
KeyPayload.v
Zombie.v
KeyManagement.v
Keyring.v
CmdLnParser.v
DecisionGraph.v
PassphraseGraph.v
ModuleMgr.v
Gpg.v
MountGraph.v
Questions.v
MountWalks.v
Ssl.v
Openssl.v
OpensslPackets.v
TspiPool.v
Tspi.v
TpmKey.v
Pkcs11.v
Visits.v
Pkcs11Walks.v
Pkcs11Providers.v
Terminal.v
Sysfs.v
Tools.v
Manager.v
GenKey.v
MountEcryptfs.v
MountHelper.v
MountPrivate.v
UmountEcryptfs.v
Ecryptfsd.v
Pam.v
