(* ===== verification/Prelude.v ===== *)
(** * eCryptfs userspace tools: a verification library

    eCryptfs is a stacked cryptographic file system of the Linux kernel; this
    repository holds the programs around it.  They put keys into the keyring of
    a user, mount and unmount private directories, answer the kernel when it
    needs a public-key module, and read the headers of encrypted files.  The
    library models the C sources under [src/src], function by function and with
    the names of the sources, and proves what the functions do, the failures
    included.

    ** The parts and their files

    - [Prelude]: machine integers, blocks of memory with checked reads and
      writes ([rd], [wr], [memset]), byte order, undefined behaviour as the
      values [UB] of the type [outcome], automation and shared lemmas.
    - [CLib]: the functions of the C library on strings and characters that the
      sources call: [strcmp], [strstr], [strtol], [fgets], [printf] of integers.
    - [Ecryptfs]: the structures and constants of [include/ecryptfs.h]; the
      interfaces [Nss] (digests and AES), with its laws [NssLaws], and [Heap]
      (which allocations work, what fresh memory holds).
    - [ByteSwap], [HeaderStat]: [libecryptfs/ecryptfs-stat.c] and the tool
      [utils/ecryptfs-stat.c], the parser of the header of a lower file.
    - [PassphraseSig]: the hexadecimal codec, [generate_passphrase_sig] and
      [generate_payload] of [libecryptfs/main.c]: from a passphrase to a key,
      its signature and its token.
    - [KeyMod]: [libecryptfs/key_mod.c] and the built-in module of
      [key_mod/ecryptfs_key_mod_passphrase.c]: loading, registering and finding
      key modules.  A module is a record of operations.
    - [KeyPayload]: [ecryptfs_generate_key_payload] of [libecryptfs/main.c], the
      token of a public-key module.
    - [PacketLength], [Packets]: [libecryptfs/packets.c] with the length
      encoding of [libecryptfs/messaging.c]: a request of the kernel (tags 64 and
      66) is answered with the result of a key module (tags 65 and 67).
    - [Miscdev]: [libecryptfs/miscdev.c] and the dispatch of [messaging.c]: the
      frames of the device and the loop of the daemon around [parse_packet].
    - [KeyManagement]: [libecryptfs/key_management.c]: tokens in the keyring,
      wrapped passphrase files, the cache of signatures.
    - [Zombie]: the session placeholders of [libecryptfs/main.c]: a table in
      shared memory under a semaphore.
    - [CmdLnParser]: [libecryptfs/cmd_ln_parser.c]: options, option files and
      their unions; the salt of the rc file in [key_management.c].
    - [Keyring]: all calls that change the keyring as one relation, and the type of
      the tokens that they keep.
    - [DecisionGraph]: [libecryptfs/decision_graph.c]: the graph of questions as a
      heap of nodes, its construction, and the walk that takes answers from options,
      defaults or the user.  [Visits] has the lemmas on single visits.
    - [PassphraseGraph]: the nodes of [key_mod/ecryptfs_key_mod_passphrase.c].
      [ModuleMgr]: [libecryptfs/module_mgr.c], the graph of the mount helper and of
      key generation.  [MountGraph], [Questions], [MountWalks]: theorems about that graph:
      how it is built, what a question does, whole walks.
    - [Ssl]: what is used of OpenSSL, as an interface with laws.  [Openssl],
      [OpensslPackets]: [key_mod/ecryptfs_key_mod_openssl.c] and its composition
      with [Packets].
    - [TspiPool], [Tspi]: [key_mod/ecryptfs_key_mod_tspi.c]: the pool of
      connections to the TPM as linked tickets, and keys.  [TpmKey]:
      [utils/ecryptfs_generate_tpm_key.c].
    - [Pkcs11], [Pkcs11Walks], [Pkcs11Providers]:
      [key_mod/ecryptfs_key_mod_pkcs11_helper.c]: keys on tokens, the graph of a key,
      the graphs of the configuration file.
    - [Gpg]: [key_mod/ecryptfs_key_mod_gpg.c], which is switched off.
    - [Terminal], [Sysfs]: [utils/io.c], reading from the terminal, and
      [libecryptfs/sysfs.c], the features of the kernel module.
    - [Tools]: the five programs [utils/ecryptfs_*_passphrase*.c].  [Manager]:
      [utils/manager.c].  [GenKey]: the functions of [utils/gen_key.c].
    - [MountEcryptfs], [MountHelper]: [utils/mount.ecryptfs.c], from its arguments to
      [/bin/mount].  [UmountEcryptfs]: [utils/umount.ecryptfs.c].
    - [MountPrivate]: the setuid program [utils/mount.ecryptfs_private.c].
    - [Ecryptfsd]: [daemon/main.c], around [Miscdev].
    - [Pam]: the PAM module [pam_ecryptfs/pam_ecryptfs.c]: login, session and
      change of the password.
    - [Extents]: [utils/test.c], the model that the sources keep of how the kernel
      places extents in pages.

    They call each other as in the sources.  [KeyManagement] derives keys with
    [PassphraseSig] and tokens with [KeyPayload]; [MountPrivate], [UmountEcryptfs],
    [Tools], [Manager], [Pam] and the graphs of the key modules change the keyring
    with it.  [MountHelper] and [Manager] run the walks of [DecisionGraph] over the
    graphs of [ModuleMgr], which ask [KeyMod] for the modules and their
    subgraphs.  [Pam] runs the program of [MountPrivate] for a session.
    [Ecryptfsd] runs [Miscdev], which runs [Packets], which finds its modules with
    [KeyMod]; [Openssl], [Tspi] and [Pkcs11] are such modules.  The cryptographic
    libraries, the allocator, the terminal, the file system and the kernel are not in the
    repository or lie below it; they are parameters (the classes [Nss], [Heap],
    [Sys], [Ssl], [Tss] and [Pkcs11], the records of operations and of the system in the
    files that use them), and where a theorem needs a law of theirs it is a named
    hypothesis with an instance that satisfies it.

    ** How C is represented

    A character or byte is an integer from 0 to 255, a string the list of its
    characters without the terminator, a buffer the list of all its bytes.
    Fixed-width integers are [Z] with their wrap-around written out ([u8], [u32],
    [i32]); signed overflow is a fault.  A buffer that a function fills through a
    pointer is passed in and returned.  A computation returns [Ok], with the
    result code of the C function and everything it changed, or [UB] with the
    first memory error: an access outside a block, a second [free], a null or
    dangling pointer.  Memory that was allocated and not written holds the values
    of [heap_junk], so a theorem shows where they leave the program.  Whether an
    allocation works is asked of [alloc_ok line k], by its source line and its
    count within the call; a function that theorems describe in full is given the
    hypothesis that allocations work, and the failures are theorems of their own.

    ** What the theorems show

    - Headers: the parser decodes every well-formed header on hosts of either
      byte order, accepts nothing else, and reads beyond buffers of 20 to 25
      bytes, which its size check lets through.
    - Passphrases: the key is the digest iterated as documented and the signature
      its hexadecimal prefix; the function stays inside its buffers for all
      inputs.  A wrapped passphrase unwraps to itself, a wrong wrapping
      passphrase is refused, and the ways in which wrapping loses data are
      stated.
    - Key modules: registration keeps exactly the modules that load, a lookup
      finds the first module whose alias is a prefix of the name.
    - Packets and the daemon: lengths up to 8383 survive the encoding and larger
      ones do not; requests are answered with the packet of the result, or with
      the failure packet; a frame is accepted exactly when it is well-formed; the
      daemon answers a framed request, gives up at the ninth read error, and
      frees a message twice when an error follows one.
    - Placeholders: the operations refine a list of pairs; the semaphore, from its
      creation on, keeps all but one process out as long as no [semop] has an error
      of its own and nobody runs out of retries; each of these lets a second process
      in or leaves the semaphore at zero.
    - Options: parsing inverts printing for options that fit the buffer; longer
      ones end the parse.
    - The setuid helper: [mount] and [umount] are reached only for a user, alias,
      directories, lock, mount point and signatures that are as they should be, each
      stated of the system and not with the functions of the code; [umount] only with
      the entry in the mount table, and [mount] without one as far as the
      table can be read, since that check fails open; the counter file implements a
      counter.
    - The PAM module: a login loads the keys of the wrapped passphrase, a change
      of the password wraps it again, or reports success without doing so; the
      credentials of the process come back except on one path; a session runs
      the helper as the user.
    - The keyring: whatever sequence of calls made it, a token is filed under its own
      signature and has the type it is marked with.
    - Graphs: setting the exit changes exactly what the root reaches; an option is
      used once; a question is asked again for a wrong answer; a mount with a
      passphrase gives the kernel the documented options, from the arguments of the
      helper to its call of [/bin/mount], which is reached only without a remount, after a
      walk without an error and with signatures that are cached or agreed to; the
      unmount helper takes out the keys that such a mount put in.  Walks that never end are theorems, too.
    - Key modules: session keys survive encryption and decryption, through the
      packets of the daemon for OpenSSL; the signature of a key file is the beginning of
      the OpenPGP fingerprint of its RSA key (not its key ID, which is the end), and the
      module for tokens, with its own copy of the code, computes the same; the walk over options adds the key; the
      configuration file of the PKCS#11 module registers its providers; the
      pool of the TPM module keeps its tickets when their use is nested and loses one
      when it is not, after which it cannot be shut down; the generator registers a key only when every step worked, under a UUID that
      the module takes as its parameter; the GnuPG module is never registered.
    - Programs: wrapping, rewrapping and unwrapping with the tools gives the
      passphrase back; adding it by hand or from its file makes the same keyring; the
      manager leaves no passphrase behind; the daemon disables core dumps before it
      reads a request.
    - Extents: addresses in the lower file, the order in which encrypting a page
      reads and writes it, and the size of the lower file.

    ** Bounds and fuel

    The table of placeholders is scanned with [scan_fuel] = 512 steps, one for
    each pair of its 4096 bytes; the test on the size ends the loop before the
    fuel does ([scan_for_sid_fuel], [scan_to_end_fuel]).  [process_comma_tok] calls itself on the parts of a colon list,
    which hold no colon, so depth 2 is enough ([process_comma_tok_enough]).  The loop over the cache of
    signatures and the one that reads an options file take a step for each byte at
    most and get the length of the file ([check_sig_loop_fuel],
    [read_loop_fuel]).  [lock_counter_loop] makes the 49 tries
    of its source.  The loop of the daemon runs over the list of what the device
    delivers.

    The walk over a graph has fuel for its steps, and [None] or [OutOfFuel] stands for
    one that goes on.  20 steps build and walk the graph of a passphrase mount, for
    every fuel from there on ([passphrase_mount_options]); setting the exit takes the
    rank of the root ([set_exit_on_graph_correct]); the configuration file of the
    PKCS#11 module takes seven steps for each provider and three more
    ([pkcs11_init_registers_providers]); the walk over the key of a token four.  A walk that
    never ends is stated for every fuel ([pkcs11_verbosity_0_never_loads],
    [enable_without_value_loops]).  Making directories takes a call for each
    component, so the length of the path and two are enough
    ([mkdir_recursive_ancestors]); those of [GenKey] take a turn for a slash.  The lists of tickets
    have ten at most and are followed for eleven steps.  The menu of the manager
    takes a step for each line that is no choice, and its loop one for each choice.
    No theorem assumes that fuel was enough.

    ** What is not modelled

    Messages printed for people, and code around system calls without decisions of
    its own.  The bindings that SWIG generates ([libecryptfs-swig]) and the Python
    script on them; the programs that are not built ([utils/ecryptfs_add_key.c],
    [utils/dump_auth_tok.c], [utils/dump_auth_tok_key.c]) or have no code in use
    ([utils/plaintext_decision_graph.c]); in [key_mod/ecryptfs_key_mod_gpg.c] the functions
    without a body; printers for debugging; tests and shell scripts.  Memory that is
    only freed at the end of a function is not tracked, except where a block is
    freed twice or used afterwards. *)

From stdpp Require Export base list option strings gmap fin_maps.
From Stdlib Require Export ZArith Lia.

#[global] Open Scope Z_scope.

(** [lia] treats division and modulo by constants. *)
Ltac Zify.zify_post_hook ::= Z.to_euclidean_division_equations.

(** ** Machine data

    A C [char] or [uint8_t] is an integer in [0, 256); a C string is the list
    of its characters without the terminating NUL; a buffer is the list of all
    its bytes. *)
Abbreviation byte := Z (only parsing).
Abbreviation bytes := (list Z) (only parsing).
Abbreviation cstring := (list Z) (only parsing).

Definition is_byte (b : byte) : Prop := 0 <= b < 256.
#[export] Instance is_byte_dec b : Decision (is_byte b).
Proof. unfold is_byte. apply _. Defined.

Definition zlen {A} (l : list A) : Z := Z.of_nat (length l).

(** The bytes of a string literal of the source. *)
Fixpoint lit (s : string) : cstring :=
  match s with
  | EmptyString => []
  | String c s' => Z.of_N (Ascii.N_of_ascii c) :: lit s'
  end.

(** Unsigned and signed integers of a given width. *)
Definition wrap (w x : Z) : Z := x mod 2 ^ w.
Definition swrap (w x : Z) : Z := (x + 2 ^ (w - 1)) mod 2 ^ w - 2 ^ (w - 1).
Abbreviation u8 := (wrap 8).
Abbreviation u16 := (wrap 16).
Abbreviation u32 := (wrap 32).
Abbreviation u64 := (wrap 64).
Abbreviation i32 := (swrap 32).

(** C truth values. *)
Definition cbool (b : bool) : Z := if b then 1 else 0.

(** [errno] values of Linux that the sources use. *)
Definition EPERM : Z := 1.
Definition ENOENT : Z := 2.
Definition EIO : Z := 5.
Definition ENOMEM : Z := 12.
Definition EACCES : Z := 13.
Definition EISDIR : Z := 21.
Definition EINVAL : Z := 22.
Definition EEXIST : Z := 17.
Definition EFAULT : Z := 14.
Definition EFBIG : Z := 27.
Definition ENOKEY : Z := 126.
Definition EDQUOT : Z := 122.

(** ** Undefined behaviour as values

    A computation either returns or commits one of the memory errors below.
    The definitions of the development propagate the first fault. *)
Inductive fault :=
  | OutOfBoundsRead
  | BufferOverflow
  | DoubleFree
  | UseAfterFree
  | NullDeref
  | Uninitialised
  | SignedOverflow
  | DivisionByZero
  | TypeConfusion.

Inductive outcome (A : Type) :=
  | Ok (a : A)
  | UB (f : fault).
Arguments Ok {A} a.
Arguments UB {A} f.

#[export] Instance outcome_ret : MRet outcome := fun A a => Ok a.

Definition obind {A B} (m : outcome A) (f : A -> outcome B) : outcome B :=
  match m with Ok a => f a | UB e => UB e end.

(** Sequencing in the style of stdpp's monads, with the type of the bound
    value taken from the first computation. *)
Declare Scope outcome_scope.
Notation "x ← y ; z" := (obind y (fun x : _ => z))
  (at level 20, y at level 100, z at level 200, only parsing) : outcome_scope.
Notation "' x ← y ; z" := (obind y (fun x : _ => z))
  (at level 20, x pattern, y at level 100, z at level 200, only parsing) : outcome_scope.
#[global] Open Scope outcome_scope.

#[export] Instance fault_eq_dec : EqDecision fault.
Proof. solve_decision. Defined.

Definition is_ok {A} (m : outcome A) : bool :=
  match m with Ok _ => true | UB _ => false end.

(** ** Memory blocks

    [rd b off n] is a read of [n] bytes at offset [off] of the block [b] (a
    [memcpy] out of it), [wr b off src] a [memcpy] into it; both check that
    the access stays inside the block. *)
Definition rd (b : bytes) (off n : Z) : outcome bytes :=
  if (0 <=? off) && (0 <=? n) && (off + n <=? zlen b)
  then Ok (take (Z.to_nat n) (drop (Z.to_nat off) b))
  else UB OutOfBoundsRead.

Definition rd1 (b : bytes) (off : Z) : outcome byte :=
  if 0 <=? off then
    match b !! Z.to_nat off with Some x => Ok x | None => UB OutOfBoundsRead end
  else UB OutOfBoundsRead.

Definition wr (b : bytes) (off : Z) (src : bytes) : outcome bytes :=
  if (0 <=? off) && (off + zlen src <=? zlen b)
  then Ok (take (Z.to_nat off) b ++ src ++ drop (Z.to_nat off + length src) b)
  else UB BufferOverflow.

Definition memset (b : bytes) (off c n : Z) : outcome bytes :=
  wr b off (replicate (Z.to_nat n) c).

(** The contents of a freshly allocated block of [n] bytes: whatever the
    heap holds, given by [junk]. *)
Definition malloc_block (junk : nat -> byte) (n : Z) : bytes :=
  junk <$> seq 0 (Z.to_nat n).

(** ** Byte order *)
Fixpoint le_bytes (n : nat) (x : Z) : bytes :=
  match n with
  | O => []
  | S n' => x mod 256 :: le_bytes n' (x / 256)
  end.

Fixpoint le_val (l : bytes) : Z :=
  match l with
  | [] => 0
  | b :: l' => b + 256 * le_val l'
  end.

Definition be_bytes (n : nat) (x : Z) : bytes := reverse (le_bytes n x).
Definition be_val (l : bytes) : Z := le_val (reverse l).

(** An integer in memory of a host of the given byte order, and [ntohl],
    [htonl] and [ntohs] of such a host. *)
Definition host_val (big_endian : bool) (l : bytes) : Z :=
  if big_endian then be_val l else le_val l.
Definition host_bytes (big_endian : bool) (n : nat) (x : Z) : bytes :=
  if big_endian then be_bytes n x else le_bytes n x.
Definition ntoh (big_endian : bool) (n : nat) (x : Z) : Z :=
  if big_endian then x else be_val (le_bytes n x).

(** ** Automation *)
Create HintDb ecryptfs discriminated.
Create Rewrite HintDb ecryptfs.
#[export] Hint Constants Opaque : ecryptfs.
#[export] Hint Variables Opaque : ecryptfs.

(** Case analysis on the scrutinee of the first [match] or [if] in the goal. *)
Ltac case_goal :=
  match goal with
  | |- context [if ?b then _ else _] => destruct b eqn:?
  | |- context [match ?x with _ => _ end] => destruct x eqn:?
  end.

(** Boolean tests in the hypotheses and the goal become propositions. *)
Ltac to_prop :=
  repeat match goal with
  | H : (_ && _) = true |- _ => apply andb_true_iff in H as [? ?]
  | H : (_ && _) = false |- _ => apply andb_false_iff in H
  | H : (_ || _) = false |- _ => apply orb_false_iff in H as [? ?]
  | H : (_ || _) = true |- _ => apply orb_true_iff in H
  | H : negb _ = true |- _ => apply negb_true_iff in H
  | H : negb _ = false |- _ => apply negb_false_iff in H
  | H : (_ <? _) = true |- _ => apply Z.ltb_lt in H
  | H : (_ <? _) = false |- _ => apply Z.ltb_ge in H
  | H : (_ <=? _) = true |- _ => apply Z.leb_le in H
  | H : (_ <=? _) = false |- _ => apply Z.leb_gt in H
  | H : (_ =? _) = true |- _ => apply Z.eqb_eq in H
  | H : (_ =? _) = false |- _ => apply Z.eqb_neq in H
  | H : bool_decide _ = true |- _ => apply bool_decide_eq_true in H
  | H : bool_decide _ = false |- _ => apply bool_decide_eq_false in H
  end.

(** Evaluate the boolean test [t] of the goal to the value [lia] gives it. *)
Ltac decide_test t :=
  first [ replace t with true by (symmetry; lia)
        | replace t with false by (symmetry; lia) ].

(** ** Lemmas on lists and blocks *)
Lemma zlen_nonneg {A} (l : list A) : 0 <= zlen l.
Proof. unfold zlen; lia. Qed.
Lemma zlen_app {A} (l k : list A) : zlen (l ++ k) = zlen l + zlen k.
Proof. unfold zlen; rewrite length_app; lia. Qed.
Lemma zlen_cons {A} (x : A) l : zlen (x :: l) = 1 + zlen l.
Proof. unfold zlen; simpl; lia. Qed.
Lemma zlen_nil {A} : zlen (@nil A) = 0.
Proof. reflexivity. Qed.
Lemma zlen_replicate {A} n (x : A) : zlen (replicate n x) = Z.of_nat n.
Proof. unfold zlen; by rewrite length_replicate. Qed.
Lemma zlen_take {A} (l : list A) n : zlen (take n l) = Z.min (Z.of_nat n) (zlen l).
Proof. unfold zlen; rewrite length_take; lia. Qed.
Lemma zlen_drop {A} (l : list A) n : zlen (drop n l) = Z.max 0 (zlen l - Z.of_nat n).
Proof. unfold zlen; rewrite length_drop; lia. Qed.
Lemma zlen_malloc_block junk n : 0 <= n -> zlen (malloc_block junk n) = n.
Proof. intros; unfold zlen, malloc_block. rewrite length_fmap, length_seq; lia. Qed.

Lemma rd_ok b off n :
  0 <= off -> 0 <= n -> off + n <= zlen b ->
  rd b off n = Ok (take (Z.to_nat n) (drop (Z.to_nat off) b)).
Proof. intros; unfold rd. decide_test ((0 <=? off) && (0 <=? n) && (off + n <=? zlen b)); done. Qed.

Lemma rd_ok_inv b off n r :
  rd b off n = Ok r ->
  0 <= off /\ 0 <= n /\ off + n <= zlen b /\
  r = take (Z.to_nat n) (drop (Z.to_nat off) b).
Proof. unfold rd; case_goal; intros; simplify_eq; to_prop; repeat split; lia || done. Qed.

Lemma rd_oob b off n : 0 <= off -> zlen b < off + n -> rd b off n = UB OutOfBoundsRead.
Proof.
  intros; unfold rd.
  replace ((0 <=? off) && (0 <=? n) && (off + n <=? zlen b)) with false; [done|].
  symmetry; rewrite !andb_false_iff, !Z.leb_gt; lia.
Qed.

(** Reading the middle of a concatenation. *)
Lemma rd_app3 a b c off n :
  off = zlen a -> n = zlen b -> rd (a ++ b ++ c) off n = Ok b.
Proof.
  intros -> ->. rewrite rd_ok; [|unfold zlen; lia..|rewrite !zlen_app; pose proof (zlen_nonneg c); lia].
  unfold zlen. rewrite !Nat2Z.id, drop_app_length, take_app_length. done.
Qed.

Lemma rd_app2 a b off n : off = zlen a -> n = zlen b -> rd (a ++ b) off n = Ok b.
Proof. intros. rewrite <- (app_nil_r b) at 1. by apply rd_app3. Qed.

Lemma rd_prefix a b n : n = zlen a -> rd (a ++ b) 0 n = Ok a.
Proof. intros. by apply (rd_app3 [] a b). Qed.

Lemma rd1_app a x c off : off = zlen a -> rd1 (a ++ x :: c) off = Ok x.
Proof.
  intros ->. unfold rd1. pose proof (zlen_nonneg a). decide_test (0 <=? zlen a).
  unfold zlen. rewrite Nat2Z.id, list_lookup_middle; done.
Qed.

Lemma rd1_lookup b off x : 0 <= off -> b !! Z.to_nat off = Some x -> rd1 b off = Ok x.
Proof. intros ? Hx. unfold rd1. decide_test (0 <=? off). by rewrite Hx. Qed.

Lemma wr_ok b off src :
  0 <= off -> off + zlen src <= zlen b ->
  wr b off src = Ok (take (Z.to_nat off) b ++ src ++ drop (Z.to_nat off + length src) b).
Proof. intros; unfold wr. by decide_test ((0 <=? off) && (off + zlen src <=? zlen b)). Qed.

Lemma wr_ok_inv b off src r :
  wr b off src = Ok r ->
  0 <= off /\ off + zlen src <= zlen b /\
  r = take (Z.to_nat off) b ++ src ++ drop (Z.to_nat off + length src) b.
Proof. unfold wr; case_goal; intros; simplify_eq; to_prop; repeat split; lia || done. Qed.

Lemma wr_overflow b off src : zlen b < off + zlen src -> wr b off src = UB BufferOverflow.
Proof.
  intros; unfold wr.
  replace ((0 <=? off) && (off + zlen src <=? zlen b)) with false; [done|].
  symmetry; rewrite andb_false_iff, !Z.leb_gt; lia.
Qed.

(** Overwriting the middle of a concatenation. *)
Lemma wr_app3 a b c off src :
  off = zlen a -> zlen src = zlen b -> wr (a ++ b ++ c) off src = Ok (a ++ src ++ c).
Proof.
  intros -> Hlen. assert (length src = length b) by (unfold zlen in Hlen; lia).
  rewrite wr_ok; [|apply zlen_nonneg|rewrite !zlen_app; pose proof (zlen_nonneg c); lia].
  unfold zlen. rewrite Nat2Z.id, take_app_length.
  rewrite <- drop_drop, drop_app_length. by rewrite drop_app_length'.
Qed.

Lemma zlen_wr b off src r : wr b off src = Ok r -> zlen r = zlen b.
Proof.
  intros (? & ? & ->)%wr_ok_inv. rewrite !zlen_app, zlen_take, zlen_drop.
  unfold zlen in *; lia.
Qed.

(** ** Lemmas on byte order *)
Lemma length_le_bytes n x : length (le_bytes n x) = n.
Proof. revert x; induction n; simpl; auto. Qed.

Lemma length_be_bytes n x : length (be_bytes n x) = n.
Proof. unfold be_bytes. by rewrite length_reverse, length_le_bytes. Qed.

Lemma le_bytes_are_bytes n x : Forall is_byte (le_bytes n x).
Proof.
  revert x; induction n; intros x; simpl; constructor; auto.
  apply Z.mod_pos_bound; lia.
Qed.

Lemma be_bytes_are_bytes n x : Forall is_byte (be_bytes n x).
Proof. unfold be_bytes. apply Forall_reverse, le_bytes_are_bytes. Qed.

Lemma le_val_le_bytes n x : le_val (le_bytes n x) = x mod 256 ^ Z.of_nat n.
Proof.
  revert x; induction n; intros x.
  - by rewrite Z.mod_1_r.
  - cbn [le_bytes le_val]. rewrite IHn, Nat2Z.inj_succ, Z.pow_succ_r by lia.
    rewrite (Z.rem_mul_r x 256 (256 ^ Z.of_nat n)) by lia. done.
Qed.

Lemma le_val_bound l : Forall is_byte l -> 0 <= le_val l < 256 ^ zlen l.
Proof.
  induction 1 as [|b l Hb _ IH]; [done|].
  rewrite zlen_cons, Z.pow_add_r by (pose proof (zlen_nonneg l); lia).
  unfold is_byte in Hb. cbn [le_val]. lia.
Qed.

Lemma le_bytes_le_val l : Forall is_byte l -> le_bytes (length l) (le_val l) = l.
Proof.
  induction 1 as [|b l Hb _ IH]; [done|]. unfold is_byte in Hb.
  cbn [le_bytes le_val length]. f_equal.
  - rewrite Z.mul_comm, Z.mod_add by lia. apply Z.mod_small; lia.
  - replace ((b + 256 * le_val l) / 256) with (le_val l); [done|].
    rewrite Z.mul_comm, Z.div_add by lia. rewrite Z.div_small; lia.
Qed.

Lemma be_val_be_bytes n x : be_val (be_bytes n x) = x mod 256 ^ Z.of_nat n.
Proof. unfold be_val, be_bytes. rewrite reverse_involutive. apply le_val_le_bytes. Qed.

Lemma be_val_bound l : Forall is_byte l -> 0 <= be_val l < 256 ^ zlen l.
Proof.
  intros H. unfold be_val.
  replace (zlen l) with (zlen (reverse l)) by (unfold zlen; by rewrite length_reverse).
  by apply le_val_bound, Forall_reverse.
Qed.

(** A memory read followed by [ntohl] yields the big-endian value on every host. *)
Lemma ntoh_host_val be l :
  Forall is_byte l -> ntoh be (length l) (host_val be l) = be_val l.
Proof.
  intros H. destruct be; [done|]. unfold ntoh, host_val. by rewrite le_bytes_le_val.
Qed.

(** Storing [htonl x] yields the big-endian bytes of [x] on every host. *)
Lemma host_bytes_hton be n x :
  0 <= x < 256 ^ Z.of_nat n -> host_bytes be n (ntoh be n x) = be_bytes n x.
Proof.
  intros H. destruct be; [done|]. unfold host_bytes, ntoh, be_val, be_bytes.
  rewrite <- (length_le_bytes n x) at 1. rewrite <- (length_reverse (le_bytes n x)).
  apply le_bytes_le_val, Forall_reverse, le_bytes_are_bytes.
Qed.

Lemma host_val_host_bytes be n x :
  host_val be (host_bytes be n x) = x mod 256 ^ Z.of_nat n.
Proof. destruct be; [apply be_val_be_bytes | apply le_val_le_bytes]. Qed.

Lemma length_host_bytes be n x : length (host_bytes be n x) = n.
Proof. destruct be; [apply length_be_bytes | apply length_le_bytes]. Qed.

Lemma wrap_small w x : 0 <= x < 2 ^ w -> wrap w x = x.
Proof. apply Z.mod_small. Qed.

Lemma wrap_bound w x : 0 <= w -> 0 <= wrap w x < 2 ^ w.
Proof. intros; apply Z.mod_pos_bound; lia. Qed.

Lemma swrap_small w x : 0 < w -> - 2 ^ (w - 1) <= x < 2 ^ (w - 1) -> swrap w x = x.
Proof.
  intros Hw H. unfold swrap.
  assert (2 ^ w = 2 * 2 ^ (w - 1)) as ->
    by (rewrite <- Z.pow_succ_r by lia; f_equal; lia).
  rewrite Z.mod_small; lia.
Qed.

(** ** Lemmas on the fault monad *)
Lemma bind_ok_inv {A B} (m : outcome A) (f : A -> outcome B) b :
  obind m f = Ok b -> exists a, m = Ok a /\ f a = Ok b.
Proof. destruct m; [by eauto | done]. Qed.

Lemma bind_Ok {A B} (a : A) (f : A -> outcome B) : obind (Ok a) f = f a.
Proof. done. Qed.

#[export] Hint Rewrite @zlen_app @zlen_cons @zlen_nil @zlen_replicate
  @length_app @length_replicate length_le_bytes length_be_bytes length_host_bytes : ecryptfs.
#[export] Hint Resolve zlen_nonneg le_bytes_are_bytes be_bytes_are_bytes : ecryptfs.

(** Close a goal about the length of a concatenation of known blocks. *)
Ltac solve_len :=
  repeat (rewrite ?zlen_app, ?zlen_cons, ?zlen_nil, ?zlen_replicate,
    ?length_app, ?length_replicate, ?length_le_bytes, ?length_be_bytes,
    ?length_host_bytes in * );
  unfold zlen in *; simpl in *; rewrite ?length_app, ?length_be_bytes,
    ?length_le_bytes, ?length_host_bytes, ?length_replicate in *; simpl in *; lia.
