(* ===== verification/ByteSwap.v ===== *)
(** * [swab64] of [src/libecryptfs/ecryptfs-stat.c]: the byte reversal of a
    64-bit integer written with masks and shifts, and its reference meaning *)

From S2P Require Import Prelude.

Definition swab64 (x : Z) : Z :=
  u64 (Z.lor (Z.shiftl x 56) (Z.lor (Z.shiftr x 56)
    (Z.lor (Z.shiftl (Z.land x 0x000000000000ff00) 40)
    (Z.lor (Z.shiftl (Z.land x 0x0000000000ff0000) 24)
    (Z.lor (Z.shiftl (Z.land x 0x00000000ff000000) 8)
    (Z.lor (Z.shiftr (Z.land x 0x000000ff00000000) 8)
    (Z.lor (Z.shiftr (Z.land x 0x0000ff0000000000) 24)
           (Z.shiftr (Z.land x 0x00ff000000000000) 40)))))))).

(** Addition of a low part below a multiple of [2^n] is bitwise or. *)
Lemma land_low_high a b n :
  0 <= n -> 0 <= a < 2 ^ n -> Z.land a (b * 2 ^ n) = 0.
Proof.
  intros Hn Ha. apply Z.bits_inj'; intros i Hi. rewrite Z.land_spec, Z.bits_0.
  destruct (Z.lt_ge_cases i n).
  - rewrite Z.mul_pow2_bits_low by lia. apply andb_false_r.
  - rewrite <- (Z.mod_small a (2 ^ n)), Z.mod_pow2_bits_high by lia. done.
Qed.

Lemma add_low_high a b n :
  0 <= n -> 0 <= a < 2 ^ n -> a + b * 2 ^ n = Z.lor a (Z.shiftl b n).
Proof.
  intros Hn Ha. rewrite Z.shiftl_mul_pow2 by done.
  rewrite <- Z.lxor_lor, <- Z.add_nocarry_lxor by (by apply land_low_high). done.
Qed.

Lemma byte_testbit x k i :
  0 <= k -> 0 <= i ->
  Z.testbit (x / 256 ^ k mod 256) i = (i <? 8) && Z.testbit x (i + 8 * k).
Proof.
  intros Hk Hi. change 256 with (2 ^ 8) at 2. change 256 with (2 ^ 8).
  rewrite <- Z.pow_mul_r by lia. destruct (Z.ltb_spec i 8).
  - rewrite Z.mod_pow2_bits_low, Z.div_pow2_bits by lia. by rewrite andb_true_l.
  - by rewrite Z.mod_pow2_bits_high by lia.
Qed.

(** The big-endian value of eight bytes, as a nest of shifts. *)
Lemma be_val_le_bytes_8 x : be_val (le_bytes 8 x) =
  Z.lor (x / 256 ^ 7 mod 256) (Z.shiftl (
  Z.lor (x / 256 ^ 6 mod 256) (Z.shiftl (
  Z.lor (x / 256 ^ 5 mod 256) (Z.shiftl (
  Z.lor (x / 256 ^ 4 mod 256) (Z.shiftl (
  Z.lor (x / 256 ^ 3 mod 256) (Z.shiftl (
  Z.lor (x / 256 ^ 2 mod 256) (Z.shiftl (
  Z.lor (x / 256 ^ 1 mod 256) (Z.shiftl (x / 256 ^ 0 mod 256) 8)) 8)) 8)) 8)) 8)) 8)) 8).
Proof.
  unfold be_val. cbn [le_bytes].
  rewrite !Z.div_div by lia.
  cbn [reverse rev_append le_val].
  rewrite <- !add_low_high by (try lia; apply Z.mod_pos_bound; lia).
  rewrite Z.div_1_r.
  change (256^1) with 256. change (256^2) with (256*256). change (256^3) with (256*256*256).
  change (256^7) with (256*256*256*256*256*256*256).
  change (256^6) with (256*256*256*256*256*256).
  change (256^5) with (256*256*256*256*256).
  change (256^4) with (256*256*256*256). cbn -[Z.div Z.modulo Z.mul Z.add].
  change (2^8) with 256. lia.
Qed.
(** Both sides of a bitwise equation, at one concrete bit. *)
Ltac solve_bit x :=
  repeat (rewrite ?Z.lor_spec, ?Z.land_spec, ?andb_false_r, ?orb_false_r;
    first [ rewrite Z.shiftl_spec by lia | rewrite Z.shiftr_spec by lia
    | rewrite byte_testbit by lia | rewrite Z.testbit_neg_r by lia]);
  generalize (Z.testbit x); intros f; vm_compute; repeat case (f _); reflexivity.
(** [swab64] is the byte-wise reversal of a 64-bit integer. *)
Lemma swab64_reverses x : 0 <= x < 2 ^ 64 -> swab64 x = be_val (le_bytes 8 x).
Proof.
  intros Hx. rewrite be_val_le_bytes_8.
  assert (Z.shiftr x 56 = Z.land (Z.shiftr x 56) 0xff) as Htop.
  { change 0xff with (Z.ones 8). rewrite Z.land_ones, Z.shiftr_div_pow2 by lia.
    rewrite Z.mod_small; [done|]. split; [apply Z.div_pos|apply Z.div_lt_upper_bound]; lia. }
  apply Z.bits_inj'. intros i Hi.
  unfold swab64, wrap. rewrite Htop.
  destruct (Z.lt_ge_cases i 64) as [Hlt|Hge].
  - rewrite Z.mod_pow2_bits_low by done.
    replace i with (Z.of_nat (Z.to_nat i)) by lia.
    assert (Z.to_nat i < 64)%nat as Hn by lia. generalize dependent (Z.to_nat i).
    clear. intros n Hn.
    do 64 (destruct n as [|n]; [solve_bit x|]). lia.
  - rewrite Z.mod_pow2_bits_high by lia. rewrite <- be_val_le_bytes_8.
    pose proof (be_val_bound (le_bytes 8 x) (le_bytes_are_bytes _ _)) as Hb.
    rewrite <- (Z.mod_small _ (2 ^ 64)) by apply Hb.
    by rewrite Z.mod_pow2_bits_high by lia.
Qed.
