(* ===== verification/HeaderStat.v ===== *)
(** * The header parser of a lower file: [src/libecryptfs/ecryptfs-stat.c]
    and the tool [src/utils/ecryptfs-stat.c]

    The header of an encrypted file is 26 bytes of big-endian integers: the
    size of the decrypted file, the magic marker, the flags with the format
    version, and the header geometry.  The host is an argument of the model:
    [big_endian] is its byte order. *)

From S2P Require Import Prelude ByteSwap.

(** ** Constants of [ecryptfs.h] *)
Definition MAGIC_ECRYPTFS_MARKER : Z := 0x3c81b7f5.
Definition MAGIC_ECRYPTFS_MARKER_SIZE_BYTES : Z := 8.
Definition ECRYPTFS_FILE_SIZE_BYTES : Z := 8.
Definition ECRYPTFS_MINIMUM_HEADER_EXTENT_SIZE : Z := 8192.
Definition ECRYPTFS_ENCRYPTED : Z := 0x00000008.
Definition ECRYPTFS_ENABLE_HMAC : Z := 0x00000020.
Definition ECRYPTFS_METADATA_IN_XATTR : Z := 0x00000100.
Definition ECRYPTFS_DONT_VALIDATE_HEADER_SIZE : Z := 0.
Definition ECRYPTFS_VALIDATE_HEADER_SIZE : Z := 1.

(** [struct ecryptfs_crypt_stat_user], without the token list pointer, which
    the parser only clears. *)
Record crypt_stat_user := CryptStat {
  cs_flags : Z;
  cs_file_version : Z;
  cs_file_size : Z;
  cs_iv_bytes : Z;
  cs_num_header_bytes_at_front : Z;
  cs_extent_size : Z;
  cs_key_size : Z
}.

(** The flag bits of the file and their values in [crypt_stat->flags]. *)
Record flag_map_elem := FlagMapElem { file_flag : Z; local_flag : Z }.
Definition ecryptfs_flag_map : list flag_map_elem :=
  [ FlagMapElem 0x00000001 ECRYPTFS_ENABLE_HMAC;
    FlagMapElem 0x00000002 ECRYPTFS_ENCRYPTED;
    FlagMapElem 0x00000004 ECRYPTFS_METADATA_IN_XATTR ].

(** The loop over [ecryptfs_flag_map]: set or clear each local flag. *)
Fixpoint map_flags (fm : list flag_map_elem) (flags acc : Z) : Z :=
  match fm with
  | [] => acc
  | e :: fm' =>
      map_flags fm' flags
        (if Z.land flags (file_flag e) =? 0
         then Z.land acc (Z.lxor (local_flag e) 0xffffffff)
         else Z.lor acc (local_flag e))
  end.

Section Parser.
Context (big_endian : bool).

Definition host_is_big_endian : Z :=
  let tmp_str := host_bytes big_endian 4 0x00000001 in
  if bool_decide (tmp_str !! 0%nat = Some 1) then 0 else 1.

(** [memcpy] into an integer, then [ntohl]/[ntohs] on a little-endian host. *)
Definition load_be (buf : bytes) (off : Z) (n : nat) : outcome Z :=
  w ← rd buf off (Z.of_nat n);
  let v := host_val big_endian w in
  mret (if host_is_big_endian =? 0 then ntoh big_endian n v else v).

Definition ecryptfs_contains_ecryptfs_marker (data : bytes) (off : Z) : outcome Z :=
  m_1 ← load_be data off 4;
  m_2 ← load_be data (off + 4) 4;
  mret (if Z.lxor m_1 MAGIC_ECRYPTFS_MARKER =? m_2 then 1 else 0).

(** Returns the result code, the new [crypt_stat] and [bytes_read]. *)
Definition ecryptfs_process_flags (cs : crypt_stat_user) (buf : bytes) (off : Z)
    : outcome (Z * crypt_stat_user * Z) :=
  flags ← load_be buf off 4;
  let cs' := CryptStat (map_flags ecryptfs_flag_map flags (cs_flags cs))
               (Z.land (Z.shiftr flags 24) 0xFF)
               (cs_file_size cs) (cs_iv_bytes cs)
               (cs_num_header_bytes_at_front cs)
               (cs_extent_size cs) (cs_key_size cs) in
  mret (0, cs', 4).

Definition ecryptfs_parse_header_metadata (cs : crypt_stat_user) (buf : bytes)
    (off : Z) (validate_header_size : Z) : outcome (Z * crypt_stat_user * Z) :=
  header_extent_size ← load_be buf off 4;
  num_header_extents_at_front ← load_be buf (off + 4) 2;
  let n := u64 (num_header_extents_at_front * header_extent_size) in
  let cs' := CryptStat (cs_flags cs) (cs_file_version cs) (cs_file_size cs)
               (cs_iv_bytes cs) n (cs_extent_size cs) (cs_key_size cs) in
  let rc := if (validate_header_size =? ECRYPTFS_VALIDATE_HEADER_SIZE)
               && (n <? ECRYPTFS_MINIMUM_HEADER_EXTENT_SIZE)
            then - EINVAL else 0 in
  mret (rc, cs', 6).

Definition ecryptfs_parse_stat (crypt_stat : crypt_stat_user) (buf : bytes)
    (buf_size : Z) : outcome (Z * crypt_stat_user) :=
  if buf_size <? ECRYPTFS_FILE_SIZE_BYTES + MAGIC_ECRYPTFS_MARKER_SIZE_BYTES + 4
  then mret (- EINVAL, crypt_stat)
  else
    w ← rd buf 0 ECRYPTFS_FILE_SIZE_BYTES;
    let raw := host_val big_endian w in
    let file_size := if host_is_big_endian =? 0 then swab64 raw else raw in
    let cs := CryptStat 0 0 file_size 0 0 0 0 in
    let off := ECRYPTFS_FILE_SIZE_BYTES in
    marker ← ecryptfs_contains_ecryptfs_marker buf off;
    if negb (marker =? 1) then mret (- EINVAL, cs)
    else
      let off := off + MAGIC_ECRYPTFS_MARKER_SIZE_BYTES in
      '(rc, cs, bytes_read) ← ecryptfs_process_flags cs buf off;
      if negb (rc =? 0) then mret (rc, cs)
      else
        let off := off + bytes_read in
        '(rc, cs, bytes_read) ← ecryptfs_parse_header_metadata cs buf off
                                   ECRYPTFS_VALIDATE_HEADER_SIZE;
        mret (rc, cs).

(** ** The tool [ecryptfs-stat] *)
Inductive report :=
  | RUsage
  | ROpenError
  | RReadError
  | RNoMetadata
  | RStat (version size header : Z) (in_xattr encrypted hmac : bool).

(** [main]: [file] is what [open] and [read] give, [None] for a failure; the
    stack buffer has 4096 bytes, uninitialised before the [read]. *)
Definition stat_main (argc : Z) (file : option (option bytes)) (stack : nat -> byte)
    (cs0 : crypt_stat_user) : outcome (Z * report) :=
  if argc =? 1 then mret (0, RUsage)
  else match file with
  | None => mret (- EIO, ROpenError)
  | Some None => mret (- EIO, RReadError)
  | Some (Some content) =>
      let got := take 4096 content in
      let buf := got ++ drop (length got) (malloc_block stack 4096) in
      '(rc, cs) ← ecryptfs_parse_stat cs0 buf (zlen got);
      mret (if negb (rc =? 0) then (0, RNoMetadata)
            else (rc, RStat (cs_file_version cs) (cs_file_size cs)
                       (cs_num_header_bytes_at_front cs)
                       (negb (Z.land (cs_flags cs) ECRYPTFS_METADATA_IN_XATTR =? 0))
                       (negb (Z.land (cs_flags cs) ECRYPTFS_ENCRYPTED =? 0))
                       (negb (Z.land (cs_flags cs) ECRYPTFS_ENABLE_HMAC =? 0))))
  end.
End Parser.

(** ** The on-disk layout, as a specification *)
Record header := Header {
  h_file_size : Z; h_marker : Z; h_flags : Z; h_extent_size : Z; h_num_extents : Z
}.

Definition header_wf (h : header) : Prop :=
  0 <= h_file_size h < 2 ^ 64 /\ 0 <= h_marker h < 2 ^ 32 /\ 0 <= h_flags h < 2 ^ 32 /\
  0 <= h_extent_size h < 2 ^ 32 /\ 0 <= h_num_extents h < 2 ^ 16.

Definition header_bytes (h : header) : bytes :=
  be_bytes 8 (h_file_size h) ++ be_bytes 4 (h_marker h) ++
  be_bytes 4 (Z.lxor (h_marker h) MAGIC_ECRYPTFS_MARKER) ++
  be_bytes 4 (h_flags h) ++ be_bytes 4 (h_extent_size h) ++ be_bytes 2 (h_num_extents h).

Definition header_stat (h : header) : crypt_stat_user :=
  CryptStat (map_flags ecryptfs_flag_map (h_flags h) 0) (h_flags h / 2 ^ 24)
    (h_file_size h) 0 (h_num_extents h * h_extent_size h) 0 0.

(** ** Lemmas *)
Lemma host_is_big_endian_spec be : host_is_big_endian be = cbool be.
Proof. by destruct be. Qed.

Lemma load_be_spec be buf off n w :
  rd buf off (Z.of_nat n) = Ok w -> Forall is_byte w -> load_be be buf off n = Ok (be_val w).
Proof.
  intros Hrd Hw. unfold load_be. rewrite Hrd, bind_Ok, host_is_big_endian_spec.
  assert (length w = n) as <-.
  { apply rd_ok_inv in Hrd as (? & ? & ? & ->).
    rewrite length_take, length_drop. unfold zlen in *; lia. }
  rewrite <- (ntoh_host_val be w) by done. by destruct be.
Qed.

Lemma rd_bytes buf off n w : Forall is_byte buf -> rd buf off n = Ok w -> Forall is_byte w.
Proof. intros H (_ & _ & _ & ->)%rd_ok_inv. by apply Forall_take, Forall_drop. Qed.

(** On a buffer of bytes, a load either misses the block or is the big-endian
    value there, whatever the host. *)
Lemma load_be_in be buf off n :
  Forall is_byte buf -> 0 <= off -> off + Z.of_nat n <= zlen buf ->
  load_be be buf off n = Ok (be_val (take n (drop (Z.to_nat off) buf))).
Proof.
  intros Hb Hoff Hlen.
  assert (rd buf off (Z.of_nat n) = Ok (take n (drop (Z.to_nat off) buf))) as Hrd.
  { rewrite rd_ok, Nat2Z.id by lia. done. }
  apply load_be_spec; eauto using rd_bytes.
Qed.

Lemma load_be_oob be buf off n :
  0 <= off -> zlen buf < off + Z.of_nat n -> load_be be buf off n = UB OutOfBoundsRead.
Proof. intros. unfold load_be. by rewrite rd_oob by lia. Qed.

Lemma load_be_app be a c n x off :
  0 <= x < 256 ^ Z.of_nat n -> off = zlen a ->
  load_be be (a ++ be_bytes n x ++ c) off n = Ok x.
Proof.
  intros Hx ->. erewrite load_be_spec.
  - by rewrite be_val_be_bytes, Z.mod_small.
  - apply rd_app3; [done | solve_len].
  - apply be_bytes_are_bytes.
Qed.

Lemma swab64_host be w :
  Forall is_byte w -> length w = 8%nat ->
  (if host_is_big_endian be =? 0 then swab64 (host_val be w) else host_val be w) = be_val w.
Proof.
  intros Hw Hl. rewrite host_is_big_endian_spec. destruct be; [done|].
  cbn [cbool Z.eqb host_val]. pose proof (le_val_bound w Hw) as Hb. unfold zlen in Hb.
  rewrite Hl in Hb. rewrite swab64_reverses by (apply Hb).
  rewrite <- (ntoh_host_val false w Hw). by rewrite Hl.
Qed.

(** The parse of a buffer of bytes in terms of the big-endian fields it
    holds: the reference definition, without byte order. *)
Definition field (buf : bytes) (off n : nat) : Z := be_val (take n (drop off buf)).

Definition parse_stat_ref (cs : crypt_stat_user) (buf : bytes) (buf_size : Z)
    : outcome (Z * crypt_stat_user) :=
  if buf_size <? 20 then Ok (- EINVAL, cs)
  else if zlen buf <? 16 then UB OutOfBoundsRead
  else if negb (Z.lxor (field buf 8 4) MAGIC_ECRYPTFS_MARKER =? field buf 12 4)
  then Ok (- EINVAL, CryptStat 0 0 (field buf 0 8) 0 0 0 0)
  else if zlen buf <? 26 then UB OutOfBoundsRead
  else
    let n := u64 (field buf 24 2 * field buf 20 4) in
    Ok (if n <? 8192 then - EINVAL else 0,
        CryptStat (map_flags ecryptfs_flag_map (field buf 16 4) 0)
          (Z.land (Z.shiftr (field buf 16 4) 24) 0xFF) (field buf 0 8) 0 n 0 0).

Lemma parse_stat_is_ref be cs buf buf_size :
  Forall is_byte buf ->
  ecryptfs_parse_stat be cs buf buf_size = parse_stat_ref cs buf buf_size.
Proof.
  intros Hb. unfold ecryptfs_parse_stat, parse_stat_ref, ecryptfs_contains_ecryptfs_marker,
    ecryptfs_process_flags, ecryptfs_parse_header_metadata.
  change (ECRYPTFS_FILE_SIZE_BYTES + MAGIC_ECRYPTFS_MARKER_SIZE_BYTES + 4) with 20.
  change ECRYPTFS_FILE_SIZE_BYTES with 8. change MAGIC_ECRYPTFS_MARKER_SIZE_BYTES with 8.
  destruct (Z.ltb_spec buf_size 20); [done|].
  destruct (Z.ltb_spec (zlen buf) 16).
  { destruct (Z.lt_ge_cases (zlen buf) 8); [by rewrite rd_oob by lia|].
    rewrite (rd_ok buf 0 8), bind_Ok by lia.
    destruct (Z.lt_ge_cases (zlen buf) 12); [by rewrite (load_be_oob be buf 8 4) by lia|].
    rewrite (load_be_in be buf 8 4), bind_Ok by (done || lia).
    by rewrite (load_be_oob be buf (8 + 4) 4) by lia. }
  assert (rd buf 0 8 = Ok (take 8 (drop 0 buf))) as Hrd by (by rewrite rd_ok by lia).
  rewrite Hrd, bind_Ok. rewrite swab64_host; [|by eapply rd_bytes|].
  2:{ rewrite length_take, length_drop. unfold zlen in *; lia. }
  rewrite (load_be_in be buf 8 4), bind_Ok by (done || lia).
  rewrite (load_be_in be buf (8 + 4) 4), bind_Ok by (done || lia).
  fold (field buf 0 8). change (Z.to_nat 8) with 8%nat. change (Z.to_nat (8 + 4)) with 12%nat.
  fold (field buf 8 4) (field buf 12 4).
  destruct (Z.lxor (field buf 8 4) MAGIC_ECRYPTFS_MARKER =? field buf 12 4); [|done].
  cbn [negb Z.eqb Pos.eqb mret outcome_ret obind].
  destruct (Z.ltb_spec (zlen buf) 26).
  { destruct (Z.lt_ge_cases (zlen buf) 20); [by rewrite (load_be_oob be buf (8 + 8) 4) by lia|].
    rewrite (load_be_in be buf (8 + 8) 4) by (done || lia). cbn -[load_be Z.add].
    destruct (Z.lt_ge_cases (zlen buf) 24); [by rewrite (load_be_oob be buf (8 + 8 + 4) 4) by lia|].
    rewrite (load_be_in be buf (8 + 8 + 4) 4) by (done || lia). cbn -[load_be Z.add].
    by rewrite (load_be_oob be buf (8 + 8 + 4 + 4) 2) by lia. }
  rewrite (load_be_in be buf (8 + 8) 4) by (done || lia). cbn -[load_be Z.add].
  rewrite (load_be_in be buf (8 + 8 + 4) 4) by (done || lia). cbn -[load_be Z.add].
  rewrite (load_be_in be buf (8 + 8 + 4 + 4) 2) by (done || lia). cbn -[load_be Z.add].
  done.
Qed.

Lemma field_app a n x c off :
  0 <= x < 256 ^ Z.of_nat n -> off = length a -> field (a ++ be_bytes n x ++ c) off n = x.
Proof.
  intros Hx ->. unfold field. rewrite drop_app_length, take_app_length' by (by rewrite length_be_bytes).
  by rewrite be_val_be_bytes, Z.mod_small.
Qed.

Lemma length_header_bytes h : length (header_bytes h) = 26%nat.
Proof. unfold header_bytes. by rewrite !length_app, !length_be_bytes. Qed.

Lemma header_bytes_are_bytes h : Forall is_byte (header_bytes h).
Proof. unfold header_bytes. repeat apply Forall_app_2; apply be_bytes_are_bytes. Qed.

Lemma lxor_u32 a b : 0 <= a < 2 ^ 32 -> 0 <= b < 2 ^ 32 -> 0 <= Z.lxor a b < 2 ^ 32.
Proof.
  intros Ha Hb. assert (Z.lxor a b = Z.lxor a b mod 2 ^ 32) as ->; [|apply Z.mod_pos_bound; lia].
  rewrite <- (Z.mod_small a (2 ^ 32)), <- (Z.mod_small b (2 ^ 32)) by lia.
  apply Z.bits_inj'; intros i Hi. destruct (Z.lt_ge_cases i 32).
  - by rewrite Z.mod_pow2_bits_low by lia.
  - rewrite (Z.mod_pow2_bits_high (Z.lxor _ _)), Z.lxor_spec, !Z.mod_pow2_bits_high by lia. done.
Qed.

(** The six fields of a header followed by anything. *)
Lemma header_fields h rest :
  header_wf h ->
  let buf := header_bytes h ++ rest in
  field buf 0 8 = h_file_size h /\ field buf 8 4 = h_marker h /\
  field buf 12 4 = Z.lxor (h_marker h) MAGIC_ECRYPTFS_MARKER /\
  field buf 16 4 = h_flags h /\ field buf 20 4 = h_extent_size h /\
  field buf 24 2 = h_num_extents h.
Proof.
  intros (H1 & H2 & H3 & H4 & H5) buf. subst buf. unfold header_bytes.
  pose proof (lxor_u32 (h_marker h) MAGIC_ECRYPTFS_MARKER H2 ltac:(vm_compute; split; congruence)) as Hx.
  rewrite <- !app_assoc. repeat split.
  - apply (field_app []); [exact H1 | done].
  - apply field_app; [exact H2 | by rewrite length_be_bytes].
  - rewrite (app_assoc (be_bytes 8 _)). apply field_app; [exact Hx|].
    by rewrite !length_app, !length_be_bytes.
  - rewrite 2!app_assoc. apply field_app; [exact H3|].
    by rewrite !length_app, !length_be_bytes.
  - rewrite 3!app_assoc. apply field_app; [exact H4|].
    by rewrite !length_app, !length_be_bytes.
  - rewrite 4!app_assoc. apply field_app; [exact H5|].
    by rewrite !length_app, !length_be_bytes.
Qed.

Lemma flags_version h : 0 <= h < 2 ^ 32 -> Z.land (Z.shiftr h 24) 0xFF = h / 2 ^ 24.
Proof.
  intros Hh. change 0xFF with (Z.ones 8).
  rewrite Z.land_ones, Z.shiftr_div_pow2 by lia. apply Z.mod_small.
  split; [apply Z.div_pos | apply Z.div_lt_upper_bound]; lia.
Qed.

Lemma geometry_fits n e : 0 <= n < 2 ^ 16 -> 0 <= e < 2 ^ 32 -> u64 (n * e) = n * e.
Proof. intros. apply wrap_small. split; [nia|]. change (2 ^ 64) with (2 ^ 16 * 2 ^ 48). nia. Qed.

(** Splitting a buffer of at least 26 bytes into a header and the rest. *)
Lemma take_field buf off n :
  Forall is_byte buf -> (off + n <= length buf)%nat ->
  be_bytes n (field buf off n) = take n (drop off buf).
Proof.
  intros Hb Hl. unfold field, be_bytes, be_val.
  assert (length (reverse (take n (drop off buf))) = n) as Hn.
  { rewrite length_reverse, length_take, length_drop. lia. }
  rewrite <- Hn at 1. rewrite le_bytes_le_val; [by rewrite reverse_involutive|].
  by apply Forall_reverse, Forall_take, Forall_drop.
Qed.

Lemma field_bound buf off n :
  Forall is_byte buf -> (off + n <= length buf)%nat -> 0 <= field buf off n < 256 ^ Z.of_nat n.
Proof.
  intros Hb Hl. unfold field.
  pose proof (be_val_bound (take n (drop off buf))
    ltac:(by apply Forall_take, Forall_drop)) as H.
  rewrite zlen_take in H. rewrite Z.min_l in H; [done|]. rewrite zlen_drop. unfold zlen; lia.
Qed.

Lemma header_split buf :
  Forall is_byte buf -> 26 <= zlen buf ->
  Z.lxor (field buf 8 4) MAGIC_ECRYPTFS_MARKER = field buf 12 4 ->
  let h := Header (field buf 0 8) (field buf 8 4) (field buf 16 4) (field buf 20 4)
             (field buf 24 2) in
  header_wf h /\ buf = header_bytes h ++ drop 26 buf.
Proof.
  intros Hb Hl Hm h. unfold zlen in Hl. split.
  { subst h. repeat split; apply field_bound; (done || lia). }
  subst h. unfold header_bytes. cbn [h_file_size h_marker h_flags h_extent_size h_num_extents].
  rewrite Hm, !take_field by (done || lia).
  rewrite <- !app_assoc.
  change (drop 26 buf) with (drop (24 + 2) buf). rewrite <- (drop_drop _ _ 24), take_drop.
  change 24%nat with (20 + 4)%nat at 1. rewrite <- (drop_drop _ _ 20), take_drop.
  change 20%nat with (16 + 4)%nat at 1. rewrite <- (drop_drop _ _ 16), take_drop.
  change 16%nat with (12 + 4)%nat at 1. rewrite <- (drop_drop _ _ 12), take_drop.
  change 12%nat with (8 + 4)%nat at 1. rewrite <- (drop_drop _ _ 8), take_drop.
  change (drop 8 buf) with (drop (0 + 8) buf). rewrite <- (drop_drop _ _ 0), take_drop.
  done.
Qed.

Lemma parse_stat_header be cs h rest buf_size :
  header_wf h -> Forall is_byte rest -> 20 <= buf_size ->
  ecryptfs_parse_stat be cs (header_bytes h ++ rest) buf_size =
  Ok (if h_num_extents h * h_extent_size h <? 8192 then - EINVAL else 0, header_stat h).
Proof.
  intros Hwf Hrest Hsize. pose proof Hwf as (_ & _ & Hfl & Hex & Hnum).
  rewrite parse_stat_is_ref by (apply Forall_app_2; [apply header_bytes_are_bytes | done]).
  destruct (header_fields h rest Hwf) as (E1 & E2 & E3 & E4 & E5 & E6).
  unfold parse_stat_ref. rewrite E1, E2, E3, E4, E5, E6, Z.eqb_refl.
  assert (26 <= zlen (header_bytes h ++ rest)) as Hl.
  { unfold zlen. rewrite length_app, length_header_bytes. lia. }
  decide_test (buf_size <? 20). decide_test (zlen (header_bytes h ++ rest) <? 16).
  decide_test (zlen (header_bytes h ++ rest) <? 26). cbn [negb].
  by rewrite geometry_fits, flags_version by done.
Qed.

(** ** Properties *)


Definition sample_header : header := Header 12345 0xdeadbeef 0x03000002 4096 2.


(** Only well-formed headers are accepted: when the parser returns 0 for
    a buffer of at least [buf_size] bytes, the buffer starts with the encoding
    of a well-formed header whose marker words match and whose header area is
    at least 8192 bytes, and the result is that header's. *)
Theorem parse_stat_accepts_only_headers be cs buf buf_size cs' :
  Forall is_byte buf -> ecryptfs_parse_stat be cs buf buf_size = Ok (0, cs') ->
  exists h rest, header_wf h /\ buf = header_bytes h ++ rest /\ cs' = header_stat h /\
    8192 <= h_num_extents h * h_extent_size h.
Proof.
  intros Hb H. pose proof H as H'. rewrite parse_stat_is_ref in H by done.
  unfold parse_stat_ref in H.
  destruct (buf_size <? 20) eqn:?; [done|].
  destruct (zlen buf <? 16); [done|].
  destruct (Z.lxor _ _ =? _) eqn:Hm; [|done]. cbn [negb] in H.
  destruct (zlen buf <? 26) eqn:?; [done|]. to_prop.
  destruct (header_split buf Hb ltac:(lia) Hm) as [Hwf Hsplit].
  eexists _, _. split; [exact Hwf|]. split; [exact Hsplit|].
  rewrite Hsplit in H'. rewrite parse_stat_header in H' by (auto using Forall_drop || lia).
  clear H. injection H' as Hrc <-. split; [done|].
  destruct (Z.ltb_spec (field buf 24 2 * field buf 20 4) 8192); done.
Qed.

Lemma parse_stat_accepts_only_headers_witness :
  exists h rest, header_wf h /\ header_bytes sample_header = header_bytes h ++ rest /\
    header_stat sample_header = header_stat h /\ 8192 <= h_num_extents h * h_extent_size h.
Proof.
  apply (parse_stat_accepts_only_headers true (header_stat sample_header) _ 26).
  - apply header_bytes_are_bytes.
  - vm_compute. reflexivity.
Defined.

(** The size check of the parser is six bytes short of what it reads: a
    buffer of 20 to 25 bytes that carries the marker passes the check, and the
    parser then reads past its end. *)
Theorem parse_stat_overreads be cs buf :
  Forall is_byte buf -> 20 <= zlen buf < 26 ->
  Z.lxor (field buf 8 4) MAGIC_ECRYPTFS_MARKER = field buf 12 4 ->
  ecryptfs_parse_stat be cs buf (zlen buf) = UB OutOfBoundsRead.
Proof.
  intros Hb Hl Hm. rewrite parse_stat_is_ref by done. unfold parse_stat_ref.
  decide_test (zlen buf <? 20). decide_test (zlen buf <? 16). decide_test (zlen buf <? 26).
  by rewrite Hm, Z.eqb_refl.
Qed.

Lemma parse_stat_overreads_witness :
  ecryptfs_parse_stat false (header_stat sample_header) (take 22 (header_bytes sample_header)) 22
  = UB OutOfBoundsRead.
Proof.
  apply (parse_stat_overreads false (header_stat sample_header)
           (take 22 (header_bytes sample_header))).
  - apply Forall_take, header_bytes_are_bytes.
  - vm_compute; split; congruence.
  - vm_compute. reflexivity.
Defined.

(** The report of the tool is a function of the file alone once the file has
    26 bytes. *)
Lemma stat_main_deterministic be content stack1 stack2 cs1 cs2 :
  Forall is_byte content -> 26 <= zlen content ->
  (forall n, is_byte (stack1 n)) -> (forall n, is_byte (stack2 n)) ->
  (r ← stat_main be 2 (Some (Some content)) stack1 cs1; mret (snd r)) =
  (r ← stat_main be 2 (Some (Some content)) stack2 cs2; mret (snd r)).
Proof.
  intros Hb Hl Hs1 Hs2. unfold stat_main. cbn [Z.eqb Pos.eqb].
  set (got := take 4096 content).
  assert (26 <= zlen got) as Hgot by (unfold got; rewrite zlen_take; lia).
  assert (Forall is_byte got) as Hbg by (by apply Forall_take).
  assert (forall st, (forall n, is_byte (st n)) ->
    Forall is_byte (got ++ drop (length got) (malloc_block st 4096))) as Hall.
  { intros st Hst. apply Forall_app_2; [done|]. apply Forall_drop, Forall_fmap, Forall_true.
    intros; apply Hst. }
  rewrite !parse_stat_is_ref by auto. unfold parse_stat_ref, field.
  decide_test (zlen got <? 20). rewrite !zlen_app.
  pose proof (zlen_nonneg (drop (length got) (malloc_block stack1 4096))).
  pose proof (zlen_nonneg (drop (length got) (malloc_block stack2 4096))).
  unfold zlen in *.
  repeat (rewrite drop_app_le by lia).
  repeat (rewrite take_app_le by (rewrite length_drop; lia)).
  repeat match goal with |- context [?a <? ?b] => decide_test (a <? b) end.
  by destruct (Z.lxor _ _ =? _).
Qed.
