(* ===== verification/CLib.v ===== *)
(** * The C library functions on strings that the sources call

    Strings are lists of non-zero characters; a buffer that holds a string is
    turned into one with [cstr_of], which faults when the terminator is
    missing.  Only the behaviour the sources use is modelled. *)

From S2P Require Import Prelude.

Definition is_char (c : Z) : Prop := 0 < c < 256.
#[export] Instance is_char_dec c : Decision (is_char c).
Proof. unfold is_char. apply _. Defined.
Definition is_cstring (s : cstring) : Prop := Forall is_char s.
#[export] Instance is_cstring_dec s : Decision (is_cstring s).
Proof. unfold is_cstring. apply _. Defined.

(** The string that starts a buffer. *)
Fixpoint cstr_of (b : bytes) : outcome cstring :=
  match b with
  | [] => UB OutOfBoundsRead
  | c :: b' => if c =? 0 then Ok [] else s ← cstr_of b'; Ok (c :: s)
  end.

(** [strcmp(a, b) == 0], [strncmp(s, p, strlen(p)) == 0]. *)
Definition streq (a b : cstring) : bool := bool_decide (a = b).
Definition prefixb (p s : cstring) : bool := bool_decide (take (length p) s = p).

(** [strstr] and [strchr], as offsets. *)
Fixpoint strstr (s p : cstring) : option nat :=
  if prefixb p s then Some O
  else match s with [] => None | _ :: s' => S <$> strstr s' p end.

Fixpoint strchr (s : cstring) (c : Z) : option nat :=
  match s with
  | [] => None
  | x :: s' => if x =? c then Some O else S <$> strchr s' c
  end.

(** [*strrchr(s, c) = 0] when [c] occurs: cut at its last occurrence. *)
Definition cut_last (s : cstring) (c : Z) : cstring :=
  match strchr (reverse s) c with
  | Some k => take (length s - S k) s
  | None => s
  end.

(** Character classes of the C locale. *)
Definition isspace (c : Z) : bool := ((9 <=? c) && (c <=? 13)) || (c =? 32).
Definition isdigit (c : Z) : bool := (48 <=? c) && (c <=? 57).
Definition isxdigit (c : Z) : bool :=
  isdigit c || ((97 <=? c) && (c <=? 102)) || ((65 <=? c) && (c <=? 70)).

(** [strtol]: white space, sign, the optional [0x] of base 16, digits; the
    result saturates at the bounds of [long]. *)
Definition digit_of (c : Z) : Z :=
  if isdigit c then c - 48
  else if (97 <=? c) && (c <=? 122) then c - 87
  else if (65 <=? c) && (c <=? 90) then c - 55
  else 36.

Fixpoint skip_spaces (s : cstring) : cstring :=
  match s with
  | c :: s' => if isspace c then skip_spaces s' else s
  | [] => []
  end.

Definition split_sign (s : cstring) : bool * cstring :=
  match s with
  | c :: s' => if c =? 45 then (true, s') else if c =? 43 then (false, s') else (false, s)
  | [] => (false, [])
  end.

Definition skip_0x (base : Z) (s : cstring) : cstring :=
  match s with
  | z :: x :: d :: s' =>
      if (base =? 16) && (z =? 48) && ((x =? 120) || (x =? 88)) && (digit_of d <? 16)
      then d :: s' else s
  | _ => s
  end.

Fixpoint strtol_digits (base acc : Z) (s : cstring) : Z :=
  match s with
  | c :: s' =>
      if digit_of c <? base then strtol_digits base (acc * base + digit_of c) s' else acc
  | [] => acc
  end.

Definition LONG_MAX : Z := 2 ^ 63 - 1.
Definition strtol (base : Z) (s : cstring) : Z :=
  let '(neg, s') := split_sign (skip_spaces s) in
  let n := strtol_digits base 0 (skip_0x base s') in
  if neg then Z.max (- LONG_MAX - 1) (- n) else Z.min LONG_MAX n.

(** [strtoul] of the C library: a minus sign negates the number modulo [2^64]. *)
Definition ULONG_MAX : Z := 2 ^ 64 - 1.
Definition strtoul (base : Z) (s : cstring) : Z :=
  let '(neg, s') := split_sign (skip_spaces s) in
  let n := Z.min ULONG_MAX (strtol_digits base 0 (skip_0x base s')) in
  if neg then wrap 64 (- n) else n.

(** Base 0: the prefix of the number chooses the base. *)
Definition base_of (s : cstring) : Z :=
  match s with
  | z :: x :: d :: _ =>
      if (z =? 48) && ((x =? 120) || (x =? 88)) && (digit_of d <? 16) then 16
      else if z =? 48 then 8 else 10
  | z :: _ => if z =? 48 then 8 else 10
  | [] => 10
  end.
Definition strtol0 (s : cstring) : Z := strtol (base_of (split_sign (skip_spaces s)).2) s.

Definition atoi (s : cstring) : Z := i32 (strtol 10 s).

(** Does [strtol] convert anything ([endptr != nptr])? *)
Definition strtol_converts (base : Z) (s : cstring) : bool :=
  match skip_0x base (split_sign (skip_spaces s)).2 with
  | c :: _ => digit_of c <? base
  | [] => false
  end.

(** [printf("%d")] and [printf("%.2x")] of a byte. *)
Fixpoint show_digits (fuel : nat) (n : Z) (acc : cstring) : cstring :=
  match fuel with
  | O => acc
  | S fuel' =>
      let acc' := (48 + n mod 10) :: acc in
      if n <? 10 then acc' else show_digits fuel' (n / 10) acc'
  end.

Definition show_nat (n : Z) : cstring := show_digits (S (Z.to_nat (Z.log2 n))) n [].
Definition show_int (z : Z) : cstring := if z <? 0 then 45 :: show_nat (- z) else show_nat z.

Definition hex_digit (n : Z) : Z := if n <? 10 then 48 + n else 87 + n.
Definition show_hex2 (b : byte) : cstring := [hex_digit (b / 16); hex_digit (b mod 16)].

(** [asprintf(&p, "%s", v)] of glibc: a null argument prints as [(null)]. *)
Definition show_str (v : option cstring) : cstring := default (lit "(null)") v.

(** [fgets(buf, size, fh)]: at most [size - 1] characters, up to and including
    a newline; [None] at the end of the file. *)
Fixpoint get_line (n : nat) (s : cstring) : cstring * cstring :=
  match n, s with
  | S n', c :: s' =>
      if c =? 10 then ([c], s') else let '(l, r) := get_line n' s' in (c :: l, r)
  | _, _ => ([], s)
  end.

Definition fgets (size : nat) (s : cstring) : option (cstring * cstring) :=
  match s with [] => None | _ => Some (get_line (size - 1) s) end.

(** ** Lemmas *)
Lemma streq_spec a b : streq a b = true <-> a = b.
Proof. unfold streq. apply bool_decide_eq_true. Qed.

Lemma streq_refl a : streq a a = true.
Proof. by apply streq_spec. Qed.

Lemma streq_ne a b : a <> b -> streq a b = false.
Proof. intros. by apply bool_decide_eq_false. Qed.

Lemma prefixb_spec p s : prefixb p s = true <-> exists r, s = p ++ r.
Proof.
  unfold prefixb. rewrite bool_decide_eq_true. split.
  - intros H. exists (drop (length p) s). by rewrite <- H at 1; rewrite take_drop.
  - intros [r ->]. apply take_app_length.
Qed.

Lemma prefixb_app p r : prefixb p (p ++ r) = true.
Proof. apply prefixb_spec. by exists r. Qed.

(** A string that is found occurs with all its characters. *)
Lemma strstr_chars s p i c : strstr s p = Some i -> c ∈ p -> c ∈ s.
Proof.
  revert i. induction s as [|x s IH]; intros i; cbn [strstr]; destruct (prefixb p _) eqn:Hp.
  - apply prefixb_spec in Hp as [r Hr]. intros _ Hc. rewrite Hr. apply elem_of_app. by left.
  - done.
  - apply prefixb_spec in Hp as [r Hr]. intros _ Hc. rewrite Hr. apply elem_of_app. by left.
  - destruct (strstr s p) as [j|]; [|done]. intros _ Hc. right. by apply (IH j).
Qed.

(** [p] occurs in [s]; [strstr] finds it. *)
Definition occurs (p s : cstring) : Prop := exists a b, s = a ++ p ++ b.

Lemma strstr_Some s p i : strstr s p = Some i -> occurs p s.
Proof.
  revert i. induction s as [|x s IH]; intros i; cbn [strstr]; destruct (prefixb p _) eqn:Hp; try done.
  - apply prefixb_spec in Hp as [r Hr]. by exists [], r.
  - apply prefixb_spec in Hp as [r Hr]. by exists [], r.
  - destruct (strstr s p) as [j|]; [|done]. intros _. destruct (IH j eq_refl) as (a & b & ->). by exists (x :: a), b.
Qed.

Lemma strstr_None s p : strstr s p = None -> ~ occurs p s.
Proof.
  induction s as [|x s IH]; cbn [strstr]; destruct (prefixb p _) eqn:Hp; try done; intros Hn (a & b & Hs).
  - symmetry in Hs. apply app_eq_nil in Hs as [_ [-> _]%app_eq_nil]. done.
  - destruct (strstr s p); [done|]. destruct a as [|y a].
    + assert (prefixb p (x :: s) = true); [|congruence].
      cbn [app] in Hs. rewrite Hs. apply prefixb_app.
    + apply IH; [done|]. exists a, b. by injection Hs.
Qed.

Lemma get_line_app n s : let '(l, r) := get_line n s in s = l ++ r.
Proof.
  revert s. induction n as [|n IH]; intros [|c s]; cbn; try done.
  destruct (c =? 10); [done|]. specialize (IH s). destruct (get_line n s). by rewrite IH.
Qed.

Lemma fgets_app n s l r : fgets n s = Some (l, r) -> s = l ++ r.
Proof. destruct s as [|c s]; [done|]. cbn [fgets]. intros [= Hg].
  pose proof (get_line_app (n - 1) (c :: s)) as Hl. by rewrite Hg in Hl. Qed.

(** The string in a block that ends with its only terminator, or before. *)
Lemma cstr_of_prefix b s : cstr_of (b ++ [0]) = Ok s -> exists r, b = s ++ r.
Proof.
  revert s. induction b as [|c b IH]; intros s; cbn; [by intros [= <-]; exists []|].
  destruct (c =? 0); [by intros [= <-]; exists (c :: b)|].
  intros (s' & Hs & [= <-])%bind_ok_inv. destruct (IH _ Hs) as [r ->]. by exists r.
Qed.

Lemma cstr_of_app s r : Forall (fun c => c <> 0) s -> cstr_of (s ++ 0 :: r) = Ok s.
Proof.
  induction 1 as [|c s Hc _ IH]; [done|]. cbn.
  by destruct (Z.eqb_spec c 0); [|rewrite IH].
Qed.

Lemma cstr_of_inv b s : cstr_of b = Ok s -> exists r, b = s ++ 0 :: r.
Proof.
  revert s. induction b as [|c b IH]; intros s; cbn; [done|].
  destruct (Z.eqb_spec c 0) as [->|]; intros H; [injection H as <-; by exists b|].
  apply bind_ok_inv in H as (s' & H & E). injection E as <-.
  destruct (IH _ H) as [r ->]. by exists r.
Qed.

Lemma cstr_of_nonzero b s : cstr_of b = Ok s -> Forall (fun c => c <> 0) s.
Proof.
  revert s. induction b as [|c b IH]; intros s; cbn; [done|].
  destruct (Z.eqb_spec c 0); [by intros [= <-]|]. intros (s' & Hs & [= <-])%bind_ok_inv. constructor; auto.
Qed.

Lemma cstr_of_unterminated s : Forall (fun c => c <> 0) s -> cstr_of s = UB OutOfBoundsRead.
Proof.
  induction 1 as [|c s Hc _ IH]; [done|]. cbn.
  by destruct (Z.eqb_spec c 0); [|rewrite IH].
Qed.

Lemma is_char_nonzero s : is_cstring s -> Forall (fun c => c <> 0) s.
Proof. intros H. eapply Forall_impl; [exact H|]. unfold is_char. lia. Qed.

Lemma lit_is_bytes s : Forall is_byte (lit s).
Proof.
  induction s as [|c s IH]; cbn; constructor; [|done].
  unfold is_byte. pose proof (Ascii.N_ascii_bounded c). lia.
Qed.

Lemma digit_of_hex n : 0 <= n < 16 -> digit_of (hex_digit n) = n.
Proof.
  intros Hn. unfold digit_of, hex_digit, isdigit. destruct (Z.ltb_spec n 10).
  - decide_test ((48 <=? 48 + n) && (48 + n <=? 57)). lia.
  - decide_test ((48 <=? 87 + n) && (87 + n <=? 57)).
    decide_test ((97 <=? 87 + n) && (87 + n <=? 122)). lia.
Qed.

Lemma hex_digit_range n : 0 <= n < 16 ->
  48 <= hex_digit n <= 57 \/ 97 <= hex_digit n <= 102.
Proof. intros. unfold hex_digit. destruct (Z.ltb_spec n 10); lia. Qed.

Lemma isxdigit_hex n : 0 <= n < 16 -> isxdigit (hex_digit n) = true.
Proof. intros H. apply hex_digit_range in H. unfold isxdigit, isdigit. lia. Qed.

(** [strtol(.., 16)] reads back the two digits [%.2x] prints. *)
Lemma strtol_show_hex2 b : is_byte b -> strtol 16 (show_hex2 b) = b.
Proof.
  intros Hb. unfold is_byte in Hb.
  assert (0 <= b / 16 < 16) as H1 by lia. assert (0 <= b mod 16 < 16) as H2 by lia.
  pose proof (hex_digit_range _ H1). pose proof (hex_digit_range _ H2).
  unfold strtol, show_hex2. cbn [skip_spaces].
  unfold isspace at 1.
  decide_test (((9 <=? hex_digit (b / 16)) && (hex_digit (b / 16) <=? 13))
               || (hex_digit (b / 16) =? 32)).
  cbn [split_sign]. decide_test (hex_digit (b / 16) =? 45). decide_test (hex_digit (b / 16) =? 43).
  cbn [skip_0x strtol_digits]. rewrite !digit_of_hex by done.
  decide_test (b / 16 <? 16). decide_test (b mod 16 <? 16). unfold LONG_MAX. lia.
Qed.

Lemma length_show_hex2 b : length (show_hex2 b) = 2%nat.
Proof. done. Qed.

(** Decimal output reads back, whatever follows the number. *)
Lemma strtol_show_digits fuel n tail :
  0 <= n < 2 ^ Z.of_nat fuel ->
  strtol_digits 10 0 (show_digits fuel n tail) = strtol_digits 10 n tail.
Proof.
  revert n tail. induction fuel as [|fuel IH]; intros n tail Hn.
  { cbn in Hn. replace n with 0 by lia. done. }
  rewrite Nat2Z.inj_succ, Z.pow_succ_r in Hn by lia. cbn [show_digits].
  assert (Hd : forall k, 0 <= k < 10 -> digit_of (48 + k) = k).
  { intros k Hk. unfold digit_of, isdigit.
    decide_test ((48 <=? 48 + k) && (48 + k <=? 57)). lia. }
  destruct (Z.ltb_spec n 10).
  - cbn [strtol_digits]. rewrite Hd by lia. decide_test (n mod 10 <? 10). f_equal. lia.
  - rewrite IH by lia. cbn [strtol_digits]. rewrite Hd by lia.
    decide_test (n mod 10 <? 10). f_equal. lia.
Qed.

Lemma show_digits_head fuel n tail :
  (0 < fuel)%nat -> 0 <= n -> exists d r, show_digits fuel n tail = d :: r /\ 48 <= d <= 57.
Proof.
  revert n tail. induction fuel as [|[|fuel] IH]; intros n tail Hf Hn; [lia| |].
  - cbn. exists (48 + n mod 10), tail. split; [by destruct (n <? 10) | lia].
  - remember (S fuel) as f. cbn [show_digits]. destruct (n <? 10).
    + exists (48 + n mod 10), tail. split; [done | lia].
    + apply IH; lia.
Qed.

Lemma show_digits_app fuel n acc tail :
  show_digits fuel n acc ++ tail = show_digits fuel n (acc ++ tail).
Proof.
  revert n acc. induction fuel as [|fuel IH]; intros n acc; [done|]. cbn.
  destruct (n <? 10); [done|]. by rewrite IH.
Qed.

Lemma show_nat_fuel n : 0 <= n -> 0 <= n < 2 ^ Z.of_nat (S (Z.to_nat (Z.log2 n))).
Proof.
  intros Hn. split; [done|]. destruct (Z.eq_dec n 0) as [->|]; [done|].
  rewrite Nat2Z.inj_succ, Z2Nat.id by apply Z.log2_nonneg. apply Z.log2_spec. lia.
Qed.

Lemma strtol_show_int z tail :
  - LONG_MAX <= z <= LONG_MAX ->
  match tail with c :: _ => (digit_of c <? 10) = false | [] => True end ->
  strtol 10 (show_int z ++ tail) = z.
Proof.
  intros Hz Htail.
  assert (Hd : forall n, 0 <= n -> strtol_digits 10 0 (skip_0x 10 (show_nat n ++ tail)) = n).
  { intros n Hn. transitivity (strtol_digits 10 0 (show_nat n ++ tail)).
    { f_equal. unfold skip_0x. by repeat case_match. }
    unfold show_nat. rewrite show_digits_app, strtol_show_digits by (by apply show_nat_fuel).
    destruct tail as [|c tail]; [done|]. cbn [app strtol_digits]. by rewrite Htail. }
  unfold strtol, show_int. destruct (Z.ltb_spec z 0).
  - cbn -[show_nat LONG_MAX skip_0x strtol_digits]. rewrite Hd by lia. lia.
  - destruct (show_digits_head (S (Z.to_nat (Z.log2 z))) z [] ltac:(lia) ltac:(lia))
      as (d & r & E & Hdig).
    specialize (Hd z ltac:(lia)). unfold show_nat in *. rewrite E in *. cbn [app] in *.
    cbn [skip_spaces]. unfold isspace.
    decide_test (((9 <=? d) && (d <=? 13)) || (d =? 32)). cbn [split_sign].
    decide_test (d =? 45). decide_test (d =? 43). rewrite Hd. lia.
Qed.

Lemma length_get_line n s : (length (get_line n s).1 <= n)%nat.
Proof.
  revert s. induction n as [|n IH]; intros [|c s]; cbn; try lia.
  destruct (c =? 10); cbn; [lia|]. specialize (IH s). destruct (get_line n s); cbn in *. lia.
Qed.

#[export] Hint Resolve streq_refl prefixb_app lit_is_bytes : ecryptfs.

Lemma strstr_char s c : strstr s [c] = strchr s c.
Proof.
  induction s as [|x s IH]; [done|]. cbn [strstr strchr]. rewrite IH.
  unfold prefixb. cbn [length take].
  destruct (x =? c) eqn:Hx; [apply Z.eqb_eq in Hx as ->; by rewrite bool_decide_eq_true_2|].
  rewrite bool_decide_eq_false_2; [done|]. intros [= ->]. by rewrite Z.eqb_refl in Hx.
Qed.
