(* ===== verification/Ecryptfs.v ===== *)
(** * The data of [src/include/ecryptfs.h] shared by the components *)

From S2P Require Import Prelude CLib.

(** ** Sizes and identifiers *)
Definition ECRYPTFS_VERSION_MAJOR : Z := 0x00.
Definition ECRYPTFS_VERSION_MINOR : Z := 0x04.
Definition ECRYPTFS_SUPPORTED_FILE_VERSION : Z := 0x03.
Definition ECRYPTFS_MAX_PASSWORD_LENGTH : Z := 64.
Definition ECRYPTFS_MAX_PASSPHRASE_BYTES : Z := ECRYPTFS_MAX_PASSWORD_LENGTH.
Definition ECRYPTFS_SALT_SIZE : Z := 8.
Definition ECRYPTFS_SALT_SIZE_HEX : Z := 2 * ECRYPTFS_SALT_SIZE.
Definition ECRYPTFS_DEFAULT_SALT_HEX : cstring := lit "0011223344556677".
Definition ECRYPTFS_DEFAULT_SALT_FNEK_HEX : cstring := lit "9988776655443322".
Definition ECRYPTFS_SIG_SIZE : Z := 8.
Definition ECRYPTFS_SIG_SIZE_HEX : Z := 2 * ECRYPTFS_SIG_SIZE.
Definition ECRYPTFS_PASSWORD_SIG_SIZE : Z := ECRYPTFS_SIG_SIZE_HEX.
Definition ECRYPTFS_MAX_KEY_BYTES : Z := 64.
Definition ECRYPTFS_MAX_ENCRYPTED_KEY_BYTES : Z := 512.
Definition SHA512_DIGEST_LENGTH : Z := 64.
Definition PGP_DIGEST_ALGO_SHA512 : Z := 10.
Definition ECRYPTFS_DEFAULT_NUM_HASH_ITERATIONS : Z := 65536.
Definition ECRYPTFS_MAX_KEY_MOD_NAME_BYTES : Z := 16.
Definition ECRYPTFS_AES_BLOCK_SIZE : Z := 16.
Definition ECRYPTFS_AES_KEY_BYTES : Z := 16.
Definition ECRYPTFS_PRIVATE_DIR : cstring := lit "Private".

(** ** Kernel features: [ECRYPTFS_VERSIONING_*] *)
Definition ECRYPTFS_VERSIONING_PASSPHRASE : Z := 0x00000001.
Definition ECRYPTFS_VERSIONING_FILENAME_ENCRYPTION : Z := 0x00000100.

(** ** Messages between the kernel and the daemon *)
Definition ECRYPTFS_TAG_64_PACKET : Z := 0x40.
Definition ECRYPTFS_TAG_65_PACKET : Z := 0x41.
Definition ECRYPTFS_TAG_66_PACKET : Z := 0x42.
Definition ECRYPTFS_TAG_67_PACKET : Z := 0x43.
Definition ECRYPTFS_MSG_HELO : Z := 100.
Definition ECRYPTFS_MSG_QUIT : Z := 101.
Definition ECRYPTFS_MSG_REQUEST : Z := 102.
Definition ECRYPTFS_MSG_RESPONSE : Z := 103.
Definition ECRYPTFS_MSG_MAX_SIZE : Z := 1024.
Definition ECRYPTFS_MSG_ERROR_COUNT_THRESHOLD : Z := 8.

(** [struct ecryptfs_message]: the data is the flexible array at its end, as
    many bytes as the block that holds the structure has. *)
Record ecryptfs_message := Message {
  msg_index : Z;
  msg_data_len : Z;
  msg_data : bytes
}.
Definition sizeof_ecryptfs_message : Z := 8.

(** ** Authentication tokens *)
Definition ECRYPTFS_PERSISTENT_PASSWORD : Z := 0x01.
Definition ECRYPTFS_SESSION_KEY_ENCRYPTION_KEY_SET : Z := 0x02.
Definition ECRYPTFS_PASSWORD : Z := 0.
Definition ECRYPTFS_PRIVATE_KEY : Z := 1.

Record ecryptfs_session_key := SessionKey {
  sk_flags : Z;
  sk_encrypted_key_size : Z;
  sk_decrypted_key_size : Z;
  sk_encrypted_key : bytes;
  sk_decrypted_key : bytes
}.

Record ecryptfs_password := Password {
  pw_password_bytes : Z;
  pw_hash_algo : Z;
  pw_hash_iterations : Z;
  pw_session_key_encryption_key_bytes : Z;
  pw_flags : Z;
  pw_session_key_encryption_key : bytes;
  pw_signature : bytes;
  pw_salt : bytes
}.

Record ecryptfs_private_key := PrivateKey {
  pk_key_size : Z;
  pk_data_len : Z;
  pk_signature : bytes;
  pk_key_mod_alias : bytes;
  pk_data : bytes
}.

(** The [token] union, by the [token_type] its writer sets. *)
Inductive token :=
  | TokPassword (p : ecryptfs_password)
  | TokPrivateKey (k : ecryptfs_private_key).

Record ecryptfs_auth_tok := AuthTok {
  at_version : Z;
  at_token_type : Z;
  at_flags : Z;
  at_session_key : ecryptfs_session_key;
  at_reserved : bytes;
  at_token : token
}.

(** What [memset(.., 0, ..)] leaves of the members. *)
Definition zeros (n : Z) : bytes := replicate (Z.to_nat n) 0.
Definition session_key_zero : ecryptfs_session_key :=
  SessionKey 0 0 0 (zeros ECRYPTFS_MAX_ENCRYPTED_KEY_BYTES) (zeros ECRYPTFS_MAX_KEY_BYTES).

(** [strncpy(dst, s, n)]: the [n] bytes it writes. *)
Definition strncpy (s : cstring) (n : nat) : bytes :=
  let s' := take n s in s' ++ replicate (n - length s') 0.

(** ** The cryptographic library

    NSS is not part of the sources: the model takes it as an instance of the
    class below.  [None] stands for [SECFailure] or a null handle. *)
Inductive hash_alg := SEC_OID_SHA512.
Inductive cipher_dir := CKA_ENCRYPT | CKA_DECRYPT.

Class Nss := {
  (** [PK11_HashBuf]. *)
  hash_buf : hash_alg -> bytes -> option bytes;
  (** [PK11_ImportSymKey] of an AES key: is the handle non-null? *)
  import_sym_key : bytes -> bool;
  (** [PK11_CipherOp] and [PK11_DigestFinal] on an AES-ECB context. *)
  cipher_op : cipher_dir -> bytes -> bytes -> option bytes;
  digest_final : cipher_dir -> bytes -> bytes -> option bytes
}.

(** Documented behaviour: a digest has the length of its algorithm; ECB on
    whole blocks keeps the length, decryption inverts encryption, and nothing
    is left for the final call. *)
Class NssLaws `{Nss} := {
  hash_buf_length alg m d : hash_buf alg m = Some d ->
    length d = 64%nat /\ Forall is_byte d;
  cipher_op_length dir k d c : cipher_op dir k d = Some c -> length c = length d;
  cipher_op_inverse k d c : (length d mod 16 = 0)%nat ->
    cipher_op CKA_ENCRYPT k d = Some c -> cipher_op CKA_DECRYPT k c = Some d;
  digest_final_empty dir k d r : (length d mod 16 = 0)%nat ->
    digest_final dir k d = Some r -> r = []
}.

(** A concrete instance, to instantiate theorems at: a checksum spread over
    64 bytes, and the identity cipher. *)
Definition toy_hash (m : bytes) : bytes :=
  let s := foldr (fun b acc => (b + 31 * acc) mod 251) 7 m in
  (fun i => (s + Z.of_nat i) mod 256) <$> seq 0 64.

Definition toy_nss : Nss := {|
  hash_buf := fun _ m => Some (toy_hash m);
  import_sym_key := fun _ => true;
  cipher_op := fun _ _ d => Some d;
  digest_final := fun _ _ _ => Some []
|}.

Lemma toy_hash_bytes m : length (toy_hash m) = 64%nat /\ Forall is_byte (toy_hash m).
Proof.
  unfold toy_hash. rewrite length_fmap, length_seq. split; [done|].
  apply Forall_fmap, Forall_true. intros i. unfold is_byte; cbn. apply Z.mod_pos_bound; lia.
Qed.

#[export] Instance toy_nss_laws : @NssLaws toy_nss.
Proof.
  split; cbn; intros; simplify_eq; try done. apply toy_hash_bytes.
Qed.

(** ** The allocator

    [alloc_ok line k] tells whether the [k]-th execution of the allocation at
    line [line] of the modelled source file ([malloc] or [asprintf]) succeeds;
    [heap_junk] is what a fresh block contains. *)
Class Heap := {
  alloc_ok : Z -> nat -> bool;
  heap_junk : nat -> byte
}.

(** The allocator that never fails and hands out zeroed blocks. *)
Definition plenty : Heap := {| alloc_ok := fun _ _ => true; heap_junk := fun _ => 0 |}.

(** Fresh blocks contain bytes. *)
Definition heap_bytes `{Heap} : Prop := forall i, is_byte (heap_junk i).

Definition heap_never_fails `{Heap} : Prop := forall line k, alloc_ok line k = true.

(** ** Pointers to owned blocks *)
Inductive ptr :=
  | PNull
  | PLive (b : bytes)
  | PFreed.

(** [free]: a null pointer is fine, a dangling one is not. *)
Definition c_free (p : ptr) : outcome unit :=
  match p with PFreed => UB DoubleFree | _ => mret tt end.

(** Dereference. *)
Definition deref (p : ptr) : outcome bytes :=
  match p with
  | PNull => UB NullDeref
  | PFreed => UB UseAfterFree
  | PLive b => mret b
  end.

(** A call through a function pointer. *)
Definition call {A} (f : option A) : outcome A :=
  match f with Some g => mret g | None => UB NullDeref end.
