(* ===== verification/Extents.v ===== *)
(** * Pages and extents: [src/utils/test.c]

    A model, in the sources themselves, of how the kernel places the extents of a
    file in the pages of the lower file, behind its header; of the loop that
    encrypts a page; and of the size of the lower file.  [int] is checked for
    overflow, [unsigned long] wraps around.  Allocations of this file are asked for
    by line number plus 130000. *)

From S2P Require Import Prelude Ecryptfs.

Record ecryptfs_crypt_stat := CryptStat {
  header_extent_size : Z;
  num_header_extents_at_front : Z;
  extent_size : Z
}.

Definition int_of (z : Z) : outcome Z :=
  if (- 2 ^ 31 <=? z) && (z <? 2 ^ 31) then mret z else UB SignedOverflow.
Definition int_div (a b : Z) : outcome Z := if b =? 0 then UB DivisionByZero else int_of (Z.quot a b).

(** ** Where an extent is *)

(** The page of the lower file and the offset in it. *)
Definition ecryptfs_extent_to_lwr_pg_idx_and_offset (crypt_stat : ecryptfs_crypt_stat)
    (extent_num page_size : Z) : outcome (Z * Z) :=
  bytes_occupied ← int_of (header_extent_size crypt_stat * num_header_extents_at_front crypt_stat);
  extents_occupied ← int_div bytes_occupied (extent_size crypt_stat);
  let lower_extent_num := u64 (extents_occupied + extent_num) in
  extents_per_page ← int_div page_size (extent_size crypt_stat);
  if u64 extents_per_page =? 0 then UB DivisionByZero
  else
    let lower_page_idx := lower_extent_num / u64 extents_per_page in
    let extent_offset := i32 (lower_extent_num mod u64 extents_per_page) in
    byte_offset ← int_of (extent_offset * extent_size crypt_stat);
    mret (lower_page_idx, byte_offset).

(** ** Encrypting a page *)
Inductive page_state := PAGE_UNREAD | PAGE_READ | PAGE_MODIFIED | PAGE_WRITTEN.
#[export] Instance page_state_eq_dec : EqDecision page_state.
Proof. solve_decision. Defined.

(** What the loop does, in order: a page of the lower file is read from an offset
    on, an initialisation vector is derived, an extent is encrypted from the page
    into a lower one, a part of a lower page is written.  An assertion that fails
    is reported, and the program goes on. *)
Inductive crypt_event :=
  | ReadPage (index offset bytes : Z)
  | DeriveIv (extent : Z)
  | EncryptExtent (dst_index dst_offset src_index src_offset size : Z)
  | WritePage (index offset bytes : Z)
  | AssertionFailed (line : Z).

(** The lower page, with whether it is still allocated; the page it was read for
    and the offset; the offset of the last extent. *)
Record crypt_loop := CryptLoop {
  cl_lower_page : option (Z * bool);
  cl_prior : Z;
  cl_orig : Z;
  cl_offset : option Z;
  cl_state : page_state;
  cl_events : list crypt_event
}.
Definition emit (e : crypt_event) (l : crypt_loop) : crypt_loop :=
  CryptLoop (cl_lower_page l) (cl_prior l) (cl_orig l) (cl_offset l) (cl_state l) (cl_events l ++ [e]).

(** [lower_page->index]. *)
Definition lower_index (l : crypt_loop) : outcome Z :=
  match cl_lower_page l with
  | None => UB Uninitialised
  | Some (_, false) => UB UseAfterFree
  | Some (index, true) => mret index
  end.

(** [ecryptfs_write_out_page], which frees the page. *)
Definition write_out_page (offset bytes : Z) (l : crypt_loop) : outcome crypt_loop :=
  index ← lower_index l;
  mret (CryptLoop (Some (index, false)) (cl_prior l) (cl_orig l) (cl_offset l) (cl_state l)
          (cl_events l ++ [WritePage index offset bytes])).

Section EncryptPage.
Context `{Heap} (crypt_stat : ecryptfs_crypt_stat) (page_cache_size page_index : Z).

(** One turn for [extent_offset]. *)
Definition encrypt_extent (base_extent extent_offset : Z) (l : crypt_loop) : outcome crypt_loop :=
  '(lower_page_idx, lower_byte_offset) ←
    ecryptfs_extent_to_lwr_pg_idx_and_offset crypt_stat (u64 (base_extent + extent_offset)) page_cache_size;
  let l := CryptLoop (cl_lower_page l) (cl_prior l) (cl_orig l) (Some lower_byte_offset) (cl_state l) (cl_events l) in
  l ← (if negb (cl_prior l =? lower_page_idx) && bool_decide (cl_state l = PAGE_MODIFIED) then
         l ← write_out_page (cl_orig l) (page_cache_size - cl_orig l) l;
         mret (CryptLoop (cl_lower_page l) (cl_prior l) (cl_orig l) (cl_offset l) PAGE_WRITTEN (cl_events l))
       else mret l);
  l ← (if bool_decide (cl_state l = PAGE_UNREAD) || bool_decide (cl_state l = PAGE_WRITTEN) then
         if negb (alloc_ok 130223 (length (cl_events l))) then UB NullDeref
         else mret (CryptLoop (Some (lower_page_idx, true)) lower_page_idx lower_byte_offset (cl_offset l) PAGE_READ
           (cl_events l ++ [ReadPage lower_page_idx lower_byte_offset (page_cache_size - lower_byte_offset)]))
       else mret l);
  let l := if bool_decide (cl_state l = PAGE_MODIFIED) || bool_decide (cl_state l = PAGE_READ) then l
           else emit (AssertionFailed 330) l in
  let l := emit (DeriveIv (u64 (base_extent + extent_offset))) l in
  index ← lower_index l;
  let l := emit (EncryptExtent index lower_byte_offset page_index
                   (i32 (u64 (extent_offset * extent_size crypt_stat))) (extent_size crypt_stat)) l in
  mret (CryptLoop (cl_lower_page l) (cl_prior l) (cl_orig l) (cl_offset l) PAGE_MODIFIED (cl_events l)).

Fixpoint encrypt_loop (n : nat) (base_extent extent_offset : Z) (l : crypt_loop) : outcome crypt_loop :=
  match n with
  | O => mret l
  | S n' =>
      l ← encrypt_extent base_extent extent_offset l;
      encrypt_loop n' base_extent (u64 (extent_offset + 1)) l
  end.

(** The code and the events; the number of turns is [num_extents_per_page]. *)
Definition ecryptfs_encrypt_page : outcome (Z * list crypt_event) :=
  if negb (alloc_ok 130293 0) then mret (1, [])
  else
    num_extents_per_page ← int_div page_cache_size (extent_size crypt_stat);
    let base_extent := u64 (page_index * num_extents_per_page) in
    l ← encrypt_loop (Z.to_nat (u64 num_extents_per_page)) base_extent 0
          (CryptLoop None 0 0 None PAGE_UNREAD []);
    let l := if cl_orig l =? 0 then l else emit (AssertionFailed 341) l in
    match cl_offset l with
    | None => UB Uninitialised
    | Some offset =>
        bytes ← int_of (offset + extent_size crypt_stat);
        l ← write_out_page 0 bytes l;
        mret (0, cl_events l)
    end.
End EncryptPage.

(** ** The size of the lower file *)
Definition upper_size_to_lower_size (crypt_stat : ecryptfs_crypt_stat) (upper_size : Z) : outcome Z :=
  header ← int_of (header_extent_size crypt_stat * num_header_extents_at_front crypt_stat);
  let lower_size := u64 header in
  if upper_size =? 0 then mret lower_size
  else
    let size := u64 (extent_size crypt_stat) in
    if size =? 0 then UB DivisionByZero
    else
      let num_extents := upper_size / size in
      let num_extents := if upper_size mod size =? 0 then num_extents else u64 (num_extents + 1) in
      mret (u64 (lower_size + u64 (num_extents * size))).

(** ** The tests *)
Definition ECRYPTFS_EXTENT_SIZE : Z := 4096.

(** Page size, size and number of the extents of the header, extent; the page and
    the offset expected. *)
Definition translation_test_vector : list (Z * Z * Z * Z * Z * Z) :=
  [(4096, 8192, 1, 0, 2, 0); (4096, 8192, 1, 1, 3, 0); (4096, 8192, 1, 2, 4, 0); (4096, 8192, 1, 3, 5, 0);
   (8192, 8192, 1, 0, 1, 0); (8192, 8192, 1, 1, 1, 4096); (8192, 8192, 1, 2, 2, 0); (8192, 8192, 1, 3, 2, 4096);
   (8192, 8192, 1, 4, 3, 0); (16384, 8192, 1, 0, 0, 8192); (16384, 8192, 1, 1, 0, 12288);
   (16384, 8192, 1, 2, 1, 0); (16384, 8192, 1, 3, 1, 4096); (16384, 8192, 1, 4, 1, 8192);
   (16384, 8192, 1, 5, 1, 12288); (16384, 8192, 1, 6, 2, 0)].

Fixpoint test_translations (vector : list (Z * Z * Z * Z * Z * Z)) : outcome Z :=
  match vector with
  | [] => mret 0
  | (page_size, header, num, extent, idx, offset) :: vector' =>
      '(lower_page_idx, byte_offset) ←
        ecryptfs_extent_to_lwr_pg_idx_and_offset (CryptStat (i32 header) num ECRYPTFS_EXTENT_SIZE)
          extent page_size;
      if negb (lower_page_idx =? idx) then mret (-1)
      else if negb (byte_offset =? offset) then mret (-1)
      else test_translations vector'
  end.
Definition test_extent_translation : outcome Z := test_translations translation_test_vector.

Definition test_encrypt `{Heap} : outcome (Z * list crypt_event) :=
  ecryptfs_encrypt_page (CryptStat 8192 1 4096) 16384 0.

(** Size and number of the extents of the header, size of an extent, upper size;
    the lower size expected. *)
Definition upper_lower_test_vector : list (Z * Z * Z * Z * Z) :=
  [(8192, 1, 4096, 0, 8192); (8192, 1, 4096, 1, 12288); (8192, 1, 4096, 2, 12288);
   (8192, 1, 4096, 4094, 12288); (8192, 1, 4096, 4095, 12288); (8192, 1, 4096, 4096, 12288);
   (8192, 1, 4096, 4097, 16384); (8192, 1, 4096, 4098, 16384); (8192, 1, 4096, 8191, 16384);
   (8192, 1, 4096, 8192, 16384); (8192, 1, 4096, 8193, 20480)].

Fixpoint test_sizes (vector : list (Z * Z * Z * Z * Z)) : outcome Z :=
  match vector with
  | [] => mret 0
  | (header, num, size, upper, lower) :: vector' =>
      lower_size ← upper_size_to_lower_size (CryptStat (i32 header) num size) upper;
      if negb (lower_size =? lower) then mret (-1) else test_sizes vector'
  end.
Definition test_upper_size_to_lower_size : outcome Z := test_sizes upper_lower_test_vector.

(** ** Lemmas *)

(** A geometry in which extents fill pages and the header: [h] extents of header,
    [n] extents in a page. *)
Record geometry (crypt_stat : ecryptfs_crypt_stat) (page_size h n : Z) : Prop := Geometry {
  geo_size : 0 < extent_size crypt_stat;
  geo_header : header_extent_size crypt_stat * num_header_extents_at_front crypt_stat = h * extent_size crypt_stat;
  geo_header_bound : 0 <= h * extent_size crypt_stat < 2 ^ 31;
  geo_page : page_size = n * extent_size crypt_stat;
  geo_page_bound : 0 < page_size < 2 ^ 31
}.

Lemma int_of_ok z : - 2 ^ 31 <= z < 2 ^ 31 -> int_of z = Ok z.
Proof.
  intros Hz. unfold int_of. replace ((- 2 ^ 31 <=? z) && (z <? 2 ^ 31)) with true; [done|].
  symmetry. apply andb_true_iff. split; [apply Z.leb_le|apply Z.ltb_lt]; lia.
Qed.

Lemma int_div_mul a b : 0 < b -> 0 <= a -> a * b < 2 ^ 31 -> int_div (a * b) b = Ok a.
Proof.
  intros Hb Ha Hab. unfold int_div. rewrite (proj2 (Z.eqb_neq b 0)) by lia.
  rewrite Z.quot_mul by lia. apply int_of_ok. nia.
Qed.

Section Geometry.
Context (cs : ecryptfs_crypt_stat) (page_size h n : Z).
Hypothesis geo : geometry cs page_size h n.
Abbreviation es := (extent_size cs).

Lemma geo_positive : 0 < es /\ 0 <= h /\ 0 < n /\ n < 2 ^ 31 /\ n * es < 2 ^ 31.
Proof. destruct geo as [He _ Hh -> Hp]. nia. Qed.

Lemma extent_to_lower_ok e :
  0 <= e -> h + e < 2 ^ 64 ->
  ecryptfs_extent_to_lwr_pg_idx_and_offset cs e page_size = Ok ((h + e) / n, (h + e) mod n * es).
Proof.
  intros He Hb. destruct geo_positive as (Hes & Hh & Hn & Hn31 & Hns).
  pose proof geo as [_ Hhd Hhb Hp Hpb]. unfold ecryptfs_extent_to_lwr_pg_idx_and_offset.
  rewrite Hhd, int_of_ok, bind_Ok by lia. rewrite int_div_mul, bind_Ok by lia.
  rewrite (wrap_small 64 (h + e)) by lia. rewrite Hp, int_div_mul, bind_Ok by lia.
  rewrite (wrap_small 64 n) by lia. rewrite (proj2 (Z.eqb_neq n 0)) by lia.
  pose proof (Z.mod_pos_bound (h + e) n Hn) as Hm.
  rewrite (swrap_small 32 ((h + e) mod n)) by lia. by rewrite int_of_ok, bind_Ok by nia.
Qed.

(** The position of the [o]-th extent of the [q]-th page. *)
Lemma extent_at q o e :
  0 <= e -> h + e < 2 ^ 64 -> h + e = q * n + o -> 0 <= o < n ->
  ecryptfs_extent_to_lwr_pg_idx_and_offset cs e page_size = Ok (q, o * es).
Proof.
  intros He Hb Hq Ho. rewrite extent_to_lower_ok by done. rewrite Hq.
  rewrite Z.div_add_l, Z.div_small, Z.add_0_r by lia.
  by rewrite Z.add_comm, Z.mod_add, Z.mod_small by lia.
Qed.
End Geometry.

(** ** The loop *)

(** What is done for [cnt] extents of a page from its [start]-th one on, at the
    [o]-th place of the lower page [q]. *)
Fixpoint extent_events (size index base q o start : Z) (cnt : nat) : list crypt_event :=
  match cnt with
  | O => []
  | S cnt' =>
      DeriveIv (base + start) :: EncryptExtent q (o * size) index (start * size) size
      :: extent_events size index base q (o + 1) (start + 1) cnt'
  end.

(** The same with the page read before and written after. *)
Definition page_events (size page_size index base q o start : Z) (cnt : nat) : list crypt_event :=
  ReadPage q (o * size) (page_size - o * size) :: extent_events size index base q o start cnt
  ++ [WritePage q (o * size) (Z.of_nat cnt * size)].

Section Loop.
Context `{Heap} (cs : ecryptfs_crypt_stat) (page_size index h n base : Z).
Hypothesis geo : geometry cs page_size h n.
Hypothesis heap_works : heap_never_fails.
Hypothesis base_at : 0 <= base.
Hypothesis in_range : h + base + n < 2 ^ 64.
Abbreviation es := (extent_size cs).
Abbreviation turn := (encrypt_extent cs page_size index).
Abbreviation loop := (encrypt_loop cs page_size index).

Lemma loop_app a b s l :
  0 <= s -> s + Z.of_nat a < 2 ^ 64 ->
  loop (a + b) base s l = obind (loop a base s l) (loop b base (s + Z.of_nat a)).
Proof.
  revert s l. induction a as [|a IH]; intros s l Hs Ha.
  { cbn [Nat.add encrypt_loop obind mret outcome_ret]. by rewrite Z.add_0_r. }
  cbn [Nat.add encrypt_loop]. destruct (turn base s l) as [l'|]; [cbn [obind]|done].
  rewrite wrap_small by lia. rewrite IH by lia. do 2 f_equal. lia.
Qed.

(** A turn on the page of the turn before. *)
Lemma turn_same q o s l :
  cl_state l = PAGE_MODIFIED -> cl_lower_page l = Some (q, true) -> cl_prior l = q ->
  0 <= s < n -> h + (base + s) = q * n + o -> 0 <= o < n ->
  turn base s l = Ok (CryptLoop (Some (q, true)) q (cl_orig l) (Some (o * es)) PAGE_MODIFIED
    (cl_events l ++ [DeriveIv (base + s); EncryptExtent q (o * es) index (s * es) es])).
Proof.
  intros Hst Hlp Hpr Hs Hq Ho. destruct (geo_positive _ _ _ _ geo) as (Hes & Hh & Hn & Hn31 & Hns).
  unfold encrypt_extent. rewrite (wrap_small 64 (base + s)) by lia.
  rewrite (extent_at cs page_size h n geo q o), bind_Ok by lia.
  cbn [cl_prior cl_state cl_orig cl_events cl_lower_page cl_offset].
  rewrite Hpr, Z.eqb_refl. cbn [negb andb]. rewrite bind_Ok. cbn [cl_state cl_events]. rewrite Hst.
  cbn [bool_decide decide_rel orb]. rewrite !bool_decide_eq_false_2 by done. cbn [orb]. rewrite bind_Ok.
  cbn [cl_state cl_events]. rewrite bool_decide_eq_true_2 by done. cbn [orb].
  unfold lower_index, emit. cbn [cl_lower_page]. rewrite Hlp, bind_Ok.
  rewrite (wrap_small 64 (s * es)) by nia. rewrite (swrap_small 32 (s * es)) by nia.
  cbn [cl_prior cl_orig cl_offset cl_lower_page cl_events]. by rewrite <- app_assoc.
Qed.

Lemma run_same q cnt o s l :
  cl_state l = PAGE_MODIFIED -> cl_lower_page l = Some (q, true) -> cl_prior l = q ->
  0 <= s -> s + Z.of_nat cnt <= n -> h + (base + s) = q * n + o -> 0 <= o -> o + Z.of_nat cnt <= n ->
  cl_offset l = Some ((o - 1) * es) ->
  loop cnt base s l = Ok (CryptLoop (Some (q, true)) q (cl_orig l) (Some ((o + Z.of_nat cnt - 1) * es)) PAGE_MODIFIED
    (cl_events l ++ extent_events es index base q o s cnt)).
Proof.
  destruct (geo_positive _ _ _ _ geo) as (Hes & Hh & Hn & Hn31 & Hns).
  revert o s l. induction cnt as [|cnt IH]; intros o s l Hst Hlp Hpr Hs Hsn Hq Ho Hon Hoff.
  { cbn [encrypt_loop extent_events]. rewrite app_nil_r, Z.add_0_r, <- Hoff, <- Hst, <- Hlp, <- Hpr. by destruct l. }
  cbn [encrypt_loop extent_events]. rewrite (turn_same q o), bind_Ok by (done || lia).
  rewrite (wrap_small 64 (s + 1)) by lia.
  rewrite (IH (o + 1)); cbn [cl_state cl_lower_page cl_prior cl_offset cl_orig cl_events];
    [|first [done | lia | (do 2 f_equal; lia)]..].
  rewrite <- app_assoc. cbn [app]. do 4 f_equal. lia.
Qed.

(** A turn that begins a page: the one before, if there is one, is written out. *)
Definition begins (q : Z) (l : crypt_loop) : Prop :=
  cl_state l = PAGE_UNREAD \/
  exists p, cl_state l = PAGE_MODIFIED /\ cl_lower_page l = Some (p, true) /\ cl_prior l = p /\ p <> q.
Definition written_out (l : crypt_loop) : list crypt_event :=
  match cl_state l, cl_lower_page l with
  | PAGE_MODIFIED, Some (p, _) => [WritePage p (cl_orig l) (page_size - cl_orig l)]
  | _, _ => []
  end.

Lemma turn_begins q o s l :
  begins q l -> 0 <= s < n -> h + (base + s) = q * n + o -> 0 <= o < n ->
  turn base s l = Ok (CryptLoop (Some (q, true)) q (o * es) (Some (o * es)) PAGE_MODIFIED
    (cl_events l ++ written_out l ++ [ReadPage q (o * es) (page_size - o * es);
       DeriveIv (base + s); EncryptExtent q (o * es) index (s * es) es])).
Proof.
  intros Hb Hs Hq Ho. destruct (geo_positive _ _ _ _ geo) as (Hes & Hh & Hn & Hn31 & Hns).
  unfold encrypt_extent. rewrite (wrap_small 64 (base + s)) by lia.
  rewrite (extent_at cs page_size h n geo q o), bind_Ok by lia.
  cbn [cl_prior cl_state cl_orig cl_events cl_lower_page cl_offset].
  rewrite (wrap_small 64 (s * es)) by nia. rewrite (swrap_small 32 (s * es)) by nia.
  destruct Hb as [Hst|(p & Hst & Hlp & Hpr & Hne)].
  - rewrite Hst. rewrite (bool_decide_eq_false_2 (PAGE_UNREAD = PAGE_MODIFIED)) by done.
    rewrite andb_false_r, bind_Ok. cbn [cl_state cl_events cl_offset].
    rewrite (bool_decide_eq_true_2 (PAGE_UNREAD = PAGE_UNREAD)) by done. cbn [orb].
    rewrite (heap_works 130223). cbn [negb]. rewrite bind_Ok. cbn [cl_state].
    rewrite (bool_decide_eq_true_2 (PAGE_READ = PAGE_READ)) by done. rewrite orb_true_r.
    unfold lower_index, emit. cbn [cl_lower_page cl_prior cl_orig cl_offset cl_events]. rewrite bind_Ok.
    unfold written_out. rewrite Hst. cbn [cl_prior cl_orig cl_offset cl_lower_page cl_events app].
    by rewrite <- !app_assoc.
  - rewrite Hst, Hpr. rewrite (bool_decide_eq_true_2 (PAGE_MODIFIED = PAGE_MODIFIED)) by done.
    rewrite (proj2 (Z.eqb_neq p q)) by done. cbn [negb andb].
    unfold write_out_page, lower_index. cbn [cl_lower_page cl_prior cl_orig cl_offset cl_events]. rewrite Hlp, !bind_Ok.
    cbn [cl_state cl_events cl_offset cl_lower_page cl_prior cl_orig].
    rewrite (bool_decide_eq_true_2 (PAGE_WRITTEN = PAGE_WRITTEN)) by done. rewrite orb_true_r.
    rewrite (heap_works 130223). cbn [negb]. rewrite bind_Ok. cbn [cl_state].
    rewrite (bool_decide_eq_true_2 (PAGE_READ = PAGE_READ)) by done. rewrite orb_true_r.
    unfold emit. cbn [cl_lower_page cl_prior cl_orig cl_offset cl_events]. rewrite bind_Ok.
    unfold written_out. rewrite Hst, Hlp. cbn [cl_prior cl_orig cl_offset cl_lower_page cl_events app].
    by rewrite <- !app_assoc.
Qed.

(** A run over one lower page, from the first extent in it to the last. *)
Lemma run_page q cnt o s l :
  begins q l -> (0 < cnt)%nat -> 0 <= s -> s + Z.of_nat cnt <= n -> h + (base + s) = q * n + o ->
  0 <= o -> o + Z.of_nat cnt <= n ->
  loop cnt base s l = Ok (CryptLoop (Some (q, true)) q (o * es) (Some ((o + Z.of_nat cnt - 1) * es)) PAGE_MODIFIED
    (cl_events l ++ written_out l ++ ReadPage q (o * es) (page_size - o * es) ::
       extent_events es index base q o s cnt)).
Proof.
  intros Hb Hc Hs Hsn Hq Ho Hon. destruct cnt as [|cnt]; [lia|].
  destruct (geo_positive _ _ _ _ geo) as (Hes & Hh & Hn & Hn31 & Hns).
  cbn [encrypt_loop extent_events]. rewrite (turn_begins q o), bind_Ok by (done || lia).
  rewrite (wrap_small 64 (s + 1)) by lia.
  rewrite (run_same q cnt (o + 1)); cbn [cl_state cl_lower_page cl_prior cl_offset cl_orig cl_events];
    [|first [done | lia | (do 2 f_equal; lia)]..].
  rewrite <- !app_assoc. cbn [app]. do 4 f_equal. lia.
Qed.
End Loop.

(** ** The size: lemmas *)
Lemma lower_size_ok cs h upper :
  0 < extent_size cs < 2 ^ 31 ->
  header_extent_size cs * num_header_extents_at_front cs = h * extent_size cs ->
  0 <= h * extent_size cs < 2 ^ 31 -> 0 <= upper ->
  let extents := (upper + extent_size cs - 1) / extent_size cs in
  (h + extents) * extent_size cs < 2 ^ 64 ->
  upper_size_to_lower_size cs upper = Ok ((h + extents) * extent_size cs).
Proof.
  intros He Hh Hhb Hu extents Hb. unfold upper_size_to_lower_size. rewrite Hh, int_of_ok, bind_Ok by lia.
  assert (upper = 0 /\ extents = 0 \/ 0 < upper /\ extents =
    if upper mod extent_size cs =? 0 then upper / extent_size cs else upper / extent_size cs + 1) as Hext.
  { destruct (Z.eq_dec upper 0) as [->|Hne].
    - left. split; [done|]. subst extents. apply Z.div_small. lia.
    - right. split; [lia|]. subst extents. pose proof (Z_div_mod_eq_full upper (extent_size cs)) as Hdm.
      pose proof (Z.mod_pos_bound upper (extent_size cs) ltac:(lia)) as Hm.
      destruct (Z.eqb_spec (upper mod extent_size cs) 0) as [Hz|Hz].
      + symmetry. apply (Z.div_unique _ _ _ (extent_size cs - 1)); lia.
      + symmetry. apply (Z.div_unique _ _ _ (upper mod extent_size cs - 1)); lia. }
  assert (0 <= extents) as Hpos by (apply Z.div_pos; lia).
  rewrite (wrap_small 64 (h * extent_size cs)) by lia.
  destruct Hext as [[-> ->]|[Hup Hext]]; [cbn [Z.eqb]; by rewrite Z.add_0_r|].
  rewrite (proj2 (Z.eqb_neq upper 0)) by lia. rewrite (wrap_small 64 (extent_size cs)) by lia.
  rewrite (proj2 (Z.eqb_neq (extent_size cs) 0)) by lia.
  assert ((if upper mod extent_size cs =? 0 then upper / extent_size cs else u64 (upper / extent_size cs + 1)) = extents) as ->.
  { rewrite Hext in *. destruct (upper mod extent_size cs =? 0); [done|]. apply wrap_small. nia. }
  rewrite (wrap_small 64 (extents * extent_size cs)) by nia.
  rewrite wrap_small by nia. unfold mret, outcome_ret. f_equal. lia.
Qed.

(** ** Properties *)

(** C27. The mapping is faithful to the bytes: when extents fill pages and the header
    exactly, an extent lies in one page, aligned to its size, and its address in
    the lower file is the size of the header plus its place in the upper file.
    Different extents so get different places. *)
Theorem extent_address cs page_size h n e :
  geometry cs page_size h n -> 0 <= e -> h + e < 2 ^ 64 ->
  exists idx offset,
    ecryptfs_extent_to_lwr_pg_idx_and_offset cs e page_size = Ok (idx, offset) /\
    idx * page_size + offset = h * extent_size cs + e * extent_size cs /\
    0 <= idx /\ 0 <= offset <= page_size - extent_size cs /\ offset mod extent_size cs = 0.
Proof.
  intros Hg He Hb. destruct (geo_positive _ _ _ _ Hg) as (Hes & Hh & Hn & Hn31 & Hns).
  exists ((h + e) / n), ((h + e) mod n * extent_size cs). split; [by eapply extent_to_lower_ok|].
  pose proof (Z_div_mod_eq_full (h + e) n) as Hdm. pose proof (Z.mod_pos_bound (h + e) n Hn) as Hm.
  pose proof (Z.div_pos (h + e) n ltac:(lia) Hn). rewrite (geo_page _ _ _ _ Hg).
  split; [nia|]. split; [done|]. split; [nia|]. apply Z.mod_mul. lia.
Qed.

(** C19. Encrypting a page of the upper file touches one page of the lower file, or
    two when the header does not fill pages: each is read from the first extent
    on, every extent of it is encrypted, with the vector of its number, to the place
    of the mapping, and the page is written once, from its first extent to the last
    one.  No page is used after it was given back, and the assertions hold. *)
Theorem encrypt_page_events `{Heap} cs page_size h n index :
  heap_never_fails -> geometry cs page_size h n -> 0 <= index -> h + index * n + n < 2 ^ 64 ->
  let base := index * n in
  let q := (h + base) / n in
  let k := (h + base) mod n in
  ecryptfs_encrypt_page cs page_size index =
  Ok (0, page_events (extent_size cs) page_size index base q k 0 (Z.to_nat (n - k)) ++
         if k =? 0 then [] else page_events (extent_size cs) page_size index base (q + 1) 0 (n - k) (Z.to_nat k)).
Proof.
  intros Hh Hg Hi Hb base q k. destruct (geo_positive _ _ _ _ Hg) as (Hes & Hhp & Hn & Hn31 & Hns).
  pose proof (Z_div_mod_eq_full (h + base) n) as Hdm. pose proof (Z.mod_pos_bound (h + base) n Hn) as Hk.
  fold q k in Hdm, Hk. unfold ecryptfs_encrypt_page. rewrite (Hh 130293). cbn [negb].
  rewrite (geo_page _ _ _ _ Hg) at 1. rewrite int_div_mul, bind_Ok by lia. fold base.
  rewrite (wrap_small 64 base), (wrap_small 64 n) by (subst base; nia).
  set (l0 := CryptLoop None 0 0 None PAGE_UNREAD []).
  assert (h + base + n < 2 ^ 64) as Hr by (subst base; lia).
  assert (0 <= base) as Hbase by (subst base; nia).
  destruct (Z.eqb_spec k 0) as [Hk0|Hk0].
  - rewrite Hk0, Z.sub_0_r, app_nil_r.
    rewrite (run_page cs page_size index h n base Hg Hh Hbase Hr q (Z.to_nat n) 0 0 l0), bind_Ok by (lia || by left).
    cbn [cl_orig]. change (0 * extent_size cs =? 0) with true. cbn [cl_offset].
    rewrite int_of_ok, bind_Ok by (rewrite Z2Nat.id by lia; nia).
    unfold write_out_page, lower_index. cbn [cl_lower_page obind mret outcome_ret cl_events].
    unfold page_events, written_out. cbn [cl_state l0 cl_events app]. do 4 f_equal. repeat f_equal. nia.
  - replace (Z.to_nat n) with (Z.to_nat (n - k) + Z.to_nat k)%nat by lia.
    rewrite loop_app by lia. rewrite Z.add_0_l, Z2Nat.id by lia.
    rewrite (run_page cs page_size index h n base Hg Hh Hbase Hr q (Z.to_nat (n - k)) k 0 l0), bind_Ok by (lia || by left).
    rewrite (run_page cs page_size index h n base Hg Hh Hbase Hr (q + 1) (Z.to_nat k) 0 (n - k)), bind_Ok; [|try lia..].
    2:{ right. exists q. cbn [cl_state cl_lower_page cl_prior]. repeat split. lia. }
    cbn [cl_orig]. change (0 * extent_size cs =? 0) with true. cbn [cl_offset].
    rewrite int_of_ok, bind_Ok by (rewrite Z2Nat.id by lia; nia).
    unfold write_out_page, lower_index. cbn [cl_lower_page obind mret outcome_ret cl_events].
    unfold page_events, written_out. cbn [cl_state cl_lower_page cl_orig l0 cl_events app].
    rewrite <- ?app_assoc. cbn [app]. rewrite <- ?app_assoc. cbn [app].
    rewrite (geo_page _ _ _ _ Hg), !Z2Nat.id by lia.
    assert (n * extent_size cs - k * extent_size cs = (n - k) * extent_size cs) as -> by lia.
    assert ((0 + k - 1) * extent_size cs + extent_size cs = k * extent_size cs) as -> by lia. done.
Qed.

(** The size of the lower file is the place where its last extent ends: every
    extent that holds a byte of the upper file lies between the header and that
    size, and the last one reaches it.  The vectors of the test program, which its
    [main] jumps over, agree with all of this. *)
Theorem lower_size_covers cs page_size h n upper :
  geometry cs page_size h n -> 0 < upper ->
  (h + (upper + extent_size cs - 1) / extent_size cs) * extent_size cs < 2 ^ 64 ->
  exists lower,
    upper_size_to_lower_size cs upper = Ok lower /\
    (forall e, 0 <= e -> e * extent_size cs < upper ->
       exists idx offset, ecryptfs_extent_to_lwr_pg_idx_and_offset cs e page_size = Ok (idx, offset) /\
         h * extent_size cs <= idx * page_size + offset /\
         idx * page_size + offset + extent_size cs <= lower /\
         (upper <= (e + 1) * extent_size cs -> idx * page_size + offset + extent_size cs = lower)) /\
    test_extent_translation = Ok 0 /\ test_upper_size_to_lower_size = Ok 0.
Proof.
  intros Hg Hu Hb. destruct (geo_positive _ _ _ _ Hg) as (Hes & Hh & Hn & Hn31 & Hns).
  pose proof Hg as [_ Hhd Hhb Hp Hpb].
  eexists. split; [apply (lower_size_ok cs h upper); [nia|done|done|lia|done]|].
  set (ext := (upper + extent_size cs - 1) / extent_size cs) in *.
  pose proof (Z_div_mod_eq_full (upper + extent_size cs - 1) (extent_size cs)) as Hdm.
  pose proof (Z.mod_pos_bound (upper + extent_size cs - 1) (extent_size cs) Hes) as Hm. fold ext in Hdm.
  split; [|by split; vm_compute].
  intros e He Hlt. assert (e + 1 <= ext) as Hext by nia.
  exists ((h + e) / n), ((h + e) mod n * extent_size cs).
  split; [eapply extent_to_lower_ok; [done|done|nia]|].
  pose proof (Z_div_mod_eq_full (h + e) n) as Hdm'.
  assert ((h + e) / n * page_size + (h + e) mod n * extent_size cs = (h + e) * extent_size cs) as -> by (rewrite Hp; nia).
  split; [nia|]. split; [nia|]. intros Hlast. assert (ext = e + 1) as -> by nia. nia.
Qed.

(** ** Witnesses *)
Lemma sample_geometry : geometry (CryptStat 8192 1 4096) 16384 2 4.
Proof. split; cbn; lia. Qed.

Lemma extent_address_witness :
  exists idx offset,
    ecryptfs_extent_to_lwr_pg_idx_and_offset (CryptStat 8192 1 4096) 5 16384 = Ok (idx, offset) /\
    idx * 16384 + offset = 2 * 4096 + 5 * 4096 /\ 0 <= idx /\ 0 <= offset <= 16384 - 4096 /\ offset mod 4096 = 0.
Proof. apply (extent_address (CryptStat 8192 1 4096) 16384 2 4 5); [apply sample_geometry|lia|lia]. Defined.

Lemma encrypt_page_events_witness :
  @test_encrypt plenty =
  Ok (0, page_events 4096 16384 0 0 0 2 0 2 ++ page_events 4096 16384 0 0 1 0 2 2).
Proof.
  apply (@encrypt_page_events plenty (CryptStat 8192 1 4096) 16384 2 4 0).
  - intros line k. reflexivity.
  - apply sample_geometry.
  - lia.
  - lia.
Defined.

Lemma lower_size_covers_witness :
  exists lower,
    upper_size_to_lower_size (CryptStat 8192 1 4096) 8193 = Ok lower /\
    (forall e, 0 <= e -> e * 4096 < 8193 ->
       exists idx offset, ecryptfs_extent_to_lwr_pg_idx_and_offset (CryptStat 8192 1 4096) e 16384 = Ok (idx, offset) /\
         2 * 4096 <= idx * 16384 + offset /\ idx * 16384 + offset + 4096 <= lower /\
         (8193 <= (e + 1) * 4096 -> idx * 16384 + offset + 4096 = lower)) /\
    test_extent_translation = Ok 0 /\ test_upper_size_to_lower_size = Ok 0.
Proof.
  apply (lower_size_covers (CryptStat 8192 1 4096) 16384 2 4 8193); [apply sample_geometry|lia|].
  vm_compute. reflexivity.
Defined.
