(* ===== verification/PassphraseSig.v ===== *)
(** * Hexadecimal codec, passphrase signatures and password tokens:
    [src/libecryptfs/main.c]

    A passphrase is hashed 65536 times with its salt; the digest is the file
    encryption key encryption key, and eight bytes of one more digest, in
    hexadecimal, name the key in the keyring. *)

From S2P Require Import Prelude CLib Ecryptfs.

(** ** [to_hex] and [from_hex] *)
Definition hex_of (src : bytes) : cstring := mjoin (show_hex2 <$> src).

Definition to_hex (dst src : bytes) (src_size : Z) : outcome bytes :=
  s ← rd src 0 src_size;
  wr dst 0 (hex_of s ++ [0]).

(** One iteration: two characters of [src] go through [strtol]. *)
Definition from_hex_byte (src : bytes) (x : Z) : outcome byte :=
  c0 ← rd1 src (x * 2);
  c1 ← rd1 src (x * 2 + 1);
  tmp ← cstr_of [c0; c1; 0];
  mret (u8 (strtol 16 tmp)).

Fixpoint from_hex_loop (n : nat) (x : Z) (src : bytes) : outcome bytes :=
  match n with
  | O => mret []
  | S n' => b ← from_hex_byte src x; bs ← from_hex_loop n' (x + 1) src; mret (b :: bs)
  end.

Definition from_hex (dst src : bytes) (dst_size : Z) : outcome bytes :=
  bs ← from_hex_loop (Z.to_nat dst_size) 0 src;
  wr dst 0 bs.

Definition ecryptfs_get_versions (file_version : option Z) : Z * Z * option Z :=
  (ECRYPTFS_VERSION_MAJOR, ECRYPTFS_VERSION_MINOR,
   (fun _ => ECRYPTFS_SUPPORTED_FILE_VERSION) <$> file_version).

(** [auth_tok->version]: 8-bit major and 8-bit minor. *)
Definition version_word (major minor : Z) : Z :=
  Z.lor (Z.land (u16 (Z.shiftl major 8)) 0xFF00) (Z.land (u16 minor) 0x00FF).

Section Hashing.
Context `{Nss}.

(** The result code and the new contents of [dst]. *)
Definition do_hash (src dst : bytes) (algo : hash_alg) : Z * bytes :=
  match hash_buf algo src with
  | Some d => (0, d)
  | None => (- EINVAL, dst)
  end.

(** [while (hash_iterations--)]. *)
Fixpoint hash_loop (hash_iterations : nat) (buf : bytes) : Z * bytes :=
  match hash_iterations with
  | O => (0, buf)
  | S n =>
      let '(rc, buf') := do_hash buf buf SEC_OID_SHA512 in
      if negb (rc =? 0) then (rc, buf') else hash_loop n buf'
  end.

(** The two output buffers are threaded through: the result is the return
    code and their contents when the function returns. *)
Definition generate_passphrase_sig (passphrase_sig fekek salt : bytes)
    (passphrase : cstring) : outcome (Z * bytes * bytes) :=
  let passphrase_size := zlen passphrase in
  if ECRYPTFS_MAX_PASSPHRASE_BYTES <? passphrase_size
  then mret (- EINVAL, passphrase_sig, fekek)
  else
    s ← rd salt 0 ECRYPTFS_SALT_SIZE;
    let salt_and_passphrase :=
      zeros (ECRYPTFS_MAX_PASSPHRASE_BYTES + ECRYPTFS_SALT_SIZE) in
    salt_and_passphrase ← wr salt_and_passphrase 0 s;
    salt_and_passphrase ← wr salt_and_passphrase ECRYPTFS_SALT_SIZE passphrase;
    input ← rd salt_and_passphrase 0 (ECRYPTFS_SALT_SIZE + passphrase_size);
    let '(rc, buf) := do_hash input (zeros SHA512_DIGEST_LENGTH) SEC_OID_SHA512 in
    if negb (rc =? 0) then mret (rc, passphrase_sig, fekek)
    else
      let hash_iterations := ECRYPTFS_DEFAULT_NUM_HASH_ITERATIONS - 1 in
      let '(rc, buf) := hash_loop (Z.to_nat hash_iterations) buf in
      if negb (rc =? 0) then mret (rc, passphrase_sig, fekek)
      else
        key ← rd buf 0 ECRYPTFS_MAX_KEY_BYTES;
        fekek ← wr fekek 0 key;
        let '(rc, buf) := do_hash buf buf SEC_OID_SHA512 in
        if negb (rc =? 0) then mret (rc, passphrase_sig, fekek)
        else
          passphrase_sig ← to_hex passphrase_sig buf ECRYPTFS_SIG_SIZE;
          mret (0, passphrase_sig, fekek).
End Hashing.

(** ** The password token *)
Definition generate_payload (passphrase_sig salt session_key_encryption_key : bytes)
    : outcome (Z * ecryptfs_auth_tok) :=
  let '(major, minor, _) := ecryptfs_get_versions None in
  sig ← cstr_of passphrase_sig;
  salt' ← rd salt 0 ECRYPTFS_SALT_SIZE;
  key ← rd session_key_encryption_key 0 ECRYPTFS_MAX_KEY_BYTES;
  let flags := Z.land (Z.lor 0 ECRYPTFS_SESSION_KEY_ENCRYPTION_KEY_SET)
                 (Z.lxor ECRYPTFS_PERSISTENT_PASSWORD 0xffffffff) in
  let pw := Password 0 PGP_DIGEST_ALGO_SHA512 0 ECRYPTFS_MAX_KEY_BYTES flags key
              (strncpy sig (Z.to_nat ECRYPTFS_PASSWORD_SIG_SIZE) ++ [0]) salt' in
  mret (0, AuthTok (version_word major minor) ECRYPTFS_PASSWORD 0 session_key_zero
             (zeros 32) (TokPassword pw)).

(** ** Specification of the key derivation, for a digest that never fails *)
Section Spec.
Context `{Nss}.

Definition digest (m : bytes) : bytes := default [] (hash_buf SEC_OID_SHA512 m).

(** The key: 65536 digests of salt and passphrase. *)
Definition passphrase_key (salt : bytes) (passphrase : cstring) : bytes :=
  Nat.iter (Z.to_nat ECRYPTFS_DEFAULT_NUM_HASH_ITERATIONS) digest (take 8 salt ++ passphrase).

(** The signature: eight bytes of one more digest, in hexadecimal. *)
Definition passphrase_sig_hex (salt : bytes) (passphrase : cstring) : cstring :=
  hex_of (take 8 (digest (passphrase_key salt passphrase))).

(** The digest works on every message. *)
Definition digest_total : Prop := forall m, is_Some (hash_buf SEC_OID_SHA512 m).
End Spec.

(** ** Lemmas *)
Lemma hex_of_cons b l : hex_of (b :: l) = show_hex2 b ++ hex_of l.
Proof. done. Qed.

Lemma length_hex_of l : length (hex_of l) = (2 * length l)%nat.
Proof. induction l; [done|]. rewrite hex_of_cons, length_app, IHl. cbn. lia. Qed.

Lemma hex_of_app l k : hex_of (l ++ k) = hex_of l ++ hex_of k.
Proof. unfold hex_of. by rewrite fmap_app, join_app. Qed.

(** Everything [to_hex] writes is a lower-case hexadecimal digit. *)
Lemma hex_of_xdigits l : Forall is_byte l -> Forall (fun c => isxdigit c = true) (hex_of l).
Proof.
  induction 1 as [|b l Hb _ IH]; [constructor|]. unfold is_byte in Hb.
  rewrite hex_of_cons. repeat constructor; [apply isxdigit_hex; lia..|done].
Qed.

Lemma isxdigit_char c : isxdigit c = true -> is_char c.
Proof. unfold isxdigit, isdigit, is_char. lia. Qed.

Lemma hex_of_cstring l : Forall is_byte l -> is_cstring (hex_of l).
Proof. intros H. eapply Forall_impl; [by apply hex_of_xdigits|]. apply isxdigit_char. Qed.

Lemma from_hex_byte_at pre b post :
  is_byte b -> Z.even (zlen pre) = true ->
  from_hex_byte (pre ++ show_hex2 b ++ post) (zlen pre / 2) = Ok b.
Proof.
  intros Hb Hev. unfold from_hex_byte.
  assert (zlen pre / 2 * 2 = zlen pre) as ->.
  { rewrite (Z.div_mod (zlen pre) 2) at 2 by lia. rewrite Zmod_even, Hev. lia. }
  unfold show_hex2. cbn [app]. rewrite (rd1_app pre _ _ (zlen pre)), bind_Ok by done.
  replace (pre ++ hex_digit (b / 16) :: hex_digit (b mod 16) :: post)
    with ((pre ++ [hex_digit (b / 16)]) ++ hex_digit (b mod 16) :: post)
    by (by rewrite <- app_assoc).
  rewrite rd1_app, bind_Ok by (rewrite zlen_app, zlen_cons, zlen_nil; lia).
  unfold is_byte in Hb.
  change [hex_digit (b / 16); hex_digit (b mod 16); 0]
    with ([hex_digit (b / 16); hex_digit (b mod 16)] ++ 0 :: []).
  rewrite cstr_of_app, bind_Ok.
  - change [hex_digit (b / 16); hex_digit (b mod 16)] with (show_hex2 b).
    rewrite strtol_show_hex2, wrap_small by (unfold is_byte; lia). done.
  - apply is_char_nonzero. change [hex_digit (b / 16); hex_digit (b mod 16)] with (hex_of [b]).
    apply hex_of_cstring. repeat constructor; lia.
Qed.

Lemma from_hex_loop_hex pre l post :
  Forall is_byte l -> Z.even (zlen pre) = true ->
  from_hex_loop (length l) (zlen pre / 2) (pre ++ hex_of l ++ post) = Ok l.
Proof.
  intros Hl. revert pre. induction Hl as [|b l Hb Hl IH]; intros pre Hev; [done|].
  cbn [length from_hex_loop]. rewrite hex_of_cons, <- app_assoc.
  rewrite from_hex_byte_at, bind_Ok by done.
  specialize (IH (pre ++ show_hex2 b)). rewrite <- app_assoc in IH.
  rewrite zlen_app, (Z.add_comm (zlen pre)) in IH.
  change (zlen (show_hex2 b)) with (1 * 2) in IH. rewrite Z.div_add_l in IH by lia.
  rewrite Z.add_comm, IH; [done|]. by rewrite Z.even_add, Hev.
Qed.

(** Hexadecimal is injective. *)
Lemma hex_of_inj l k : Forall is_byte l -> Forall is_byte k -> hex_of l = hex_of k -> l = k.
Proof.
  intros Hl Hk E.
  assert (length l = length k) as Elen.
  { apply (f_equal length) in E. rewrite !length_hex_of in E. lia. }
  pose proof (from_hex_loop_hex [] l [] Hl eq_refl) as H1.
  pose proof (from_hex_loop_hex [] k [] Hk eq_refl) as H2.
  rewrite E, Elen in H1. rewrite H2 in H1. by injection H1.
Qed.

Section HashingLemmas.
Context `{Nss, !NssLaws}.

Lemma do_hash_total src dst : digest_total -> do_hash src dst SEC_OID_SHA512 = (0, digest src).
Proof. intros Ht. unfold do_hash, digest. by destruct (Ht src) as [d ->]. Qed.

Lemma hash_loop_total n buf : digest_total -> hash_loop n buf = (0, Nat.iter n digest buf).
Proof.
  intros Ht. revert buf. induction n as [|n IH]; intros buf; [done|].
  cbn [hash_loop]. rewrite do_hash_total by done. cbn [Z.eqb negb].
  rewrite IH. by rewrite Nat.iter_succ_r.
Qed.

Lemma hash_loop_rc n buf rc buf' : hash_loop n buf = (rc, buf') -> rc = 0 \/ rc = - EINVAL.
Proof.
  revert buf. induction n as [|n IH]; intros buf; cbn; [intros [= <- _]; by left|].
  unfold do_hash. destruct (hash_buf SEC_OID_SHA512 buf); cbn; [apply IH|].
  intros [= <- _]. by right.
Qed.

Lemma hash_loop_length n buf rc buf' :
  length buf = 64%nat -> hash_loop n buf = (rc, buf') -> length buf' = 64%nat.
Proof.
  revert buf. induction n as [|n IH]; intros buf Hb; cbn; [by intros [= _ <-]|].
  unfold do_hash. destruct (hash_buf SEC_OID_SHA512 buf) as [d|] eqn:E; cbn.
  - apply IH. by apply hash_buf_length in E as [? _].
  - by intros [= _ <-].
Qed.

Lemma digest_length m : digest_total -> length (digest m) = 64%nat /\ Forall is_byte (digest m).
Proof.
  intros Ht. unfold digest. destruct (Ht m) as [d E]. rewrite E.
  by apply hash_buf_length in E.
Qed.

Lemma passphrase_key_length salt p :
  digest_total -> length (passphrase_key salt p) = 64%nat.
Proof.
  intros Ht. unfold passphrase_key.
  change (Z.to_nat ECRYPTFS_DEFAULT_NUM_HASH_ITERATIONS) with (Z.to_nat (Z.succ 65535)).
  rewrite Z2Nat.inj_succ by lia. cbn [Nat.iter]. by apply digest_length.
Qed.

(** The first digest and the loop of the code make up the key. *)
Lemma passphrase_key_loop salt p :
  Nat.iter (Z.to_nat (ECRYPTFS_DEFAULT_NUM_HASH_ITERATIONS - 1)) digest
    (digest (take 8 salt ++ p)) = passphrase_key salt p.
Proof.
  unfold passphrase_key.
  replace (Z.to_nat ECRYPTFS_DEFAULT_NUM_HASH_ITERATIONS)
    with (Z.to_nat (ECRYPTFS_DEFAULT_NUM_HASH_ITERATIONS - 1) + 1)%nat
    by (unfold ECRYPTFS_DEFAULT_NUM_HASH_ITERATIONS; lia).
  by rewrite Nat.iter_add.
Qed.
Opaque passphrase_key.

Lemma length_passphrase_sig_hex salt p :
  digest_total -> length (passphrase_sig_hex salt p) = 16%nat.
Proof.
  intros Ht. unfold passphrase_sig_hex. rewrite length_hex_of, length_take.
  destruct (digest_length (passphrase_key salt p) Ht) as [-> _]. done.
Qed.

Lemma passphrase_sig_hex_xdigits salt p :
  digest_total -> Forall (fun c => isxdigit c = true) (passphrase_sig_hex salt p).
Proof. intros Ht. by apply hex_of_xdigits, Forall_take, digest_length. Qed.

Lemma passphrase_sig_hex_cstring salt p :
  digest_total -> is_cstring (passphrase_sig_hex salt p).
Proof.
  intros Ht. eapply Forall_impl; [by apply passphrase_sig_hex_xdigits|]. apply isxdigit_char.
Qed.

(** Salt and passphrase are laid out without gap in the stack buffer. *)
Lemma salt_and_passphrase_layout salt p :
  8 <= zlen salt -> zlen p <= 64 ->
  (b1 ← wr (zeros 72) 0 (take 8 salt); b2 ← wr b1 8 p; rd b2 0 (8 + zlen p)) =
  Ok (take 8 salt ++ p).
Proof.
  intros Hs Hp. unfold zeros.
  assert (zlen (take 8 salt) = 8) as H8 by (rewrite zlen_take; lia).
  pose proof (zlen_nonneg p).
  change (Z.to_nat 72) with (8 + 64)%nat. rewrite replicate_add.
  pose proof (wr_app3 [] (replicate 8 0) (replicate 64 0) 0 (take 8 salt) eq_refl H8) as E1.
  cbn [app] in E1. rewrite E1, bind_Ok.
  replace 64%nat with (length p + (64 - length p))%nat by (unfold zlen in *; lia).
  rewrite replicate_add.
  rewrite (wr_app3 (take 8 salt) (replicate (length p) 0)) by (solve_len || done).
  rewrite bind_Ok, app_assoc, rd_prefix; [done|]. rewrite zlen_app. lia.
Qed.

Lemma to_hex_sig sig0 buf :
  length buf = 64%nat -> 17 <= zlen sig0 ->
  to_hex sig0 buf 8 = Ok (hex_of (take 8 buf) ++ [0] ++ drop 17 sig0).
Proof.
  intros Hb Hs. unfold to_hex. rewrite rd_ok by (unfold zlen; lia). rewrite bind_Ok.
  change (Z.to_nat 8) with 8%nat. change (Z.to_nat 0) with 0%nat. rewrite drop_0.
  assert (length (hex_of (take 8 buf)) = 16%nat) as H16
    by (rewrite length_hex_of, length_take; lia).
  rewrite wr_ok by (rewrite ?zlen_app; change (zlen [0]) with 1; unfold zlen in *; lia).
  change (Z.to_nat 0) with 0%nat. rewrite length_app, H16, <- app_assoc. done.
Qed.

(** The derivation in closed form, on the buffers its callers provide. *)
Lemma generate_passphrase_sig_ok sig0 fekek0 salt p :
  digest_total -> 17 <= zlen sig0 -> zlen fekek0 = 64 -> 8 <= zlen salt -> zlen p <= 64 ->
  generate_passphrase_sig sig0 fekek0 salt p =
  Ok (0, passphrase_sig_hex salt p ++ [0] ++ drop 17 sig0, passphrase_key salt p).
Proof.
  intros Ht Hsig Hf Hs Hp. unfold generate_passphrase_sig.
  change ECRYPTFS_MAX_PASSPHRASE_BYTES with 64. decide_test (64 <? zlen p).
  change ECRYPTFS_SALT_SIZE with 8. rewrite (rd_ok salt) by lia. rewrite bind_Ok.
  pose proof (salt_and_passphrase_layout salt p Hs Hp) as E.
  apply bind_ok_inv in E as (b1 & E1 & E). apply bind_ok_inv in E as (b2 & E2 & E).
  change (64 + 8) with 72. change (Z.to_nat 8) with 8%nat. rewrite drop_0.
  rewrite E1, bind_Ok, E2, bind_Ok, E, bind_Ok.
  rewrite do_hash_total by done. cbn [negb Z.eqb].
  rewrite hash_loop_total by done. cbn [negb Z.eqb].
  rewrite passphrase_key_loop.
  pose proof (passphrase_key_length salt p Ht) as Hk.
  change ECRYPTFS_MAX_KEY_BYTES with 64.
  rewrite rd_ok by (unfold zlen; lia). rewrite bind_Ok, drop_0.
  change (Z.to_nat 64) with 64%nat. rewrite take_ge by lia.
  assert (zlen (passphrase_key salt p) = zlen fekek0) as Hkf by (unfold zlen in *; lia).
  pose proof (wr_app3 [] fekek0 [] 0 (passphrase_key salt p) eq_refl Hkf) as E3.
  rewrite !app_nil_r in E3. cbn [app] in E3. rewrite E3, bind_Ok.
  rewrite do_hash_total by done. cbn [negb Z.eqb]. change ECRYPTFS_SIG_SIZE with 8.
  rewrite to_hex_sig; [reflexivity | by apply digest_length | exact Hsig].
Qed.
End HashingLemmas.
#[global] Opaque passphrase_key.

Lemma to_hex_ok dst src n :
  0 <= n <= zlen src -> 2 * n + 1 <= zlen dst ->
  to_hex dst src n =
  Ok (hex_of (take (Z.to_nat n) src) ++ [0] ++ drop (2 * Z.to_nat n + 1) dst).
Proof.
  intros Hn Hd. unfold to_hex. rewrite rd_ok by lia. rewrite bind_Ok.
  change (Z.to_nat 0) with 0%nat. rewrite drop_0.
  assert (length (hex_of (take (Z.to_nat n) src)) = (2 * Z.to_nat n)%nat) as Hl.
  { rewrite length_hex_of, length_take. unfold zlen in *. lia. }
  rewrite wr_ok by (rewrite ?zlen_app; change (zlen [0]) with 1; unfold zlen in *; lia).
  change (Z.to_nat 0) with 0%nat. rewrite length_app, Hl, <- app_assoc. done.
Qed.

Lemma generate_passphrase_sig_safe `{Nss, !NssLaws} sig0 fekek0 salt p :
  17 <= zlen sig0 -> zlen fekek0 = 64 -> 8 <= zlen salt ->
  exists rc sig fekek, generate_passphrase_sig sig0 fekek0 salt p = Ok (rc, sig, fekek) /\
    (rc = 0 \/ rc = - EINVAL) /\ zlen sig = zlen sig0 /\ zlen fekek = 64 /\
    (rc <> 0 -> sig = sig0) /\ (rc = 0 -> zlen p <= 64).
Proof.
  intros Hsig Hf Hs. unfold generate_passphrase_sig.
  change ECRYPTFS_MAX_PASSPHRASE_BYTES with 64. destruct (Z.ltb_spec 64 (zlen p)).
  { eexists _, _, _. split; [done|]. repeat split; auto; [lia..|done]. }
  change ECRYPTFS_SALT_SIZE with 8. rewrite (rd_ok salt) by lia. rewrite bind_Ok.
  pose proof (salt_and_passphrase_layout salt p Hs ltac:(lia)) as E.
  apply bind_ok_inv in E as (b1 & E1 & E). apply bind_ok_inv in E as (b2 & E2 & E).
  change (64 + 8) with 72. change (Z.to_nat 8) with 8%nat. rewrite drop_0.
  rewrite E1, bind_Ok, E2, bind_Ok, E, bind_Ok. unfold do_hash at 1.
  destruct (hash_buf SEC_OID_SHA512 (take 8 salt ++ p)) as [d|] eqn:Ed; cbn [negb Z.eqb Z.opp].
  2:{ eexists _, _, _. split; [done|]. repeat split; auto; done. }
  apply hash_buf_length in Ed as [Hd _].
  destruct (hash_loop _ d) as [rc buf] eqn:El.
  pose proof (hash_loop_rc _ _ _ _ El) as Hrc. apply hash_loop_length in El; [|done].
  destruct (Z.eqb_spec rc 0); cbn [negb]; [|eexists _, _, _; repeat split; eauto; done].
  change ECRYPTFS_MAX_KEY_BYTES with 64.
  rewrite rd_ok by (unfold zlen; lia). rewrite bind_Ok, drop_0.
  change (Z.to_nat 64) with 64%nat. rewrite take_ge by lia.
  assert (zlen buf = zlen fekek0) as Hkf by (unfold zlen in *; lia).
  pose proof (wr_app3 [] fekek0 [] 0 buf eq_refl Hkf) as E3.
  rewrite !app_nil_r in E3. cbn [app] in E3. rewrite E3, bind_Ok. unfold do_hash.
  destruct (hash_buf SEC_OID_SHA512 buf) as [d2|] eqn:Ed2; cbn [negb Z.eqb Z.opp].
  2:{ eexists _, _, _. split; [done|]. repeat split; auto; (lia || done). }
  apply hash_buf_length in Ed2 as [Hd2 _]. change ECRYPTFS_SIG_SIZE with 8.
  rewrite to_hex_sig, bind_Ok by done. eexists _, _, _. split; [done|].
  repeat split; auto; try lia; try done.
  rewrite !zlen_app. change (zlen [0]) with 1. rewrite zlen_drop. unfold zlen in *.
  rewrite length_hex_of, length_take. lia.
Qed.

(** ** Properties *)

(** C33. The key derivation is the specified one: on the buffers its callers
    provide and for a passphrase of at most 64 bytes, the key returned is the
    65536-fold digest of the first 8 salt bytes followed by the passphrase, and
    the signature is the hexadecimal form of 8 bytes of one more digest. *)
Theorem generate_passphrase_sig_correct `{Nss, !NssLaws} sig0 fekek0 salt p :
  digest_total -> 17 <= zlen sig0 -> zlen fekek0 = 64 -> 8 <= zlen salt -> zlen p <= 64 ->
  generate_passphrase_sig sig0 fekek0 salt p =
  Ok (0, passphrase_sig_hex salt p ++ [0] ++ drop 17 sig0, passphrase_key salt p).
Proof. apply generate_passphrase_sig_ok. Qed.

Lemma toy_digest_total : @digest_total toy_nss.
Proof. intros m. cbn. eauto. Qed.

Lemma generate_passphrase_sig_correct_witness :
  @generate_passphrase_sig toy_nss (zeros 17) (zeros 64) ECRYPTFS_DEFAULT_SALT_HEX (lit "secret") =
  Ok (0, @passphrase_sig_hex toy_nss ECRYPTFS_DEFAULT_SALT_HEX (lit "secret") ++ [0] ++ drop 17 (zeros 17),
      @passphrase_key toy_nss ECRYPTFS_DEFAULT_SALT_HEX (lit "secret")).
Proof.
  apply (@generate_passphrase_sig_correct toy_nss toy_nss_laws).
  - apply toy_digest_total.
  - vm_compute; congruence.
  - reflexivity.
  - vm_compute; congruence.
  - vm_compute; congruence.
Defined.

(** Deriving a key never faults and never fails half-way for the caller:
    whatever the digest library answers, on adequate buffers the function
    stays inside them, returns 0 or -EINVAL, leaves the signature untouched
    unless it returns 0, and returns 0 only for passphrases of at most 64
    bytes. *)
Theorem generate_passphrase_sig_total `{Nss, !NssLaws} sig0 fekek0 salt p :
  17 <= zlen sig0 -> zlen fekek0 = 64 -> 8 <= zlen salt ->
  exists rc sig fekek, generate_passphrase_sig sig0 fekek0 salt p = Ok (rc, sig, fekek) /\
    (rc = 0 \/ rc = - EINVAL) /\ zlen sig = zlen sig0 /\ zlen fekek = 64 /\
    (rc <> 0 -> sig = sig0) /\ (rc = 0 -> zlen p <= 64).
Proof. apply generate_passphrase_sig_safe. Qed.

Lemma generate_passphrase_sig_total_witness :
  exists rc sig fekek,
    @generate_passphrase_sig toy_nss (zeros 17) (zeros 64) (zeros 8) (zeros 70) = Ok (rc, sig, fekek) /\
    (rc = 0 \/ rc = - EINVAL) /\ zlen sig = zlen (zeros 17) /\ zlen fekek = 64 /\
    (rc <> 0 -> sig = zeros 17) /\ (rc = 0 -> zlen (zeros 70) <= 64).
Proof.
  apply (@generate_passphrase_sig_total toy_nss toy_nss_laws);
    first [reflexivity | vm_compute; congruence].
Defined.

(** [from_hex] inverts [to_hex]: whatever bytes are printed, reading the
    printed buffer back (terminator and rest of the buffer included) writes
    exactly those bytes. *)
Theorem from_hex_to_hex dst src n out dst' :
  Forall is_byte src -> 0 <= n <= zlen src -> 2 * n + 1 <= zlen dst ->
  to_hex dst src n = Ok out ->
  from_hex dst' out n = wr dst' 0 (take (Z.to_nat n) src).
Proof.
  intros Hb Hn Hd. rewrite to_hex_ok by done. intros E.
  assert (out = hex_of (take (Z.to_nat n) src) ++ [0] ++ drop (2 * Z.to_nat n + 1) dst) as ->
    by congruence.
  unfold from_hex.
  pose proof (from_hex_loop_hex [] (take (Z.to_nat n) src) ([0] ++ drop (2 * Z.to_nat n + 1) dst)
    ltac:(by apply Forall_take) eq_refl) as H.
  rewrite length_take in H. unfold zlen in Hn.
  rewrite Nat.min_l in H by lia. change (zlen (@nil Z) / 2) with 0 in H.
  rewrite app_nil_l in H. by rewrite H.
Qed.

Lemma from_hex_to_hex_witness :
  from_hex (zeros 3) (hex_of [1; 171; 255] ++ [0] ++ drop 7 (zeros 8)) 3 =
  wr (zeros 3) 0 (take (Z.to_nat 3) [1; 171; 255]).
Proof.
  apply (from_hex_to_hex (zeros 8) [1; 171; 255] 3).
  - repeat constructor; vm_compute; congruence.
  - vm_compute; split; congruence.
  - vm_compute; congruence.
  - vm_compute. reflexivity.
Defined.
