(* ===== verification/KeyMod.v ===== *)
(** * Key modules and their registry: [src/libecryptfs/key_mod.c] *)

From S2P Require Import Prelude CLib Ecryptfs.

(** ** [struct key_mod_param], [struct ecryptfs_key_mod_ops],
    [struct ecryptfs_key_mod]

    A member function that takes no argument is its result; one that fills
    buffers returns the code, the size it reports and the bytes it writes, and
    a boolean argument tells whether the buffer pointer is non-null.
    Transition nodes are opaque here. *)
Record key_mod_param := KeyModParam {
  kmp_id : Z;
  kmp_flags : Z;
  kmp_option : cstring;
  kmp_description : option cstring;
  kmp_suggested_val : option cstring;
  kmp_default_val : option cstring
}.

Definition trans_node_id := Z.

Record ecryptfs_key_mod_ops := KeyModOps {
  op_init : option (Z * option cstring);
  op_get_gen_key_params : option (Z * list key_mod_param);
  op_get_gen_key_subgraph_trans_node : option (Z -> Z * option trans_node_id);
  op_get_params : option (Z * list key_mod_param);
  op_get_param_subgraph_trans_node : option (Z -> Z * option trans_node_id);
  op_get_blob : option (bool -> list (option cstring) -> Z * Z * bytes);
  op_get_key_data : option (bool -> bytes -> Z * Z * bytes);
  op_get_key_sig : option (bytes -> Z * bytes);
  op_get_key_hint : option (bool -> bytes -> Z * Z * bytes);
  op_encrypt : option (bool -> bytes -> bytes -> Z -> Z * Z * bytes);
  op_decrypt : option (bool -> bytes -> bytes -> Z -> Z * Z * bytes);
  op_destroy : option (bytes -> Z);
  op_finalize : option Z
}.

Record ecryptfs_key_mod := KeyModEntry {
  km_lib_handle : option Z;
  km_alias : option cstring;
  km_lib_path : option cstring;
  km_ops : ecryptfs_key_mod_ops;
  km_param_vals : list (option cstring);
  km_blob : option bytes;
  km_blob_size : Z
}.

(** The part of [struct ecryptfs_ctx] the registry keeps: the list hanging off
    [key_mod_list_head]. *)
Definition key_mod_list := list ecryptfs_key_mod.

(** ** The dummy operations *)
Definition ecryptfs_dummy_init : Z * option cstring := (0, None).
Definition ecryptfs_dummy_get_gen_key_params : Z * list key_mod_param := (0, []).
Definition ecryptfs_dummy_get_gen_key_subgraph_trans_node (version : Z) : Z * option trans_node_id :=
  (0, None).
Definition ecryptfs_dummy_get_params : Z * list key_mod_param := (0, []).
Definition ecryptfs_dummy_get_param_subgraph_trans_node (version : Z) : Z * option trans_node_id :=
  (0, None).
Definition ecryptfs_dummy_get_blob (to : bool) (param_vals : list (option cstring)) : Z * Z * bytes :=
  (0, 0, []).
Definition ecryptfs_dummy_get_key_data (to : bool) (blob : bytes) : Z * Z * bytes := (0, 0, []).
Definition ecryptfs_dummy_get_key_sig (blob : bytes) : Z * bytes := (0, [0]).
Definition ecryptfs_dummy_get_key_hint (to : bool) (blob : bytes) : Z * Z * bytes := (0, 0, []).
Definition ecryptfs_dummy_encrypt (to : bool) (from blob : bytes) (blob_type : Z) : Z * Z * bytes :=
  (0, 0, []).
Definition ecryptfs_dummy_decrypt (to : bool) (from blob : bytes) (blob_type : Z) : Z * Z * bytes :=
  (0, 0, []).
Definition ecryptfs_dummy_destroy (blob : bytes) : Z := 0.
Definition ecryptfs_dummy_finalize : Z := 0.

(** [if (!ops->f) ops->f = &dummy], for every member. *)
Definition fill {A} (f : option A) (dummy : A) : option A :=
  match f with None => Some dummy | Some _ => f end.

Definition ecryptfs_fill_in_dummy_ops (ops : ecryptfs_key_mod_ops) : Z * ecryptfs_key_mod_ops :=
  (0, KeyModOps
    (fill (op_init ops) ecryptfs_dummy_init)
    (fill (op_get_gen_key_params ops) ecryptfs_dummy_get_gen_key_params)
    (fill (op_get_gen_key_subgraph_trans_node ops) ecryptfs_dummy_get_gen_key_subgraph_trans_node)
    (fill (op_get_params ops) ecryptfs_dummy_get_params)
    (fill (op_get_param_subgraph_trans_node ops) ecryptfs_dummy_get_param_subgraph_trans_node)
    (fill (op_get_blob ops) ecryptfs_dummy_get_blob)
    (fill (op_get_key_data ops) ecryptfs_dummy_get_key_data)
    (fill (op_get_key_sig ops) ecryptfs_dummy_get_key_sig)
    (fill (op_get_key_hint ops) ecryptfs_dummy_get_key_hint)
    (fill (op_encrypt ops) ecryptfs_dummy_encrypt)
    (fill (op_decrypt ops) ecryptfs_dummy_decrypt)
    (fill (op_destroy ops) ecryptfs_dummy_destroy)
    (fill (op_finalize ops) ecryptfs_dummy_finalize)).

(** [ecryptfs_generate_sig_from_key_data]: no key type is supported. *)
Definition ecryptfs_generate_sig_from_key_data (big_endian : bool) (key_data : bytes) : outcome Z :=
  w ← rd key_data 0 4;
  let key_type := ntoh big_endian 4 (host_val big_endian w) in
  match key_type with
  | _ => mret (- EINVAL)
  end.

(** ** Registration

    A directory entry carries what the dynamic linker answers for it:
    [dlopen], then [dlsym] of [get_key_mod_ops], then the call. *)
Record dirent := Dirent {
  d_name : cstring;
  d_dlopen : option Z;
  d_get_key_mod_ops : option (option ecryptfs_key_mod_ops)
}.

Definition is_shared_object (name : cstring) : bool :=
  negb (zlen name <? 3) && streq (drop (length name - 3) name) (lit ".so").

(** How one entry of the directory is handled. *)
Inductive entry_result :=
  | ESkip
  | EAdd (m : ecryptfs_key_mod)
  | EFail (rc : Z).

Section Registry.
Context `{Heap} (key_mod_dir : cstring).

Definition register_entry (k : nat) (ep : dirent) : outcome entry_result :=
  if negb (is_shared_object (d_name ep)) then mret ESkip
  else if negb (alloc_ok 273 k) then mret (EFail (- ENOMEM))
  else
    let path := key_mod_dir ++ lit "/" ++ d_name ep in
    match d_dlopen ep with
    | None => mret ESkip
    | Some handle =>
        match d_get_key_mod_ops ep with
        | None => mret ESkip
        | Some get_key_mod_ops =>
            if negb (alloc_ok 294 k) then mret (EFail (- ENOMEM))
            else match get_key_mod_ops with
            | None => mret ESkip
            | Some ops =>
                let '(rc, ops) := ecryptfs_fill_in_dummy_ops ops in
                if negb (rc =? 0) then mret ESkip
                else
                  '(rc, alias) ← call (op_init ops);
                  if negb (rc =? 0) then mret ESkip
                  else mret (EAdd (KeyModEntry (Some handle) alias (Some path) ops [] None 0))
            end
        end
    end.

(** [while ((ep = readdir(dp)))]: the modules appended, and the code of an
    early exit. *)
Fixpoint register_dir (k : nat) (entries : list dirent) (mods : key_mod_list)
    : outcome (option Z * key_mod_list) :=
  match entries with
  | [] => mret (None, mods)
  | ep :: entries' =>
      r ← register_entry k ep;
      match r with
      | ESkip => register_dir (S k) entries' mods
      | EAdd m => register_dir (S k) entries' (mods ++ [m])
      | EFail rc => mret (Some rc, mods)
      end
  end.

(** The walk over the registered modules for the alias of a built-in one;
    [strcmp] needs both aliases. *)
Fixpoint alias_registered (mods : key_mod_list) (alias : option cstring) : outcome bool :=
  match mods with
  | [] => mret false
  | m :: mods' =>
      match km_alias m, alias with
      | Some a, Some b => if streq a b then mret true else alias_registered mods' alias
      | _, _ => UB NullDeref
      end
  end.

(** The loop over [builtin_get_key_mod_ops]; the missing operations of a
    built-in module are not filled in. *)
Fixpoint register_builtins (i : nat) (builtins : list (option ecryptfs_key_mod_ops))
    (mods : key_mod_list) : outcome (Z * key_mod_list) :=
  match builtins with
  | [] => mret (0, mods)
  | walker :: builtins' =>
      if negb (alloc_ok 340 i) then mret (- ENOMEM, mods)
      else match walker with
      | None => register_builtins (S i) builtins' mods
      | Some ops =>
          '(rc, alias) ← call (op_init ops);
          if negb (rc =? 0) then register_builtins (S i) builtins' mods
          else
            dup ← alias_registered mods alias;
            register_builtins (S i) builtins'
              (if dup then mods else mods ++ [KeyModEntry None alias None ops [] None 0])
      end
  end.

(** [builtins] are the results of the functions of [builtin_get_key_mod_ops];
    [dir] is what [opendir] and [readdir] give; the context starts empty. *)
Definition ecryptfs_register_key_modules (builtins : list (option ecryptfs_key_mod_ops))
    (dir : option (list dirent)) : outcome (Z * key_mod_list) :=
  if negb (alloc_ok 250 0) then mret (- ENOMEM, [])
  else match dir with
  | None => mret (- EPERM, [])
  | Some entries =>
      '(exit, mods) ← register_dir 0 entries [];
      match exit with
      | Some rc => mret (rc, mods)
      | None => register_builtins 0 builtins mods
      end
  end.
End Registry.

(** The first module whose alias is a prefix of the wanted name. *)
Fixpoint ecryptfs_find_key_mod (mods : key_mod_list) (key_mod_alias : cstring)
    : outcome (option ecryptfs_key_mod) :=
  match mods with
  | [] => mret None
  | curr :: mods' =>
      match km_alias curr with
      | None => UB NullDeref
      | Some a =>
          if prefixb a key_mod_alias then mret (Some curr)
          else ecryptfs_find_key_mod mods' key_mod_alias
      end
  end.

(** [ecryptfs_free_key_mod_list]: the calls it makes, in order, and the list
    it leaves. *)
Inductive unload := Finalize (alias : option cstring) | Dlclose (handle : option Z).

Fixpoint ecryptfs_free_key_mod_list (mods : key_mod_list) : outcome (list unload * key_mod_list) :=
  match mods with
  | [] => mret ([], [])
  | curr :: mods' =>
      _ ← call (op_finalize (km_ops curr));
      '(log, rest) ← ecryptfs_free_key_mod_list mods';
      mret (Finalize (km_alias curr) :: Dlclose (km_lib_handle curr) :: log, rest)
  end.

(** ** The built-in passphrase module
    ([src/key_mod/ecryptfs_key_mod_passphrase.c]) *)
Section Passphrase.
Context `{Heap} (passphrase_transition : trans_node_id).

Definition ecryptfs_passphrase_init : Z * option cstring :=
  if alloc_ok 284 0 then (0, Some (lit "passphrase")) else (- ENOMEM, None).

Definition ecryptfs_passphrase_get_param_subgraph_trans_node (version : Z)
    : Z * option trans_node_id :=
  if Z.land version ECRYPTFS_VERSIONING_PASSPHRASE =? 0 then (-1, None)
  else (0, Some passphrase_transition).

Definition ecryptfs_passphrase_ops : ecryptfs_key_mod_ops :=
  KeyModOps (Some ecryptfs_passphrase_init) None None None
    (Some ecryptfs_passphrase_get_param_subgraph_trans_node)
    None None None None None None (Some (fun _ => 0)) (Some 0).
End Passphrase.

(** ** Reference: the module one directory entry stands for *)
Definition module_of_entry (key_mod_dir : cstring) (ep : dirent) : option ecryptfs_key_mod :=
  if is_shared_object (d_name ep) then
    match d_dlopen ep, d_get_key_mod_ops ep with
    | Some handle, Some (Some ops) =>
        let ops' := (ecryptfs_fill_in_dummy_ops ops).2 in
        match op_init ops' with
        | Some (rc, alias) =>
            if rc =? 0
            then Some (KeyModEntry (Some handle) alias
                         (Some (key_mod_dir ++ lit "/" ++ d_name ep)) ops' [] None 0)
            else None
        | None => None
        end
    | _, _ => None
    end
  else None.

Definition has_alias (a : cstring) (m : ecryptfs_key_mod) : bool :=
  match km_alias m with Some b => streq b a | None => false end.

(** Every operation of the module is present. *)
Definition ops_complete (ops : ecryptfs_key_mod_ops) : Prop :=
  is_Some (op_init ops) /\ is_Some (op_get_gen_key_params ops) /\
  is_Some (op_get_gen_key_subgraph_trans_node ops) /\ is_Some (op_get_params ops) /\
  is_Some (op_get_param_subgraph_trans_node ops) /\ is_Some (op_get_blob ops) /\
  is_Some (op_get_key_data ops) /\ is_Some (op_get_key_sig ops) /\
  is_Some (op_get_key_hint ops) /\ is_Some (op_encrypt ops) /\ is_Some (op_decrypt ops) /\
  is_Some (op_destroy ops) /\ is_Some (op_finalize ops).

(** ** Lemmas *)
Lemma fill_some {A} (f : option A) d : is_Some (fill f d).
Proof. destruct f; cbn; eauto. Qed.

Lemma fill_keeps {A} (f : option A) g d : f = Some g -> fill f d = Some g.
Proof. by intros ->. Qed.

Lemma fill_in_complete ops : ops_complete (ecryptfs_fill_in_dummy_ops ops).2.
Proof. unfold ops_complete. cbn. eauto 15 using fill_some. Qed.

Lemma register_entry_spec `{Heap} dir k ep :
  heap_never_fails ->
  register_entry dir k ep =
  Ok (match module_of_entry dir ep with Some m => EAdd m | None => ESkip end).
Proof.
  intros Hh. unfold register_entry, module_of_entry.
  destruct (is_shared_object _); [|done]. rewrite !Hh. cbn [negb].
  destruct (d_dlopen ep), (d_get_key_mod_ops ep) as [[ops|]|]; try done.
  cbn -[Z.eqb]. destruct (fill_some (op_init ops) ecryptfs_dummy_init) as [[rc alias] ->].
  cbn. by destruct (rc =? 0).
Qed.

Lemma register_dir_spec `{Heap} dir k entries mods :
  heap_never_fails ->
  register_dir dir k entries mods = Ok (None, mods ++ omap (module_of_entry dir) entries).
Proof.
  intros Hh. revert k mods. induction entries as [|ep entries IH]; intros k mods; cbn.
  { by rewrite app_nil_r. }
  rewrite register_entry_spec by done. cbn. destruct (module_of_entry dir ep); [|apply IH].
  by rewrite IH, <- app_assoc.
Qed.

Lemma alias_registered_spec mods b :
  Forall (fun m => is_Some (km_alias m)) mods ->
  alias_registered mods (Some b) = Ok (existsb (has_alias b) mods).
Proof.
  induction 1 as [|m mods [a Ha] _ IH]; [done|]. cbn. unfold has_alias at 1.
  rewrite Ha. destruct (streq a b); [done|]. by rewrite IH.
Qed.

Lemma alias_registered_null mods b m :
  m ∈ mods -> km_alias m = None -> existsb (has_alias b) mods = false ->
  alias_registered mods (Some b) = UB NullDeref.
Proof.
  induction mods as [|m' mods IH]; [by intros ?%not_elem_of_nil|].
  intros Hin Hm. cbn. unfold has_alias at 1. rewrite orb_false_iff. intros [H1 H2].
  destruct (km_alias m') as [a|] eqn:Ha; [|done]. rewrite H1.
  apply IH; [|done..]. apply elem_of_cons in Hin as [->|]; [congruence | done].
Qed.

(** ** Properties *)

(** Registration keeps, in directory order, exactly the shared objects
    that load, export the entry point and initialise, each with every missing
    operation filled in, and appends the built-in passphrase module unless a
    loaded module already has its alias; the result is 0. *)
Theorem register_key_modules_correct `{Heap} dir trans entries :
  heap_never_fails ->
  let loaded := omap (module_of_entry dir) entries in
  Forall (fun m => is_Some (km_alias m)) loaded ->
  ecryptfs_register_key_modules dir [Some (ecryptfs_passphrase_ops trans)] (Some entries) =
  Ok (0, loaded ++ if existsb (has_alias (lit "passphrase")) loaded then []
                   else [KeyModEntry None (Some (lit "passphrase")) None
                           (ecryptfs_passphrase_ops trans) [] None 0]) /\
  Forall (fun m => ops_complete (km_ops m)) loaded.
Proof.
  intros Hh loaded Hal. split.
  - unfold ecryptfs_register_key_modules. rewrite Hh, register_dir_spec by done. cbn -[lit].
    rewrite Hh. cbn -[lit]. unfold ecryptfs_passphrase_init. rewrite Hh. cbn -[lit].
    fold loaded. rewrite alias_registered_spec by done. cbn -[lit].
    destruct (existsb _ loaded); by rewrite ?app_nil_r.
  - subst loaded. clear. induction entries as [|ep entries IH]; cbn; [constructor|].
    destruct (module_of_entry dir ep) as [m|] eqn:E; [|done]. constructor; [|done].
    unfold module_of_entry in E.
    repeat case_match; simplify_eq. apply fill_in_complete.
Qed.

Definition sample_ops : ecryptfs_key_mod_ops :=
  KeyModOps (Some (0, Some (lit "tspi"))) None None None None None None None None None None None None.
Definition sample_dir : list dirent :=
  [ Dirent (lit "README") None None;
    Dirent (lit "libecryptfs_key_mod_tspi.so") (Some 5) (Some (Some sample_ops));
    Dirent (lit "broken.so") None None ].

Lemma register_key_modules_correct_witness :
  let loaded := omap (module_of_entry (lit "/lib")) sample_dir in
  length loaded = 1%nat /\
  @ecryptfs_register_key_modules plenty (lit "/lib") [Some (@ecryptfs_passphrase_ops plenty 1)]
    (Some sample_dir) =
  Ok (0, loaded ++ if existsb (has_alias (lit "passphrase")) loaded then []
                   else [KeyModEntry None (Some (lit "passphrase")) None
                           (@ecryptfs_passphrase_ops plenty 1) [] None 0]).
Proof.
  split; [reflexivity|].
  apply (@register_key_modules_correct plenty (lit "/lib") 1 sample_dir).
  - intros line k. reflexivity.
  - cbn. repeat constructor. eauto.
Defined.

(** A key module without an [init] operation crashes registration: the
    dummy [init] leaves a null alias, which the search for a duplicate of the
    built-in module dereferences. *)
Theorem register_without_init_crashes `{Heap} dir trans entries m :
  heap_never_fails ->
  let loaded := omap (module_of_entry dir) entries in
  m ∈ loaded -> op_init (km_ops m) = Some ecryptfs_dummy_init -> km_alias m = None ->
  existsb (has_alias (lit "passphrase")) loaded = false ->
  ecryptfs_register_key_modules dir [Some (ecryptfs_passphrase_ops trans)] (Some entries) =
  UB NullDeref.
Proof.
  intros Hh loaded Hin _ Hm Hno.
  unfold ecryptfs_register_key_modules. rewrite Hh, register_dir_spec by done. cbn -[lit].
  rewrite Hh. cbn -[lit]. unfold ecryptfs_passphrase_init. rewrite Hh. cbn -[lit].
  fold loaded. by rewrite (alias_registered_null loaded _ m) by done.
Qed.

Definition no_init_dir : list dirent :=
  [ Dirent (lit "old.so") (Some 5)
      (Some (Some (KeyModOps None None None None None None None None None None None None None))) ].

Lemma register_without_init_crashes_witness :
  @ecryptfs_register_key_modules plenty (lit "/lib") [Some (@ecryptfs_passphrase_ops plenty 1)]
    (Some no_init_dir) = UB NullDeref.
Proof.
  eapply (@register_without_init_crashes plenty (lit "/lib") 1 no_init_dir).
  - intros line k. reflexivity.
  - cbn. left.
  - reflexivity.
  - reflexivity.
  - reflexivity.
Defined.

(** Module lookup is by prefix: it returns the first registered module
    whose alias is a prefix of the wanted name, and nothing exactly when no
    alias is one. *)
Theorem find_key_mod_correct mods name r :
  ecryptfs_find_key_mod mods name = Ok r ->
  match r with
  | Some m => exists l1 l2 a, mods = l1 ++ m :: l2 /\ km_alias m = Some a /\
      prefixb a name = true /\
      Forall (fun m' => exists a', km_alias m' = Some a' /\ prefixb a' name = false) l1
  | None => Forall (fun m' => exists a', km_alias m' = Some a' /\ prefixb a' name = false) mods
  end.
Proof.
  induction mods as [|m mods IH]; cbn; [intros [= <-]; constructor|].
  destruct (km_alias m) as [a|] eqn:Ha; [|done].
  destruct (prefixb a name) eqn:Hp.
  - intros [= <-]. exists [], mods, a. eauto.
  - intros H. specialize (IH H). destruct r as [m'|].
    + destruct IH as (l1 & l2 & b & -> & Hb & Hpb & Hl1).
      exists (m :: l1), l2, b. split; [done|]. split; [done|]. split; [done|].
      constructor; eauto.
    + constructor; eauto.
Qed.

Lemma find_key_mod_correct_witness :
  let mods := omap (module_of_entry (lit "/lib")) sample_dir in
  match mods with
  | m :: _ => exists l1 l2 a, mods = l1 ++ m :: l2 /\ km_alias m = Some a /\
      prefixb a (lit "tspi-2") = true /\
      Forall (fun m' => exists a', km_alias m' = Some a' /\ prefixb a' (lit "tspi-2") = false) l1
  | [] => True
  end.
Proof.
  cbn [omap list_omap sample_dir].
  exact (find_key_mod_correct (omap (module_of_entry (lit "/lib")) sample_dir) (lit "tspi-2") (Some _) eq_refl).
Defined.
