(* ===== verification/PacketLength.v ===== *)
(** * The variable-length encoding of packet lengths:
    [ecryptfs_write_packet_length] and [ecryptfs_parse_packet_length] of
    [src/libecryptfs/messaging.c] *)

From S2P Require Import Prelude CLib Ecryptfs.

(** The buffer, the result code and the number of bytes written; sizes are
    [size_t], and a [char] keeps the low eight bits of what is stored. *)
Definition ecryptfs_write_packet_length (dest : bytes) (off size : Z)
    : outcome (Z * bytes * Z) :=
  if size <? 192 then
    dest ← wr dest off [u8 size];
    mret (0, dest, 1)
  else if size <? 65536 then
    dest ← wr dest off [u8 ((size - 192) / 256 + 192)];
    dest ← wr dest (off + 1) [u8 ((size - 192) mod 256)];
    mret (0, dest, 2)
  else mret (- EINVAL, dest, 0).

(** The result code, [*size] and [*length_size]. *)
Definition ecryptfs_parse_packet_length (data : bytes) (off : Z) : outcome (Z * Z * Z) :=
  d0 ← rd1 data off;
  if d0 <? 192 then mret (0, d0, 1)
  else if d0 <? 224 then
    d1 ← rd1 data (off + 1);
    mret (0, (d0 - 192) * 256 + (d1 + 192), 2)
  else if d0 =? 255 then mret (- EINVAL, 0, 0)
  else mret (- EINVAL, 0, 0).

(** The bytes of the encoding. *)
Definition packet_length_bytes (size : Z) : bytes :=
  if size <? 192 then [size]
  else [u8 ((size - 192) / 256 + 192); u8 ((size - 192) mod 256)].

(** ** Lemmas *)
Lemma packet_length_bytes_length size :
  zlen (packet_length_bytes size) = if size <? 192 then 1 else 2.
Proof. unfold packet_length_bytes. by case_match. Qed.

Lemma packet_length_bytes_are_bytes size :
  0 <= size < 65536 -> Forall is_byte (packet_length_bytes size).
Proof.
  intros H. unfold packet_length_bytes, wrap, is_byte.
  case_match; repeat constructor; to_prop; try apply Z.mod_pos_bound; lia.
Qed.

Lemma write_packet_length_ok pre old post off size :
  0 <= size < 65536 -> off = zlen pre -> zlen old = zlen (packet_length_bytes size) ->
  ecryptfs_write_packet_length (pre ++ old ++ post) off size =
  Ok (0, pre ++ packet_length_bytes size ++ post, zlen (packet_length_bytes size)).
Proof.
  intros Hs -> Ho. unfold ecryptfs_write_packet_length, packet_length_bytes in *.
  destruct (Z.ltb_spec size 192).
  - rewrite wrap_small by lia. by rewrite (wr_app3 pre old) by done.
  - replace (size <? 65536) with true by lia.
    destruct old as [|o1 [|o2 [|]]]; try (exfalso; unfold zlen in Ho; cbn in Ho; lia).
    rewrite (wr_app3 pre [o1] (o2 :: post)) by done. rewrite bind_Ok.
    pose proof (wr_app3 (pre ++ [u8 ((size - 192) / 256 + 192)]) [o2] post (zlen pre + 1)
      [u8 ((size - 192) mod 256)] ltac:(by rewrite zlen_app) eq_refl) as E.
    rewrite <- !app_assoc in E. cbn [app] in *. rewrite E. done.
Qed.

Lemma write_packet_length_too_big dest off size :
  65536 <= size -> ecryptfs_write_packet_length dest off size = Ok (- EINVAL, dest, 0).
Proof.
  intros H. unfold ecryptfs_write_packet_length.
  replace (size <? 192) with false by lia. by replace (size <? 65536) with false by lia.
Qed.

(** The largest length the parser understands is [31 * 256 + 255 + 192]. *)
Lemma parse_packet_length_ok pre post off size :
  0 <= size <= 8383 -> off = zlen pre ->
  ecryptfs_parse_packet_length (pre ++ packet_length_bytes size ++ post) off =
  Ok (0, size, zlen (packet_length_bytes size)).
Proof.
  intros Hs ->. unfold ecryptfs_parse_packet_length, packet_length_bytes.
  destruct (Z.ltb_spec size 192).
  - cbn [app]. rewrite rd1_app, bind_Ok by done. by replace (size <? 192) with true by lia.
  - assert (0 <= (size - 192) / 256 < 32) by lia.
    rewrite !wrap_small by lia. cbn [app]. rewrite rd1_app, bind_Ok by done.
    replace ((size - 192) / 256 + 192 <? 192) with false by lia.
    replace ((size - 192) / 256 + 192 <? 224) with true by lia.
    replace (pre ++ (size - 192) / 256 + 192 :: (size - 192) mod 256 :: post)
      with ((pre ++ [(size - 192) / 256 + 192]) ++ (size - 192) mod 256 :: post)
      by (by rewrite <- app_assoc).
    rewrite rd1_app, bind_Ok by (by rewrite zlen_app). unfold mret, outcome_ret.
    do 3 f_equal. lia.
Qed.

(** Everything the parser can answer on a block of bytes. *)
Lemma parse_packet_length_inv data off rc size len :
  Forall is_byte data -> ecryptfs_parse_packet_length data off = Ok (rc, size, len) ->
  (rc = - EINVAL /\ size = 0 /\ len = 0) \/
  (rc = 0 /\ 0 <= size < 192 /\ len = 1) \/
  (rc = 0 /\ 192 <= size <= 8383 /\ len = 2).
Proof.
  intros Hb. unfold ecryptfs_parse_packet_length, rd1.
  destruct (0 <=? off); [|done].
  destruct (data !! Z.to_nat off) as [d0|] eqn:E0; [|done]. cbn [obind].
  pose proof (Forall_lookup_1 _ _ _ _ Hb E0) as B0. unfold is_byte in B0.
  destruct (Z.ltb_spec d0 192).
  { intros [= <- <- <-]. right; left. lia. }
  destruct (Z.ltb_spec d0 224).
  2:{ destruct (d0 =? 255); intros [= <- <- <-]; by left. }
  destruct (0 <=? off + 1); [|done].
  destruct (data !! Z.to_nat (off + 1)) as [d1|] eqn:E1; [|done]. cbn [obind].
  pose proof (Forall_lookup_1 _ _ _ _ Hb E1) as B1. unfold is_byte in B1.
  intros [= <- <- <-]. right; right. lia.
Qed.

(** An accepted encoding is the canonical one of its length. *)
Lemma parse_packet_length_canonical data off size len :
  Forall is_byte data -> ecryptfs_parse_packet_length data off = Ok (0, size, len) ->
  0 <= size <= 8383 /\ len = zlen (packet_length_bytes size) /\
  exists pre post, data = pre ++ packet_length_bytes size ++ post /\ zlen pre = off.
Proof.
  intros Hb E.
  destruct (parse_packet_length_inv _ _ _ _ _ Hb E) as [[? _]|Hcase]; [done|].
  rewrite packet_length_bytes_length.
  unfold ecryptfs_parse_packet_length, rd1 in E.
  destruct (Z.leb_spec 0 off); [|done].
  destruct (data !! Z.to_nat off) as [d0|] eqn:E0; [|done]. cbn [obind] in E.
  pose proof (Forall_lookup_1 _ _ _ _ Hb E0) as B0. unfold is_byte in B0.
  apply take_drop_middle in E0 as H0. pose proof (lookup_lt_Some _ _ _ E0) as Hlt.
  assert (zlen (take (Z.to_nat off) data) = off) as Hpre by (rewrite zlen_take; unfold zlen; lia).
  destruct (Z.ltb_spec d0 192).
  { injection E as <- <-. split; [lia|]. replace (d0 <? 192) with true by lia. split; [done|].
    exists (take (Z.to_nat off) data), (drop (S (Z.to_nat off)) data). split; [|done].
    unfold packet_length_bytes. replace (d0 <? 192) with true by lia. done. }
  destruct (Z.ltb_spec d0 224); [|by destruct (d0 =? 255)].
  destruct (0 <=? off + 1); [|done].
  destruct (data !! Z.to_nat (off + 1)) as [d1|] eqn:E1; [|done]. cbn [obind] in E.
  pose proof (Forall_lookup_1 _ _ _ _ Hb E1) as B1. unfold is_byte in B1.
  injection E as <- <-.
  assert (((d0 - 192) * 256 + (d1 + 192) <? 192) = false) as Hge by lia.
  split; [lia|]. rewrite Hge. split; [done|].
  exists (take (Z.to_nat off) data), (drop (S (S (Z.to_nat off))) data). split; [|done].
  unfold packet_length_bytes. rewrite Hge.
  replace ((d0 - 192) * 256 + (d1 + 192) - 192) with (d1 + (d0 - 192) * 256) by lia.
  rewrite Z.div_add, Z.mod_add, (Z.div_small d1), (Z.mod_small d1) by lia.
  rewrite !wrap_small by lia. replace (0 + (d0 - 192) + 192) with d0 by lia.
  cbn [app]. rewrite <- H0 at 1. do 2 f_equal.
  replace (Z.to_nat (off + 1)) with (S (Z.to_nat off)) in E1 by lia.
  by apply drop_S.
Qed.

(** ** Properties *)

(** A packet length of at most 8383 that is written somewhere in a buffer
    is read back, with the number of bytes it occupies, whatever surrounds it. *)
Theorem packet_length_roundtrip pre old post off size dest len :
  0 <= size <= 8383 -> off = zlen pre -> zlen old = zlen (packet_length_bytes size) ->
  ecryptfs_write_packet_length (pre ++ old ++ post) off size = Ok (0, dest, len) ->
  ecryptfs_parse_packet_length dest off = Ok (0, size, len).
Proof.
  intros Hs Hoff Ho. rewrite write_packet_length_ok by (lia || done).
  intros E. assert (dest = pre ++ packet_length_bytes size ++ post) as -> by congruence.
  rewrite parse_packet_length_ok by done. congruence.
Qed.

Lemma packet_length_roundtrip_witness :
  ecryptfs_parse_packet_length [1; 193; 44; 9] 1 = Ok (0, 492, 2).
Proof.
  apply (packet_length_roundtrip [1] [7; 8] [9] 1 492 [1; 193; 44; 9] 2);
    first [reflexivity | split; vm_compute; congruence].
Defined.

(** The writer accepts lengths the parser cannot read: from 8384 up to
    65535 it reports success, but what it writes is never read back as that
    length. *)
Theorem packet_length_unreadable pre old post off size :
  8384 <= size < 65536 -> off = zlen pre -> zlen old = 2 ->
  exists dest, ecryptfs_write_packet_length (pre ++ old ++ post) off size = Ok (0, dest, 2) /\
    forall len, ecryptfs_parse_packet_length dest off <> Ok (0, size, len).
Proof.
  intros Hs -> Ho. eexists. split.
  { rewrite write_packet_length_ok; [|lia|done|].
    all: rewrite packet_length_bytes_length; replace (size <? 192) with false by lia.
    - reflexivity.
    - exact Ho. }
  intros len E. unfold ecryptfs_parse_packet_length, packet_length_bytes in E.
  replace (size <? 192) with false in E by lia. cbn [app] in E.
  rewrite rd1_app, bind_Ok in E by done.
  assert (u8 ((size - 192) / 256 + 192) < 192 \/ 224 <= u8 ((size - 192) / 256 + 192)) as Hd0
    by (unfold wrap; change (2 ^ 8) with 256; lia).
  set (d0 := u8 ((size - 192) / 256 + 192)) in *. clearbody d0. unfold mret, outcome_ret in E.
  destruct (Z.ltb_spec d0 192).
  { assert (d0 = size) by congruence. lia. }
  replace (d0 <? 224) with false in E by lia.
  destruct (d0 =? 255); injection E; lia.
Qed.

Lemma packet_length_unreadable_witness :
  exists dest, ecryptfs_write_packet_length ([] ++ [0; 0] ++ []) 0 20000 = Ok (0, dest, 2) /\
    forall len, ecryptfs_parse_packet_length dest 0 <> Ok (0, 20000, len).
Proof.
  apply (packet_length_unreadable [] [0; 0] [] 0 20000);
    first [reflexivity | split; vm_compute; congruence].
Defined.
