(* ===== verification/Packets.v ===== *)
(** * Requests of the kernel: [src/libecryptfs/packets.c]

    The kernel asks the daemon to decrypt (tag 64) or encrypt (tag 66) a
    session key with the key module of the token whose signature it sends; the
    daemon replies with a tag 65 or 67 packet. *)

From S2P Require Import Prelude CLib Ecryptfs PacketLength KeyMod.

Definition ECRYPTFS_PACKET_STATUS_GOOD : Z := 0.
Definition ECRYPTFS_PACKET_STATUS_BAD : Z := -1.
Definition ECRYPTFS_BLOB_TYPE_BLOB : Z := 0.

(** The user keyring: [request_key] gives a serial number or a negative
    value, [keyctl_read_alloc] the payload of a key in a fresh block that it
    ends with a NUL. *)
Class Keyring := {
  request_key : cstring -> Z;
  keyctl_read : Z -> option bytes
}.

(** Layout of [struct ecryptfs_auth_tok] as [private_key]. *)
Definition sizeof_ecryptfs_auth_tok : Z := 740.
Definition offsetof_private_key_data_len : Z := 632.
Definition offsetof_private_key_alias : Z := 653.
Definition offsetof_private_key_data : Z := 670.

(** [struct ecryptfs_message] in memory: index, data length, data. *)
Definition offsetof_data_len : Z := 4.
Definition offsetof_data : Z := 8.

Section Packets.
Context `{Heap, Keyring} (big_endian : bool).

Definition keyctl_read_alloc (serial : Z) : ptr :=
  match keyctl_read serial with Some payload => PLive (payload ++ [0]) | None => PNull end.

(** The module that the token's alias names; without modules the alias is not
    looked at. *)
Definition find_token_key_mod (mods : key_mod_list) (auth_tok : ptr)
    : outcome (option ecryptfs_key_mod) :=
  match mods with
  | [] => mret None
  | _ =>
      t ← deref auth_tok;
      alias ← cstr_of (drop (Z.to_nat offsetof_private_key_alias) t);
      ecryptfs_find_key_mod mods alias
  end.

(** What [key_mod_encrypt] and [key_mod_decrypt] do: ask the module for the
    size, allocate at line [line], let the module fill the block, and refuse
    more than [max] bytes.  The result is the code, the pointer left in
    [*encrypted_key] (freed on the last refusal) and [*encrypted_key_size]. *)
Definition key_mod_crypt (line max : Z)
    (op : ecryptfs_key_mod_ops -> option (bool -> bytes -> bytes -> Z -> Z * Z * bytes))
    (k : nat) (mods : key_mod_list) (auth_tok : ptr) (key : bytes) : outcome (Z * ptr * Z) :=
  key_mod ← find_token_key_mod mods auth_tok;
  match key_mod with
  | None => mret (- EINVAL, PNull, 0)
  | Some key_mod =>
      t ← deref auth_tok;
      let blob := drop (Z.to_nat offsetof_private_key_data) t in
      f ← call (op (km_ops key_mod));
      let '(rc, size, _) := f false key blob ECRYPTFS_BLOB_TYPE_BLOB in
      if negb (rc =? 0) then mret (rc, PNull, size)
      else if size =? 0 then mret (- EINVAL, PNull, size)
      else if negb (alloc_ok line k) then mret (- ENOMEM, PNull, size)
      else
        let buf := malloc_block heap_junk size in
        let '(rc, size, out) := f true key blob ECRYPTFS_BLOB_TYPE_BLOB in
        buf ← wr buf 0 out;
        if negb (rc =? 0) then mret (rc, PLive buf, size)
        else if max <? size then mret (- EINVAL, PFreed, 0)
        else mret (0, PLive buf, size)
  end.

Definition key_mod_encrypt := key_mod_crypt 88 ECRYPTFS_MAX_ENCRYPTED_KEY_BYTES op_encrypt.
Definition key_mod_decrypt := key_mod_crypt 144 ECRYPTFS_MAX_KEY_BYTES op_decrypt.

(** The writers of replies give the result code and [*reply]. *)
Definition write_failure_packet (k : nat) (tag : Z) : outcome (Z * ptr) :=
  if negb (alloc_ok 176 k) then mret (- ENOMEM, PNull)
  else
    let reply := malloc_block heap_junk (sizeof_ecryptfs_message + 2) in
    reply ← wr reply offsetof_data [u8 tag];
    reply ← wr reply (offsetof_data + 1) [u8 ECRYPTFS_PACKET_STATUS_BAD];
    reply ← wr reply offsetof_data_len (host_bytes big_endian 4 2);
    mret (0, PLive reply).

Definition write_tag_65_packet (k : nat) (key : ptr) (key_size : Z) : outcome (Z * ptr) :=
  let data_len := key_size + 4 in
  if negb (alloc_ok 200 k) then mret (- ENOMEM, PNull)
  else
    let reply := malloc_block heap_junk (sizeof_ecryptfs_message + data_len) in
    reply ← wr reply offsetof_data [ECRYPTFS_TAG_65_PACKET];
    reply ← wr reply (offsetof_data + 1) [ECRYPTFS_PACKET_STATUS_GOOD];
    '(rc, reply, length_size) ← ecryptfs_write_packet_length reply (offsetof_data + 2) key_size;
    if negb (rc =? 0) then mret (rc, PLive reply)
    else
      let i := 2 + length_size in
      key ← deref key;
      key ← rd key 0 key_size;
      reply ← wr reply (offsetof_data + i) key;
      let i := i + key_size in
      reply ← wr reply offsetof_data_len (host_bytes big_endian 4 i);
      mret (0, PLive reply).

Definition write_tag_67_packet (k : nat) (key : ptr) (key_size : Z) : outcome (Z * ptr) :=
  let data_len := key_size + 4 in
  if negb (alloc_ok 233 k) then mret (- ENOMEM, PNull)
  else
    let reply := malloc_block heap_junk (sizeof_ecryptfs_message + data_len) in
    reply ← wr reply offsetof_data [ECRYPTFS_TAG_67_PACKET];
    reply ← wr reply (offsetof_data + 1) [ECRYPTFS_PACKET_STATUS_GOOD];
    '(rc, reply, length_size) ← ecryptfs_write_packet_length reply (offsetof_data + 2) key_size;
    if negb (rc =? 0) then mret (rc, PLive reply)
    else
      let i := 2 + length_size in
      key ← deref key;
      key ← rd key 0 key_size;
      reply ← wr reply (offsetof_data + i) key;
      reply ← wr reply offsetof_data_len (host_bytes big_endian 4 data_len);
      mret (0, PLive reply).

(** The token is zeroed, [data_len] more bytes included, and freed. *)
Definition wipe_auth_tok (auth_tok : ptr) : outcome unit :=
  t ← deref auth_tok;
  data_len ← rd t offsetof_private_key_data_len 4;
  _ ← memset t 0 0 (sizeof_ecryptfs_auth_tok + host_val big_endian data_len);
  mret tt.

(** The labels of [parse_packet]: the common end and [write_failure]. *)
Definition parse_packet_done (rc : Z) (reply key_out auth_tok : ptr) : outcome (Z * ptr) :=
  _ ← c_free key_out;
  _ ← wipe_auth_tok auth_tok;
  mret (rc, reply).

Definition write_failure (k : nat) (packet_type : Z) (key_out auth_tok : ptr)
    : outcome (Z * ptr) :=
  '(rc, reply) ← write_failure_packet (S (2 * k))
     (if packet_type =? ECRYPTFS_TAG_66_PACKET then ECRYPTFS_TAG_67_PACKET
      else ECRYPTFS_TAG_65_PACKET);
  _ ← c_free key_out;
  _ ← match auth_tok with PNull => mret tt | _ => wipe_auth_tok auth_tok end;
  mret (rc, reply).

(** The second half of [parse_packet], from [request_key] on. *)
Definition answer_request (k : nat) (mods : key_mod_list) (packet_type : Z)
    (signature key : bytes) : outcome (Z * ptr) :=
  description ← cstr_of (signature ++ [0]);
  let key_sub := request_key description in
  if key_sub <? 0 then write_failure k packet_type PNull PNull
  else
    let auth_tok := keyctl_read_alloc key_sub in
    if packet_type =? ECRYPTFS_TAG_64_PACKET then
      '(rc, key_out, key_out_size) ← key_mod_decrypt k mods auth_tok key;
      if negb (rc =? 0) then
        _ ← write_failure_packet (2 * k) ECRYPTFS_TAG_65_PACKET;
        write_failure k packet_type key_out auth_tok
      else
        '(rc, reply) ← write_tag_65_packet k key_out key_out_size;
        if negb (rc =? 0) then write_failure k packet_type key_out auth_tok
        else parse_packet_done rc reply key_out auth_tok
    else if packet_type =? ECRYPTFS_TAG_66_PACKET then
      '(rc, key_out, key_out_size) ← key_mod_encrypt k mods auth_tok key;
      if negb (rc =? 0) then write_failure k packet_type key_out auth_tok
      else
        '(rc, reply) ← write_tag_67_packet k key_out key_out_size;
        if negb (rc =? 0) then write_failure k packet_type key_out auth_tok
        else parse_packet_done rc reply key_out auth_tok
    else parse_packet_done (- EINVAL) PNull PNull auth_tok.

(** [k] counts the calls; the result is the code and [*reply]. *)
Definition parse_packet (k : nat) (mods : key_mod_list) (emsg : ptr) : outcome (Z * ptr) :=
  emsg ← deref emsg;
  packet_type ← rd1 emsg offsetof_data;
  let i := 1 in
  '(rc, data_size, length_size) ← ecryptfs_parse_packet_length emsg (offsetof_data + i);
  if negb (rc =? 0) then write_failure k packet_type PNull PNull
  else
    let i := i + length_size in
    if negb (alloc_ok 279 k) then write_failure k packet_type PNull PNull
    else
      signature ← rd emsg (offsetof_data + i) data_size;
      let i := i + data_size in
      '(rc, key_size, length_size) ← ecryptfs_parse_packet_length emsg (offsetof_data + i);
      if negb (rc =? 0) then write_failure k packet_type PNull PNull
      else
        let i := i + length_size in
        if negb (alloc_ok 295 k) then write_failure k packet_type PNull PNull
        else
          key ← rd emsg (offsetof_data + i) key_size;
          answer_request k mods packet_type signature key.
End Packets.

(** ** Reference: messages as the kernel writes and reads them *)

(** A message in memory. *)
Definition message_block (big_endian : bool) (index : Z) (data : bytes) : bytes :=
  host_bytes big_endian 4 index ++ host_bytes big_endian 4 (zlen data) ++ data.

(** The structure a block holds, its data cut at [data_len]. *)
Definition message_of (big_endian : bool) (block : bytes) : ecryptfs_message :=
  let len := host_val big_endian (take 4 (drop 4 block)) in
  Message (host_val big_endian (take 4 block)) len (take (Z.to_nat len) (drop 8 block)).

(** The body of a request: tag, signature and key, each after its length. *)
Definition request_body (sig key : bytes) : bytes :=
  packet_length_bytes (zlen sig) ++ sig ++ packet_length_bytes (zlen key) ++ key.
Definition request_packet (tag : Z) (sig key : bytes) : bytes := tag :: request_body sig key.

(** A reply that carries a key. *)
Definition key_packet (tag : Z) (key : bytes) : bytes :=
  [tag; ECRYPTFS_PACKET_STATUS_GOOD] ++ packet_length_bytes (zlen key) ++ key.

(** A block that holds a public-key token. *)
Record token_block (big_endian : bool) (t : bytes) (alias blob : bytes) : Prop := {
  tb_alias : cstr_of (drop 653 t) = Ok alias;
  tb_data : drop 670 t = blob;
  tb_size : sizeof_ecryptfs_auth_tok + host_val big_endian (take 4 (drop 632 t)) <= zlen t;
  tb_bytes : Forall is_byte t
}.

(** The kernel finds the token of [sig], and its module has operation [f]. *)
Record token_known `{Keyring} (big_endian : bool) (mods : key_mod_list) (sig : bytes)
    (op : ecryptfs_key_mod_ops -> option (bool -> bytes -> bytes -> Z -> Z * Z * bytes))
    (blob : bytes) (f : bool -> bytes -> bytes -> Z -> Z * Z * bytes) : Prop := {
  tk_sig : is_cstring sig /\ zlen sig <= 8383;
  tk_serial : 0 <= request_key sig;
  tk_module : exists payload alias m,
    keyctl_read (request_key sig) = Some payload /\
    token_block big_endian (payload ++ [0]) alias blob /\
    ecryptfs_find_key_mod mods alias = Ok (Some m) /\
    op (km_ops m) = Some f
}.

(** ** Lemmas on blocks *)
Definition junk_from (junk : nat -> byte) (off n : nat) : bytes := junk <$> seq off n.

Lemma length_junk_from junk off n : length (junk_from junk off n) = n.
Proof. unfold junk_from. by rewrite length_fmap, length_seq. Qed.

Lemma junk_from_app junk off a b :
  junk_from junk off (a + b) = junk_from junk off a ++ junk_from junk (off + a) b.
Proof. unfold junk_from. by rewrite seq_app, fmap_app. Qed.

Lemma message_block_split be idx data :
  exists h, zlen h = 8 /\ message_block be idx data = h ++ data.
Proof.
  eexists. split; [|unfold message_block; by rewrite app_assoc].
  rewrite zlen_app. unfold zlen. by rewrite !length_host_bytes.
Qed.

Section Lemmas.
Context `{Heap, Keyring} (be : bool).

(** *** Writers *)

(** The stores both writers of keys make into a fresh block, up to the length
    they store. *)
Definition fill_reply (reply : bytes) (tag : Z) (key : ptr) (key_size : Z) (len : Z -> Z)
    : outcome (Z * ptr) :=
  reply ← wr reply 8 [tag];
  reply ← wr reply (8 + 1) [ECRYPTFS_PACKET_STATUS_GOOD];
  '(rc, reply, length_size) ← ecryptfs_write_packet_length reply (8 + 2) key_size;
  if negb (rc =? 0) then mret (rc, PLive reply)
  else
    key ← deref key;
    key ← rd key 0 key_size;
    reply ← wr reply (8 + (2 + length_size)) key;
    reply ← wr reply 4 (host_bytes be 4 (len (2 + length_size + key_size)));
    mret (0, PLive reply).

Lemma write_tag_65_is k key n :
  alloc_ok 200 k = true ->
  write_tag_65_packet be k key n =
  fill_reply (malloc_block heap_junk (8 + (n + 4))) ECRYPTFS_TAG_65_PACKET key n (fun i => i).
Proof. intros Ha. unfold write_tag_65_packet. by rewrite Ha. Qed.

Lemma write_tag_67_is k key n :
  alloc_ok 233 k = true ->
  write_tag_67_packet be k key n =
  fill_reply (malloc_block heap_junk (8 + (n + 4))) ECRYPTFS_TAG_67_PACKET key n (fun _ => n + 4).
Proof. intros Ha. unfold write_tag_67_packet. by rewrite Ha. Qed.

Lemma wr_at a old c new b off :
  b = a ++ old ++ c -> off = zlen a -> zlen new = zlen old -> wr b off new = Ok (a ++ new ++ c).
Proof. intros -> ? ?. by apply wr_app3. Qed.

Lemma fill_reply_ok A B x y L K R tag kb rest n len :
  zlen A = 4 -> zlen B = 4 -> zlen L = zlen (packet_length_bytes n) -> zlen K = n ->
  zlen kb = n -> n < 65536 ->
  fill_reply (A ++ B ++ [x] ++ [y] ++ L ++ K ++ R) tag (PLive (kb ++ rest)) n len =
  Ok (0, PLive (A ++ host_bytes be 4 (len (2 + zlen (packet_length_bytes n) + n)) ++
                key_packet tag kb ++ R)).
Proof.
  intros HA HB HL HK Hkb Hn. pose proof (zlen_nonneg kb). unfold fill_reply.
  rewrite (wr_at (A ++ B) [x] ([y] ++ L ++ K ++ R) [tag]);
    [|by rewrite <- !app_assoc|by rewrite zlen_app, HA, HB|done]. rewrite bind_Ok.
  rewrite (wr_at (A ++ B ++ [tag]) [y] (L ++ K ++ R) [ECRYPTFS_PACKET_STATUS_GOOD]);
    [|by rewrite <- !app_assoc|by rewrite !zlen_app, HA, HB|done]. rewrite bind_Ok.
  replace ((A ++ B ++ [tag]) ++ [ECRYPTFS_PACKET_STATUS_GOOD] ++ L ++ K ++ R)
    with ((A ++ B ++ [tag] ++ [ECRYPTFS_PACKET_STATUS_GOOD]) ++ L ++ (K ++ R))
    by (by rewrite <- !app_assoc).
  rewrite (write_packet_length_ok _ L (K ++ R)) by
    (first [lia | done | by rewrite !zlen_app, HA, HB]).
  rewrite bind_Ok. cbn [Z.eqb negb deref mret outcome_ret]. rewrite bind_Ok.
  rewrite rd_prefix, bind_Ok by done.
  rewrite (wr_at (A ++ B ++ [tag] ++ [ECRYPTFS_PACKET_STATUS_GOOD] ++ packet_length_bytes n) K R kb);
    [|by rewrite <- !app_assoc|rewrite !zlen_app, HA, HB; change (zlen [tag]) with 1;
      change (zlen [ECRYPTFS_PACKET_STATUS_GOOD]) with 1; lia|lia]. rewrite bind_Ok.
  rewrite (wr_at A B ([tag; ECRYPTFS_PACKET_STATUS_GOOD] ++ packet_length_bytes n ++ kb ++ R)
    (host_bytes be 4 (len (2 + zlen (packet_length_bytes n) + n))));
    [|by rewrite <- !app_assoc|done|rewrite HB; unfold zlen; by rewrite length_host_bytes].
  rewrite bind_Ok. unfold key_packet. by rewrite Hkb, <- !app_assoc.
Qed.

(** The block a writer returns: what the writers do not store is the junk of
    the allocation, one byte at the end when the length takes one byte. *)
Definition slack (n : Z) : bytes :=
  if n <? 192 then junk_from heap_junk (Z.to_nat (8 + 3 + n)) 1 else [].
Definition reply_block (tag : Z) (key : bytes) (len : Z) : bytes :=
  junk_from heap_junk 0 4 ++ host_bytes be 4 len ++ key_packet tag key ++ slack (zlen key).

Lemma fill_reply_fresh tag kb rest n len :
  zlen kb = n -> n < 65536 ->
  fill_reply (malloc_block heap_junk (8 + (n + 4))) tag (PLive (kb ++ rest)) n len =
  Ok (0, PLive (reply_block tag kb (len (2 + zlen (packet_length_bytes n) + n)))).
Proof.
  intros Hkb Hn. pose proof (zlen_nonneg kb).
  unfold malloc_block. fold (junk_from heap_junk 0 (Z.to_nat (8 + (n + 4)))).
  pose (l := length (packet_length_bytes n)).
  assert (Z.of_nat l = if n <? 192 then 1 else 2) as Hl by apply packet_length_bytes_length.
  pose (r := if n <? 192 then 1%nat else 0%nat).
  replace (Z.to_nat (8 + (n + 4))) with (4 + (4 + (1 + (1 + (l + (Z.to_nat n + r))))))%nat
    by (subst r; case_match; lia).
  rewrite !junk_from_app.
  assert (Hs : junk_from heap_junk (0 + 4 + 4 + 1 + 1 + l + Z.to_nat n) r = slack n).
  { subst r. unfold slack. destruct (Z.ltb_spec n 192); [|done]. f_equal. lia. }
  rewrite Hs. unfold reply_block. rewrite Hkb.
  apply (fill_reply_ok (junk_from heap_junk 0 4) (junk_from heap_junk (0 + 4) 4));
    unfold zlen; rewrite ?length_junk_from; (done || lia).
Qed.

Lemma message_of_reply_block tag key len :
  0 <= len < 2 ^ 32 ->
  msg_data (message_of be (reply_block tag key len)) =
  take (Z.to_nat len) (key_packet tag key ++ slack (zlen key)).
Proof.
  intros Hlen. unfold message_of, reply_block. cbn [msg_data].
  rewrite (drop_app_length' (junk_from heap_junk 0 4)) by (by rewrite length_junk_from).
  rewrite (take_app_length' (host_bytes be 4 len)) by (by rewrite length_host_bytes).
  rewrite host_val_host_bytes, Z.mod_small by (change (256 ^ Z.of_nat 4) with (2 ^ 32); lia).
  rewrite app_assoc, drop_app_length'; [done|].
  by rewrite length_app, length_junk_from, length_host_bytes.
Qed.

(** *** Failure packets *)
Definition failure_block (tag : Z) : bytes :=
  junk_from heap_junk 0 4 ++ host_bytes be 4 2 ++ [tag; 255].

Lemma write_failure_packet_ok k tag :
  alloc_ok 176 k = true -> is_byte tag ->
  write_failure_packet be k tag = Ok (0, PLive (failure_block tag)).
Proof.
  intros Ha Ht. unfold write_failure_packet. rewrite Ha. cbn [negb].
  change (malloc_block heap_junk (sizeof_ecryptfs_message + 2)) with
    (junk_from heap_junk 0 (4 + (4 + (1 + 1)))). rewrite !junk_from_app.
  unfold offsetof_data. change (u8 ECRYPTFS_PACKET_STATUS_BAD) with 255.
  rewrite wrap_small by (unfold is_byte in Ht; lia).
  rewrite (wr_at (junk_from heap_junk 0 4 ++ junk_from heap_junk (0 + 4) 4)
    (junk_from heap_junk (0 + 4 + 4) 1) (junk_from heap_junk (0 + 4 + 4 + 1) 1) [tag]);
    [|by rewrite <- !app_assoc|reflexivity|reflexivity]. rewrite bind_Ok.
  rewrite (wr_at ((junk_from heap_junk 0 4 ++ junk_from heap_junk (0 + 4) 4) ++ [tag])
    (junk_from heap_junk (0 + 4 + 4 + 1) 1) [] [255]);
    [|by rewrite <- !app_assoc|reflexivity|reflexivity]. rewrite bind_Ok.
  rewrite (wr_at (junk_from heap_junk 0 4) (junk_from heap_junk (0 + 4) 4) [tag; 255]
    (host_bytes be 4 2));
    [reflexivity|by rewrite <- !app_assoc|reflexivity|].
  unfold zlen. by rewrite length_host_bytes, length_junk_from.
Qed.

Lemma message_of_failure_block tag :
  msg_data (message_of be (failure_block tag)) = [tag; 255].
Proof.
  unfold message_of, failure_block. cbn [msg_data].
  rewrite (drop_app_length' (junk_from heap_junk 0 4)) by (by rewrite length_junk_from).
  rewrite (take_app_length' (host_bytes be 4 2)) by (by rewrite length_host_bytes).
  rewrite host_val_host_bytes. change (2 mod 256 ^ Z.of_nat 4) with 2.
  rewrite app_assoc, drop_app_length'; [done|].
  by rewrite length_app, length_junk_from, length_host_bytes.
Qed.

(** *** Requests *)
Lemma parse_packet_request k mods h tag sig key rest :
  heap_never_fails -> zlen h = 8 -> zlen sig <= 8383 -> zlen key <= 8383 ->
  parse_packet be k mods (PLive (h ++ request_packet tag sig key ++ rest)) =
  answer_request be k mods tag sig key.
Proof.
  intros Hh H8 Hs Hk. pose proof (zlen_nonneg sig). pose proof (zlen_nonneg key).
  unfold parse_packet, request_packet, request_body. cbn [deref mret outcome_ret]. rewrite bind_Ok.
  change offsetof_data with 8. rewrite <- H8. cbn [app]. rewrite rd1_app, bind_Ok by done.
  set (L1 := packet_length_bytes (zlen sig)). set (L2 := packet_length_bytes (zlen key)).
  replace (h ++ tag :: (L1 ++ sig ++ L2 ++ key) ++ rest)
    with ((h ++ [tag]) ++ L1 ++ (sig ++ L2 ++ key ++ rest)) by (by rewrite <- !app_assoc).
  unfold L1 at 1. rewrite parse_packet_length_ok, bind_Ok by (lia || by rewrite zlen_app).
  fold L1. cbn [Z.eqb negb]. rewrite (Hh 279). cbn [negb].
  replace ((h ++ [tag]) ++ L1 ++ sig ++ L2 ++ key ++ rest)
    with (((h ++ [tag]) ++ L1) ++ sig ++ (L2 ++ key ++ rest)) at 1 by (by rewrite <- !app_assoc).
  rewrite rd_app3, bind_Ok; [|rewrite !zlen_app; change (zlen [tag]) with 1; lia|done].
  replace ((h ++ [tag]) ++ L1 ++ sig ++ L2 ++ key ++ rest)
    with (((h ++ [tag]) ++ L1 ++ sig) ++ L2 ++ (key ++ rest)) by (by rewrite <- !app_assoc).
  unfold L2 at 1. rewrite parse_packet_length_ok, bind_Ok;
    [|lia|rewrite !zlen_app; change (zlen [tag]) with 1; lia].
  fold L2. cbn [Z.eqb negb]. rewrite (Hh 295). cbn [negb].
  replace (((h ++ [tag]) ++ L1 ++ sig) ++ L2 ++ key ++ rest)
    with (((h ++ [tag]) ++ L1 ++ sig ++ L2) ++ key ++ rest) by (by rewrite <- !app_assoc).
  rewrite rd_app3, bind_Ok; [done| |done].
  rewrite !zlen_app. change (zlen [tag]) with 1. lia.
Qed.

Lemma cstr_of_string s : is_cstring s -> cstr_of (s ++ [0]) = Ok s.
Proof. intros Hs. apply (cstr_of_app s []). by apply is_char_nonzero. Qed.

Lemma wipe_token t alias blob : token_block be t alias blob -> wipe_auth_tok be (PLive t) = Ok tt.
Proof.
  intros [_ _ Hsz Hb]. unfold wipe_auth_tok. cbn [deref mret outcome_ret]. rewrite bind_Ok.
  change offsetof_private_key_data_len with 632. change sizeof_ecryptfs_auth_tok with 740 in *.
  assert (0 <= host_val be (take 4 (drop 632 t))) as H0'.
  { destruct be; [apply be_val_bound | apply le_val_bound]; by apply Forall_take, Forall_drop. }
  rewrite rd_ok by lia. rewrite bind_Ok.
  change (Z.to_nat 632) with 632%nat. change (Z.to_nat 4) with 4%nat.
  unfold memset. rewrite wr_ok by (rewrite ?zlen_replicate; lia). done.
Qed.

Lemma find_token mods t alias blob m :
  token_block be t alias blob -> ecryptfs_find_key_mod mods alias = Ok (Some m) ->
  find_token_key_mod mods (PLive t) = Ok (Some m).
Proof.
  intros [Ha _ _ _] Hm. unfold find_token_key_mod. destruct mods; [done|].
  cbn [deref mret outcome_ret]. rewrite bind_Ok.
  change (Z.to_nat offsetof_private_key_alias) with 653%nat. by rewrite Ha, bind_Ok.
Qed.

(** The module call in terms of the module's operation alone. *)
Lemma key_mod_crypt_known line max op k mods sig blob f key n w n' out :
  heap_never_fails -> token_known be mods sig op blob f ->
  f false key blob ECRYPTFS_BLOB_TYPE_BLOB = (0, n, w) -> 0 < n ->
  f true key blob ECRYPTFS_BLOB_TYPE_BLOB = (0, n', out) -> zlen out <= n ->
  exists rest, key_mod_crypt line max op k mods (keyctl_read_alloc (request_key sig)) key =
  Ok (if max <? n' then (- EINVAL, PFreed, 0) else (0, PLive (out ++ rest), n')).
Proof.
  intros Hh [_ _ (payload & alias & m & Hr & Hb & Hm & Hf)] Hf1 Hn Hf2 Hout.
  unfold keyctl_read_alloc. rewrite Hr.
  exists (drop (length out) (malloc_block heap_junk n)).
  unfold key_mod_crypt. rewrite (find_token _ _ _ _ m Hb), bind_Ok by done.
  cbn [deref mret outcome_ret]. rewrite bind_Ok, Hf. cbn [call mret outcome_ret]. rewrite bind_Ok.
  destruct Hb as [_ Hd _ _]. change (Z.to_nat offsetof_private_key_data) with 670%nat.
  rewrite Hd, Hf1. cbn [Z.eqb negb]. replace (n =? 0) with false by lia.
  rewrite Hh. cbn [negb]. rewrite Hf2.
  rewrite wr_ok by (rewrite ?zlen_malloc_block; lia). rewrite bind_Ok.
  change (Z.to_nat 0) with 0%nat. cbn [Z.eqb negb take app]. by case_match.
Qed.

Lemma wipe_known mods sig op blob f :
  token_known be mods sig op blob f ->
  wipe_auth_tok be (keyctl_read_alloc (request_key sig)) = Ok tt /\
  keyctl_read_alloc (request_key sig) <> PNull.
Proof.
  intros [_ _ (payload & alias & m & Hr & Hb & _)]. unfold keyctl_read_alloc. rewrite Hr.
  split; [by eapply wipe_token | done].
Qed.

(** From the lookup on, for a token that is known. *)
Lemma answer_request_known k mods tag sig key op blob f :
  token_known be mods sig op blob f ->
  answer_request be k mods tag sig key =
  let auth_tok := keyctl_read_alloc (request_key sig) in
  if tag =? ECRYPTFS_TAG_64_PACKET then
    '(rc, key_out, key_out_size) ← key_mod_decrypt k mods auth_tok key;
    if negb (rc =? 0) then
      _ ← write_failure_packet be (2 * k) ECRYPTFS_TAG_65_PACKET;
      write_failure be k tag key_out auth_tok
    else
      '(rc, reply) ← write_tag_65_packet be k key_out key_out_size;
      if negb (rc =? 0) then write_failure be k tag key_out auth_tok
      else parse_packet_done be rc reply key_out auth_tok
  else if tag =? ECRYPTFS_TAG_66_PACKET then
    '(rc, key_out, key_out_size) ← key_mod_encrypt k mods auth_tok key;
    if negb (rc =? 0) then write_failure be k tag key_out auth_tok
    else
      '(rc, reply) ← write_tag_67_packet be k key_out key_out_size;
      if negb (rc =? 0) then write_failure be k tag key_out auth_tok
      else parse_packet_done be rc reply key_out auth_tok
  else parse_packet_done be (- EINVAL) PNull PNull auth_tok.
Proof.
  intros [[Hs _] Hser _]. unfold answer_request. rewrite cstr_of_string, bind_Ok by done.
  by replace (request_key sig <? 0) with false by lia.
Qed.
End Lemmas.

(** *** Failures *)
Lemma write_failure_ok `{Heap, Keyring} be k tag key_out auth_tok :
  heap_never_fails -> c_free key_out = Ok tt ->
  auth_tok = PNull \/ wipe_auth_tok be auth_tok = Ok tt ->
  write_failure be k tag key_out auth_tok =
  Ok (0, PLive (failure_block be (if tag =? 66 then 67 else 65))).
Proof.
  intros Hh Hk Ht. unfold write_failure. change ECRYPTFS_TAG_66_PACKET with 66.
  change ECRYPTFS_TAG_67_PACKET with 67. change ECRYPTFS_TAG_65_PACKET with 65.
  rewrite write_failure_packet_ok, bind_Ok, Hk, bind_Ok;
    [|apply Hh | unfold is_byte; case_match; lia].
  destruct Ht as [-> | Ht]; [done|]. rewrite Ht. by destruct auth_tok.
Qed.

(** The module of the token refuses already to tell the size. *)
Lemma key_mod_crypt_refused `{Heap, Keyring} be line max op k mods sig blob f key rc n w :
  token_known be mods sig op blob f ->
  f false key blob ECRYPTFS_BLOB_TYPE_BLOB = (rc, n, w) -> rc <> 0 ->
  key_mod_crypt line max op k mods (keyctl_read_alloc (request_key sig)) key = Ok (rc, PNull, n).
Proof.
  intros [_ _ (payload & alias & m & Hr & Hb & Hm & Hf)] Hf1 Hrc.
  unfold keyctl_read_alloc. rewrite Hr. unfold key_mod_crypt.
  rewrite (find_token be _ _ _ _ m Hb), bind_Ok by done.
  cbn [deref mret outcome_ret]. rewrite bind_Ok, Hf. cbn [call mret outcome_ret]. rewrite bind_Ok.
  destruct Hb as [_ Hd _ _]. change (Z.to_nat offsetof_private_key_data) with 670%nat.
  rewrite Hd, Hf1. by destruct (Z.eqb_spec rc 0).
Qed.

(** The request is one the daemon refuses: the key is not in the keyring, or
    its module refuses. *)
Definition request_refused `{Keyring} (be : bool) (mods : key_mod_list) (tag : Z)
    (sig key : bytes) : Prop :=
  (is_cstring sig /\ request_key sig < 0) \/
  (exists blob f rc n w,
    token_known be mods sig (if tag =? 64 then op_decrypt else op_encrypt) blob f /\
    f false key blob ECRYPTFS_BLOB_TYPE_BLOB = (rc, n, w) /\ rc <> 0).

Lemma zlen_key_packet tag out :
  zlen (key_packet tag out) = 2 + (if zlen out <? 192 then 1 else 2) + zlen out.
Proof.
  unfold key_packet. rewrite !zlen_app, packet_length_bytes_length.
  unfold zlen at 1. cbn [length]. lia.
Qed.

(** *** Success *)
Lemma serve_tag_64 `{Heap, Keyring} be k mods h sig key rest blob f n w out :
  heap_never_fails -> zlen h = 8 -> zlen key <= 8383 ->
  token_known be mods sig op_decrypt blob f ->
  f false key blob ECRYPTFS_BLOB_TYPE_BLOB = (0, n, w) -> 0 < n ->
  f true key blob ECRYPTFS_BLOB_TYPE_BLOB = (0, zlen out, out) ->
  zlen out <= n -> zlen out <= ECRYPTFS_MAX_KEY_BYTES ->
  parse_packet be k mods (PLive (h ++ request_packet ECRYPTFS_TAG_64_PACKET sig key ++ rest)) =
  Ok (0, PLive (reply_block be ECRYPTFS_TAG_65_PACKET out
                  (zlen (key_packet ECRYPTFS_TAG_65_PACKET out)))).
Proof.
  intros Hh H8 Hk Ht Hf1 Hn Hf2 Hle Hmax. pose proof (zlen_nonneg out) as Hout.
  rewrite parse_packet_request by (done || apply (tk_sig _ _ _ _ _ _ Ht)).
  rewrite (answer_request_known _ _ _ _ _ _ _ _ _ Ht). cbn [Z.eqb Pos.eqb ECRYPTFS_TAG_64_PACKET].
  unfold key_mod_decrypt. change ECRYPTFS_MAX_KEY_BYTES with 64 in *.
  destruct (key_mod_crypt_known be 144 64 _ k _ _ _ _ _ _ _ _ _ Hh Ht Hf1 Hn Hf2 Hle) as [r ->].
  replace (64 <? zlen out) with false by lia. rewrite bind_Ok. cbn [Z.eqb negb].
  rewrite write_tag_65_is by apply Hh.
  rewrite fill_reply_fresh, bind_Ok by (done || lia). cbn [Z.eqb negb].
  unfold parse_packet_done. cbn [c_free mret outcome_ret]. rewrite bind_Ok.
  destruct (wipe_known be _ _ _ _ _ Ht) as [-> _]. rewrite bind_Ok.
  do 4 f_equal. unfold key_packet. rewrite !zlen_app. unfold zlen. cbn [length]. lia.
Qed.

Lemma serve_tag_66 `{Heap, Keyring} be k mods h sig key rest blob f n w out :
  heap_never_fails -> zlen h = 8 -> zlen key <= 8383 ->
  token_known be mods sig op_encrypt blob f ->
  f false key blob ECRYPTFS_BLOB_TYPE_BLOB = (0, n, w) -> 0 < n ->
  f true key blob ECRYPTFS_BLOB_TYPE_BLOB = (0, zlen out, out) ->
  zlen out <= n -> zlen out <= ECRYPTFS_MAX_ENCRYPTED_KEY_BYTES ->
  parse_packet be k mods (PLive (h ++ request_packet ECRYPTFS_TAG_66_PACKET sig key ++ rest)) =
  Ok (0, PLive (reply_block be ECRYPTFS_TAG_67_PACKET out (zlen out + 4))).
Proof.
  intros Hh H8 Hk Ht Hf1 Hn Hf2 Hle Hmax. pose proof (zlen_nonneg out) as Hout.
  rewrite parse_packet_request by (done || apply (tk_sig _ _ _ _ _ _ Ht)).
  rewrite (answer_request_known _ _ _ _ _ _ _ _ _ Ht).
  change (ECRYPTFS_TAG_66_PACKET =? ECRYPTFS_TAG_64_PACKET) with false.
  change (ECRYPTFS_TAG_66_PACKET =? ECRYPTFS_TAG_66_PACKET) with true. cbn match.
  unfold key_mod_encrypt. change ECRYPTFS_MAX_ENCRYPTED_KEY_BYTES with 512 in *.
  destruct (key_mod_crypt_known be 88 512 _ k _ _ _ _ _ _ _ _ _ Hh Ht Hf1 Hn Hf2 Hle) as [r ->].
  replace (512 <? zlen out) with false by lia. rewrite bind_Ok. cbn [Z.eqb negb].
  rewrite write_tag_67_is by apply Hh.
  rewrite fill_reply_fresh, bind_Ok by (done || lia). cbn [Z.eqb negb].
  unfold parse_packet_done. cbn [c_free mret outcome_ret]. rewrite bind_Ok.
  by destruct (wipe_known be _ _ _ _ _ Ht) as [-> _].
Qed.

(** What the kernel takes out of the reply with an encrypted key: the length
    announced allows for two bytes of packet length. *)
Lemma tag_67_message `{Heap} be out :
  zlen out <= ECRYPTFS_MAX_ENCRYPTED_KEY_BYTES ->
  msg_data (message_of be (reply_block be ECRYPTFS_TAG_67_PACKET out (zlen out + 4))) =
  key_packet ECRYPTFS_TAG_67_PACKET out ++
    (if zlen out <? 192 then [heap_junk (Z.to_nat (sizeof_ecryptfs_message + 3 + zlen out))] else []).
Proof.
  change ECRYPTFS_MAX_ENCRYPTED_KEY_BYTES with 512. intros Hmax. pose proof (zlen_nonneg out) as Hout.
  pose proof (packet_length_bytes_length (zlen out)) as Hl.
  rewrite message_of_reply_block by lia. unfold slack, junk_from.
  change (8 + 3 + zlen out) with (sizeof_ecryptfs_message + 3 + zlen out).
  apply take_ge. unfold key_packet. rewrite !length_app. unfold zlen in *. case_match; cbn [length seq fmap list_fmap]; lia.
Qed.

(** ** Properties *)

(** C35. A tag 64 request for a known token whose module decrypts the key to at
    most 64 bytes is answered with a tag 65 packet that carries exactly those
    bytes; the reply is well formed on hosts of either byte order, whatever
    the heap holds. *)
Theorem parse_packet_tag_64 `{Heap, Keyring} be k mods h sig key rest blob f n w out :
  heap_never_fails -> zlen h = 8 -> zlen key <= 8383 ->
  token_known be mods sig op_decrypt blob f ->
  f false key blob ECRYPTFS_BLOB_TYPE_BLOB = (0, n, w) -> 0 < n ->
  f true key blob ECRYPTFS_BLOB_TYPE_BLOB = (0, zlen out, out) ->
  zlen out <= n -> zlen out <= ECRYPTFS_MAX_KEY_BYTES ->
  exists reply,
    parse_packet be k mods (PLive (h ++ request_packet ECRYPTFS_TAG_64_PACKET sig key ++ rest)) =
    Ok (0, PLive reply) /\
    msg_data (message_of be reply) = key_packet ECRYPTFS_TAG_65_PACKET out.
Proof.
  intros Hh H8 Hk Ht Hf1 Hn Hf2 Hle Hmax. pose proof (zlen_nonneg out).
  eexists. split; [by eapply serve_tag_64|].
  change ECRYPTFS_MAX_KEY_BYTES with 64 in *.
  rewrite message_of_reply_block by (rewrite zlen_key_packet; case_match; lia).
  apply take_app_length'. unfold zlen. lia.
Qed.

Definition toy_token : bytes := zeros 653 ++ lit "toy" ++ zeros 84.
Definition toy_crypt (to : bool) (from blob : bytes) (t : Z) : Z * Z * bytes :=
  (0, 2, if to then [7; 9] else []).
Definition toy_module : ecryptfs_key_mod :=
  KeyModEntry None (Some (lit "toy")) None
    (KeyModOps None None None None None None None None None (Some toy_crypt) (Some toy_crypt)
       None None) [] None 0.
Definition toy_keyring : Keyring := {|
  request_key := fun s => if streq s (lit "cafe") then 1 else -1;
  keyctl_read := fun s => if s =? 1 then Some toy_token else None
|}.

Lemma toy_token_known be m op f :
  km_alias m = Some (lit "toy") -> op (km_ops m) = Some f ->
  @token_known toy_keyring be [m] (lit "cafe") op (drop 670 (toy_token ++ [0])) f.
Proof.
  intros Ha Hop. split.
  - split; [|vm_compute; congruence]. repeat constructor.
  - vm_compute; congruence.
  - exists toy_token, (lit "toy"), m. split; [reflexivity|].
    split; [|split; [cbn [ecryptfs_find_key_mod]; by rewrite Ha | exact Hop]].
    split; [reflexivity | reflexivity | destruct be; vm_compute; congruence |].
    apply (bool_decide_unpack (Forall is_byte (toy_token ++ [0]))).
    vm_compute. exact I.
Qed.

Lemma parse_packet_tag_64_witness :
  exists reply,
    @parse_packet plenty toy_keyring false 0 [toy_module]
      (PLive (zeros 8 ++ request_packet ECRYPTFS_TAG_64_PACKET (lit "cafe") [1; 2; 3] ++ [])) =
    Ok (0, PLive reply) /\
    msg_data (message_of false reply) = key_packet ECRYPTFS_TAG_65_PACKET [7; 9].
Proof.
  eapply (@parse_packet_tag_64 plenty toy_keyring).
  - intros line k. reflexivity.
  - reflexivity.
  - vm_compute; congruence.
  - apply toy_token_known; reflexivity.
  - reflexivity.
  - lia.
  - reflexivity.
  - vm_compute; congruence.
  - vm_compute; congruence.
Defined.

(** A tag 66 request for a known token whose module encrypts the key to
    fewer than 512 bytes is answered with a tag 67 packet that carries exactly
    those bytes - followed, when they are fewer than 192, by one byte of the
    heap the daemon never wrote, because the length announced allows for two
    bytes of packet length. *)
Theorem parse_packet_tag_66 `{Heap, Keyring} be k mods h sig key rest blob f n w out :
  heap_never_fails -> zlen h = 8 -> zlen key <= 8383 ->
  token_known be mods sig op_encrypt blob f ->
  f false key blob ECRYPTFS_BLOB_TYPE_BLOB = (0, n, w) -> 0 < n ->
  f true key blob ECRYPTFS_BLOB_TYPE_BLOB = (0, zlen out, out) ->
  zlen out <= n -> zlen out <= ECRYPTFS_MAX_ENCRYPTED_KEY_BYTES ->
  exists reply,
    parse_packet be k mods (PLive (h ++ request_packet ECRYPTFS_TAG_66_PACKET sig key ++ rest)) =
    Ok (0, PLive reply) /\
    msg_data (message_of be reply) =
    key_packet ECRYPTFS_TAG_67_PACKET out ++
      (if zlen out <? 192 then [heap_junk (Z.to_nat (sizeof_ecryptfs_message + 3 + zlen out))] else []).
Proof.
  intros. eexists. split; [by eapply serve_tag_66|]. by apply tag_67_message.
Qed.

Lemma parse_packet_tag_66_witness :
  exists reply,
    @parse_packet {| alloc_ok := fun _ _ => true; heap_junk := fun _ => 222 |} toy_keyring
      true 0 [toy_module]
      (PLive (zeros 8 ++ request_packet ECRYPTFS_TAG_66_PACKET (lit "cafe") [1; 2; 3] ++ [])) =
    Ok (0, PLive reply) /\
    msg_data (message_of true reply) = key_packet ECRYPTFS_TAG_67_PACKET [7; 9] ++ [222].
Proof.
  eapply (@parse_packet_tag_66 {| alloc_ok := fun _ _ => true; heap_junk := fun _ => 222 |}
    toy_keyring true 0 [toy_module] (zeros 8) (lit "cafe") [1; 2; 3]).
  - intros line k. reflexivity.
  - reflexivity.
  - vm_compute; congruence.
  - apply toy_token_known; reflexivity.
  - reflexivity.
  - lia.
  - reflexivity.
  - vm_compute; congruence.
  - vm_compute; congruence.
Defined.

(** A request the daemon cannot serve is still answered: when the keyring
    has no key of that signature, or the module of the token refuses, the reply
    is the failure packet (status 255) of the tag that answers the request,
    and [parse_packet] returns 0. *)
Theorem parse_packet_failure `{Heap, Keyring} be k mods h tag sig key rest :
  heap_never_fails -> zlen h = 8 -> zlen sig <= 8383 -> zlen key <= 8383 ->
  tag = ECRYPTFS_TAG_64_PACKET \/ tag = ECRYPTFS_TAG_66_PACKET ->
  request_refused be mods tag sig key ->
  exists reply,
    parse_packet be k mods (PLive (h ++ request_packet tag sig key ++ rest)) = Ok (0, PLive reply) /\
    msg_data (message_of be reply) =
    [if tag =? ECRYPTFS_TAG_66_PACKET then ECRYPTFS_TAG_67_PACKET else ECRYPTFS_TAG_65_PACKET; 255].
Proof.
  intros Hh H8 Hs Hk Htag Href. rewrite parse_packet_request by done.
  exists (failure_block be (if tag =? 66 then 67 else 65)).
  split; [|apply message_of_failure_block].
  destruct Href as [[Hc Hser] | (blob & f & rc & n & w & Ht & Hf & Hrc)].
  - unfold answer_request. rewrite cstr_of_string, bind_Ok by done.
    replace (request_key sig <? 0) with true by lia. apply write_failure_ok; auto.
  - rewrite (answer_request_known _ _ _ _ _ _ _ _ _ Ht).
    destruct (wipe_known be _ _ _ _ _ Ht) as [Hw _].
    destruct Htag as [-> | ->]; cbn [Z.eqb Pos.eqb ECRYPTFS_TAG_64_PACKET ECRYPTFS_TAG_66_PACKET] in *.
    + unfold key_mod_decrypt. rewrite (key_mod_crypt_refused _ _ _ _ _ _ _ _ _ _ _ _ _ Ht Hf Hrc), bind_Ok.
      destruct (Z.eqb_spec rc 0); [done|]. cbn [negb].
      rewrite write_failure_packet_ok, bind_Ok by (apply Hh || done).
      apply (write_failure_ok be k 64); auto.
    + unfold key_mod_encrypt. rewrite (key_mod_crypt_refused _ _ _ _ _ _ _ _ _ _ _ _ _ Ht Hf Hrc), bind_Ok.
      destruct (Z.eqb_spec rc 0); [done|]. cbn [negb].
      apply (write_failure_ok be k 66); auto.
Qed.

Lemma parse_packet_failure_witness :
  exists reply,
    @parse_packet plenty toy_keyring false 0 [toy_module]
      (PLive (zeros 8 ++ request_packet ECRYPTFS_TAG_66_PACKET (lit "beef") [1; 2; 3] ++ [])) =
    Ok (0, PLive reply) /\ msg_data (message_of false reply) = [67; 255].
Proof.
  apply (@parse_packet_failure plenty toy_keyring false 0 [toy_module] (zeros 8) 66).
  - intros line k. reflexivity.
  - reflexivity.
  - vm_compute; congruence.
  - vm_compute; congruence.
  - right. reflexivity.
  - left. split; [repeat constructor | vm_compute; reflexivity].
Defined.

(** When a key module returns more bytes than the daemon accepts - more
    than 64 for a decrypted key or 512 for an encrypted one, which
    [key_mod_decrypt] and [key_mod_encrypt] test for - the block that holds
    them is freed twice. *)
Theorem parse_packet_double_free `{Heap, Keyring} be k mods h tag sig key rest blob f n w n' out :
  heap_never_fails -> zlen h = 8 -> zlen key <= 8383 ->
  tag = ECRYPTFS_TAG_64_PACKET \/ tag = ECRYPTFS_TAG_66_PACKET ->
  token_known be mods sig (if tag =? 64 then op_decrypt else op_encrypt) blob f ->
  f false key blob ECRYPTFS_BLOB_TYPE_BLOB = (0, n, w) -> 0 < n ->
  f true key blob ECRYPTFS_BLOB_TYPE_BLOB = (0, n', out) -> zlen out <= n ->
  (if tag =? 64 then ECRYPTFS_MAX_KEY_BYTES else ECRYPTFS_MAX_ENCRYPTED_KEY_BYTES) < n' ->
  parse_packet be k mods (PLive (h ++ request_packet tag sig key ++ rest)) = UB DoubleFree.
Proof.
  intros Hh H8 Hk Htag Ht Hf1 Hn Hf2 Hle Hmax.
  rewrite parse_packet_request by (done || apply (tk_sig _ _ _ _ _ _ Ht)).
  rewrite (answer_request_known _ _ _ _ _ _ _ _ _ Ht).
  assert (forall t, is_byte t -> write_failure be k t PFreed (keyctl_read_alloc (request_key sig)) =
    UB DoubleFree) as Hdf.
  { intros t Hb. unfold write_failure.
    rewrite write_failure_packet_ok; [done|apply Hh|]. unfold is_byte, ECRYPTFS_TAG_67_PACKET, ECRYPTFS_TAG_65_PACKET. destruct (t =? _); lia. }
  destruct Htag as [-> | ->]; cbn [Z.eqb Pos.eqb ECRYPTFS_TAG_64_PACKET ECRYPTFS_TAG_66_PACKET] in *.
  - unfold key_mod_decrypt. change ECRYPTFS_MAX_KEY_BYTES with 64 in *.
    destruct (key_mod_crypt_known be 144 64 _ k _ _ _ _ _ _ _ _ _ Hh Ht Hf1 Hn Hf2 Hle) as [r ->].
    replace (64 <? n') with true by lia. rewrite bind_Ok. cbn [Z.eqb negb Z.opp EINVAL].
    rewrite write_failure_packet_ok, bind_Ok by (apply Hh || done). by apply (Hdf 64).
  - unfold key_mod_encrypt. change ECRYPTFS_MAX_ENCRYPTED_KEY_BYTES with 512 in *.
    destruct (key_mod_crypt_known be 88 512 _ k _ _ _ _ _ _ _ _ _ Hh Ht Hf1 Hn Hf2 Hle) as [r ->].
    replace (512 <? n') with true by lia. rewrite bind_Ok. cbn [Z.eqb negb Z.opp EINVAL].
    by apply (Hdf 66).
Qed.

Definition big_crypt (to : bool) (from blob : bytes) (t : Z) : Z * Z * bytes :=
  (0, 600, if to then zeros 600 else []).
Definition big_module : ecryptfs_key_mod :=
  KeyModEntry None (Some (lit "toy")) None
    (KeyModOps None None None None None None None None None (Some big_crypt) (Some big_crypt)
       None None) [] None 0.

Lemma parse_packet_double_free_witness :
  @parse_packet plenty toy_keyring false 0 [big_module]
    (PLive (zeros 8 ++ request_packet ECRYPTFS_TAG_66_PACKET (lit "cafe") [1; 2; 3] ++ [])) =
  UB DoubleFree.
Proof.
  eapply (@parse_packet_double_free plenty toy_keyring false 0 [big_module] (zeros 8) 66 (lit "cafe")
    [1; 2; 3]).
  - intros line k. reflexivity.
  - reflexivity.
  - vm_compute; congruence.
  - right. reflexivity.
  - apply toy_token_known; reflexivity.
  - reflexivity.
  - lia.
  - reflexivity.
  - vm_compute; congruence.
  - vm_compute; congruence.
Defined.
