(* ===== verification/Miscdev.v ===== *)
(** * The daemon on the eCryptfs device: [src/libecryptfs/miscdev.c], and the
    dispatch on the messaging type of [src/libecryptfs/messaging.c] *)

From S2P Require Import Prelude CLib Ecryptfs PacketLength KeyMod Packets.

Definition ECRYPTFS_MESSAGING_TYPE_NETLINK : Z := 1.
Definition ECRYPTFS_MESSAGING_TYPE_MISCDEV : Z := 2.
Definition ECRYPTFS_DEFAULT_MISCDEV_FULLPATH_0 : cstring := lit "/dev/ecryptfs".
Definition ECRYPTFS_DEFAULT_MISCDEV_FULLPATH_1 : cstring := lit "/dev/misc/ecryptfs".

(** One exchange with the device: what [read] returns ([None] for [-1]) and
    whether a [write] succeeds. *)
Record dev_event := DevEvent {
  ev_read : option bytes;
  ev_write_ok : bool
}.

(** The variables of [ecryptfs_run_miscdev_daemon] that live across messages. *)
Record daemon := Daemon {
  d_emsg : ptr;
  d_msg_seq : Z;
  d_msg_type : Z;
  d_error_count : Z
}.

Inductive daemon_status :=
  | Receiving (d : daemon)
  | Exited (rc : Z).

Section Miscdev.
Context `{Heap, Keyring} (big_endian : bool).

(** The result code and the bytes the device got; [msg] is a null pointer or
    a block that starts with a [struct ecryptfs_message]. *)
Definition ecryptfs_send_miscdev (k : nat) (write_ok : bool) (msg : option bytes)
    (msg_type msg_flags msg_seq : Z) : outcome (Z * option bytes) :=
  let packet_len_str := malloc_block heap_junk 3 in
  '(rc, packet_len_str, packet_len_size, packet_len) ←
    match msg with
    | Some msg =>
        data_len ← rd msg offsetof_data_len 4;
        let packet_len := sizeof_ecryptfs_message + host_val big_endian data_len in
        '(rc, str, size) ← ecryptfs_write_packet_length packet_len_str 0 packet_len;
        mret (rc, str, size, packet_len)
    | None => mret (0, packet_len_str, 0, 0)
    end;
  if negb (rc =? 0) then mret (rc, None)
  else
    let miscdev_msg_data_size := u32 (1 + 4 + packet_len_size + packet_len) in
    if negb (alloc_ok 74 k) then mret (- ENOMEM, None)
    else
      let data := malloc_block heap_junk miscdev_msg_data_size in
      let msg_seq_be32 := ntoh big_endian 4 msg_seq in
      data ← wr data 0 [msg_type];
      data ← wr data 1 (host_bytes big_endian 4 msg_seq_be32);
      let i := 5 in
      data ← match msg with
             | Some msg =>
                 s ← rd packet_len_str 0 packet_len_size;
                 data ← wr data i s;
                 m ← rd msg 0 packet_len;
                 wr data (i + packet_len_size) m
             | None => mret data
             end;
      if write_ok then mret (0, Some data) else mret (- EIO, None).

(** The out parameters [msg], [msg_seq] and [msg_type] are the members of the
    daemon's state; [k] counts the calls. *)
Definition ecryptfs_recv_miscdev (k : nat) (device_read : option bytes) (d : daemon)
    : outcome (Z * daemon) :=
  if negb (alloc_ok 118 k) then mret (- ENOMEM, d)
  else
    let data := malloc_block heap_junk ECRYPTFS_MSG_MAX_SIZE in
    match device_read with
    | None => mret (- EIO, d)
    | Some input =>
        let input := take (Z.to_nat ECRYPTFS_MSG_MAX_SIZE) input in
        let read_bytes := zlen input in
        data ← wr data 0 input;
        if read_bytes <? 1 + 4 then mret (- EINVAL, d)
        else
          msg_type ← rd1 data 0;
          msg_seq_be32 ← rd data 1 4;
          let i := 5 in
          let msg_seq := ntoh big_endian 4 (host_val big_endian msg_seq_be32) in
          let d := Daemon (d_emsg d) msg_seq msg_type (d_error_count d) in
          '(rc, packet_len, packet_len_size) ←
            (if msg_type =? ECRYPTFS_MSG_REQUEST then ecryptfs_parse_packet_length data i
             else mret (0, 0, 0));
          if negb (rc =? 0) then mret (rc, d)
          else
            let i := i + packet_len_size in
            let miscdev_msg_data_size := u32 (1 + 4 + packet_len_size + packet_len) in
            if negb (miscdev_msg_data_size =? read_bytes) then mret (- EINVAL, d)
            else if negb (alloc_ok 166 k)
            then mret (- ENOMEM, Daemon PNull msg_seq msg_type (d_error_count d))
            else
              m ← rd data i packet_len;
              mret (0, Daemon (PLive m) msg_seq msg_type (d_error_count d))
    end.

(** The descriptor, or a failure when neither device node opens. *)
Definition ecryptfs_init_miscdev (open : cstring -> Z) : Z * Z :=
  let miscdev_fd := open ECRYPTFS_DEFAULT_MISCDEV_FULLPATH_0 in
  if negb (miscdev_fd =? -1) then (0, miscdev_fd)
  else
    let miscdev_fd := open ECRYPTFS_DEFAULT_MISCDEV_FULLPATH_1 in
    if miscdev_fd =? -1 then (- EIO, miscdev_fd) else (0, miscdev_fd).

Definition init_miscdev_daemon : Z := 0.

(** [free(emsg)]: the pointer dangles afterwards. *)
Definition free_emsg (d : daemon) : outcome daemon :=
  _ ← c_free (d_emsg d);
  mret (Daemon (match d_emsg d with PNull => PNull | _ => PFreed end)
          (d_msg_seq d) (d_msg_type d) (d_error_count d)).

Definition set_error_count (n : Z) (d : daemon) : daemon :=
  Daemon (d_emsg d) (d_msg_seq d) (d_msg_type d) n.

(** From the label [receive] back to it: the status afterwards and the
    messages the device got. *)
Definition daemon_step (k : nat) (mods : key_mod_list) (ev : dev_event) (d : daemon)
    : outcome (daemon_status * list bytes) :=
  '(rc, d) ← ecryptfs_recv_miscdev k (ev_read ev) d;
  if rc <? 0 then
    let d := set_error_count (d_error_count d + 1) d in
    if ECRYPTFS_MSG_ERROR_COUNT_THRESHOLD <? d_error_count d then mret (Exited (- EIO), [])
    else d ← free_emsg d; mret (Receiving d, [])
  else if d_msg_type d =? ECRYPTFS_MSG_HELO then
    d ← free_emsg (set_error_count 0 d);
    mret (Receiving d, [])
  else if d_msg_type d =? ECRYPTFS_MSG_QUIT then
    _ ← c_free (d_emsg d);
    mret (Exited 0, [])
  else if d_msg_type d =? ECRYPTFS_MSG_REQUEST then
    '(rc, reply) ← parse_packet big_endian k mods (d_emsg d);
    if negb (rc =? 0) then
      _ ← c_free reply;
      d ← free_emsg d;
      mret (Receiving d, [])
    else
      emsg ← deref (d_emsg d);
      index ← rd emsg 0 4;
      reply ← deref reply;
      reply ← wr reply 0 index;
      '(_, sent) ← ecryptfs_send_miscdev k (ev_write_ok ev) (Some reply)
                     ECRYPTFS_MSG_RESPONSE 0 (d_msg_seq d);
      d ← free_emsg (set_error_count 0 d);
      mret (Receiving d, option_list sent)
  else
    d ← free_emsg d;
    mret (Receiving d, []).

(** The loop, over the exchanges the device offers; a daemon that has used
    them up waits in [read]. *)
Fixpoint daemon_loop (k : nat) (mods : key_mod_list) (events : list dev_event) (d : daemon)
    : outcome (daemon_status * list bytes) :=
  match events with
  | [] => mret (Receiving d, [])
  | ev :: events' =>
      '(st, out) ← daemon_step k mods ev d;
      match st with
      | Exited rc => mret (Exited rc, out)
      | Receiving d =>
          '(st, out') ← daemon_loop (S k) mods events' d;
          mret (st, out ++ out')
      end
  end.

(** [msg_seq] and [msg_type] start uninitialised; they are written before they
    are read. *)
Definition daemon_start : daemon := Daemon PNull 0 0 0.

Definition ecryptfs_run_miscdev_daemon (key_mod_dir : cstring)
    (builtins : list (option ecryptfs_key_mod_ops)) (dir : option (list dirent))
    (events : list dev_event) : outcome (daemon_status * list bytes) :=
  '(rc, mods) ← ecryptfs_register_key_modules key_mod_dir builtins dir;
  '(st, out) ← (if negb (rc =? 0) then mret (Exited rc, [])
                else daemon_loop 0 mods events daemon_start);
  match st with
  | Exited rc => _ ← ecryptfs_free_key_mod_list mods; mret (Exited rc, out)
  | Receiving _ => mret (st, out)
  end.

(** ** Dispatch on the messaging type *)
Record ecryptfs_messaging_ctx := MessagingCtx {
  mctx_type : Z;
  mctx_state : Z;
  mctx_miscdev_fd : Z
}.

Definition ecryptfs_init_messaging (open : cstring -> Z) (type : Z) : Z * ecryptfs_messaging_ctx :=
  if type =? ECRYPTFS_MESSAGING_TYPE_MISCDEV then
    let '(rc, fd) := ecryptfs_init_miscdev open in
    (rc, MessagingCtx ECRYPTFS_MESSAGING_TYPE_MISCDEV 0 fd)
  else (- EINVAL, MessagingCtx 0 0 0).

(** The descriptor closed, when one is. *)
Definition ecryptfs_messaging_exit (mctx : ecryptfs_messaging_ctx) : Z * option Z :=
  if mctx_type mctx =? ECRYPTFS_MESSAGING_TYPE_MISCDEV then (0, Some (mctx_miscdev_fd mctx))
  else (- EINVAL, None).

Definition ecryptfs_send_message (mctx : ecryptfs_messaging_ctx) (k : nat) (write_ok : bool)
    (msg : option bytes) (msg_type msg_flags msg_seq : Z) : outcome (Z * option bytes) :=
  if mctx_type mctx =? ECRYPTFS_MESSAGING_TYPE_MISCDEV
  then ecryptfs_send_miscdev k write_ok msg msg_type msg_flags msg_seq
  else mret (- EINVAL, None).

Definition ecryptfs_run_daemon (mctx : ecryptfs_messaging_ctx) (key_mod_dir : cstring)
    (builtins : list (option ecryptfs_key_mod_ops)) (dir : option (list dirent))
    (events : list dev_event) : outcome (daemon_status * list bytes) :=
  if mctx_type mctx =? ECRYPTFS_MESSAGING_TYPE_MISCDEV
  then ecryptfs_run_miscdev_daemon key_mod_dir builtins dir events
  else mret (Exited (- EINVAL), []).
End Miscdev.

(** ** Reference: frames on the device *)

(** Type, sequence number in network order, and for a message its length and
    the message. *)
Definition frame (type seq : Z) (payload : option bytes) : bytes :=
  type :: be_bytes 4 seq ++
  match payload with
  | Some p => packet_length_bytes (zlen p) ++ p
  | None => []
  end.

(** What the kernel sends: a payload exactly in requests. *)
Definition kernel_frame (type seq : Z) (payload : bytes) : bytes :=
  frame type seq (if type =? ECRYPTFS_MSG_REQUEST then Some payload else None).

(** ** Lemmas *)
Lemma zlen_be_bytes n x : zlen (be_bytes n x) = Z.of_nat n.
Proof. unfold zlen. by rewrite length_be_bytes. Qed.

Lemma zlen_host_bytes be n x : zlen (host_bytes be n x) = Z.of_nat n.
Proof. unfold zlen. by rewrite length_host_bytes. Qed.

(** A 32-bit number survives the two conversions on a host of any order. *)
Lemma ntoh_be_bytes be x : 0 <= x < 2 ^ 32 -> ntoh be 4 (host_val be (be_bytes 4 x)) = x.
Proof.
  intros Hx. change 4%nat with (length (be_bytes 4 x)) at 1.
  rewrite ntoh_host_val, be_val_be_bytes by apply be_bytes_are_bytes.
  change (256 ^ Z.of_nat 4) with (2 ^ 32). by apply Z.mod_small.
Qed.

Lemma be_bytes_be_val l : Forall is_byte l -> be_bytes (length l) (be_val l) = l.
Proof.
  intros H. unfold be_bytes, be_val. rewrite <- (length_reverse l).
  rewrite le_bytes_le_val by (by apply Forall_reverse). apply reverse_involutive.
Qed.

Lemma malloc_block_bytes `{Heap} n : heap_bytes -> Forall is_byte (malloc_block heap_junk n).
Proof. intros Hb. unfold malloc_block. apply Forall_fmap, Forall_true. intros i. apply Hb. Qed.

(** *** Sending *)
Section Send.
Context `{Heap} (be : bool).

Lemma send_miscdev_ok k msg type flags seq n :
  heap_never_fails -> 0 <= seq < 2 ^ 32 ->
  host_val be (take 4 (drop 4 msg)) = n -> 0 <= n -> 8 + n <= zlen msg -> 8 + n < 65536 ->
  ecryptfs_send_miscdev be k true (Some msg) type flags seq =
  Ok (0, Some (frame type seq (Some (take (Z.to_nat (8 + n)) msg)))).
Proof.
  intros Hh Hseq Hlen Hn Hmsg Hmax. unfold ecryptfs_send_miscdev.
  change offsetof_data_len with 4. change sizeof_ecryptfs_message with 8.
  rewrite rd_ok, bind_Ok by lia. change (Z.to_nat 4) with 4%nat. rewrite Hlen.
  set (L := packet_length_bytes (8 + n)).
  assert (zlen L = if 8 + n <? 192 then 1 else 2) as HL by apply packet_length_bytes_length.
  assert (1 <= zlen L <= 2) by (rewrite HL; case_match; lia).
  pose (junk := malloc_block heap_junk 3).
  assert (zlen junk = 3) as Hj by (by apply zlen_malloc_block).
  fold junk. rewrite <- (take_drop (Z.to_nat (zlen L)) junk).
  pose proof (write_packet_length_ok [] (take (Z.to_nat (zlen L)) junk)
    (drop (Z.to_nat (zlen L)) junk) 0 (8 + n) ltac:(lia) eq_refl
    ltac:(rewrite zlen_take; fold L; lia)) as E.
  cbn [app] in E. rewrite E. fold L. rewrite !bind_Ok. cbn [Z.eqb negb].
  rewrite (Hh 74). cbn [negb].
  assert (u32 (1 + 4 + zlen L + (8 + n)) = 1 + 4 + zlen L + (8 + n)) as Hsz
    by (apply wrap_small; lia).
  rewrite Hsz. unfold malloc_block.
  replace (Z.to_nat (1 + 4 + zlen L + (8 + n)))
    with (1 + (4 + (Z.to_nat (zlen L) + Z.to_nat (8 + n))))%nat by lia.
  fold (junk_from heap_junk 0 (1 + (4 + (Z.to_nat (zlen L) + Z.to_nat (8 + n))))).
  rewrite !junk_from_app.
  assert (forall o a, zlen (junk_from heap_junk o a) = Z.of_nat a) as HJ
    by (intros; unfold zlen; by rewrite length_junk_from).
  rewrite (wr_at [] (junk_from heap_junk 0 1) _ [type]) by (done || by rewrite HJ). rewrite bind_Ok.
  rewrite host_bytes_hton by (change (256 ^ Z.of_nat 4) with (2 ^ 32); lia). cbn [app].
  rewrite (wr_at [type] (junk_from heap_junk (0 + 1) 4) _ (be_bytes 4 seq))
    by (done || by rewrite HJ, zlen_be_bytes). rewrite bind_Ok.
  rewrite rd_prefix, bind_Ok by done. cbn [app].
  set (J1 := junk_from _ _ (Z.to_nat (zlen L))). set (J2 := junk_from _ _ (Z.to_nat (8 + n))).
  rewrite (wr_at (type :: be_bytes 4 seq) J1 J2 L); [|done|by rewrite zlen_cons, zlen_be_bytes|].
  2:{ subst J1. rewrite HJ. lia. }
  rewrite bind_Ok, rd_ok by lia. rewrite bind_Ok. change (Z.to_nat 0) with 0%nat. rewrite drop_0.
  assert (zlen (take (Z.to_nat (8 + n)) msg) = 8 + n) as Ht by (rewrite zlen_take; lia).
  rewrite (wr_at ((type :: be_bytes 4 seq) ++ L) J2 [] (take (Z.to_nat (8 + n)) msg)).
  - rewrite bind_Ok. unfold frame. rewrite Ht. fold L. by rewrite app_nil_r, <- app_assoc.
  - by rewrite app_nil_r, <- app_assoc.
  - rewrite zlen_app, zlen_cons, zlen_be_bytes. lia.
  - subst J2. rewrite HJ, Ht. lia.
Qed.
End Send.

(** *** Receiving *)
Section Recv.
Context `{Heap} (be : bool).

(** The buffer the message is read into: the bytes read, then junk. *)
Definition recv_buffer (data : bytes) : bytes :=
  data ++ drop (length data) (malloc_block heap_junk ECRYPTFS_MSG_MAX_SIZE).

Lemma recv_buffer_length data : zlen data <= 1024 -> zlen (recv_buffer data) = 1024.
Proof.
  intros Hd. unfold recv_buffer. rewrite zlen_app, zlen_drop, zlen_malloc_block by (vm_compute; congruence).
  change ECRYPTFS_MSG_MAX_SIZE with 1024. unfold zlen in *. lia.
Qed.

Lemma recv_buffer_bytes data :
  heap_bytes -> Forall is_byte data -> Forall is_byte (recv_buffer data).
Proof. intros ? ?. apply Forall_app. split; [done|]. by apply Forall_drop, malloc_block_bytes. Qed.

(** Header and body of a frame of at least five bytes. *)
Lemma frame_split (data : bytes) :
  5 <= zlen data -> exists (ty : Z) (s rest : bytes), data = ty :: s ++ rest /\ length s = 4%nat.
Proof.
  intros H5. destruct data as [|ty data]; [by cbn in H5|].
  exists ty, (take 4 data), (drop 4 data). rewrite take_drop, length_take.
  rewrite zlen_cons in H5. unfold zlen in H5. split; [done|lia].
Qed.

(** [recv] once the header is known. *)
Lemma recv_header k d ty s rest :
  heap_never_fails -> zlen (ty :: s ++ rest) <= 1024 -> length s = 4%nat -> Forall is_byte s ->
  let data := ty :: s ++ rest in
  let d' := Daemon (d_emsg d) (be_val s) ty (d_error_count d) in
  ecryptfs_recv_miscdev be k (Some data) d =
  ('(rc, packet_len, packet_len_size) ←
     (if ty =? ECRYPTFS_MSG_REQUEST then ecryptfs_parse_packet_length (recv_buffer data) 5
      else mret (0, 0, 0));
   if negb (rc =? 0) then mret (rc, d')
   else if negb (u32 (1 + 4 + packet_len_size + packet_len) =? zlen data) then mret (- EINVAL, d')
   else m ← rd (recv_buffer data) (5 + packet_len_size) packet_len;
        mret (0, Daemon (PLive m) (be_val s) ty (d_error_count d))).
Proof.
  intros Hh Hmax Hs Hb data d'. unfold ecryptfs_recv_miscdev. rewrite !Hh. cbn [negb].
  assert (take (Z.to_nat ECRYPTFS_MSG_MAX_SIZE) data = data) as Htake.
  { apply take_ge. change (Z.to_nat ECRYPTFS_MSG_MAX_SIZE) with (Z.to_nat 1024).
    unfold zlen in Hmax. subst data. lia. }
  rewrite Htake.
  assert (wr (malloc_block heap_junk ECRYPTFS_MSG_MAX_SIZE) 0 data = Ok (recv_buffer data)) as Ew.
  { rewrite wr_ok; [done|done|]. rewrite zlen_malloc_block by (vm_compute; congruence). exact Hmax. }
  rewrite Ew, bind_Ok.
  assert (5 <= zlen data) as H5.
  { subst data. rewrite zlen_cons, zlen_app. pose proof (zlen_nonneg rest). unfold zlen at 1. lia. }
  replace (zlen data <? 1 + 4) with false by lia.
  unfold recv_buffer at 1. subst data. cbn [app].
  assert (forall l, rd1 (ty :: l) 0 = Ok ty) as Ehd by done. rewrite Ehd, bind_Ok. unfold recv_buffer at 1. cbn [app].
  rewrite <- app_assoc.
  assert (forall l, rd (ty :: s ++ l) 1 4 = Ok s) as Eseq
    by (intros l; apply (rd_app3 [ty] s l); [done | unfold zlen; lia]).
  rewrite Eseq, bind_Ok.
  rewrite <- Hs, ntoh_host_val by done. reflexivity.
Qed.

Lemma recv_kernel_frame k d ty seq p :
  heap_never_fails -> 0 <= seq < 2 ^ 32 -> (ty <> ECRYPTFS_MSG_REQUEST -> p = []) ->
  zlen (kernel_frame ty seq p) <= 1024 ->
  ecryptfs_recv_miscdev be k (Some (kernel_frame ty seq p)) d =
  Ok (0, Daemon (PLive p) seq ty (d_error_count d)).
Proof.
  intros Hh Hseq Hp Hmax. pose proof (zlen_nonneg p).
  unfold kernel_frame, frame in *.
  rewrite (recv_header k d ty (be_bytes 4 seq)) by
    (done || apply length_be_bytes || apply be_bytes_are_bytes).
  rewrite be_val_be_bytes, Z.mod_small by (change (256 ^ Z.of_nat 4) with (2 ^ 32); lia).
  destruct (Z.eqb_spec ty ECRYPTFS_MSG_REQUEST) as [->|Hty].
  - set (L := packet_length_bytes (zlen p)) in *.
    assert (1 <= zlen L <= 2) as HL
      by (subst L; rewrite packet_length_bytes_length; case_match; lia).
    assert (zlen (ECRYPTFS_MSG_REQUEST :: be_bytes 4 seq ++ L ++ p) = 5 + zlen L + zlen p) as Hlen
      by (rewrite zlen_cons, !zlen_app, zlen_be_bytes; lia).
    rewrite Hlen in *. set (data := ECRYPTFS_MSG_REQUEST :: _).
    assert (recv_buffer data = (ECRYPTFS_MSG_REQUEST :: be_bytes 4 seq) ++ L ++
      (p ++ drop (length data) (malloc_block heap_junk ECRYPTFS_MSG_MAX_SIZE))) as Hbuf
      by (unfold recv_buffer; subst data; cbn [app]; by rewrite <- !app_assoc).
    rewrite Hbuf. unfold L at 1.
    rewrite parse_packet_length_ok by (lia || by rewrite zlen_cons, zlen_be_bytes).
    fold L. rewrite bind_Ok. cbn [Z.eqb negb]. rewrite wrap_small by lia.
    replace (1 + 4 + zlen L + zlen p =? 5 + zlen L + zlen p) with true by lia. cbn [negb].
    rewrite app_assoc, (rd_app3 _ p); [by rewrite bind_Ok| |done].
    rewrite zlen_app, zlen_cons, zlen_be_bytes. lia.
  - rewrite (Hp Hty), bind_Ok. rewrite app_nil_r. cbn [Z.eqb negb].
    rewrite zlen_cons, zlen_be_bytes. change (u32 (1 + 4 + 0 + 0)) with 5. cbn -[rd recv_buffer be_bytes].
    rewrite rd_ok; [by rewrite bind_Ok|lia..|].
    rewrite recv_buffer_length by (rewrite zlen_cons, zlen_be_bytes; lia). lia.
Qed.

(** The length in a frame is read inside the buffer, whatever it is. *)
Lemma recv_buffer_parses data :
  zlen data <= 1024 -> exists r, ecryptfs_parse_packet_length (recv_buffer data) 5 = Ok r.
Proof.
  intros Hmax. pose proof (recv_buffer_length data Hmax) as Hbl. unfold ecryptfs_parse_packet_length.
  destruct (lookup_lt_is_Some_2 (recv_buffer data) 5) as [d0 E0]; [unfold zlen in Hbl; lia|].
  destruct (lookup_lt_is_Some_2 (recv_buffer data) 6) as [d1 E1]; [unfold zlen in Hbl; lia|].
  rewrite (rd1_lookup _ 5 _ ltac:(lia) E0), bind_Ok. change (5 + 1) with 6.
  rewrite (rd1_lookup _ 6 _ ltac:(lia) E1), bind_Ok. repeat case_match; by eexists.
Qed.

(** What the buffer holds after type and number is the front of the data. *)
Lemma recv_buffer_rest ty s rest pre lb post :
  recv_buffer (ty :: s ++ rest) = pre ++ lb ++ post -> zlen pre = 5 -> length s = 4%nat ->
  (length lb <= length rest)%nat -> take (length lb) rest = lb.
Proof.
  intros Hbuf Hpre Hs Hle.
  assert (drop 5 (recv_buffer (ty :: s ++ rest)) = lb ++ post) as Hd.
  { rewrite Hbuf. apply drop_app_length'. unfold zlen in Hpre. lia. }
  unfold recv_buffer in Hd. cbn [app] in Hd. rewrite <- app_assoc in Hd. cbn [drop] in Hd.
  rewrite drop_app_length' in Hd by done.
  apply (f_equal (take (length lb))) in Hd. by rewrite take_app_le, take_app_length in Hd.
Qed.

(** Anything that is not such a frame is refused. *)
Lemma recv_any k d data :
  heap_never_fails -> heap_bytes -> Forall is_byte data -> zlen data <= 1024 ->
  (exists ty seq p, 0 <= seq < 2 ^ 32 /\ (ty <> ECRYPTFS_MSG_REQUEST -> p = []) /\
     data = kernel_frame ty seq p) \/
  (exists seq ty, ecryptfs_recv_miscdev be k (Some data) d =
     Ok (- EINVAL, Daemon (d_emsg d) seq ty (d_error_count d))).
Proof.
  intros Hh Hj Hb Hmax. destruct (Z.lt_ge_cases (zlen data) 5) as [Hlt|Hge].
  { right. exists (d_msg_seq d), (d_msg_type d). unfold ecryptfs_recv_miscdev. rewrite Hh. cbn [negb].
    rewrite take_ge by (change (Z.to_nat ECRYPTFS_MSG_MAX_SIZE) with (Z.to_nat 1024); unfold zlen in *; lia).
    rewrite wr_ok by (rewrite ?zlen_malloc_block by (vm_compute; congruence);
      change ECRYPTFS_MSG_MAX_SIZE with 1024; lia).
    rewrite bind_Ok. replace (zlen data <? 1 + 4) with true by lia. by destruct d. }
  destruct (frame_split data Hge) as (ty & s & rest & -> & Hs).
  apply Forall_cons_1 in Hb as Hb'. destruct Hb' as [Hty [Hsb Hrest]%Forall_app].
  assert (0 <= be_val s < 2 ^ 32) as Hseq.
  { pose proof (be_val_bound s Hsb) as Hv. unfold zlen in Hv. rewrite Hs in Hv. exact Hv. }
  assert (be_bytes 4 (be_val s) = s) as Hbs by (rewrite <- Hs; by apply be_bytes_be_val).
  rewrite recv_header by done. set (data := ty :: s ++ rest) in *.
  assert (zlen data = 5 + zlen rest) as Hlen
    by (subst data; rewrite zlen_cons, zlen_app; unfold zlen at 1; lia).
  pose proof (zlen_nonneg rest).
  destruct (Z.eqb_spec ty ECRYPTFS_MSG_REQUEST) as [Ety|Hreq].
  2:{ rewrite bind_Ok. cbn [Z.eqb negb]. change (u32 (1 + 4 + 0 + 0)) with 5.
    destruct (Z.eqb_spec 5 (zlen data)).
    - left. exists ty, (be_val s), []. split; [done|]. split; [done|].
      unfold kernel_frame, frame. destruct (Z.eqb_spec ty ECRYPTFS_MSG_REQUEST); [done|].
      assert (rest = []) as Hnil by (apply nil_length_inv; unfold zlen in *; lia).
      rewrite Hbs. subst data. by rewrite Hnil.
    - right. by eexists _, _. }
  destruct (recv_buffer_parses data Hmax) as [[[rc size] len] E]. rewrite E.
  rewrite bind_Ok. pose proof (recv_buffer_bytes data Hj Hb) as Hbb.
  destruct (parse_packet_length_inv _ _ _ _ _ Hbb E) as [(-> & _ & _)|Hok].
  { right. by eexists _, _. }
  assert (rc = 0) as -> by lia. clear Hok. cbn [Z.eqb negb].
  destruct (parse_packet_length_canonical _ _ _ _ Hbb E) as (Hsz & -> & pre & post & Hbuf & Hpre).
  assert (zlen (packet_length_bytes size) = if size <? 192 then 1 else 2) as HL
    by apply packet_length_bytes_length.
  rewrite wrap_small by (rewrite HL; case_match; lia).
  destruct (Z.eqb_spec (1 + 4 + zlen (packet_length_bytes size) + size) (zlen data)) as [Heq|Hne].
  2:{ right. by eexists _, _. }
  left. exists ty, (be_val s), (drop (length (packet_length_bytes size)) rest). split; [done|].
  split; [done|]. unfold kernel_frame, frame.
  destruct (Z.eqb_spec ty ECRYPTFS_MSG_REQUEST); [|done]. rewrite Hbs. subst data. do 2 f_equal.
  assert (take (length (packet_length_bytes size)) rest = packet_length_bytes size) as Htk.
  { apply (recv_buffer_rest ty s rest pre _ post); [done..|]. unfold zlen in *; lia. }
  assert (zlen (drop (length (packet_length_bytes size)) rest) = size) as Hdl.
  { rewrite zlen_drop. unfold zlen in *. lia. }
  rewrite Hdl. rewrite <- Htk at 1. by rewrite take_drop.
Qed.
End Recv.

(** *** The daemon *)
Section Daemon.
Context `{Heap, Keyring} (be : bool).

(** A reply block with the index of the request in place. *)
Lemma send_reply k out idx seq tag :
  heap_never_fails -> 0 <= seq < 2 ^ 32 -> zlen out <= 512 ->
  (reply ← wr (reply_block be tag out (zlen (key_packet tag out))) 0 (host_bytes be 4 idx);
   '(_, sent) ← ecryptfs_send_miscdev be k true (Some reply) ECRYPTFS_MSG_RESPONSE 0 seq;
   mret sent) =
  Ok (Some (frame ECRYPTFS_MSG_RESPONSE seq (Some (message_block be idx (key_packet tag out))))).
Proof.
  intros Hh Hseq Hout. unfold reply_block.
  pose proof (zlen_key_packet tag out) as Hk. pose proof (zlen_nonneg out).
  set (n := zlen (key_packet tag out)) in *.
  assert (5 < n + 3 < 600) as Hn by (rewrite Hk; case_match; lia).
  rewrite (wr_at [] (junk_from heap_junk 0 4) _ (host_bytes be 4 idx))
    by (done || rewrite zlen_host_bytes; unfold zlen; by rewrite length_junk_from).
  rewrite bind_Ok. cbn [app].
  assert (length (host_bytes be 4 idx) = 4%nat) as L1 by apply length_host_bytes.
  assert (length (host_bytes be 4 n) = 4%nat) as L2 by apply length_host_bytes.
  rewrite (send_miscdev_ok be _ _ _ _ _ n); try done; try lia.
  - rewrite bind_Ok. do 4 f_equal. unfold message_block. fold n.
    rewrite app_assoc, (app_assoc (host_bytes be 4 idx)), app_assoc. apply take_app_length'.
    rewrite !length_app, L1, L2. unfold n, zlen. lia.
  - rewrite (drop_app_length' (host_bytes be 4 idx)), (take_app_length' (host_bytes be 4 n)) by done.
    rewrite host_val_host_bytes. apply Z.mod_small.
    change (256 ^ Z.of_nat 4) with (2 ^ 32). lia.
  - rewrite !zlen_app, !zlen_host_bytes. fold n. pose proof (zlen_nonneg (slack (zlen out))). lia.
Qed.

Lemma recv_ok_live k r d d1 :
  ecryptfs_recv_miscdev be k r d = Ok (0, d1) -> exists p, d_emsg d1 = PLive p.
Proof.
  unfold ecryptfs_recv_miscdev, mret, outcome_ret.
  destruct (alloc_ok 118 k); [|done]. cbn [negb]. destruct r as [input|]; [|done].
  intros (data & _ & E)%bind_ok_inv.
  destruct (_ <? _); [done|].
  apply bind_ok_inv in E as (ty & _ & E). apply bind_ok_inv in E as (s & _ & E).
  apply bind_ok_inv in E as ([[rc len] size] & _ & E).
  destruct (Z.eqb_spec rc 0); cbn [negb] in E; [|congruence].
  destruct (_ =? _); cbn [negb] in E; [|done].
  destruct (alloc_ok 166 k); cbn [negb] in E; [|done].
  apply bind_ok_inv in E as (m & _ & E). injection E as <-. by exists m.
Qed.

Lemma free_emsg_live d p d' :
  d_emsg d = PLive p -> free_emsg d = Ok d' -> d_emsg d' = PFreed /\ d_error_count d' = d_error_count d.
Proof. intros Hp. unfold free_emsg. rewrite Hp. cbn. by intros [= <-]. Qed.

(** Every way back to [receive] after a message frees the message. *)
Lemma step_frees k mods ev d d1 d' out :
  ecryptfs_recv_miscdev be k (ev_read ev) d = Ok (0, d1) ->
  daemon_step be k mods ev d = Ok (Receiving d', out) -> d_emsg d' = PFreed.
Proof.
  intros Hr. destruct (recv_ok_live _ _ _ _ Hr) as [p Hp].
  unfold daemon_step, mret, outcome_ret. rewrite Hr, bind_Ok. cbn [Z.ltb Z.compare].
  destruct (_ =? _).
  { intros (d2 & Hf & E)%bind_ok_inv. injection E as <- _. by eapply free_emsg_live in Hf as [? _]. }
  destruct (_ =? _); [by intros (? & _ & ?)%bind_ok_inv|].
  destruct (_ =? _).
  2:{ intros (d2 & Hf & E)%bind_ok_inv. injection E as <- _. by eapply free_emsg_live in Hf as [? _]. }
  intros ([rc reply] & _ & E)%bind_ok_inv. destruct (negb _).
  - apply bind_ok_inv in E as (? & _ & E). apply bind_ok_inv in E as (d2 & Hf & E).
    injection E as <- _. by eapply free_emsg_live in Hf as [? _].
  - do 4 (apply bind_ok_inv in E as (? & _ & E)). apply bind_ok_inv in E as ([? ?] & _ & E).
    apply bind_ok_inv in E as (d2 & Hf & E).
    injection E as <- _. by eapply free_emsg_live in Hf as [? _].
Qed.

Lemma recv_read_error k d :
  exists rc, ecryptfs_recv_miscdev be k None d = Ok (rc, d) /\ rc < 0.
Proof.
  unfold ecryptfs_recv_miscdev, mret, outcome_ret. destruct (alloc_ok 118 k); cbn [negb];
    eexists; split; try reflexivity; vm_compute; congruence.
Qed.

(** A read error with a null message pointer only counts. *)
Lemma step_read_error k mods w d :
  daemon_step be k mods (DevEvent None w) d =
  (let d := set_error_count (d_error_count d + 1) d in
   if 8 <? d_error_count d then mret (Exited (- EIO), [])
   else d ← free_emsg d; mret (Receiving d, [])).
Proof.
  unfold daemon_step. cbn [ev_read]. destruct (recv_read_error k d) as (rc & -> & Hrc).
  rewrite bind_Ok. by replace (rc <? 0) with true by lia.
Qed.
End Daemon.

(** ** Properties *)

(** C4. Receiving is exact: for whatever bytes the device delivers, the call
    stays inside its buffer, and it returns 0 with the type, the sequence
    number and a fresh copy of the payload exactly when the bytes are a frame
    of the kernel; everything else is refused with -EINVAL and leaves the
    message pointer alone.  The contents of the uninitialised part of the
    buffer never matter. *)
Theorem recv_miscdev_exact `{Heap} be k d data :
  heap_never_fails -> heap_bytes -> Forall is_byte data -> zlen data <= ECRYPTFS_MSG_MAX_SIZE ->
  let wf ty seq p := 0 <= seq < 2 ^ 32 /\ (ty <> ECRYPTFS_MSG_REQUEST -> p = []) /\
                     data = kernel_frame ty seq p in
  (exists ty seq p, wf ty seq p /\
     ecryptfs_recv_miscdev be k (Some data) d = Ok (0, Daemon (PLive p) seq ty (d_error_count d))) \/
  ((forall ty seq p, ~ wf ty seq p) /\
   exists seq ty, ecryptfs_recv_miscdev be k (Some data) d =
     Ok (- EINVAL, Daemon (d_emsg d) seq ty (d_error_count d))).
Proof.
  intros Hh Hj Hb Hmax wf. subst wf. change ECRYPTFS_MSG_MAX_SIZE with 1024 in Hmax.
  destruct (recv_any be k d data Hh Hj Hb Hmax)
    as [(ty & seq & p & Hseq & Hp & ->) | (seq & ty & E)].
  - left. exists ty, seq, p. split; [done|]. by apply recv_kernel_frame.
  - right. split; [|by eauto]. intros ty' seq' p (Hseq & Hp & ->).
    rewrite recv_kernel_frame in E by done. discriminate.
Qed.

Lemma recv_miscdev_exact_witness :
  let data := [102; 0; 0; 0; 7; 2; 8; 9] in
  let wf ty seq p := 0 <= seq < 2 ^ 32 /\ (ty <> ECRYPTFS_MSG_REQUEST -> p = []) /\
                     data = kernel_frame ty seq p in
  (exists ty seq p, wf ty seq p /\
     @ecryptfs_recv_miscdev plenty false 0 (Some data) daemon_start =
     Ok (0, Daemon (PLive p) seq ty 0)) \/
  ((forall ty seq p, ~ wf ty seq p) /\
   exists seq ty, @ecryptfs_recv_miscdev plenty false 0 (Some data) daemon_start =
     Ok (- EINVAL, Daemon PNull seq ty 0)).
Proof.
  apply (@recv_miscdev_exact plenty false 0 daemon_start [102; 0; 0; 0; 7; 2; 8; 9]).
  - intros line k. reflexivity.
  - intros i. vm_compute. split; congruence.
  - repeat constructor; vm_compute; congruence.
  - vm_compute; congruence.
Defined.

(** C32. The daemon serves the kernel: from any state, when the kernel asks to
    decrypt a session key whose token is known and whose module decrypts it,
    the daemon writes exactly one frame, a response with the sequence number
    and the message index of the request that carries the decrypted key in a
    tag 65 packet, and returns to its receiving state with no errors counted. *)
Theorem daemon_serves_tag_64 `{Heap, Keyring} be k mods d seq idx sig key blob f n w out :
  heap_never_fails -> 0 <= seq < 2 ^ 32 ->
  let request := message_block be idx (request_packet ECRYPTFS_TAG_64_PACKET sig key) in
  let data := kernel_frame ECRYPTFS_MSG_REQUEST seq request in
  zlen data <= ECRYPTFS_MSG_MAX_SIZE ->
  token_known be mods sig op_decrypt blob f ->
  f false key blob ECRYPTFS_BLOB_TYPE_BLOB = (0, n, w) -> 0 < n ->
  f true key blob ECRYPTFS_BLOB_TYPE_BLOB = (0, zlen out, out) ->
  zlen out <= n -> zlen out <= ECRYPTFS_MAX_KEY_BYTES ->
  daemon_step be k mods (DevEvent (Some data) true) d =
  Ok (Receiving (Daemon PFreed seq ECRYPTFS_MSG_REQUEST 0),
      [frame ECRYPTFS_MSG_RESPONSE seq
         (Some (message_block be idx (key_packet ECRYPTFS_TAG_65_PACKET out)))]).
Proof.
  intros Hh Hseq request data Hmax Ht Hf1 Hn Hf2 Hle Hk64.
  change ECRYPTFS_MSG_MAX_SIZE with 1024 in Hmax.
  assert (zlen key <= 8383) as Hkey.
  { pose proof (zlen_nonneg sig). pose proof (zlen_nonneg (packet_length_bytes (zlen sig))).
    pose proof (zlen_nonneg (packet_length_bytes (zlen key))).
    pose proof (zlen_nonneg (packet_length_bytes (zlen request))).
    assert (zlen key <= zlen request).
    { unfold request, message_block, request_packet, request_body.
      rewrite !zlen_app, !zlen_host_bytes, zlen_cons, !zlen_app. lia. }
    revert Hmax. unfold data, kernel_frame, frame.
    cbn [Z.eqb Pos.eqb ECRYPTFS_MSG_REQUEST].
    rewrite zlen_cons, !zlen_app, zlen_be_bytes. lia. }
  unfold daemon_step. cbn [ev_read ev_write_ok].
  unfold data. rewrite recv_kernel_frame by done. rewrite bind_Ok.
  cbn [d_msg_type d_emsg d_msg_seq d_error_count Z.ltb Z.compare].
  change (ECRYPTFS_MSG_REQUEST =? ECRYPTFS_MSG_HELO) with false.
  change (ECRYPTFS_MSG_REQUEST =? ECRYPTFS_MSG_QUIT) with false.
  change (ECRYPTFS_MSG_REQUEST =? ECRYPTFS_MSG_REQUEST) with true. cbn match.
  unfold request. set (h := host_bytes be 4 idx ++ host_bytes be 4 (zlen (request_packet ECRYPTFS_TAG_64_PACKET sig key))).
  assert (message_block be idx (request_packet ECRYPTFS_TAG_64_PACKET sig key) =
    h ++ request_packet ECRYPTFS_TAG_64_PACKET sig key ++ []) as ->.
  { unfold message_block, h. by rewrite app_nil_r, <- app_assoc. }
  erewrite serve_tag_64; [|exact Hh|subst h; by rewrite zlen_app, !zlen_host_bytes|done..].
  rewrite bind_Ok. cbn [Z.eqb negb deref mret outcome_ret]. rewrite bind_Ok.
  subst h. rewrite <- app_assoc, rd_prefix, !bind_Ok by (by rewrite zlen_host_bytes).
  change ECRYPTFS_MAX_KEY_BYTES with 64 in *.
  pose proof (send_reply be k out idx seq ECRYPTFS_TAG_65_PACKET Hh Hseq ltac:(lia)) as Hs.
  apply bind_ok_inv in Hs as (r & Hw & Hs). apply bind_ok_inv in Hs as ([rc sent] & Hs & E).
  assert (sent = Some (frame ECRYPTFS_MSG_RESPONSE seq
    (Some (message_block be idx (key_packet ECRYPTFS_TAG_65_PACKET out))))) as ->
    by (unfold mret, outcome_ret in E; congruence).
  rewrite Hw, bind_Ok, Hs, bind_Ok. reflexivity.
Qed.

Lemma daemon_serves_tag_64_witness :
  @daemon_step plenty toy_keyring false 3 [toy_module]
    (DevEvent (Some (kernel_frame ECRYPTFS_MSG_REQUEST 77
       (message_block false 5 (request_packet ECRYPTFS_TAG_64_PACKET (lit "cafe") [1; 2; 3])))) true)
    daemon_start =
  Ok (Receiving (Daemon PFreed 77 ECRYPTFS_MSG_REQUEST 0),
      [frame ECRYPTFS_MSG_RESPONSE 77
         (Some (message_block false 5 (key_packet ECRYPTFS_TAG_65_PACKET [7; 9])))]).
Proof.
  eapply (@daemon_serves_tag_64 plenty toy_keyring).
  - intros line k. reflexivity.
  - split; vm_compute; congruence.
  - vm_compute; congruence.
  - apply toy_token_known; reflexivity.
  - reflexivity.
  - lia.
  - reflexivity.
  - vm_compute; congruence.
  - vm_compute; congruence.
Defined.

(** The error threshold: a daemon whose reads keep failing from the start
    still waits for messages after eight failures, with all of them counted,
    and exits with -EIO at the ninth. *)
Theorem daemon_error_threshold `{Heap, Keyring} be mods events :
  Forall (fun ev => ev_read ev = None) events ->
  daemon_loop be 0 mods events daemon_start =
  Ok (if zlen events <=? ECRYPTFS_MSG_ERROR_COUNT_THRESHOLD
      then Receiving (Daemon PNull 0 0 (zlen events)) else Exited (- EIO), []).
Proof.
  intros Hev.
  assert (forall k c, 0 <= c <= 8 -> daemon_loop be k mods events (Daemon PNull 0 0 c) =
    Ok (if c + zlen events <=? 8 then Receiving (Daemon PNull 0 0 (c + zlen events))
        else Exited (- EIO), [])) as Hgen.
  2:{ apply (Hgen 0%nat 0). lia. }
  induction Hev as [|[r w] events Hr _ IH]; intros k c Hc; cbn [daemon_loop].
  { change (zlen (@nil dev_event)) with 0. rewrite Z.add_0_r. by replace (c <=? 8) with true by lia. }
  cbn [ev_read] in Hr. subst r. rewrite step_read_error. cbn [set_error_count d_error_count].
  rewrite zlen_cons. pose proof (zlen_nonneg events). destruct (Z.ltb_spec 8 (c + 1)).
  - by replace (c + (1 + zlen events) <=? 8) with false by lia.
  - cbn [free_emsg set_error_count d_emsg d_msg_seq d_msg_type d_error_count c_free obind mret outcome_ret].
    specialize (IH (S k) (c + 1) ltac:(lia)). rewrite IH, Z.add_assoc. done.
Qed.

Lemma daemon_error_threshold_witness :
  @daemon_loop plenty toy_keyring false 0 [] (replicate 9 (DevEvent None true)) daemon_start =
  Ok (Exited (- EIO), []).
Proof.
  apply (@daemon_error_threshold plenty toy_keyring false [] (replicate 9 (DevEvent None true))).
  repeat constructor.
Defined.

(** One transient read error after any message crashes the daemon: the
    message it handled was freed but the pointer was kept, and the error path
    frees it again. *)
Theorem daemon_double_free `{Heap, Keyring} be k mods ev d d1 d' out w :
  ecryptfs_recv_miscdev be k (ev_read ev) d = Ok (0, d1) ->
  daemon_step be k mods ev d = Ok (Receiving d', out) ->
  d_error_count d' < ECRYPTFS_MSG_ERROR_COUNT_THRESHOLD ->
  daemon_loop be k mods [ev; DevEvent None w] d = UB DoubleFree.
Proof.
  intros Hr Hs Hc. pose proof (step_frees be _ _ _ _ _ _ _ Hr Hs) as Hf.
  cbn [daemon_loop]. rewrite Hs, bind_Ok, step_read_error.
  change ECRYPTFS_MSG_ERROR_COUNT_THRESHOLD with 8 in Hc.
  cbn [set_error_count d_error_count]. replace (8 <? d_error_count d' + 1) with false by lia.
  unfold free_emsg. cbn [set_error_count d_emsg]. by rewrite Hf.
Qed.

Lemma daemon_double_free_witness :
  @daemon_loop plenty toy_keyring false 0 []
    [DevEvent (Some (kernel_frame ECRYPTFS_MSG_HELO 0 [])) true; DevEvent None true] daemon_start =
  UB DoubleFree.
Proof.
  eapply (@daemon_double_free plenty toy_keyring false 0 []
    (DevEvent (Some (kernel_frame ECRYPTFS_MSG_HELO 0 [])) true) daemon_start).
  - vm_compute. reflexivity.
  - vm_compute. reflexivity.
  - vm_compute. reflexivity.
Defined.
