(* ===== verification/KeyPayload.v ===== *)
(** * Tokens of public-key modules: [ecryptfs_generate_key_payload] of
    [src/libecryptfs/main.c] *)

From S2P Require Import Prelude CLib Ecryptfs PassphraseSig KeyMod.

(** The function returns its code with the signature buffer and the token as
    far as it got, or ends the process. *)
Inductive payload_result :=
  | PayloadExit (status : Z)
  | PayloadReturn (rc : Z) (sig : bytes) (auth_tok : ecryptfs_auth_tok).

(** The data of the token starts 70 bytes before the end of the structure, and
    [blob_size] more bytes are allocated after it. *)
Definition data_room : Z := 70.

Definition private_key_token (alias signature data : bytes) (key_size data_len : Z)
    : ecryptfs_auth_tok :=
  let '(major, minor, _) := ecryptfs_get_versions None in
  AuthTok (version_word major minor) ECRYPTFS_PRIVATE_KEY 0 session_key_zero (zeros 32)
    (TokPrivateKey (PrivateKey key_size data_len signature alias data)).

Section Payload.
Context `{Heap} (big_endian : bool).

(** [get_key_sig], writing to [sig]. *)
Definition call_get_key_sig (key_mod : ecryptfs_key_mod) (sig blob : bytes) : outcome (Z * bytes) :=
  f ← call (op_get_key_sig (km_ops key_mod));
  let '(rc, out) := f blob in
  sig ← wr sig 0 out;
  mret (rc, sig).

(** The signature of the key: the code and the buffer. *)
Definition payload_sig (k : nat) (key_mod : ecryptfs_key_mod) (sig blob : bytes)
    : outcome (Z * bytes) :=
  get_key_data ← call (op_get_key_data (km_ops key_mod));
  let '(rc, key_data_len, _) := get_key_data false blob in
  if negb (rc =? 0) then mret (rc, sig)
  else if key_data_len =? 0 then call_get_key_sig key_mod sig blob
  else if negb (alloc_ok 344 k) then mret (- ENOMEM, sig)
  else
    let key_data := malloc_block heap_junk key_data_len in
    let '(rc, key_data_len, out) := get_key_data true blob in
    key_data ← wr key_data 0 out;
    if negb (rc =? 0) then mret (rc, sig)
    else
      rc ← ecryptfs_generate_sig_from_key_data big_endian key_data;
      if negb (rc =? 0) then mret (rc, sig)
      else
        c ← rd1 sig 0;
        if c =? 0 then call_get_key_sig key_mod sig blob else mret (0, sig).

Definition ecryptfs_generate_key_payload (k : nat) (key_mod : ecryptfs_key_mod) (sig : bytes)
    (blob_size : Z) : outcome payload_result :=
  let data := zeros (data_room + blob_size) in
  let no_alias := zeros (ECRYPTFS_MAX_KEY_MOD_NAME_BYTES + 1) in
  let no_sig := zeros (ECRYPTFS_PASSWORD_SIG_SIZE + 1) in
  '(rc, blob_size_tmp, data) ←
    match km_blob key_mod with
    | None =>
        get_blob ← call (op_get_blob (km_ops key_mod));
        let '(rc, size, out) := get_blob true (km_param_vals key_mod) in
        data ← wr data 0 out;
        mret (rc, size, data)
    | Some blob =>
        b ← rd blob 0 (km_blob_size key_mod);
        data ← wr data 0 b;
        mret (0, km_blob_size key_mod, data)
    end;
  if negb (rc =? 0) then mret (PayloadReturn rc sig (private_key_token no_alias no_sig data 0 0))
  else if negb (blob_size =? blob_size_tmp) then mret (PayloadExit 1)
  else
    '(rc, sig) ← payload_sig k key_mod sig data;
    if negb (rc =? 0) then mret (PayloadReturn rc sig (private_key_token no_alias no_sig data 0 0))
    else match km_alias key_mod with
    | None => UB NullDeref
    | Some alias =>
        s ← rd sig 0 ECRYPTFS_SIG_SIZE_HEX;
        mret (PayloadReturn 0 sig
          (private_key_token
            (strncpy alias (Z.to_nat ECRYPTFS_MAX_KEY_MOD_NAME_BYTES) ++ [0])
            (s ++ [0]) data ECRYPTFS_MAX_KEY_MOD_NAME_BYTES blob_size))
    end.
End Payload.

(** What the token of the payload says about its module. *)
Definition token_private_key (t : ecryptfs_auth_tok) : option ecryptfs_private_key :=
  match at_token t with TokPrivateKey p => Some p | TokPassword _ => None end.

(** ** Lemmas *)
Lemma cstr_of_strncpy s n :
  is_cstring s -> cstr_of (strncpy s n ++ [0]) = Ok (take n s).
Proof.
  intros Hs. unfold strncpy.
  replace ((take n s ++ replicate (n - length (take n s)) 0) ++ [0])
    with (take n s ++ 0 :: replicate (n - length (take n s)) 0).
  - apply cstr_of_app, is_char_nonzero. by apply Forall_take.
  - rewrite <- app_assoc. f_equal. by rewrite <- replicate_cons_app.
Qed.

Lemma prefixb_take s n : prefixb s (take n s) = bool_decide (length s <= n)%nat.
Proof.
  unfold prefixb. apply bool_decide_ext. rewrite take_take, Nat.min_comm. split.
  - intros E. apply (f_equal length) in E. rewrite length_take in E. lia.
  - intros Hle. rewrite take_ge; [done|]. lia.
Qed.

(** ** Properties *)

(** A token generated for a module leads back to that module exactly when
    the alias of the module has at most 16 bytes: the token keeps 16 bytes of
    it, and the lookup asks for the whole alias. *)
Theorem key_payload_finds_module `{Heap} be k key_mod alias sig blob_size sig' tok :
  km_alias key_mod = Some alias -> is_cstring alias ->
  ecryptfs_generate_key_payload be k key_mod sig blob_size = Ok (PayloadReturn 0 sig' tok) ->
  exists pk stored, token_private_key tok = Some pk /\ pk_data_len pk = blob_size /\
    cstr_of (pk_key_mod_alias pk) = Ok stored /\
    ecryptfs_find_key_mod [key_mod] stored =
    Ok (if zlen alias <=? ECRYPTFS_MAX_KEY_MOD_NAME_BYTES then Some key_mod else None).
Proof.
  intros Ha Hc. unfold ecryptfs_generate_key_payload, mret, outcome_ret.
  intros ([[rc size] data] & _ & E)%bind_ok_inv.
  destruct (Z.eqb_spec rc 0); cbn [negb] in E; [|congruence].
  destruct (blob_size =? size); cbn [negb] in E; [|discriminate].
  apply bind_ok_inv in E as ([rc' s] & _ & E).
  destruct (Z.eqb_spec rc' 0); cbn [negb] in E; [|congruence].
  rewrite Ha in E. apply bind_ok_inv in E as (s16 & _ & E).
  injection E as <- <-. eexists _, (take 16 alias). split; [reflexivity|]. split; [reflexivity|].
  split; [by apply cstr_of_strncpy|].
  cbn [ecryptfs_find_key_mod]. rewrite Ha, prefixb_take.
  change ECRYPTFS_MAX_KEY_MOD_NAME_BYTES with 16. unfold zlen.
  case_bool_decide; [by replace (Z.of_nat (length alias) <=? 16) with true by lia|].
  by replace (Z.of_nat (length alias) <=? 16) with false by lia.
Qed.

Definition long_alias : cstring := lit "a_long_module_name".
Definition sample_key_mod : ecryptfs_key_mod :=
  KeyModEntry None (Some long_alias) None
    (ecryptfs_fill_in_dummy_ops
      (KeyModOps None None None None None None None
        (Some (fun _ => (0, lit "0123456789abcdef" ++ [0]))) None None None None None)).2
    [] (Some [5; 6; 7]) 3.

Lemma key_payload_finds_module_witness :
  match @ecryptfs_generate_key_payload plenty false 0 sample_key_mod (zeros 17) 3 with
  | Ok (PayloadReturn 0 sig' tok) =>
      exists pk stored, token_private_key tok = Some pk /\ pk_data_len pk = 3 /\
        cstr_of (pk_key_mod_alias pk) = Ok stored /\
        ecryptfs_find_key_mod [sample_key_mod] stored =
        Ok (if zlen long_alias <=? ECRYPTFS_MAX_KEY_MOD_NAME_BYTES then Some sample_key_mod else None)
  | _ => False
  end.
Proof.
  exact (@key_payload_finds_module plenty false 0 sample_key_mod long_alias (zeros 17) 3 _ _
    eq_refl (bool_decide_unpack (is_cstring long_alias) I) eq_refl).
Defined.
