(* ===== verification/Zombie.v ===== *)
(** * Session placeholders: the zombie section of [src/libecryptfs/main.c]

    A login session leaves a sleeping process behind; pairs of session and
    process ids live in a System V shared memory segment of 4096 bytes, in
    network order, ended by a pair of zeros, under a semaphore. *)

From S2P Require Import Prelude CLib Ecryptfs.

Definition ECRYPTFS_SHM_SIZE : Z := 4096.
Definition RETRY_LIMIT : nat := 3.
Definition sizeof_pid_t : Z := 4.
Definition EAGAIN : Z := 11.
Definition EIDRM : Z := 43.

(** ** The semaphore *)

(** A semaphore set of one semaphore: its value, and whether a [semop] has been
    done on it, which [sem_otime] tells. *)
Record sem_set := SemSet { sem_val : Z; sem_otime : bool }.
#[export] Instance sem_set_eq_dec : EqDecision sem_set.
Proof. solve_decision. Defined.

(** [semop(2)] of one operation, with [IPC_NOWAIT] where it lowers the value, on
    a set that may have been removed; [err] is an error it has for a reason of its
    own.  The set, what the call returns and [errno]. *)
Definition semop (op : Z) (err : option Z) (sem : option sem_set) : option sem_set * Z * Z :=
  match sem, err with
  | None, _ => (None, -1, EIDRM)
  | Some set, Some e => (Some set, -1, e)
  | Some set, None =>
      if sem_val set + op <? 0 then (Some set, -1, EAGAIN)
      else (Some (SemSet (sem_val set + op) true), 0, 0)
  end.

(** A process that uses the segment: outside, between the two calls that create
    a set, waiting for the creator of a set at a given iteration, at a given
    iteration of the loop of [zombie_semaphore_lock], or past it.  The number is
    the identifier of the set. *)
Inductive phase :=
  | Outside
  | Creating (sem_id : nat)
  | Opening (sem_id i : nat)
  | Locking (sem_id i : nat)
  | Inside (sem_id : nat).
#[export] Instance phase_eq_dec : EqDecision phase.
Proof. solve_decision. Defined.

(** [zombie_semaphore_get] after the exclusive [semget]: the new set is raised
    to one, or removed again. *)
Definition zombie_semaphore_init (err : option Z) (sem_id : nat) (sem : option sem_set)
    : option sem_set * phase :=
  let '(sem, rc, errno) := semop 1 err sem in
  if rc =? -1 then (None, Outside) else (sem, Locking sem_id 0).

(** One iteration of the loop of [zombie_semaphore_get] that waits for another
    process to do so; [junk] is what stands in [semid_ds] when [semctl] fails. *)
Definition zombie_semaphore_poll (junk : bool) (sem : option sem_set) (sem_id i : nat) : phase :=
  if (RETRY_LIMIT <=? i)%nat then Outside
  else if (match sem with Some set => sem_otime set | None => junk end) then Locking sem_id 0
  else Opening sem_id (S i).

(** One iteration of the loop of [zombie_semaphore_lock]: it comes back with
    the lock, with another error than [EAGAIN], or after the last iteration, and
    its callers go on in all three cases. *)
Definition zombie_semaphore_lock_step (err : option Z) (sem : option sem_set) (sem_id i : nat)
    : option sem_set * phase :=
  if (RETRY_LIMIT <=? i)%nat then (sem, Inside sem_id)
  else
    let '(sem, rc, errno) := semop (-1) err sem in
    if (rc =? -1) && (errno =? EAGAIN) then (sem, Locking sem_id (S i))
    else if rc =? -1 then (sem, Inside sem_id)
    else (sem, Inside sem_id).

Definition zombie_semaphore_unlock (err : option Z) (sem : option sem_set) : option sem_set :=
  let '(sem, rc, errno) := semop 1 err sem in sem.

(** The sets by their identifiers, [None] for one that was removed, and the
    processes. *)
Record system := System { sys_sets : list (option sem_set); sys_procs : list phase }.

(** A process creates a set where there is none, raises it, opens the set of
    another one, waits for it, does one iteration of the loop of the lock, or
    leaves the section.  The label tells whether all goes well: no call on the
    semaphore has an error of its own, and no process runs out of retries in
    the loop of the lock. *)
Inductive sys_step : bool -> system -> system -> Prop :=
  | step_create sets ps n :
      ps !! n = Some Outside -> Forall (.= None) sets ->
      sys_step true (System sets ps)
        (System (sets ++ [Some (SemSet 0 false)]) (<[n := Creating (length sets)]> ps))
  | step_init sets ps n sem_id err sem sem' ph :
      ps !! n = Some (Creating sem_id) -> sets !! sem_id = Some sem ->
      zombie_semaphore_init err sem_id sem = (sem', ph) ->
      sys_step (bool_decide (err = None)) (System sets ps)
        (System (<[sem_id := sem']> sets) (<[n := ph]> ps))
  | step_open sets ps n sem_id set :
      ps !! n = Some Outside -> sets !! sem_id = Some (Some set) ->
      sys_step true (System sets ps) (System sets (<[n := Opening sem_id 0]> ps))
  | step_poll sets ps n sem_id i junk sem :
      ps !! n = Some (Opening sem_id i) -> sets !! sem_id = Some sem ->
      sys_step true (System sets ps)
        (System sets (<[n := zombie_semaphore_poll junk sem sem_id i]> ps))
  | step_lock sets ps n sem_id i err sem sem' ph :
      ps !! n = Some (Locking sem_id i) -> sets !! sem_id = Some sem ->
      zombie_semaphore_lock_step err sem sem_id i = (sem', ph) ->
      sys_step (bool_decide (err = None) && (i <? RETRY_LIMIT)%nat) (System sets ps)
        (System (<[sem_id := sem']> sets) (<[n := ph]> ps))
  | step_unlock sets ps n sem_id err sem :
      ps !! n = Some (Inside sem_id) -> sets !! sem_id = Some sem ->
      sys_step (bool_decide (err = None)) (System sets ps)
        (System (<[sem_id := zombie_semaphore_unlock err sem]> sets) (<[n := Outside]> ps)).

(** No set and [n] processes that have not come yet. *)
Definition sys_init (n : nat) : system := System [] (replicate n Outside).

(** Everything that can happen, and what happens as long as all goes well. *)
Definition sys_any (s s' : system) : Prop := exists b, sys_step b s s'.

Definition is_inside (ph : phase) : bool := match ph with Inside _ => true | _ => false end.

(** How many processes are past the lock. *)
Definition inside (ps : list phase) : nat := length (filter is_inside ps).

(** ** The table *)

(** The calling process, and which of its system calls work. *)
Record ipc_env := IpcEnv {
  e_sid : Z;
  e_pid : Z;
  e_sem_id : Z;
  e_shm_create : Z * Z;
  e_shm_existing : Z;
  e_shmat_ok : bool;
  e_shmdt_ok : bool;
  e_kill_rc : Z
}.

Section Table.
Context `{Heap} (big_endian : bool).

(** [memcpy] of a [pid_t] and [ntohl] into it. *)
Definition load_pid (shm : bytes) (i : Z) : outcome Z :=
  b ← rd shm i sizeof_pid_t;
  mret (i32 (ntoh big_endian 4 (host_val big_endian b))).

Definition load_pair (shm : bytes) (i : Z) : outcome (Z * Z * Z) :=
  sid_tmp ← load_pid shm i;
  pid_tmp ← load_pid shm (i + sizeof_pid_t);
  mret (sid_tmp, pid_tmp, i + 2 * sizeof_pid_t).

(** Each loop reads one pair per iteration, so 512 iterations see the whole
    segment. *)
Definition scan_fuel : nat := Z.to_nat (ECRYPTFS_SHM_SIZE / (2 * sizeof_pid_t)).

(** The loop of [find_pid_for_this_sid] and [remove_pid_for_this_sid]: the pid
    found, or 0, and the offset after the last pair read. *)
Fixpoint scan_for_sid (fuel : nat) (sid : Z) (shm : bytes) (pair : Z * Z * Z)
    : outcome (Z * Z) :=
  let '(sid_tmp, pid_tmp, i) := pair in
  if (sid_tmp =? 0) && (pid_tmp =? 0) then mret (0, i)
  else if sid_tmp =? sid then mret (pid_tmp, i)
  else if ECRYPTFS_SHM_SIZE <? i + 2 * sizeof_pid_t then mret (0, i)
  else match fuel with
  | O => mret (0, i)
  | S fuel' => pair ← load_pair shm i; scan_for_sid fuel' sid shm pair
  end.

(** The loop of [list_pid_sid_pairs] and [add_sid_pid_pair_to_shm]: the offset
    after the terminating pair, [None] when the segment is full. *)
Fixpoint scan_to_end (fuel : nat) (shm : bytes) (pair : Z * Z * Z) : outcome (option Z) :=
  let '(sid_tmp, pid_tmp, i) := pair in
  if (sid_tmp =? 0) && (pid_tmp =? 0) then mret (Some i)
  else if ECRYPTFS_SHM_SIZE <? i + 2 * sizeof_pid_t then mret None
  else match fuel with
  | O => mret None
  | S fuel' => pair ← load_pair shm i; scan_to_end fuel' shm pair
  end.

Definition list_pid_sid_pairs (e : ipc_env) (shm : bytes) : outcome Z :=
  if negb (e_shmat_ok e) then mret (- EIO)
  else
    pair ← load_pair shm 0;
    _ ← scan_to_end scan_fuel shm pair;
    if e_shmdt_ok e then mret 0 else mret (- EIO).

(** The result code and [*pid]. *)
Definition find_pid_for_this_sid (e : ipc_env) (shm : bytes) : outcome (Z * Z) :=
  if negb (e_shmat_ok e) then mret (- EIO, 0)
  else
    pair ← load_pair shm 0;
    '(pid, _) ← scan_for_sid scan_fuel (e_sid e) shm pair;
    if e_shmdt_ok e then mret (0, pid) else mret (- EIO, 0).

(** The result code and the segment. *)
Definition remove_pid_for_this_sid (k : nat) (e : ipc_env) (shm : bytes) : outcome (Z * bytes) :=
  if negb (e_shmat_ok e) then mret (- EIO, shm)
  else
    pair ← load_pair shm 0;
    '(pid, i) ← scan_for_sid scan_fuel (e_sid e) shm pair;
    let rc := if e_shmdt_ok e then 0 else - EIO in
    if negb (pid =? 0) then
      let remainder := ECRYPTFS_SHM_SIZE - i in
      if negb (remainder =? 0) then
        if negb (alloc_ok 675 k) then mret (- ENOMEM, shm)
        else
          tmp ← rd shm i remainder;
          let i := i - 2 * sizeof_pid_t in
          shm ← wr shm i tmp;
          let i := i + remainder in
          shm ← memset shm i 0 (2 * sizeof_pid_t);
          mret (rc, shm)
      else
        let i := i - 2 * sizeof_pid_t in
        shm ← memset shm i 0 (2 * sizeof_pid_t);
        mret (rc, shm)
    else mret (rc, shm).

Definition add_sid_pid_pair_to_shm (e : ipc_env) (shm : bytes) : outcome (Z * bytes) :=
  if negb (e_shmat_ok e) then mret (- EIO, shm)
  else
    pair ← load_pair shm 0;
    found ← scan_to_end scan_fuel shm pair;
    match found with
    | None => mret (- ENOMEM, shm)
    | Some i =>
        let sid := ntoh big_endian 4 (u32 (e_sid e)) in
        let pid := ntoh big_endian 4 (u32 (e_pid e)) in
        let i := i - 2 * sizeof_pid_t in
        shm ← wr shm i (host_bytes big_endian 4 sid);
        let i := i + sizeof_pid_t in
        shm ← wr shm i (host_bytes big_endian 4 pid);
        let i := i + sizeof_pid_t in
        shm ← (if i + 2 * sizeof_pid_t <=? ECRYPTFS_SHM_SIZE
               then memset shm i 0 (i + 2 * sizeof_pid_t) else mret shm);
        if e_shmdt_ok e then mret (0, shm) else mret (- EIO, shm)
    end.

(** ** The operations *)

(** [get_zombie_shared_mem_locked] on the segment, if there is one: the code
    and the segment afterwards. *)
Definition get_zombie_shared_mem_locked (e : ipc_env) (seg : option bytes) : Z * option bytes :=
  if e_sem_id e =? -1 then (- EIO, seg)
  else
    let '(rc, errno) := e_shm_create e in
    if (rc =? -1) && (errno =? EEXIST) then
      if e_shm_existing e =? -1 then (- EIO, seg) else (0, seg)
    else if negb (e_shmat_ok e) then (- EIO, seg)
    else
      let seg := Some (zeros ECRYPTFS_SHM_SIZE) in
      if negb (e_shmdt_ok e) then (- EIO, seg)
      else if e_shm_existing e =? -1 then (- EIO, seg)
      else (0, seg).

(** With a segment in hand; there is one when the function above returns 0. *)
Definition with_segment {A} (seg : option bytes) (f : bytes -> outcome A) : outcome A :=
  match seg with Some shm => f shm | None => UB NullDeref end.

Definition ecryptfs_list_zombie_session_placeholders (e : ipc_env) (seg : option bytes)
    : outcome (Z * option bytes) :=
  let '(rc, seg) := get_zombie_shared_mem_locked e seg in
  if negb (rc =? 0) then mret (rc, seg)
  else with_segment seg (fun shm => rc ← list_pid_sid_pairs e shm; mret (rc, seg)).

(** The process [kill] was called on, the code and the segment. *)
Definition ecryptfs_kill_and_clear_zombie_session_placeholder (e : ipc_env) (seg : option bytes)
    : outcome (option Z * Z * option bytes) :=
  let '(rc, seg) := get_zombie_shared_mem_locked e seg in
  if negb (rc =? 0) then mret (None, rc, seg)
  else with_segment seg (fun shm =>
    '(rc, pid) ← find_pid_for_this_sid e shm;
    if negb (rc =? 0) then mret (None, rc, seg)
    else if pid =? 0 then mret (None, rc, seg)
    else
      '(rc, shm) ← remove_pid_for_this_sid 0 e shm;
      mret (Some pid, rc, Some shm)).

(** The first half, up to the sleep, and the second, which ends in [exit(1)]
    unless it fails. *)
Definition set_placeholder (e : ipc_env) (seg : option bytes) : outcome (Z * option bytes) :=
  let '(rc, seg) := get_zombie_shared_mem_locked e seg in
  if negb (rc =? 0) then mret (rc, seg)
  else with_segment seg (fun shm =>
    '(rc, shm) ← add_sid_pid_pair_to_shm e shm;
    mret (rc, Some shm)).

Definition clear_placeholder (e : ipc_env) (seg : option bytes)
    : outcome (Z * bool * option bytes) :=
  let '(rc, seg) := get_zombie_shared_mem_locked e seg in
  if negb (rc =? 0) then mret (rc, false, seg)
  else with_segment seg (fun shm =>
    '(rc, shm) ← remove_pid_for_this_sid 0 e shm;
    mret (rc, rc =? 0, Some shm)).

(** [e1] and [e2] are the system before and after the sleep, [others] what
    other processes do to the segment meanwhile; the boolean tells whether the
    process exits. *)
Definition ecryptfs_set_zombie_session_placeholder (e1 e2 : ipc_env)
    (others : option bytes -> option bytes) (seg : option bytes)
    : outcome (Z * bool * option bytes) :=
  '(rc, seg) ← set_placeholder e1 seg;
  if negb (rc =? 0) then mret (rc, false, seg)
  else clear_placeholder e2 (others seg).
End Table.

(** ** Specification: the table as a list of pairs *)
Definition pair_bytes (p : Z * Z) : bytes := be_bytes 4 p.1 ++ be_bytes 4 p.2.
Definition pairs_bytes (l : list (Z * Z)) : bytes := mjoin (pair_bytes <$> l).
Definition table (l : list (Z * Z)) : bytes :=
  pairs_bytes l ++ replicate (4096 - 8 * length l) 0.

Definition is_pid (x : Z) : Prop := 0 < x < 2 ^ 31.
Definition valid_table (l : list (Z * Z)) : Prop :=
  Forall (fun p => is_pid p.1 /\ is_pid p.2) l /\ (length l <= 512)%nat.

Fixpoint pid_of_sid (sid : Z) (l : list (Z * Z)) : option Z :=
  match l with
  | [] => None
  | p :: l' => if p.1 =? sid then Some p.2 else pid_of_sid sid l'
  end.

Fixpoint remove_sid (sid : Z) (l : list (Z * Z)) : list (Z * Z) :=
  match l with
  | [] => []
  | p :: l' => if p.1 =? sid then l' else p :: remove_sid sid l'
  end.

(** A process whose system calls work, with an existing segment. *)
Definition env_ok (sid pid kill_rc : Z) : ipc_env :=
  IpcEnv sid pid 0 (-1, EEXIST) 0 true true kill_rc.

(** ** Lemmas on the table *)
Lemma zlen_pair_bytes p : zlen (pair_bytes p) = 8.
Proof. unfold zlen, pair_bytes. by rewrite length_app, !length_be_bytes. Qed.

Lemma pairs_bytes_app l1 l2 : pairs_bytes (l1 ++ l2) = pairs_bytes l1 ++ pairs_bytes l2.
Proof. unfold pairs_bytes. by rewrite fmap_app, join_app. Qed.

Lemma pairs_bytes_cons p l : pairs_bytes (p :: l) = pair_bytes p ++ pairs_bytes l.
Proof. done. Qed.

Lemma zlen_pairs_bytes l : zlen (pairs_bytes l) = 8 * zlen l.
Proof.
  induction l as [|p l IH]; [done|]. rewrite pairs_bytes_cons, zlen_app, zlen_pair_bytes, IH.
  rewrite zlen_cons. lia.
Qed.

Lemma zlen_table l : (length l <= 512)%nat -> zlen (table l) = 4096.
Proof.
  intros H. unfold table. rewrite zlen_app, zlen_pairs_bytes, zlen_replicate. unfold zlen. lia.
Qed.

Lemma swrap_pid x : is_pid x -> i32 x = x.
Proof. intros H. unfold is_pid in H. apply swrap_small; lia. Qed.

Section TableLemmas.
Context `{Heap} (be : bool).

Lemma load_pid_at pre x post i :
  is_pid x \/ x = 0 -> i = zlen pre -> load_pid be (pre ++ be_bytes 4 x ++ post) i = Ok x.
Proof.
  intros Hx Hi. unfold load_pid. rewrite (rd_app3 pre (be_bytes 4 x));
    [|done|unfold zlen; by rewrite length_be_bytes]. rewrite bind_Ok.
  assert (ntoh be 4 (host_val be (be_bytes 4 x)) = x) as ->.
  { change 4%nat with (length (be_bytes 4 x)) at 1.
    rewrite ntoh_host_val, be_val_be_bytes by apply be_bytes_are_bytes.
    apply Z.mod_small. change (256 ^ Z.of_nat 4) with (2 ^ 32). unfold is_pid in Hx. lia. }
  unfold mret, outcome_ret. f_equal. destruct Hx as [Hx| ->]; [by apply swrap_pid | done].
Qed.

Lemma load_pair_at pre p post i :
  (is_pid p.1 /\ is_pid p.2) \/ p = (0, 0) -> i = zlen pre ->
  load_pair be (pre ++ pair_bytes p ++ post) i = Ok (p, i + 8).
Proof.
  intros Hp Hi. assert ((is_pid p.1 \/ p.1 = 0) /\ (is_pid p.2 \/ p.2 = 0)) as [Hs1 Hs2].
  { destruct Hp as [[? ?] | ->]; auto. }
  unfold load_pair, pair_bytes. rewrite <- app_assoc, load_pid_at by done. rewrite bind_Ok.
  rewrite app_assoc, load_pid_at; [by destruct p|done|].
  rewrite zlen_app. unfold zlen. rewrite length_be_bytes. change sizeof_pid_t with 4.
  unfold zlen in Hi. lia.
Qed.

(** Eight zero bytes are the terminator. *)
Lemma load_pair_end pre z i :
  i = zlen pre -> (8 <= z)%nat -> load_pair be (pre ++ replicate z 0) i = Ok (0, 0, i + 8).
Proof.
  intros Hi Hz. replace z with (8 + (z - 8))%nat by lia. rewrite replicate_add.
  change (replicate 8 0) with (pair_bytes (0, 0)). apply load_pair_at; auto.
Qed.

(** Where the loops stand: the pairs [l1] before the current one are behind. *)
Definition scanned (l1 : list (Z * Z)) (p : Z * Z) : Z * Z * Z := (p, 8 * (zlen l1 + 1)).

Lemma table_split l1 p l2 :
  table (l1 ++ p :: l2) = (pairs_bytes l1 ++ pair_bytes p) ++ pairs_bytes l2 ++
    replicate (4096 - 8 * length (l1 ++ p :: l2)) 0.
Proof. unfold table. by rewrite pairs_bytes_app, pairs_bytes_cons, <- !app_assoc. Qed.

(** The pair after [p], or the terminator. *)
Lemma load_next l1 p q l2 i :
  valid_table (l1 ++ p :: q :: l2) -> i = 8 * (zlen l1 + 1) ->
  load_pair be (table (l1 ++ p :: q :: l2)) i = Ok (scanned (l1 ++ [p]) q).
Proof.
  intros [Hv _] ->. rewrite table_split, pairs_bytes_cons, <- (app_assoc (pair_bytes q)).
  rewrite load_pair_at.
  - unfold scanned. rewrite zlen_app. change (zlen [p]) with 1. do 2 f_equal. lia.
  - left. apply Forall_app in Hv as [_ Hv]. by inversion Hv as [|? ? ? Hv2]; inversion Hv2.
  - rewrite zlen_app, zlen_pairs_bytes, zlen_pair_bytes. lia.
Qed.

Lemma load_after_last l1 p i :
  (length (l1 ++ [p]) < 512)%nat -> i = 8 * (zlen l1 + 1) ->
  load_pair be (table (l1 ++ [p])) i = Ok (0, 0, i + 8).
Proof.
  intros Hlen Hi. rewrite table_split. cbn [pairs_bytes fmap list_fmap mjoin list_join app].
  apply load_pair_end; [|lia]. rewrite zlen_app, zlen_pairs_bytes, zlen_pair_bytes. lia.
Qed.

Lemma load_first l :
  valid_table l ->
  load_pair be (table l) 0 = Ok (match l with [] => (0, 0, 8) | p :: _ => scanned [] p end).
Proof.
  intros [Hv Hlen]. destruct l as [|p l].
  - unfold table. apply (load_pair_end [] _ 0); [done|]. change (length (@nil (Z * Z))) with 0%nat. lia.
  - unfold table. rewrite pairs_bytes_cons, <- app_assoc.
    apply (load_pair_at [] p); [|done]. left. by inversion Hv.
Qed.

Lemma pid_not_zero s p : is_pid s /\ is_pid p -> (s =? 0) && (p =? 0) = false.
Proof. unfold is_pid. lia. Qed.

Lemma valid_head (l1 : list (Z * Z)) p l2 :
  valid_table (l1 ++ p :: l2) -> (is_pid p.1 /\ is_pid p.2) /\ zlen l1 + 1 + zlen l2 <= 512.
Proof.
  intros [Hv Hlen]. apply Forall_app in Hv as [_ Hv]. apply Forall_cons_1 in Hv as [Hp _].
  split; [done|]. rewrite length_app in Hlen. cbn [length] in Hlen. unfold zlen. lia.
Qed.

Lemma full_test (l1 : list (Z * Z)) : zlen l1 <= 510 -> (ECRYPTFS_SHM_SIZE <? 8 * (zlen l1 + 1) + 2 * sizeof_pid_t) = false.
Proof. intros Hl. unfold ECRYPTFS_SHM_SIZE, sizeof_pid_t. lia. Qed.

(** The test on the size of the segment ends both scans before the fuel does:
    more of it changes nothing. *)
Lemma scan_for_sid_fuel fuel n sid shm s p i :
  ECRYPTFS_SHM_SIZE < i + 8 * (Z.of_nat fuel + 1) ->
  scan_for_sid be (fuel + n) sid shm (s, p, i) = scan_for_sid be fuel sid shm (s, p, i).
Proof.
  revert s p i. induction fuel as [|fuel IH]; intros s p i Hf.
  - destruct n; [done|]. cbn [Nat.add scan_for_sid]. change (2 * sizeof_pid_t) with 8.
    decide_test (ECRYPTFS_SHM_SIZE <? i + 8). done.
  - cbn [Nat.add scan_for_sid]. destruct (_ && _); [done|]. destruct (s =? sid); [done|].
    destruct (_ <? _); [done|]. unfold load_pair.
    destruct (load_pid be shm i); [cbn|done]. destruct (load_pid be shm (i + _)); [cbn|done].
    apply IH. change (2 * sizeof_pid_t) with 8. lia.
Qed.

Lemma scan_to_end_fuel fuel n shm s p i :
  ECRYPTFS_SHM_SIZE < i + 8 * (Z.of_nat fuel + 1) ->
  scan_to_end be (fuel + n) shm (s, p, i) = scan_to_end be fuel shm (s, p, i).
Proof.
  revert s p i. induction fuel as [|fuel IH]; intros s p i Hf.
  - destruct n; [done|]. cbn [Nat.add scan_to_end]. change (2 * sizeof_pid_t) with 8.
    decide_test (ECRYPTFS_SHM_SIZE <? i + 8). done.
  - cbn [Nat.add scan_to_end]. destruct (_ && _); [done|].
    destruct (_ <? _); [done|]. unfold load_pair.
    destruct (load_pid be shm i); [cbn|done]. destruct (load_pid be shm (i + _)); [cbn|done].
    apply IH. change (2 * sizeof_pid_t) with 8. lia.
Qed.

(** The search loop stops right after the first pair of the session. *)
Lemma scan_found fuel sid pid l1 m l2 q r :
  m ++ (sid, pid) :: l2 = q :: r -> Forall (fun p => p.1 <> sid) m ->
  valid_table (l1 ++ q :: r) -> (length m < fuel)%nat ->
  scan_for_sid be fuel sid (table (l1 ++ q :: r)) (scanned l1 q) =
  Ok (pid, 8 * (zlen l1 + zlen m + 1)).
Proof.
  revert fuel l1 q r. induction m as [|p m IH]; intros fuel l1 q r E Hm Hv Hf.
  - cbn [app] in E. injection E as <- <-. destruct (valid_head _ _ _ Hv) as [Hp _].
    destruct fuel; cbn [scan_for_sid scanned]; rewrite (pid_not_zero sid pid Hp), Z.eqb_refl;
      unfold mret, outcome_ret; do 2 f_equal; change (zlen (@nil (Z * Z))) with 0; lia.
  - cbn [app] in E. injection E as -> <-. apply Forall_cons_1 in Hm as [Hq Hm].
    destruct (valid_head _ _ _ Hv) as [Hp Hlen]. rewrite zlen_app, zlen_cons in Hlen.
    pose proof (zlen_nonneg m). pose proof (zlen_nonneg l2).
    destruct fuel as [|fuel]; [by inversion Hf|].
    cbn [scan_for_sid]. unfold scanned at 1. destruct q as [qs qp].
    rewrite (pid_not_zero qs qp Hp).
    replace (qs =? sid) with false by (cbn in Hq; lia). rewrite full_test by lia.
    destruct (m ++ (sid, pid) :: l2) as [|q' r'] eqn:Em; [by destruct m|].
    rewrite load_next by done. rewrite bind_Ok.
    replace (l1 ++ (qs, qp) :: q' :: r') with ((l1 ++ [(qs, qp)]) ++ q' :: r') in *
      by (by rewrite <- app_assoc).
    rewrite IH; [|done|done|done|cbn in Hf; lia].
    do 2 f_equal. rewrite zlen_app, (zlen_cons _ m). change (zlen [(qs, qp)]) with 1. lia.
Qed.

Lemma scan_absent fuel sid l1 q r :
  Forall (fun p => p.1 <> sid) (q :: r) -> valid_table (l1 ++ q :: r) ->
  (S (length r) <= fuel)%nat ->
  exists i, scan_for_sid be fuel sid (table (l1 ++ q :: r)) (scanned l1 q) = Ok (0, i).
Proof.
  revert fuel l1 q. induction r as [|q' r IH]; intros fuel l1 q Hm Hv Hf;
    (destruct fuel as [|fuel]; [by inversion Hf|]);
    apply Forall_cons_1 in Hm as [Hq Hm]; destruct (valid_head _ _ _ Hv) as [Hp Hlen];
    destruct q as [qs qp]; cbn [scan_for_sid]; unfold scanned at 1;
    rewrite (pid_not_zero qs qp Hp);
    replace (qs =? sid) with false by (cbn in Hq; lia).
  - destruct (Z.ltb_spec ECRYPTFS_SHM_SIZE (8 * (zlen l1 + 1) + 2 * sizeof_pid_t)) as [_|Hroom];
      [by eexists|].
    unfold ECRYPTFS_SHM_SIZE, sizeof_pid_t in Hroom.
    rewrite load_after_last by (done || rewrite length_app; unfold zlen in Hroom; cbn; lia).
    rewrite bind_Ok. destruct fuel; by eexists.
  - rewrite zlen_cons in Hlen. pose proof (zlen_nonneg r). rewrite full_test by lia.
    rewrite load_next by done. rewrite bind_Ok.
    replace (l1 ++ (qs, qp) :: q' :: r) with ((l1 ++ [(qs, qp)]) ++ q' :: r) in *
      by (by rewrite <- app_assoc).
    apply IH; [done..|]. cbn in Hf. lia.
Qed.

(** The other loop finds the end of the table, if it has one. *)
Lemma scan_to_end_spec fuel l1 q r :
  valid_table (l1 ++ q :: r) -> (S (length r) <= fuel)%nat ->
  scan_to_end be fuel (table (l1 ++ q :: r)) (scanned l1 q) =
  Ok (if zlen (l1 ++ q :: r) <? 512 then Some (8 * (zlen (l1 ++ q :: r) + 1)) else None).
Proof.
  revert fuel l1 q. induction r as [|q' r IH]; intros fuel l1 q Hv Hf;
    (destruct fuel as [|fuel]; [by inversion Hf|]);
    destruct (valid_head _ _ _ Hv) as [Hp Hlen];
    destruct q as [qs qp]; cbn [scan_to_end]; unfold scanned at 1;
    rewrite (pid_not_zero qs qp Hp).
  - rewrite zlen_app. change (zlen [(qs, qp)]) with 1.
    unfold ECRYPTFS_SHM_SIZE, sizeof_pid_t.
    destruct (Z.ltb_spec 4096 (8 * (zlen l1 + 1) + 2 * 4)) as [Hfull|Hroom].
    { by replace (zlen l1 + 1 <? 512) with false by lia. }
    replace (zlen l1 + 1 <? 512) with true by lia.
    rewrite load_after_last by (done || rewrite length_app; unfold zlen in Hroom; cbn; lia).
    rewrite bind_Ok. unfold mret, outcome_ret.
    destruct fuel; cbn [scan_to_end Z.eqb andb mret outcome_ret]; do 2 f_equal; lia.
  - rewrite zlen_cons in Hlen. pose proof (zlen_nonneg r). rewrite full_test by lia.
    rewrite load_next by done. rewrite bind_Ok.
    replace (l1 ++ (qs, qp) :: q' :: r) with ((l1 ++ [(qs, qp)]) ++ q' :: r) in *
      by (by rewrite <- app_assoc).
    apply IH; [done|]. cbn in Hf. lia.
Qed.

(** *** The specification functions *)
Lemma pid_of_sid_split sid l :
  match pid_of_sid sid l with
  | Some pid => exists m l2, l = m ++ (sid, pid) :: l2 /\ Forall (fun p => p.1 <> sid) m /\
      remove_sid sid l = m ++ l2
  | None => Forall (fun p => p.1 <> sid) l /\ remove_sid sid l = l
  end.
Proof.
  induction l as [|[s p] l IH]; cbn [pid_of_sid remove_sid fst snd]; [done|].
  destruct (Z.eqb_spec s sid) as [->|Hs].
  - exists [], l. eauto.
  - destruct (pid_of_sid sid l) as [pid|].
    + destruct IH as (m & l2 & -> & Hm & ->). exists ((s, p) :: m), l2. auto.
    + destruct IH as [Hl ->]. auto.
Qed.

(** Both loops from the start of the segment. *)
Lemma scan_for_sid_table sid l :
  valid_table l ->
  exists i, (pair ← load_pair be (table l) 0; scan_for_sid be scan_fuel sid (table l) pair) =
    Ok (default 0 (pid_of_sid sid l), i) /\
    forall m pid l2, l = m ++ (sid, pid) :: l2 -> Forall (fun p => p.1 <> sid) m ->
      i = 8 * (zlen m + 1).
Proof.
  intros Hv. rewrite load_first, bind_Ok by done. change scan_fuel with 512%nat.
  pose proof (pid_of_sid_split sid l) as Hsp. destruct l as [|q r].
  { exists 8. split; [done|]. by intros [|]. }
  assert (length r < 512)%nat as Hlen by (destruct Hv as [_ Hv]; cbn in Hv; lia).
  destruct (pid_of_sid sid (q :: r)) as [pid|].
  - destruct Hsp as (m & l2 & E & Hm & _).
    exists (8 * (zlen m + 1)). split.
    + assert (length m < 512)%nat.
      { apply (f_equal length) in E. rewrite length_app in E. cbn in E. lia. }
      by apply (scan_found 512 sid pid [] m l2).
    + intros m' pid' l2' E' Hm'. rewrite E in E'. clear - E' Hm Hm'.
      revert m' E' Hm'. induction m as [|p m IH]; intros [|p' m'] E' Hm'.
      * done.
      * cbn in E'. injection E' as <- _. by apply Forall_cons_1 in Hm' as [[] _].
      * cbn in E'. injection E' as -> _. by apply Forall_cons_1 in Hm as [[] _].
      * cbn in E'. injection E' as -> E'. apply Forall_cons_1 in Hm as [_ Hm].
        apply Forall_cons_1 in Hm' as [_ Hm']. rewrite !zlen_cons.
        specialize (IH Hm m' E' Hm'). lia.
  - destruct Hsp as [Hall _].
    destruct (scan_absent 512 sid [] q r Hall Hv ltac:(lia)) as [i Hi].
    exists i. split; [exact Hi|]. intros m pid l2 E Hm. rewrite E in Hall.
    apply Forall_app in Hall as [_ Hall]. by apply Forall_cons_1 in Hall as [[] _].
Qed.
End TableLemmas.

(** *** The operations *)
Section Operations.
Context `{Heap} (be : bool).

(** Closing the gap a pair leaves. *)
Lemma close_gap (A x post : bytes) i :
  zlen x = 8 -> i = zlen A + 8 ->
  (shm ← wr (A ++ x ++ post) (i - 8) post;
   memset shm (i - 8 + zlen post) 0 8) = Ok (A ++ post ++ replicate 8 0).
Proof.
  intros Hx ->. pose proof (zlen_nonneg post). pose proof (zlen_nonneg A).
  rewrite <- (take_drop (length post) (x ++ post)).
  set (O := take _ _). set (L := drop _ _).
  assert (zlen O = zlen post) as HO.
  { subst O. rewrite zlen_take, zlen_app. unfold zlen in *. lia. }
  assert (zlen L = 8) as HL.
  { subst L. rewrite zlen_drop, zlen_app. unfold zlen in *. lia. }
  rewrite (wr_app3 A O L) by lia. rewrite bind_Ok. unfold memset.
  replace (A ++ post ++ L) with ((A ++ post) ++ L ++ []) by (by rewrite app_nil_r, <- app_assoc).
  rewrite wr_app3.
  - by rewrite app_nil_r, <- app_assoc.
  - rewrite zlen_app. lia.
  - by rewrite HL.
Qed.

Lemma remove_pid_spec k sid pid krc l :
  heap_never_fails -> valid_table l ->
  remove_pid_for_this_sid be k (env_ok sid pid krc) (table l) = Ok (0, table (remove_sid sid l)).
Proof.
  intros Hh Hv. unfold remove_pid_for_this_sid. cbn [e_shmat_ok e_shmdt_ok e_sid env_ok negb].
  destruct (scan_for_sid_table be sid l Hv) as (i & E & Hi).
  pose proof (pid_of_sid_split sid l) as Hsp.
  apply bind_ok_inv in E as (pair & Ep & Es). rewrite Ep, bind_Ok, Es, bind_Ok. clear Ep Es.
  destruct (pid_of_sid sid l) as [p|]; cbn [default from_option id].
  2:{ destruct Hsp as [_ ->]. reflexivity. }
  destruct Hsp as (m & l2 & -> & Hm & ->). rewrite (Hi m p l2 eq_refl Hm).
  destruct (valid_head _ _ _ Hv) as [[_ Hp] Hlen]. cbn in Hp. unfold is_pid in Hp. unfold id.
  replace (p =? 0) with false by lia. cbn [negb].
  set (post := pairs_bytes l2 ++ replicate (4096 - 8 * length (m ++ (sid, p) :: l2)) 0).
  assert (table (m ++ (sid, p) :: l2) = pairs_bytes m ++ pair_bytes (sid, p) ++ post) as ->
    by (unfold table, post; by rewrite pairs_bytes_app, pairs_bytes_cons, <- !app_assoc).
  assert (zlen post = 4096 - 8 * (zlen m + 1)) as Hpost.
  { subst post. rewrite zlen_app, zlen_pairs_bytes, zlen_replicate, length_app. cbn [length].
    unfold zlen in *. lia. }
  assert (table (m ++ l2) = pairs_bytes m ++ post ++ replicate 8 0) as ->.
  { unfold table, post. rewrite pairs_bytes_app, <- !app_assoc, <- replicate_add. do 3 f_equal.
    rewrite !length_app. cbn [length]. unfold zlen in Hlen. lia. }
  pose proof (zlen_pair_bytes (sid, p)) as H8.
  pose proof (close_gap (pairs_bytes m) (pair_bytes (sid, p)) post (8 * (zlen m + 1)) H8
    ltac:(rewrite zlen_pairs_bytes; lia)) as Hgap.
  change (2 * sizeof_pid_t) with 8. change ECRYPTFS_SHM_SIZE with 4096. rewrite <- Hpost.
  destruct (Z.eqb_spec (zlen post) 0) as [H0|_]; cbn [negb].
  - assert (post = []) as Hn by (apply nil_length_inv; unfold zlen in H0; lia).
    rewrite Hn in *. rewrite wr_ok in Hgap.
    2: pose proof (zlen_nonneg m); lia.
    2: rewrite !zlen_app, zlen_pairs_bytes, H8; change (zlen (@nil Z)) with 0; lia.
    rewrite bind_Ok in Hgap. change (zlen (@nil Z)) with 0 in Hgap.
    rewrite Z.add_0_r, app_nil_l, Nat.add_0_r, take_drop in Hgap. rewrite Hgap. done.
  - rewrite (Hh 675). cbn [negb].
    rewrite (app_assoc (pairs_bytes m)), rd_app2, bind_Ok;
      [|rewrite zlen_app, zlen_pairs_bytes, H8; lia|done].
    rewrite <- app_assoc. apply bind_ok_inv in Hgap as (s & Ew & Em).
    by rewrite Ew, bind_Ok, Em, bind_Ok.
Qed.

Lemma find_pid_spec sid pid krc l :
  valid_table l ->
  find_pid_for_this_sid be (env_ok sid pid krc) (table l) = Ok (0, default 0 (pid_of_sid sid l)).
Proof.
  intros Hv. unfold find_pid_for_this_sid. cbn [e_shmat_ok e_shmdt_ok e_sid env_ok negb].
  destruct (scan_for_sid_table be sid l Hv) as (i & E & _).
  apply bind_ok_inv in E as (pair & Ep & Es). by rewrite Ep, bind_Ok, Es, bind_Ok.
Qed.

Lemma scan_to_end_table l :
  valid_table l ->
  (pair ← load_pair be (table l) 0; scan_to_end be scan_fuel (table l) pair) =
  Ok (if zlen l <? 512 then Some (8 * (zlen l + 1)) else None).
Proof.
  intros Hv. rewrite load_first, bind_Ok by done. change scan_fuel with 512%nat.
  destruct l as [|q r]; [done|]. apply (scan_to_end_spec be 512 [] q r); [done|].
  destruct Hv as [_ Hv]. cbn in Hv. lia.
Qed.

Lemma pid_stored x : is_pid x -> host_bytes be 4 (ntoh be 4 (u32 x)) = be_bytes 4 x.
Proof.
  intros Hx. unfold is_pid in Hx. rewrite wrap_small by lia. apply host_bytes_hton.
  change (256 ^ Z.of_nat 4) with (2 ^ 32). lia.
Qed.

Lemma add_pair_spec sid pid krc l :
  valid_table l -> is_pid sid -> is_pid pid ->
  add_sid_pid_pair_to_shm be (env_ok sid pid krc) (table l) =
  if (zlen l <? 255) || (zlen l =? 511) then Ok (0, table (l ++ [(sid, pid)]))
  else if zlen l =? 512 then Ok (- ENOMEM, table l)
  else UB BufferOverflow.
Proof.
  intros Hv Hs Hp. assert (0 <= zlen l <= 512) as Hlen by (destruct Hv as [_ Hv]; unfold zlen; lia).
  unfold add_sid_pid_pair_to_shm. cbn [e_shmat_ok e_shmdt_ok e_sid e_pid env_ok negb].
  pose proof (scan_to_end_table l Hv) as E. apply bind_ok_inv in E as (pair & Ep & Es).
  rewrite Ep, bind_Ok, Es, bind_Ok. clear Ep Es.
  destruct (Z.ltb_spec (zlen l) 512) as [Hlt|Hge].
  2:{ replace (zlen l =? 512) with true by lia. by replace ((zlen l <? 255) || (zlen l =? 511)) with false by lia. }
  replace (zlen l =? 512) with false by lia. rewrite !pid_stored by done.
  unfold sizeof_pid_t, ECRYPTFS_SHM_SIZE. unfold table at 1.
  replace (4096 - 8 * length l)%nat with (4 + (4 + (4096 - 8 * length (l ++ [(sid, pid)]))))%nat
    by (rewrite length_app; cbn [length]; unfold zlen in Hlt; lia).
  rewrite !replicate_add. set (Z' := replicate (4096 - _) 0).
  assert (zlen Z' = 4096 - 8 * (zlen l + 1)) as HZ.
  { subst Z'. rewrite zlen_replicate, length_app. cbn [length]. unfold zlen in *. lia. }
  rewrite (wr_app3 (pairs_bytes l) (replicate 4 0)); [|rewrite zlen_pairs_bytes; lia
    |unfold zlen; by rewrite length_be_bytes]. rewrite bind_Ok.
  rewrite app_assoc, (wr_app3 (pairs_bytes l ++ be_bytes 4 sid) (replicate 4 0) Z' _ (be_bytes 4 pid));
    [|rewrite zlen_app, zlen_pairs_bytes; unfold zlen; rewrite length_be_bytes; lia
    |unfold zlen; by rewrite length_be_bytes]. rewrite bind_Ok.
  assert ((pairs_bytes l ++ be_bytes 4 sid) ++ be_bytes 4 pid ++ Z' = table (l ++ [(sid, pid)])) as ET.
  { unfold table. rewrite pairs_bytes_app. cbn [pairs_bytes fmap list_fmap mjoin list_join].
    unfold pair_bytes. by rewrite app_nil_r, <- !app_assoc. }
  replace (8 * (zlen l + 1) - 2 * 4 + 4 + 4) with (8 * (zlen l + 1)) by lia.
  destruct (Z.leb_spec (8 * (zlen l + 1) + 2 * 4) 4096) as [Hle|Hgt].
  2:{ replace ((zlen l <? 255) || (zlen l =? 511)) with true by lia. by rewrite ET. }
  unfold memset. destruct (Z.ltb_spec (zlen l) 255) as [Hsmall|Hbig]; cbn [orb].
  - assert (zlen (pairs_bytes l ++ be_bytes 4 sid) = 8 * zlen l + 4) as H4
      by (rewrite zlen_app, zlen_pairs_bytes; unfold zlen; rewrite length_be_bytes; lia).
    set (c := Z.to_nat (8 * (zlen l + 1) + 2 * 4)).
    assert (Z' = replicate c 0 ++ replicate (length Z' - c) 0) as HZ'.
    { rewrite <- replicate_add. subst Z'. rewrite length_replicate. f_equal.
      rewrite length_app in *. cbn [length] in *. unfold c, zlen in *. lia. }
    rewrite HZ' at 1. rewrite (app_assoc _ (be_bytes 4 pid)), wr_app3; [|
      rewrite zlen_app, H4; unfold zlen; rewrite length_be_bytes; lia|done].
    rewrite bind_Ok, <- HZ', <- app_assoc. by rewrite ET.
  - replace (zlen l =? 511) with false by lia.
    rewrite wr_overflow; [done|]. rewrite ET, zlen_table, zlen_replicate; [lia|].
    rewrite length_app. cbn [length]. unfold zlen in Hlt. lia.
Qed.
End Operations.

(** ** Lemmas on the lock *)
Definition is_creating (ph : phase) : bool := match ph with Creating _ => true | _ => false end.

Lemma count_insert (P : phase -> bool) ps n old ph :
  ps !! n = Some old ->
  (length (filter P (<[n := ph]> ps)) + (if P old then 1 else 0) =
   length (filter P ps) + (if P ph then 1 else 0))%nat.
Proof.
  revert n. induction ps as [|p ps IH]; intros [|n] Hn; try done.
  - injection Hn as ->. change (<[0%nat:=ph]> (old :: ps)) with (ph :: ps).
    rewrite !filter_cons. destruct (P old), (P ph); cbn [length]; repeat case_decide; cbn [length] in *; try done; lia.
  - cbn [lookup list_lookup] in Hn. change (<[S n:=ph]> (p :: ps)) with (p :: <[n:=ph]> ps).
    rewrite !filter_cons. specialize (IH n Hn).
    destruct (decide (P p)); cbn [length]; lia.
Qed.

Lemma count_none (P : phase -> bool) ps : Forall (fun ph => P ph = false) ps -> length (filter P ps) = O.
Proof.
  induction 1 as [|ph ps Hp _ IH]; [done|]. rewrite filter_cons, decide_False; [done|].
  intros Hph%Is_true_true. congruence.
Qed.

(** While all goes well there is one set at most.  Before its creator has raised
    it, it is 0 and nobody has come farther than waiting for it; afterwards its
    value accounts for the process inside. *)
Definition on_first_set (ready : bool) (ph : phase) : Prop :=
  match ph with
  | Outside => True
  | Opening k _ => k = O
  | Creating k => k = O /\ ready = false
  | Locking k _ | Inside k => k = O /\ ready = true
  end.

Definition lock_inv (s : system) : Prop :=
  match sys_sets s with
  | [] => Forall (.= Outside) (sys_procs s)
  | [Some (SemSet v ready)] =>
      Forall (on_first_set ready) (sys_procs s) /\ 0 <= v /\
      v + Z.of_nat (inside (sys_procs s)) = (if ready then 1 else 0) /\
      (length (filter is_creating (sys_procs s)) <= 1)%nat
  | _ => False
  end.

(** A process moves, and with it the value of the set. *)
Lemma lock_inv_move v v' ready ps n old ph :
  lock_inv (System [Some (SemSet v ready)] ps) -> ps !! n = Some old -> on_first_set ready ph ->
  is_creating ph = false -> 0 <= v' ->
  v' + (if is_inside ph then 1 else 0) = v + (if is_inside old then 1 else 0) ->
  lock_inv (System [Some (SemSet v' ready)] (<[n := ph]> ps)).
Proof.
  intros (Hall & H0 & Hv & Hc) Hn Hph Hcr H0' Hs. cbn [sys_sets sys_procs lock_inv] in *.
  pose proof (count_insert is_inside ps n old ph Hn) as Hi.
  pose proof (count_insert is_creating ps n old ph Hn) as Hi2. unfold inside in *. rewrite Hcr in Hi2.
  split_and!; [by apply Forall_insert|done| |]; destruct (is_inside ph), (is_inside old), (is_creating old); lia.
Qed.

(** The creator raises the set. *)
Lemma lock_inv_ready v ps n k :
  lock_inv (System [Some (SemSet v false)] ps) -> ps !! n = Some (Creating k) ->
  lock_inv (System [Some (SemSet (v + 1) true)] (<[n := Locking 0 0]> ps)).
Proof.
  intros (Hall & H0 & Hv & Hc) Hn. cbn [sys_sets sys_procs lock_inv] in *.
  pose proof (count_insert is_inside ps n _ (Locking 0 0) Hn) as Hi.
  pose proof (count_insert is_creating ps n _ (Locking 0 0) Hn) as Hi2. unfold inside in *.
  cbn [is_inside is_creating] in *. split_and!; [|lia..].
  assert (length (filter is_creating (<[n := Locking 0 0]> ps)) = O) as Hno by lia.
  apply Forall_lookup_2. intros m ph Hm.
  destruct (decide (n = m)) as [->|Hne].
  - rewrite list_lookup_insert in Hm. rewrite decide_True in Hm; [by injection Hm as <-|].
    split; [done|by apply lookup_lt_Some in Hn].
  - assert (is_creating ph = false) as Hnc.
    { destruct (is_creating ph) eqn:E; [|done]. exfalso. apply length_zero_iff_nil in Hno.
      apply (not_elem_of_nil ph). rewrite <- Hno. apply list_elem_of_filter. split; [by rewrite E|].
      by eapply list_elem_of_lookup_2. }
    rewrite list_lookup_insert_ne in Hm by done. pose proof (Forall_lookup_1 _ _ _ _ Hall Hm) as Hph.
    destruct ph; cbn in *; tauto || done.
Qed.

(** Anybody who has come farther than [Outside] is on the first set. *)
Lemma lock_inv_at sets ps n old :
  lock_inv (System sets ps) -> ps !! n = Some old -> old <> Outside ->
  exists v ready, sets = [Some (SemSet v ready)] /\ on_first_set ready old /\ 0 <= v.
Proof.
  unfold lock_inv. cbn [sys_sets sys_procs]. intros Hinv Hn Ho.
  destruct sets as [|[[v ready]|] [|]]; try done.
  - by apply (Forall_lookup_1 _ _ _ _ Hinv) in Hn.
  - destruct Hinv as (Hall & H0 & _). exists v, ready. split; [done|].
    by apply (Forall_lookup_1 _ _ _ _ Hall) in Hn.
Qed.

Lemma lock_inv_create sets ps n :
  lock_inv (System sets ps) -> ps !! n = Some Outside -> Forall (.= None) sets ->
  lock_inv (System (sets ++ [Some (SemSet 0 false)]) (<[n := Creating (length sets)]> ps)).
Proof.
  unfold lock_inv. cbn [sys_sets sys_procs]. intros Hinv Hn Hno.
  destruct sets as [|[[v ready]|] [|]]; try done; [|by apply Forall_inv in Hno].
  cbn [app length].
  pose proof (count_insert is_inside ps n _ (Creating 0) Hn) as Hi.
  pose proof (count_insert is_creating ps n _ (Creating 0) Hn) as Hi2. unfold inside in *.
  rewrite (count_none is_inside ps), (count_none is_creating ps) in *
    by (eapply Forall_impl; [exact Hinv|by intros ? ->]).
  cbn [is_inside is_creating] in *. split_and!; [|lia..].
  apply Forall_insert; [|done]. eapply Forall_impl; [exact Hinv|by intros ? ->].
Qed.

Lemma lock_inv_step s s' : lock_inv s -> sys_step true s s' -> lock_inv s'.
Proof.
  intros Hinv Hstep. remember true as b eqn:Hb in Hstep. revert Hinv.
  destruct Hstep as [sets ps n Hn Hno | sets ps n k err sem sem' ph Hn Hk Hi | sets ps n k set Hn Hk
                    | sets ps n k i junk sem Hn Hk | sets ps n k i err sem sem' ph Hn Hk Hl
                    | sets ps n k err sem Hn Hk]; intros Hinv.
  - by apply lock_inv_create.
  - apply bool_decide_eq_true in Hb as ->.
    destruct (lock_inv_at _ _ _ _ Hinv Hn) as (v & ready & -> & [-> ->] & H0); [done|]. injection Hk as <-.
    unfold zombie_semaphore_init, semop in Hi. cbn [sem_val] in Hi.
    rewrite (proj2 (Z.ltb_ge (v + 1) 0)) in Hi by lia. injection Hi as <- <-. by eapply lock_inv_ready.
  - unfold lock_inv in Hinv. cbn [sys_sets sys_procs] in Hinv.
    destruct sets as [|[[v ready]|] [|]]; try done. destruct k as [|k]; [|done].
    by eapply lock_inv_move; [exact Hinv|exact Hn|..]; [| |destruct Hinv as (_ & ? & _)|].
  - destruct (lock_inv_at _ _ _ _ Hinv Hn) as (v & ready & -> & Hk0 & H0); [done|]. cbn in Hk0. subst k.
    injection Hk as <-. unfold zombie_semaphore_poll. cbn [sem_otime].
    eapply lock_inv_move; [exact Hinv|exact Hn|..]; destruct (Nat.leb_spec RETRY_LIMIT i), ready; done.
  - apply andb_true_iff in Hb as [Hb Hi]. apply bool_decide_eq_true in Hb as ->. apply Nat.ltb_lt in Hi.
    destruct (lock_inv_at _ _ _ _ Hinv Hn) as (v & ready & -> & [-> ->] & H0); [done|]. injection Hk as <-.
    unfold zombie_semaphore_lock_step, semop in Hl. rewrite (proj2 (Nat.leb_gt _ _)) in Hl by done.
    cbn [sem_val] in Hl. destruct (Z.ltb_spec (v + -1) 0); cbn in Hl; injection Hl as <- <-;
      (eapply lock_inv_move; [exact Hinv|exact Hn|..]; cbn; done || lia).
  - apply bool_decide_eq_true in Hb as ->.
    destruct (lock_inv_at _ _ _ _ Hinv Hn) as (v & ready & -> & [-> ->] & H0); [done|]. injection Hk as <-.
    unfold zombie_semaphore_unlock, semop. cbn [sem_val].
    rewrite (proj2 (Z.ltb_ge (v + 1) 0)) by lia.
    eapply lock_inv_move; [exact Hinv|exact Hn|..]; cbn; done || lia.
Qed.

Lemma sys_good_inv n s : rtc (sys_step true) (sys_init n) s -> lock_inv s.
Proof.
  apply (rtc_ind_r lock_inv (sys_init n)).
  - cbn. by apply Forall_replicate.
  - intros s1 s2 _ Hs IH. by eapply lock_inv_step.
Qed.

(** ** Properties *)

(** Adding the placeholder appends the pair of the calling process to the
    table for tables of up to 254 pairs and for one of 511; a full table is
    reported; but for 255 to 510 pairs the clearing of the next slot runs over
    the end of the segment. *)
Theorem add_sid_pid_pair_refines be sid pid krc l :
  valid_table l -> is_pid sid -> is_pid pid ->
  add_sid_pid_pair_to_shm be (env_ok sid pid krc) (table l) =
  if (zlen l <? 255) || (zlen l =? 511) then Ok (0, table (l ++ [(sid, pid)]))
  else if zlen l =? 512 then Ok (- ENOMEM, table l)
  else UB BufferOverflow.
Proof. apply add_pair_spec. Qed.

Lemma replicate_valid n s p : (n <= 512)%nat -> is_pid s -> is_pid p -> valid_table (replicate n (s, p)).
Proof. intros Hn Hs Hp. split; [by apply Forall_replicate | by rewrite length_replicate]. Qed.

Lemma add_sid_pid_pair_refines_witness :
  add_sid_pid_pair_to_shm false (env_ok 7 9 0) (table (replicate 255 (3, 4))) = UB BufferOverflow.
Proof.
  apply (add_sid_pid_pair_refines false 7 9 0 (replicate 255 (3, 4))).
  - apply replicate_valid; [lia|split; reflexivity..].
  - split; reflexivity.
  - split; reflexivity.
Defined.

(** C39. Ending a session kills exactly the process of the first pair that is
    registered for the session, if there is one, and takes that pair out of
    the table, whether or not the signal could be sent. *)
Theorem kill_and_clear_refines `{Heap} be sid pid krc l :
  heap_never_fails -> valid_table l ->
  ecryptfs_kill_and_clear_zombie_session_placeholder be (env_ok sid pid krc) (Some (table l)) =
  Ok (pid_of_sid sid l, 0, Some (table (remove_sid sid l))).
Proof.
  intros Hh Hv. unfold ecryptfs_kill_and_clear_zombie_session_placeholder.
  change (get_zombie_shared_mem_locked (env_ok sid pid krc) (Some (table l)))
    with (0, Some (table l)). cbn [with_segment Z.eqb negb].
  rewrite find_pid_spec, bind_Ok by done. cbn [Z.eqb negb].
  pose proof (pid_of_sid_split sid l) as Hsp.
  destruct (pid_of_sid sid l) as [p|] eqn:Ep.
  - change (default 0 (Some p)) with p. destruct Hsp as (m & l2 & E & _ & _). rewrite E in Hv.
    destruct (valid_head _ _ _ Hv) as [[_ Hp] _]. rewrite <- E in Hv. unfold is_pid in Hp. cbn in Hp.
    replace (p =? 0) with false by lia. by rewrite remove_pid_spec, bind_Ok.
  - change (default 0 None) with 0. cbn [Z.eqb]. by destruct Hsp as [_ ->].
Qed.

Lemma kill_and_clear_refines_witness :
  @ecryptfs_kill_and_clear_zombie_session_placeholder plenty true (env_ok 7 9 0)
    (Some (table [(3, 4); (7, 55); (7, 66)])) =
  Ok (Some 55, 0, Some (table [(3, 4); (7, 66)])).
Proof.
  apply (@kill_and_clear_refines plenty true 7 9 0 [(3, 4); (7, 55); (7, 66)]).
  - intros line k. reflexivity.
  - split; [repeat constructor | cbn; lia].
Defined.

(** C11. The semaphore protects the table, from the creation of the set on and for
    any number of processes, as long as no call on the semaphore has an error of
    its own - the [semop] that creates, locks or unlocks - and nobody runs out of
    retries: at most one process is past the lock, there is one set at most, and
    its value is 1 when it is ready and nobody is past the lock, and 0 otherwise. *)
Theorem zombie_mutual_exclusion n s :
  rtc (sys_step true) (sys_init n) s ->
  (inside (sys_procs s) <= 1)%nat /\
  (sys_sets s = [] /\ inside (sys_procs s) = O \/
   exists v ready, sys_sets s = [Some (SemSet v ready)] /\
     v = (if ready then 1 else 0) - Z.of_nat (inside (sys_procs s))).
Proof.
  intros Hr%sys_good_inv. unfold lock_inv in Hr.
  destruct (sys_sets s) as [|[[v ready]|] [|]]; try done.
  - assert (inside (sys_procs s) = O) as ->.
    { apply count_none. eapply Forall_impl; [exact Hr|by intros ? ->]. }
    split; [lia|]. by left.
  - destruct Hr as (_ & H0 & Hv & _). split; [destruct ready; lia|]. right. exists v, ready. split; [done|lia].
Qed.

Lemma zombie_mutual_exclusion_witness :
  let s := System [Some (SemSet 0 true)] [Inside 0; Locking 0 0] in
  (inside (sys_procs s) <= 1)%nat /\
  (sys_sets s = [] /\ inside (sys_procs s) = O \/
   exists v ready, sys_sets s = [Some (SemSet v ready)] /\
     v = (if ready then 1 else 0) - Z.of_nat (inside (sys_procs s))).
Proof.
  apply (zombie_mutual_exclusion 2).
  eapply rtc_l; [apply (step_create [] [Outside; Outside] 0); [reflexivity|constructor]|].
  eapply rtc_l; [apply (step_open [Some (SemSet 0 false)] [Creating 0; Outside] 1 0 (SemSet 0 false)); reflexivity|].
  eapply rtc_l; [apply (step_init [Some (SemSet 0 false)] [Creating 0; Opening 0 0] 0 0 None
    (Some (SemSet 0 false)) (Some (SemSet 1 true)) (Locking 0 0)); reflexivity|].
  eapply rtc_l; [apply (step_poll [Some (SemSet 1 true)] [Locking 0 0; Opening 0 0] 1 0 0 false
    (Some (SemSet 1 true))); reflexivity|].
  eapply rtc_l; [apply (step_lock [Some (SemSet 1 true)] [Locking 0 0; Locking 0 0] 0 0 0 None
    (Some (SemSet 1 true)) (Some (SemSet 0 true)) (Inside 0)); reflexivity|].
  apply rtc_refl.
Defined.

(** The system when one process has the lock and another has come to it. *)
Definition contended (i : nat) : system := System [Some (SemSet 0 true)] [Inside 0; Locking 0 i].

(** Each thing that is ruled out there lets a second process in or keeps
    everybody waiting.  A process that loses three retries enters all the same,
    and one whose [semop] has another error at once; when both have left, the
    value is 2.  A failed [semop] of the unlocking leaves the value at 0 with
    nobody inside.  A set whose creator failed is removed, and a process that has
    opened it before enters when [semid_ds] holds the right garbage. *)
Theorem zombie_lock_lost e junk :
  let two := System [Some (SemSet 0 true)] [Inside 0; Inside 0] in
  e <> EAGAIN ->
  rtc sys_any (contended 0) two /\ sys_step false (contended 0) two /\
  rtc sys_any two (System [Some (SemSet 2 true)] [Outside; Outside]) /\
  sys_step false (contended 0) (System [Some (SemSet 0 true)] [Outside; Locking 0 0]) /\
  (junk = true -> rtc sys_any (System [Some (SemSet 0 false)] [Creating 0; Opening 0 0])
                              (System [None] [Outside; Inside 0])).
Proof.
  intros two He. split_and!.
  - assert (forall i, (i < RETRY_LIMIT)%nat -> sys_any (contended i) (contended (S i))) as Hlose.
    { intros i Hi. eexists. unfold contended.
      apply (step_lock [Some (SemSet 0 true)] [Inside 0; Locking 0 i] 1 0 i None (Some (SemSet 0 true))
        (Some (SemSet 0 true)) (Locking 0 (S i))); [reflexivity..|].
      unfold zombie_semaphore_lock_step. by rewrite (proj2 (Nat.leb_gt _ _)). }
    unfold RETRY_LIMIT in Hlose. do 3 (eapply rtc_l; [apply Hlose; lia|]).
    eapply rtc_l; [|apply rtc_refl]. eexists.
    apply (step_lock [Some (SemSet 0 true)] [Inside 0; Locking 0 3] 1 0 3 None (Some (SemSet 0 true)) (Some (SemSet 0 true))); reflexivity.
  - apply (step_lock [Some (SemSet 0 true)] [Inside 0; Locking 0 0] 1 0 0 (Some e) (Some (SemSet 0 true)) (Some (SemSet 0 true)));
      [reflexivity..|].
    unfold zombie_semaphore_lock_step. cbn. by rewrite (proj2 (Z.eqb_neq _ _)).
  - eapply rtc_l; [eexists; apply (step_unlock [Some (SemSet 0 true)] [Inside 0; Inside 0] 0 0 None (Some (SemSet 0 true))); reflexivity|].
    eapply rtc_l; [eexists; apply (step_unlock [Some (SemSet 1 true)] [Outside; Inside 0] 1 0 None (Some (SemSet 1 true))); reflexivity|].
    apply rtc_refl.
  - apply (step_unlock [Some (SemSet 0 true)] [Inside 0; Locking 0 0] 0 0 (Some e) (Some (SemSet 0 true))); reflexivity.
  - intros ->.
    eapply rtc_l; [eexists; apply (step_init [Some (SemSet 0 false)] [Creating 0; Opening 0 0] 0 0 (Some e) (Some (SemSet 0 false))
      None Outside); reflexivity|].
    eapply rtc_l; [eexists; apply (step_poll [None] [Outside; Opening 0 0] 1 0 0 true None); reflexivity|].
    eapply rtc_l; [|apply rtc_refl]. eexists.
    apply (step_lock [None] [Outside; Locking 0 0] 1 0 0 None None None); reflexivity.
Qed.
