(* ===== verification/KeyManagement.v ===== *)
(** * Keyring and wrapped passphrases: [src/libecryptfs/key_management.c] *)

From S2P Require Import Prelude CLib Ecryptfs PassphraseSig KeyMod KeyPayload.

(** ** The system: files and the user keyring *)
Abbreviation files := (gmap (list Z) (list Z)) (only parsing).
Abbreviation keyring := (gmap (list Z) ecryptfs_auth_tok) (only parsing).

(** Which system calls work.  [sys_write line n] is what the [write] of [n]
    bytes at that line returns. *)
Class Sys := {
  sys_open_read : cstring -> bool;
  sys_create : cstring -> bool;
  sys_write : Z -> Z -> Z;
  search_errno : cstring -> Z;
  add_key_errno : cstring -> option Z;
  keyctl_unlink_errno : cstring -> option Z
}.

(** [write] returns -1 or a number of bytes it was given. *)
Class SysLaws `{Sys} := {
  sys_write_range line n : 0 <= n -> -1 <= sys_write line n <= n
}.

(** A system on which everything works. *)
Definition calm_sys : Sys := {|
  sys_open_read := fun _ => true;
  sys_create := fun _ => true;
  sys_write := fun _ n => n;
  search_errno := fun _ => ENOKEY;
  add_key_errno := fun _ => None;
  keyctl_unlink_errno := fun _ => None
|}.
#[export] Instance calm_sys_laws : @SysLaws calm_sys.
Proof. split. cbn. lia. Qed.

Definition sys_works `{Sys} : Prop :=
  (forall f, sys_open_read f = true) /\ (forall f, sys_create f = true) /\
  (forall line n, sys_write line n = n) /\ (forall d, search_errno d = ENOKEY) /\
  (forall d, add_key_errno d = None) /\ (forall d, keyctl_unlink_errno d = None).

Definition ECRYPTFS_SIG_FLAG_NOENT : Z := 1.
Definition ECHO : Z := 8.

(** [rc < 0 ? rc : rc * -1]. *)
Definition negative (rc : Z) : Z := if rc <? 0 then rc else rc * -1.

Section KeyManagement.
Context `{Heap, Nss, Sys} (big_endian : bool).

(** ** Tokens *)

(** The code, the two buffers and [*auth_tok]. *)
Definition ecryptfs_generate_passphrase_auth_tok (k : nat) (auth_tok_sig fekek salt : bytes)
    (passphrase : cstring) : outcome (Z * bytes * bytes * option ecryptfs_auth_tok) :=
  '(rc, auth_tok_sig, fekek) ← generate_passphrase_sig auth_tok_sig fekek salt passphrase;
  if negb (rc =? 0) then mret (negative rc, auth_tok_sig, fekek, None)
  else if negb (alloc_ok 70 k) then mret (- ENOMEM, auth_tok_sig, fekek, None)
  else
    '(rc, auth_tok) ← generate_payload auth_tok_sig salt fekek;
    if negb (rc =? 0) then mret (negative rc, auth_tok_sig, fekek, Some auth_tok)
    else mret (rc, auth_tok_sig, fekek, Some auth_tok).

(** The signature field of a token made from a passphrase. *)
Definition ecryptfs_passphrase_sig_from_blob (blob : ecryptfs_auth_tok) : Z * option bytes :=
  (ECRYPTFS_PASSWORD_SIG_SIZE + 1,
   match at_token blob with TokPassword p => Some (pw_signature p) | TokPrivateKey _ => None end).

Definition ecryptfs_passphrase_blob (salt : bytes) (passphrase : cstring)
    : outcome (option ecryptfs_auth_tok) :=
  '(rc, _, _, auth_tok) ← ecryptfs_generate_passphrase_auth_tok 0
     (zeros (ECRYPTFS_SIG_SIZE_HEX + 1)) (zeros ECRYPTFS_MAX_KEY_BYTES) salt passphrase;
  if negb (rc =? 0) then mret None else mret auth_tok.

(** ** The keyring *)
Definition ecryptfs_remove_auth_tok_from_keyring (kr : keyring) (auth_tok_sig : cstring)
    : Z * keyring :=
  match kr !! auth_tok_sig with
  | None => (search_errno auth_tok_sig, kr)
  | Some _ =>
      match keyctl_unlink_errno auth_tok_sig with
      | Some errno => (errno, kr)
      | None => (0, delete auth_tok_sig kr)
      end
  end.

Definition ecryptfs_add_auth_tok_to_keyring (kr : keyring) (auth_tok : ecryptfs_auth_tok)
    (auth_tok_sig : cstring) : Z * keyring :=
  match kr !! auth_tok_sig with
  | Some _ => (1, kr)
  | None =>
      let errnum := search_errno auth_tok_sig in
      if negb (errnum =? ENOKEY) then (negative errnum, kr)
      else match add_key_errno auth_tok_sig with
      | Some errno => (- errno, kr)
      | None => (0, <[auth_tok_sig := auth_tok]> kr)
      end
  end.

Definition ecryptfs_add_blob_to_keyring (kr : keyring) (blob : ecryptfs_auth_tok) (sig : cstring)
    : Z * keyring := ecryptfs_add_auth_tok_to_keyring kr blob sig.

(** The code, the signature buffer and the keyring. *)
Definition ecryptfs_add_passphrase_key_to_keyring (k : nat) (kr : keyring) (auth_tok_sig : bytes)
    (passphrase : cstring) (salt : bytes) : outcome (Z * bytes * keyring) :=
  '(rc, auth_tok_sig, _, auth_tok) ← ecryptfs_generate_passphrase_auth_tok k auth_tok_sig
     (zeros ECRYPTFS_MAX_KEY_BYTES) salt passphrase;
  if negb (rc =? 0) then mret (rc, auth_tok_sig, kr)
  else match auth_tok with
  | None => UB NullDeref
  | Some auth_tok =>
      sig ← cstr_of auth_tok_sig;
      let '(rc, kr) := ecryptfs_add_auth_tok_to_keyring kr auth_tok sig in
      mret (rc, auth_tok_sig, kr)
  end.

(** ** Wrapping *)

(** A [write] appends what it manages to write. *)
Definition write_file (line : Z) (fs : files) (filename : cstring) (data : bytes) : Z * files :=
  let n := sys_write line (zlen data) in
  (n, <[filename := default [] (fs !! filename) ++ take (Z.to_nat n) data]> fs).

(** Number of bytes after padding to whole blocks. *)
Definition pad_to_block (n : Z) : Z :=
  if negb (n mod ECRYPTFS_AES_BLOCK_SIZE =? 0)
  then n + (ECRYPTFS_AES_BLOCK_SIZE - n mod ECRYPTFS_AES_BLOCK_SIZE) else n.

(** [PK11_CipherOp] and [PK11_DigestFinal] into a buffer: whether both worked,
    the buffer and the number of bytes. *)
Definition run_cipher (dir : cipher_dir) (key input out : bytes) : outcome (bool * bytes * Z) :=
  match cipher_op dir key input with
  | None => mret (false, out, 0)
  | Some c =>
      out ← wr out 0 c;
      match digest_final dir key input with
      | None => mret (false, out, zlen c)
      | Some f =>
          out ← wr out (zlen c) f;
          mret (true, out, zlen c + zlen f)
      end
  end.

(** The code and the files. *)
Definition ecryptfs_wrap_passphrase (fs : files) (filename : cstring)
    (wrapping_passphrase : cstring) (wrapping_salt : bytes) (decrypted_passphrase : cstring)
    : outcome (Z * files) :=
  let decrypted_passphrase_bytes := zlen decrypted_passphrase in
  if ECRYPTFS_MAX_PASSPHRASE_BYTES <? decrypted_passphrase_bytes then mret (- EIO, fs)
  else
    '(rc, wrapping_auth_tok_sig, wrapping_key) ←
      generate_passphrase_sig (zeros (ECRYPTFS_SIG_SIZE_HEX + 1)) (zeros ECRYPTFS_MAX_KEY_BYTES)
        wrapping_salt wrapping_passphrase;
    if negb (rc =? 0) then mret (negative rc, fs)
    else
      let buffer := zeros (ECRYPTFS_MAX_PASSPHRASE_BYTES + ECRYPTFS_AES_BLOCK_SIZE + 1) in
      padded ← wr buffer 0 decrypted_passphrase;
      let decrypted_passphrase_bytes := pad_to_block decrypted_passphrase_bytes in
      let encrypted_passphrase_bytes := decrypted_passphrase_bytes in
      key_item ← rd wrapping_key 0 ECRYPTFS_AES_KEY_BYTES;
      if negb (import_sym_key key_item) then mret (- EIO, fs)
      else
        input ← rd padded 0 decrypted_passphrase_bytes;
        '(ok, encrypted_passphrase, outlen) ← run_cipher CKA_ENCRYPT key_item input buffer;
        if negb ok then mret (- EIO, fs)
        else if negb (decrypted_passphrase_bytes - outlen =? 0) then mret (- EIO, fs)
        else
          let fs := delete filename fs in
          if negb (sys_create filename) then mret (- EIO, fs)
          else
            let fs := <[filename := []]> fs in
            sig ← rd wrapping_auth_tok_sig 0 ECRYPTFS_SIG_SIZE_HEX;
            let '(size, fs) := write_file 406 fs filename sig in
            if size <=? 0 then mret (- EIO, fs)
            else
              e ← rd encrypted_passphrase 0 encrypted_passphrase_bytes;
              let '(size, fs) := write_file 415 fs filename e in
              if size <=? 0 then mret (- EIO, fs) else mret (0, fs).

(** The code and the contents of the caller's buffer. *)
Definition ecryptfs_unwrap_passphrase (fs : files) (decrypted_passphrase : bytes)
    (filename wrapping_passphrase : cstring) (wrapping_salt : bytes) : outcome (Z * bytes) :=
  '(rc, wrapping_auth_tok_sig, wrapping_key) ←
    generate_passphrase_sig (zeros (ECRYPTFS_SIG_SIZE_HEX + 1)) (zeros ECRYPTFS_MAX_KEY_BYTES)
      wrapping_salt wrapping_passphrase;
  if negb (rc =? 0) then mret (negative rc, decrypted_passphrase)
  else if negb (sys_open_read filename) then mret (- EIO, decrypted_passphrase)
  else match fs !! filename with
  | None => mret (- EIO, decrypted_passphrase)
  | Some content =>
      let sig := take (Z.to_nat ECRYPTFS_SIG_SIZE_HEX) content in
      if zlen sig <=? 0 then mret (- EIO, decrypted_passphrase)
      else
        sig_from_file ← wr (zeros (ECRYPTFS_SIG_SIZE_HEX + 1)) 0 sig;
        let e := take (Z.to_nat ECRYPTFS_MAX_PASSPHRASE_BYTES) (drop (length sig) content) in
        let size := zlen e in
        if size <=? 0 then mret (- EIO, decrypted_passphrase)
        else
          encrypted_passphrase ← wr (zeros (ECRYPTFS_MAX_PASSPHRASE_BYTES + 1)) 0 e;
          a ← rd sig_from_file 0 ECRYPTFS_SIG_SIZE_HEX;
          b ← rd wrapping_auth_tok_sig 0 ECRYPTFS_SIG_SIZE_HEX;
          if negb (bool_decide (a = b)) then mret (- EIO, decrypted_passphrase)
          else
            let encrypted_passphrase_bytes := size in
            key_item ← rd wrapping_key 0 ECRYPTFS_AES_KEY_BYTES;
            if negb (import_sym_key key_item) then mret (- EIO, decrypted_passphrase)
            else
              decrypted_passphrase ←
                memset decrypted_passphrase 0 0 (ECRYPTFS_MAX_PASSPHRASE_BYTES + 1);
              input ← rd encrypted_passphrase 0 encrypted_passphrase_bytes;
              '(ok, decrypted_passphrase, outlen) ←
                run_cipher CKA_DECRYPT key_item input decrypted_passphrase;
              if negb ok then mret (- EIO, decrypted_passphrase)
              else if negb (encrypted_passphrase_bytes - outlen =? 0)
              then mret (- EIO, decrypted_passphrase)
              else mret (0, decrypted_passphrase)
  end.

Definition ecryptfs_wrap_passphrase_file (fs : files) (dest wrapping_passphrase : cstring)
    (salt : bytes) (src : cstring) : outcome (Z * files) :=
  let decrypted_passphrase := zeros (ECRYPTFS_MAX_PASSPHRASE_BYTES + 1) in
  if negb (sys_open_read src) then mret (- EIO, fs)
  else match fs !! src with
  | None => mret (- EIO, fs)
  | Some content =>
      let input := take (Z.to_nat ECRYPTFS_MAX_PASSPHRASE_BYTES) content in
      decrypted_passphrase ← wr decrypted_passphrase 0 input;
      passphrase ← cstr_of decrypted_passphrase;
      if zlen input <=? 0 then
        let _ := cut_last passphrase 10 in
        mret (- EIO, fs)
      else
        '(rc, fs) ← ecryptfs_wrap_passphrase fs dest wrapping_passphrase salt passphrase;
        if rc =? 0 then mret (0, delete src fs) else mret (- EIO, fs)
  end.

(** The code, the signature buffer and the keyring; [junk] is what the stack
    buffer holds. *)
Definition ecryptfs_insert_wrapped_passphrase_into_keyring (fs : files) (kr : keyring)
    (auth_tok_sig : bytes) (filename wrapping_passphrase : cstring) (salt junk : bytes)
    : outcome (Z * bytes * keyring) :=
  '(rc, decrypted_passphrase) ←
    ecryptfs_unwrap_passphrase fs junk filename wrapping_passphrase salt;
  if negb (rc =? 0) then mret (- EIO, auth_tok_sig, kr)
  else
    passphrase ← cstr_of decrypted_passphrase;
    '(rc, auth_tok_sig, kr) ← ecryptfs_add_passphrase_key_to_keyring 0 kr auth_tok_sig passphrase
       (ECRYPTFS_DEFAULT_SALT_FNEK_HEX ++ [0]);
    if rc <? 0 then mret (rc, auth_tok_sig, kr)
    else ecryptfs_add_passphrase_key_to_keyring 1 kr auth_tok_sig passphrase salt.

(** [None] when the process ends in [ecryptfs_generate_key_payload]. *)
Definition ecryptfs_add_key_module_key_to_keyring (kr : keyring) (auth_tok_sig : bytes)
    (key_mod : ecryptfs_key_mod) : outcome (option (Z * bytes * keyring)) :=
  '(rc, blob_size) ←
    match km_blob key_mod with
    | None =>
        get_blob ← call (op_get_blob (km_ops key_mod));
        let '(rc, size, _) := get_blob false (km_param_vals key_mod) in
        mret (rc, size)
    | Some _ => mret (0, km_blob_size key_mod)
    end;
  if negb (rc =? 0) then mret (Some (rc, auth_tok_sig, kr))
  else if negb (alloc_ok 636 0) then mret (Some (- ENOMEM, auth_tok_sig, kr))
  else
    payload ← ecryptfs_generate_key_payload big_endian 0 key_mod auth_tok_sig blob_size;
    match payload with
    | PayloadExit _ => mret None
    | PayloadReturn rc auth_tok_sig auth_tok =>
        if negb (rc =? 0) then mret (Some (rc, auth_tok_sig, kr))
        else
          sig ← cstr_of auth_tok_sig;
          match kr !! sig with
          | Some _ => mret (Some (1, auth_tok_sig, kr))
          | None =>
              match add_key_errno sig with
              | Some errno => mret (Some (- errno, auth_tok_sig, kr))
              | None => mret (Some (0, auth_tok_sig, <[sig := auth_tok]> kr))
              end
          end
    end.

(** ** The cache of signatures *)

(** The [read] loop over records of 17 bytes: was the signature found? *)
Fixpoint check_sig_loop (fuel : nat) (auth_tok_sig content : bytes) : outcome bool :=
  let tmp := take (Z.to_nat (ECRYPTFS_SIG_SIZE_HEX + 1)) content in
  if zlen tmp =? ECRYPTFS_SIG_SIZE_HEX + 1 then
    a ← rd auth_tok_sig 0 ECRYPTFS_SIG_SIZE_HEX;
    b ← rd tmp 0 ECRYPTFS_SIG_SIZE_HEX;
    if bool_decide (a = b) then mret true
    else match fuel with
    | O => mret false
    | S fuel' => check_sig_loop fuel' auth_tok_sig (drop (length tmp) content)
    end
  else mret false.

(** The code and [*flags]. *)
Definition ecryptfs_check_sig (fs : files) (auth_tok_sig : bytes) (sig_cache_filename : cstring)
    (flags : Z) : outcome (Z * Z) :=
  let flags := Z.land flags (Z.lnot ECRYPTFS_SIG_FLAG_NOENT) in
  let noent := Z.lor flags ECRYPTFS_SIG_FLAG_NOENT in
  if negb (sys_open_read sig_cache_filename) then mret (0, noent)
  else match fs !! sig_cache_filename with
  | None => mret (0, noent)
  | Some content =>
      found ← check_sig_loop (length content) auth_tok_sig content;
      mret (0, if found : bool then flags else noent)
  end.

Definition ecryptfs_append_sig (fs : files) (auth_tok_sig : bytes) (sig_cache_filename : cstring)
    : outcome (Z * files) :=
  if negb (sys_create sig_cache_filename) then mret (- EIO, fs)
  else
    let fs := <[sig_cache_filename := default [] (fs !! sig_cache_filename)]> fs in
    sig ← rd auth_tok_sig 0 ECRYPTFS_SIG_SIZE_HEX;
    let tmp := sig ++ [10] in
    let '(size, fs) := write_file 760 fs sig_cache_filename tmp in
    if negb (size =? ECRYPTFS_SIG_SIZE_HEX + 1) then mret (- EIO, fs) else mret (0, fs).

(** ** The terminal *)
Definition ecryptfs_validate_keyring (keyctl_link : Z) : Z :=
  if negb (keyctl_link =? 0) then - EIO else 0.

(** [tcgetattr]'s result and flags, [tcsetattr]'s result: the code, the saved
    flags and the flags in force. *)
Definition ecryptfs_disable_echo (tcgetattr : Z * Z) (tcsetattr : Z) : Z * option Z * Z :=
  let '(rc, lflag) := tcgetattr in
  if negb (rc =? 0) then (rc, None, lflag)
  else (tcsetattr, Some lflag, if tcsetattr =? 0 then Z.land lflag (Z.lnot ECHO) else lflag).

Definition ecryptfs_enable_echo (saved_settings tcsetattr lflag : Z) : Z * Z :=
  (tcsetattr, if tcsetattr =? 0 then saved_settings else lflag).

(** The passphrase, if any, and what is left of standard input. *)
Definition ecryptfs_get_passphrase (stdin : bytes) : outcome (option cstring * bytes) :=
  if negb (alloc_ok 814 0) then mret (None, stdin)
  else match fgets (Z.to_nat (ECRYPTFS_MAX_PASSWORD_LENGTH + 2)) stdin with
  | None => mret (None, stdin)
  | Some (line, rest) =>
      passphrase ← cstr_of (line ++ [0]);
      let passphrase := cut_last passphrase 10 in
      if ECRYPTFS_MAX_PASSWORD_LENGTH <? zlen passphrase then mret (None, rest)
      else mret (Some passphrase, rest)
  end.

Definition ecryptfs_get_wrapped_passphrase_filename (pw_dir : option cstring)
    (stat_ok : cstring -> bool) : option cstring :=
  match pw_dir with
  | None => None
  | Some dir =>
      if negb (alloc_ok 853 0) then None
      else
        let filename := dir ++ lit "/.ecryptfs/wrapped-passphrase" in
        if stat_ok filename then Some filename else None
  end.
End KeyManagement.

(** ** Lemmas *)

(** Every call into the library succeeds. *)
Definition nss_works `{Nss} : Prop :=
  digest_total /\ (forall k, import_sym_key k = true) /\
  (forall dir k d, is_Some (cipher_op dir k d)) /\ (forall dir k d, is_Some (digest_final dir k d)).

Lemma toy_nss_works : @nss_works toy_nss.
Proof. split; [apply toy_digest_total|]. cbn. eauto. Qed.

Lemma pad_to_block_spec n :
  0 <= n -> n <= pad_to_block n < n + 16 /\ pad_to_block n mod 16 = 0.
Proof.
  intros Hn. unfold pad_to_block. change ECRYPTFS_AES_BLOCK_SIZE with 16.
  destruct (Z.eqb_spec (n mod 16) 0); cbn [negb]; lia.
Qed.

(** The passphrase with the zeros that fill up its last block. *)
Definition padded (p : cstring) : bytes := p ++ zeros (pad_to_block (zlen p) - zlen p).

Lemma zlen_zeros n : 0 <= n -> zlen (zeros n) = n.
Proof. intros H. unfold zeros. rewrite zlen_replicate. lia. Qed.

Lemma zlen_padded p : zlen (padded p) = pad_to_block (zlen p).
Proof.
  unfold padded. pose proof (pad_to_block_spec (zlen p) (zlen_nonneg p)).
  rewrite zlen_app, zlen_zeros; lia.
Qed.

Lemma zeros_split n m : 0 <= n -> 0 <= m -> zeros (n + m) = zeros n ++ zeros m.
Proof. intros ? ?. unfold zeros. rewrite Z2Nat.inj_add by lia. apply replicate_add. Qed.

Section Lemmas.
Context `{Nss, !NssLaws, Sys}.

Lemma run_cipher_ok dir key input out :
  nss_works -> zlen input mod 16 = 0 -> zlen input <= zlen out ->
  exists c, cipher_op dir key input = Some c /\ zlen c = zlen input /\
    run_cipher dir key input out = Ok (true, c ++ drop (length c) out, zlen input).
Proof.
  intros (_ & _ & Hc & Hf) Hmod Hlen. destruct (Hc dir key input) as [c Ec].
  exists c. split; [done|]. pose proof (cipher_op_length _ _ _ _ Ec) as Hl.
  assert (zlen c = zlen input) as Hz by (unfold zlen; by rewrite Hl). split; [done|].
  unfold run_cipher. rewrite Ec. pose proof (zlen_nonneg c).
  rewrite wr_ok by lia. rewrite bind_Ok. change (Z.to_nat 0) with 0%nat. rewrite take_0, app_nil_l.
  rewrite Nat.add_0_l. destruct (Hf dir key input) as [f Ef]. rewrite Ef.
  assert (f = []) as ->.
  { eapply digest_final_empty; [|done]. unfold zlen in Hmod. apply Nat2Z.inj.
    rewrite Nat2Z.inj_mod. exact Hmod. }
  assert (wr (c ++ drop (length c) out) (zlen c) [] = Ok (c ++ drop (length c) out)) as ->.
  { apply (wr_app3 c [] (drop (length c) out)); done. }
  rewrite bind_Ok. change (zlen (@nil Z)) with 0. unfold mret, outcome_ret. do 2 f_equal. lia.
Qed.

(** A wrapped file: the signature of the wrapping key, then the passphrase
    encrypted under its first 16 bytes. *)
Definition wrap_key (salt : bytes) (wp : cstring) : bytes := take 16 (passphrase_key salt wp).
Definition wrapped_content (salt : bytes) (wp p : cstring) : bytes :=
  passphrase_sig_hex salt wp ++ default [] (cipher_op CKA_ENCRYPT (wrap_key salt wp) (padded p)).

Lemma read_wrap_key salt wp :
  digest_total -> rd (passphrase_key salt wp) 0 ECRYPTFS_AES_KEY_BYTES = Ok (wrap_key salt wp).
Proof.
  intros Hd. pose proof (passphrase_key_length salt wp Hd) as Hl.
  change ECRYPTFS_AES_KEY_BYTES with 16. rewrite rd_ok by (unfold zlen; lia).
  change (Z.to_nat 0) with 0%nat. by rewrite drop_0.
Qed.

Lemma read_sig salt wp rest :
  digest_total ->
  rd (passphrase_sig_hex salt wp ++ rest) 0 ECRYPTFS_SIG_SIZE_HEX = Ok (passphrase_sig_hex salt wp).
Proof.
  intros Hd. apply rd_prefix. unfold zlen. by rewrite length_passphrase_sig_hex.
Qed.

Lemma derive_ok salt wp :
  digest_total -> 8 <= zlen salt -> zlen wp <= 64 ->
  exists tail, generate_passphrase_sig (zeros (ECRYPTFS_SIG_SIZE_HEX + 1)) (zeros ECRYPTFS_MAX_KEY_BYTES)
    salt wp = Ok (0, passphrase_sig_hex salt wp ++ 0 :: tail, passphrase_key salt wp).
Proof.
  intros Hd Hs Hw. eexists. by apply (generate_passphrase_sig_ok _ _ salt wp).
Qed.

Lemma pad_buffer p :
  zlen p <= 64 ->
  exists b, wr (zeros (64 + 16 + 1)) 0 p = Ok b /\ rd b 0 (pad_to_block (zlen p)) = Ok (padded p).
Proof.
  intros Hp. pose proof (zlen_nonneg p). pose proof (pad_to_block_spec (zlen p) ltac:(lia)) as [Hb _].
  replace (64 + 16 + 1) with (zlen p + (pad_to_block (zlen p) - zlen p + (81 - pad_to_block (zlen p)))) by lia.
  rewrite !zeros_split by lia. eexists. split.
  - apply (wr_app3 [] (zeros (zlen p))); [done|]. rewrite zlen_zeros; lia.
  - rewrite app_nil_l, app_assoc. apply rd_prefix. symmetry. apply zlen_padded.
Qed.

Lemma wrap_passphrase_ok fs f wp salt p :
  nss_works -> sys_works -> 8 <= zlen salt -> zlen wp <= 64 -> 0 < zlen p <= 64 ->
  ecryptfs_wrap_passphrase fs f wp salt p = Ok (0, <[f := wrapped_content salt wp p]> fs).
Proof.
  intros Hn (_ & Hcr & Hw & _) Hs Hwp Hp. destruct Hn as (Hd & Himp & Hn').
  assert (nss_works) as Hn by done.
  unfold ecryptfs_wrap_passphrase. change ECRYPTFS_MAX_PASSPHRASE_BYTES with 64.
  replace (64 <? zlen p) with false by lia.
  destruct (derive_ok salt wp Hd Hs Hwp) as [tail E]. rewrite E, bind_Ok. cbn [Z.eqb negb].
  change ECRYPTFS_AES_BLOCK_SIZE with 16.
  destruct (pad_buffer p ltac:(lia)) as (b & Eb & Erd). rewrite Eb, bind_Ok.
  rewrite read_wrap_key, bind_Ok, Himp by done. cbn [negb]. rewrite Erd, bind_Ok.
  pose proof (pad_to_block_spec (zlen p) ltac:(lia)) as [Hpb Hmod].
  assert (pad_to_block (zlen p) <= 64) as Hpb64 by lia.
  pose proof (zlen_padded p) as Hzp.
  destruct (run_cipher_ok CKA_ENCRYPT (wrap_key salt wp) (padded p) (zeros (64 + 16 + 1)) Hn)
    as (c & Ec & Hc & Erun); [by rewrite Hzp | rewrite Hzp, zlen_zeros; lia |].
  rewrite Erun, bind_Ok. cbn [negb]. rewrite Hzp, Z.sub_diag. cbn [Z.eqb negb].
  rewrite Hcr. cbn [negb].
  rewrite read_sig, bind_Ok by done. unfold write_file at 1. rewrite Hw.
  assert (zlen (passphrase_sig_hex salt wp) = 16) as Hsig
    by (unfold zlen; by rewrite length_passphrase_sig_hex).
  rewrite Hsig. change (16 <=? 0) with false. cbn match.
  rewrite rd_prefix, bind_Ok by lia. unfold write_file. rewrite Hw, Hc, Hzp.
  replace (pad_to_block (zlen p) <=? 0) with false by lia.
  unfold mret, outcome_ret. do 2 f_equal.
  rewrite !lookup_insert_eq. cbn [default from_option id].
  rewrite !insert_insert_eq, insert_delete_eq. unfold wrapped_content. rewrite Ec.
  cbn [default from_option id app].
  rewrite (take_ge (passphrase_sig_hex salt wp)), (take_ge c)
    by (unfold zlen in *; lia). done.
Qed.

(** What unwrapping makes of a file, once the key is derived. *)
Lemma unwrap_derived fs junk f wp salt sig c :
  nss_works -> sys_works -> 8 <= zlen salt -> zlen wp <= 64 ->
  fs !! f = Some (sig ++ c) -> zlen sig = 16 -> 0 < zlen c <= 64 -> zlen c mod 16 = 0 ->
  65 <= zlen junk ->
  ecryptfs_unwrap_passphrase fs junk f wp salt =
  if bool_decide (sig = passphrase_sig_hex salt wp) then
    match cipher_op CKA_DECRYPT (wrap_key salt wp) c with
    | Some p => Ok (0, p ++ zeros (65 - zlen c) ++ drop 65 junk)
    | None => Ok (- EIO, junk)
    end
  else Ok (- EIO, junk).
Proof.
  intros Hn (Hop & _) Hs Hwp Hf Hsig Hc Hmod Hj. pose proof Hn as (Hd & Himp & _).
  unfold ecryptfs_unwrap_passphrase. change ECRYPTFS_MAX_PASSPHRASE_BYTES with 64.
  destruct (derive_ok salt wp Hd Hs Hwp) as [tail E]. rewrite E, bind_Ok. cbn [Z.eqb negb].
  rewrite Hop, Hf. cbn [negb]. change (Z.to_nat ECRYPTFS_SIG_SIZE_HEX) with 16%nat.
  rewrite take_app_length' by (unfold zlen in Hsig; lia).
  rewrite Hsig. change (16 <=? 0) with false. cbn match.
  pose proof (wr_app3 [] (zeros 16) [0] 0 sig eq_refl ltac:(by rewrite Hsig)) as Ew.
  cbn [app] in Ew. change (zeros (ECRYPTFS_SIG_SIZE_HEX + 1)) with (zeros 16 ++ [0]).
  rewrite Ew, bind_Ok. rewrite drop_app_length, take_ge by (unfold zlen in Hc; lia).
  replace (zlen c <=? 0) with false by lia.
  replace (64 + 1) with (zlen c + (65 - zlen c)) by lia. rewrite zeros_split by lia.
  pose proof (wr_app3 [] (zeros (zlen c)) (zeros (65 - zlen c)) 0 c eq_refl
    ltac:(by rewrite zlen_zeros by lia)) as Ew2. cbn [app] in Ew2. rewrite Ew2, bind_Ok.
  rewrite (rd_prefix sig), bind_Ok by (by rewrite Hsig).
  rewrite read_sig, bind_Ok by done.
  case_bool_decide as Heq; cbn [negb]; [|done].
  rewrite read_wrap_key, bind_Ok, Himp by done. cbn [negb].
  unfold memset. rewrite wr_ok by (rewrite ?zlen_replicate; lia). rewrite bind_Ok.
  change (Z.to_nat 0) with 0%nat. rewrite take_0, app_nil_l, Nat.add_0_l, length_replicate.
  replace (zlen c + (65 - zlen c)) with 65 by lia. change (Z.to_nat 65) with 65%nat.
  rewrite rd_prefix, bind_Ok by done.
  change (replicate 65 0) with (zeros 65).
  destruct (run_cipher_ok CKA_DECRYPT (wrap_key salt wp) c (zeros 65 ++ drop 65 junk) Hn Hmod)
    as (p & Ep & Hp & Erun); [rewrite zlen_app, zlen_drop, zlen_zeros; lia|].
  rewrite Erun, bind_Ok, Ep. cbn [negb]. rewrite Z.sub_diag. cbn [Z.eqb negb].
  unfold mret, outcome_ret. do 3 f_equal.
  replace 65 with (zlen p + (65 - zlen c)) at 1 by lia. rewrite zeros_split by lia.
  rewrite <- app_assoc. apply drop_app_length'. unfold zeros, zlen. rewrite length_replicate. lia.
Qed.

Lemma length_wrapped_content salt wp p :
  nss_works -> 0 < zlen p <= 64 ->
  exists c, cipher_op CKA_ENCRYPT (wrap_key salt wp) (padded p) = Some c /\
    wrapped_content salt wp p = passphrase_sig_hex salt wp ++ c /\
    zlen c = pad_to_block (zlen p) /\ zlen (passphrase_sig_hex salt wp) = 16 /\
    0 < zlen c <= 64 /\ zlen c mod 16 = 0.
Proof.
  intros Hn Hp. pose proof Hn as (Hd & _ & Hc & _).
  destruct (Hc CKA_ENCRYPT (wrap_key salt wp) (padded p)) as [c Ec]. exists c.
  assert (zlen c = pad_to_block (zlen p)) as Hl.
  { rewrite <- zlen_padded. unfold zlen. by rewrite (cipher_op_length _ _ _ _ Ec). }
  pose proof (pad_to_block_spec (zlen p) ltac:(lia)) as [Hpb Hmod].
  split; [done|]. split; [unfold wrapped_content; by rewrite Ec|]. split; [done|].
  split; [unfold zlen; by rewrite length_passphrase_sig_hex|]. rewrite Hl. split; [lia|done].
Qed.

(** Unwrapping with the right passphrase gives the passphrase, then zeros. *)
Lemma unwrap_wrapped fs junk f wp salt p :
  nss_works -> sys_works -> 8 <= zlen salt -> zlen wp <= 64 -> 0 < zlen p <= 64 ->
  65 <= zlen junk -> fs !! f = Some (wrapped_content salt wp p) ->
  ecryptfs_unwrap_passphrase fs junk f wp salt =
  Ok (0, p ++ zeros (65 - zlen p) ++ drop 65 junk).
Proof.
  intros Hn Hsys Hs Hwp Hp Hj Hf.
  destruct (length_wrapped_content salt wp p Hn Hp) as (c & Ec & Ewc & Hl & Hsig & Hc & Hmod).
  rewrite Ewc in Hf. rewrite (unwrap_derived _ _ _ _ _ _ _ Hn Hsys Hs Hwp Hf Hsig Hc Hmod Hj).
  rewrite bool_decide_eq_true_2 by done.
  assert (length (padded p) mod 16 = 0)%nat as Hmod16.
  { apply Nat2Z.inj. rewrite Nat2Z.inj_mod. fold (zlen (padded p)).
    rewrite zlen_padded, <- Hl. exact Hmod. }
  rewrite (cipher_op_inverse _ (padded p) c) by done.
  pose proof (pad_to_block_spec (zlen p) ltac:(lia)) as [Hpb _].
  replace (65 - zlen p) with ((pad_to_block (zlen p) - zlen p) + (65 - zlen c)) by lia.
  rewrite zeros_split by lia. unfold padded. by rewrite <- !app_assoc.
Qed.

Lemma cstr_of_padded (p rest : bytes) n :
  is_cstring p -> 0 < n -> cstr_of (p ++ zeros n ++ rest) = Ok p.
Proof.
  intros Hp Hn. replace n with (1 + (n - 1)) by lia. rewrite zeros_split by lia.
  change (zeros 1) with [0]. rewrite <- app_assoc. apply cstr_of_app. by apply is_char_nonzero.
Qed.
End Lemmas.

(** The token a passphrase makes. *)
Definition passphrase_token `{Nss} (salt : bytes) (p : cstring) : ecryptfs_auth_tok :=
  AuthTok (version_word ECRYPTFS_VERSION_MAJOR ECRYPTFS_VERSION_MINOR) ECRYPTFS_PASSWORD 0
    session_key_zero (zeros 32)
    (TokPassword (Password 0 PGP_DIGEST_ALGO_SHA512 0 ECRYPTFS_MAX_KEY_BYTES
      ECRYPTFS_SESSION_KEY_ENCRYPTION_KEY_SET (passphrase_key salt p)
      (passphrase_sig_hex salt p ++ [0]) (take 8 salt))).

(** The keyring with that token, and whether it was new. *)
Definition ensure_token `{Nss} (kr : keyring) (salt : bytes) (p : cstring) : Z * keyring :=
  match kr !! passphrase_sig_hex salt p with
  | Some _ => (1, kr)
  | None => (0, <[passphrase_sig_hex salt p := passphrase_token salt p]> kr)
  end.

Lemma payload_of_passphrase `{Nss, !NssLaws} salt p tail :
  digest_total -> 8 <= zlen salt ->
  generate_payload (passphrase_sig_hex salt p ++ 0 :: tail) salt (passphrase_key salt p) =
  Ok (0, passphrase_token salt p).
Proof.
  intros Hd Hs. unfold generate_payload. cbn [ecryptfs_get_versions fmap option_fmap option_map].
  rewrite cstr_of_app, bind_Ok by (by apply is_char_nonzero, passphrase_sig_hex_cstring).
  change ECRYPTFS_SALT_SIZE with 8. rewrite rd_ok, bind_Ok by lia.
  change (Z.to_nat 0) with 0%nat. rewrite !drop_0. change (Z.to_nat 8) with 8%nat.
  pose proof (passphrase_key_length salt p Hd) as Hk. change ECRYPTFS_MAX_KEY_BYTES with 64.
  rewrite rd_ok, bind_Ok by (unfold zlen; lia). change (Z.to_nat 0) with 0%nat.
  rewrite drop_0, take_ge by (change (Z.to_nat 64) with 64%nat; lia).
  unfold strncpy, passphrase_token. pose proof (length_passphrase_sig_hex salt p Hd) as Hl.
  change (Z.to_nat ECRYPTFS_PASSWORD_SIG_SIZE) with 16%nat.
  rewrite take_ge by lia. rewrite Hl. cbn [Nat.sub replicate]. by rewrite app_nil_r.
Qed.

Lemma add_passphrase_key_ok `{Heap, Nss, !NssLaws, Sys} k kr sig0 p salt :
  heap_never_fails -> digest_total -> sys_works -> 17 <= zlen sig0 -> 8 <= zlen salt -> zlen p <= 64 ->
  ecryptfs_add_passphrase_key_to_keyring k kr sig0 p salt =
  Ok ((ensure_token kr salt p).1, passphrase_sig_hex salt p ++ [0] ++ drop 17 sig0,
      (ensure_token kr salt p).2).
Proof.
  intros Hh Hd (_ & _ & _ & Hse & Hae & _) Hsig Hs Hp.
  unfold ecryptfs_add_passphrase_key_to_keyring, ecryptfs_generate_passphrase_auth_tok.
  rewrite generate_passphrase_sig_ok by done. rewrite bind_Ok. cbn [Z.eqb negb].
  rewrite (Hh 70). cbn [negb].
  change ([0] ++ drop 17 sig0) with (0 :: drop 17 sig0).
  rewrite payload_of_passphrase, bind_Ok by done. cbn [Z.eqb negb mret outcome_ret].
  rewrite bind_Ok. cbn [Z.eqb negb].
  rewrite cstr_of_app, bind_Ok by (by apply is_char_nonzero, passphrase_sig_hex_cstring).
  unfold ecryptfs_add_auth_tok_to_keyring, ensure_token.
  destruct (kr !! passphrase_sig_hex salt p); [done|]. by rewrite Hse, Hae.
Qed.

(** The cache of signatures as a list. *)
Definition sig_cache (l : list bytes) : bytes := mjoin ((fun s => s ++ [10]) <$> l).

(** A turn consumes 17 bytes, so more fuel than the length changes nothing. *)
Lemma check_sig_loop_fuel fuel n sig content :
  (length content <= fuel)%nat -> check_sig_loop (fuel + n) sig content = check_sig_loop fuel sig content.
Proof.
  revert content. induction fuel as [|fuel IH]; intros content Hf.
  - destruct content; [|cbn in Hf; lia]. by destruct n.
  - cbn [Nat.add check_sig_loop]. destruct (_ =? _) eqn:E; [|done].
    destruct (rd sig _ _); [cbn [obind]|done]. destruct (rd (take _ _) _ _); [cbn [obind]|done].
    destruct (bool_decide _); [done|]. apply IH. rewrite length_drop.
    change (Z.to_nat (ECRYPTFS_SIG_SIZE_HEX + 1)) with 17%nat in *. apply Z.eqb_eq in E.
    change (ECRYPTFS_SIG_SIZE_HEX + 1) with 17 in E. unfold zlen in E. lia.
Qed.

Lemma check_sig_loop_spec fuel sig l :
  16 <= zlen sig -> Forall (fun s => length s = 16%nat) l -> (length l <= fuel)%nat ->
  check_sig_loop fuel sig (sig_cache l) = Ok (bool_decide (take 16 sig ∈ l)).
Proof.
  intros Hsig Hl. revert fuel. induction Hl as [|s l Hs _ IH]; intros fuel Hf.
  { rewrite bool_decide_eq_false_2 by apply not_elem_of_nil. by destruct fuel. }
  destruct fuel as [|fuel]; [by inversion Hf|].
  assert (sig_cache (s :: l) = (s ++ [10]) ++ sig_cache l) as E by done.
  assert (take (Z.to_nat (ECRYPTFS_SIG_SIZE_HEX + 1)) (sig_cache (s :: l)) = s ++ [10]) as Etake.
  { rewrite E. apply take_app_length'. rewrite length_app, Hs. done. }
  cbn [check_sig_loop]. rewrite Etake, zlen_app.
  unfold zlen at 1 2. rewrite Hs. change ECRYPTFS_SIG_SIZE_HEX with 16. cbn [length].
  cbn [Z.of_nat Z.add Z.eqb Pos.eqb Pos.of_succ_nat Pos.succ Pos.add].
  rewrite rd_ok, bind_Ok by lia. change (Z.to_nat 0) with 0%nat. rewrite drop_0.
  rewrite (rd_prefix s), bind_Ok by (unfold zlen; by rewrite Hs).
  change (Z.to_nat 16) with 16%nat.
  destruct (decide (take 16 sig = s)) as [Heq|Heq].
  - rewrite !bool_decide_eq_true_2; [done| |done]. rewrite Heq. apply elem_of_cons. by left.
  - rewrite (bool_decide_eq_false_2 (take 16 sig = s)) by done.
    rewrite E, drop_app_length. cbn in Hf. rewrite IH by lia. f_equal.
    apply bool_decide_ext. rewrite elem_of_cons.
    split; [by right | by intros [|]].
Qed.

(** ** Properties *)

(** C3. Wrapping then unwrapping gives the passphrase back: for a passphrase of
    1 to 64 characters, [ecryptfs_wrap_passphrase] creates (or replaces) the
    file, changes no other file, and [ecryptfs_unwrap_passphrase] with the same
    wrapping passphrase and salt fills the caller's buffer with the passphrase
    and its terminator. *)
Theorem wrap_unwrap_roundtrip `{Nss, !NssLaws, Sys} fs f wp salt p junk :
  nss_works -> sys_works -> 8 <= zlen salt -> zlen wp <= 64 -> 0 < zlen p <= 64 ->
  is_cstring p -> 65 <= zlen junk ->
  exists fs' buf,
    ecryptfs_wrap_passphrase fs f wp salt p = Ok (0, fs') /\
    (forall g, g <> f -> fs' !! g = fs !! g) /\
    ecryptfs_unwrap_passphrase fs' junk f wp salt = Ok (0, buf) /\ cstr_of buf = Ok p.
Proof.
  intros Hn Hsys Hs Hwp Hp Hc Hj. eexists _, _.
  split; [by apply wrap_passphrase_ok|]. split; [intros g Hg; by rewrite lookup_insert_ne|].
  split; [apply unwrap_wrapped; try done; apply lookup_insert_eq|].
  apply cstr_of_padded; [done|lia].
Qed.

Lemma calm_sys_works : @sys_works calm_sys.
Proof. done. Qed.

Lemma wrap_unwrap_roundtrip_witness :
  exists fs' buf,
    @ecryptfs_wrap_passphrase toy_nss calm_sys ∅ (lit "w") (lit "login") (zeros 8) (lit "secret") = Ok (0, fs') /\
    (forall g, g <> lit "w" -> fs' !! g = (∅ : gmap (list Z) (list Z)) !! g) /\
    @ecryptfs_unwrap_passphrase toy_nss calm_sys fs' (zeros 65) (lit "w") (lit "login") (zeros 8) = Ok (0, buf) /\
    cstr_of buf = Ok (lit "secret").
Proof.
  apply (@wrap_unwrap_roundtrip toy_nss toy_nss_laws calm_sys).
  - apply toy_nss_works.
  - apply calm_sys_works.
  - vm_compute; congruence.
  - vm_compute; congruence.
  - split; vm_compute; congruence.
  - repeat constructor.
  - vm_compute; congruence.
Defined.

(** A wrapping passphrase whose signature differs from the one in the file
    is refused with -EIO, and the caller's buffer is left untouched. *)
Theorem unwrap_wrong_passphrase `{Nss, !NssLaws, Sys} fs f wp wp' salt p junk :
  nss_works -> sys_works -> 8 <= zlen salt -> zlen wp' <= 64 -> 0 < zlen p <= 64 ->
  65 <= zlen junk -> fs !! f = Some (wrapped_content salt wp p) ->
  passphrase_sig_hex salt wp' <> passphrase_sig_hex salt wp ->
  ecryptfs_unwrap_passphrase fs junk f wp' salt = Ok (- EIO, junk).
Proof.
  intros Hn Hsys Hs Hwp Hp Hj Hf Hne.
  destruct (length_wrapped_content salt wp p Hn Hp) as (c & Ec & Ewc & Hl & Hsig & Hc & Hmod).
  rewrite Ewc in Hf. rewrite (unwrap_derived _ _ _ _ _ _ _ Hn Hsys Hs Hwp Hf Hsig Hc Hmod Hj).
  by rewrite bool_decide_eq_false_2 by congruence.
Qed.

(** A digest that tells passphrases apart by their first character. *)
Definition eighth_nss : Nss := {|
  hash_buf := fun _ m =>
    let b := nth 8 m 0 mod 256 in Some (b :: zeros 7 ++ b :: zeros 55);
  import_sym_key := fun _ => true;
  cipher_op := fun _ _ d => Some d;
  digest_final := fun _ _ _ => Some []
|}.

#[export] Instance eighth_nss_laws : @NssLaws eighth_nss.
Proof.
  split; cbn -[nth]; intros; simplify_eq; try done. split; [done|].
  repeat constructor; try lia; unfold is_byte; apply Z.mod_pos_bound; lia.
Qed.

Lemma eighth_nss_works : @nss_works eighth_nss.
Proof. split; [intros m; cbn; eauto|]. cbn. eauto. Qed.

Lemma eighth_sigs_differ :
  @passphrase_sig_hex eighth_nss (zeros 8) (lit "guess") <>
  @passphrase_sig_hex eighth_nss (zeros 8) (lit "login").
Proof.
  assert (bool_decide (@passphrase_sig_hex eighth_nss (zeros 8) (lit "guess") =
    @passphrase_sig_hex eighth_nss (zeros 8) (lit "login")) = false) as E by (vm_compute; reflexivity).
  by apply bool_decide_eq_false_1 in E.
Qed.

Lemma unwrap_wrong_passphrase_witness :
  @ecryptfs_unwrap_passphrase eighth_nss calm_sys
    (<[lit "w" := @wrapped_content eighth_nss (zeros 8) (lit "login") (lit "secret")]> ∅)
    (zeros 65) (lit "w") (lit "guess") (zeros 8) = Ok (- EIO, zeros 65).
Proof.
  eapply (@unwrap_wrong_passphrase eighth_nss eighth_nss_laws calm_sys).
  - apply eighth_nss_works.
  - apply calm_sys_works.
  - vm_compute; congruence.
  - vm_compute; congruence.
  - instantiate (1 := lit "secret"). split; vm_compute; congruence.
  - vm_compute; congruence.
  - apply lookup_insert_eq.
  - apply eighth_sigs_differ.
Defined.

(** Wrapping the empty passphrase destroys the file it was to replace: the
    old file is removed, only the signature is written, the call reports -EIO,
    and nothing can be unwrapped from what is left. *)
Theorem wrap_empty_destroys `{Nss, !NssLaws, Sys} fs f wp salt junk :
  nss_works -> sys_works -> 8 <= zlen salt -> zlen wp <= 64 ->
  exists fs', ecryptfs_wrap_passphrase fs f wp salt [] = Ok (- EIO, fs') /\
    fs' !! f = Some (passphrase_sig_hex salt wp) /\
    ecryptfs_unwrap_passphrase fs' junk f wp salt = Ok (- EIO, junk).
Proof.
  intros Hn (Hop & Hcr & Hw & _) Hs Hwp. pose proof Hn as (Hd & Himp & _).
  exists (<[f := passphrase_sig_hex salt wp]> fs).
  destruct (derive_ok salt wp Hd Hs Hwp) as [tail E].
  assert (zlen (passphrase_sig_hex salt wp) = 16) as Hsig
    by (unfold zlen; by rewrite length_passphrase_sig_hex).
  split; [|split; [apply lookup_insert_eq|]].
  - unfold ecryptfs_wrap_passphrase. change ECRYPTFS_MAX_PASSPHRASE_BYTES with 64.
    change ECRYPTFS_AES_BLOCK_SIZE with 16. change (zlen (@nil Z)) with 0.
    change (64 <? 0) with false. cbn match. rewrite E, bind_Ok. cbn [Z.eqb negb].
    change (pad_to_block 0) with 0.
    destruct (pad_buffer [] ltac:(vm_compute; congruence)) as (b & Eb & Erd).
    rewrite Eb, bind_Ok.
    rewrite read_wrap_key, bind_Ok, Himp by done. cbn [negb].
    change (pad_to_block (zlen [])) with 0 in Erd. rewrite Erd, bind_Ok.
    change (padded []) with (@nil Z).
    destruct (run_cipher_ok CKA_ENCRYPT (wrap_key salt wp) [] (zeros (64 + 16 + 1)) Hn
      eq_refl ltac:(vm_compute; congruence)) as (c & _ & Hc & Erun).
    rewrite Erun, bind_Ok. cbn [negb]. change (zlen (@nil Z)) with 0 in *. cbn [Z.sub Z.opp Z.add Z.eqb negb].
    rewrite Hcr. cbn [negb]. rewrite read_sig, bind_Ok by done.
    unfold write_file at 1. rewrite Hw, Hsig. change (16 <=? 0) with false. cbn match.
    assert (c = []) as -> by (apply nil_length_inv; unfold zlen in Hc; lia).
    rewrite rd_ok by (vm_compute; congruence). rewrite bind_Ok.
    unfold write_file. rewrite Hw. change (Z.to_nat 0) with 0%nat. rewrite take_0.
    change (zlen (@nil Z)) with 0. change (0 <=? 0) with true. cbn match.
    rewrite !lookup_insert_eq. cbn [default from_option id app].
    rewrite !insert_insert_eq, insert_delete_eq, take_0, app_nil_r.
    by rewrite take_ge by (unfold zlen in Hsig; lia).
  - unfold ecryptfs_unwrap_passphrase. rewrite E, bind_Ok. cbn [Z.eqb negb].
    rewrite Hop. cbn [negb]. rewrite lookup_insert_eq.
    change (Z.to_nat ECRYPTFS_SIG_SIZE_HEX) with 16%nat.
    rewrite take_ge by (unfold zlen in Hsig; lia). rewrite Hsig. change (16 <=? 0) with false. cbn match.
    rewrite wr_ok by (rewrite ?Hsig; vm_compute; congruence). rewrite bind_Ok.
    rewrite drop_all, take_nil. done.
Qed.

Lemma wrap_empty_destroys_witness :
  exists fs', @ecryptfs_wrap_passphrase toy_nss calm_sys (<[lit "w" := lit "precious"]> ∅) (lit "w")
      (lit "login") (zeros 8) [] = Ok (- EIO, fs') /\
    fs' !! lit "w" = Some (@passphrase_sig_hex toy_nss (zeros 8) (lit "login")) /\
    @ecryptfs_unwrap_passphrase toy_nss calm_sys fs' (zeros 65) (lit "w") (lit "login") (zeros 8) =
    Ok (- EIO, zeros 65).
Proof.
  apply (@wrap_empty_destroys toy_nss toy_nss_laws calm_sys).
  - apply toy_nss_works.
  - apply calm_sys_works.
  - vm_compute; congruence.
  - vm_compute; congruence.
Defined.

(** Wrapping a passphrase file keeps the newline that ends its line: when
    the file holds a line of text, the file written unwraps to the passphrase
    with the newline attached, and the source is removed. *)
Theorem wrap_file_keeps_newline `{Nss, !NssLaws, Sys} fs dest src wp salt p junk :
  nss_works -> sys_works -> 8 <= zlen salt -> zlen wp <= 64 -> zlen p < 64 ->
  is_cstring p -> 65 <= zlen junk -> dest <> src -> fs !! src = Some (p ++ [10]) ->
  exists fs' buf,
    ecryptfs_wrap_passphrase_file fs dest wp salt src = Ok (0, fs') /\ fs' !! src = None /\
    ecryptfs_unwrap_passphrase fs' junk dest wp salt = Ok (0, buf) /\
    cstr_of buf = Ok (p ++ [10]).
Proof.
  intros Hn Hsys Hs Hwp Hp Hc Hj Hne Hf. pose proof Hsys as (Hop & _).
  assert (0 < zlen (p ++ [10]) <= 64) as Hlen
    by (rewrite zlen_app; change (zlen [10]) with 1; pose proof (zlen_nonneg p); lia).
  assert (is_cstring (p ++ [10])) as Hc'
    by (apply Forall_app; split; [done|]; repeat constructor).
  eexists (delete src (<[dest := wrapped_content salt wp (p ++ [10])]> fs)), _.
  split; [|split; [apply lookup_delete_eq|split]].
  - unfold ecryptfs_wrap_passphrase_file. rewrite Hop, Hf. cbn [negb].
    change ECRYPTFS_MAX_PASSPHRASE_BYTES with 64.
    rewrite take_ge by (unfold zlen in Hlen; lia).
    replace (64 + 1) with (zlen (p ++ [10]) + (65 - zlen (p ++ [10]))) by lia.
    rewrite zeros_split by lia.
    pose proof (wr_app3 [] (zeros (zlen (p ++ [10]))) (zeros (65 - zlen (p ++ [10]))) 0 (p ++ [10])
      eq_refl ltac:(by rewrite zlen_zeros by lia)) as Ew. cbn [app] in Ew. rewrite Ew, bind_Ok.
    pose proof (cstr_of_padded (p ++ [10]) [] (65 - zlen (p ++ [10])) Hc' ltac:(lia)) as Es.
    rewrite app_nil_r in Es. rewrite Es, bind_Ok.
    replace (zlen (p ++ [10]) <=? 0) with false by lia.
    by rewrite wrap_passphrase_ok, bind_Ok.
  - apply unwrap_wrapped; try done. rewrite lookup_delete_ne by congruence. apply lookup_insert_eq.
  - apply cstr_of_padded; [done|lia].
Qed.

Lemma wrap_file_keeps_newline_witness :
  exists fs' buf,
    @ecryptfs_wrap_passphrase_file toy_nss calm_sys (<[lit "src" := lit "secret" ++ [10]]> ∅)
      (lit "dest") (lit "login") (zeros 8) (lit "src") = Ok (0, fs') /\ fs' !! lit "src" = None /\
    @ecryptfs_unwrap_passphrase toy_nss calm_sys fs' (zeros 65) (lit "dest") (lit "login") (zeros 8) =
      Ok (0, buf) /\
    cstr_of buf = Ok (lit "secret" ++ [10]).
Proof.
  apply (@wrap_file_keeps_newline toy_nss toy_nss_laws calm_sys).
  - apply toy_nss_works.
  - apply calm_sys_works.
  - vm_compute; congruence.
  - vm_compute; congruence.
  - vm_compute; reflexivity.
  - repeat constructor.
  - vm_compute; congruence.
  - discriminate.
  - apply lookup_insert_eq.
Defined.

Lemma insert_wrapped_ok `{Heap, Nss, !NssLaws, Sys}
    fs kr f wp salt p sig0 junk :
  heap_never_fails -> nss_works -> sys_works -> 8 <= zlen salt -> zlen wp <= 64 ->
  0 < zlen p <= 64 -> is_cstring p -> 65 <= zlen junk -> 17 <= zlen sig0 ->
  fs !! f = Some (wrapped_content salt wp p) ->
  let kr1 := (ensure_token kr (lit "9988776655443322" ++ [0]) p).2 in
  exists sig, ecryptfs_insert_wrapped_passphrase_into_keyring fs kr sig0 f wp salt junk =
    Ok ((ensure_token kr1 salt p).1, sig, (ensure_token kr1 salt p).2) /\
    cstr_of sig = Ok (passphrase_sig_hex salt p).
Proof.
  intros Hh Hn Hsys Hs Hwp Hp Hc Hj Hsig Hf kr1. pose proof Hn as (Hd & _).
  eexists. unfold ecryptfs_insert_wrapped_passphrase_into_keyring. split.
  - rewrite (unwrap_wrapped fs junk f wp salt p) by done. rewrite bind_Ok. cbn [Z.eqb negb].
    rewrite cstr_of_padded, bind_Ok by (done || lia).
    rewrite add_passphrase_key_ok by (done || lia || (vm_compute; congruence)). rewrite bind_Ok.
    assert (((ensure_token kr (ECRYPTFS_DEFAULT_SALT_FNEK_HEX ++ [0]) p).1 <? 0) = false) as ->
      by (unfold ensure_token; by case_match).
    apply add_passphrase_key_ok; try done; [|lia].
    rewrite !zlen_app, zlen_drop. unfold zlen at 1. rewrite length_passphrase_sig_hex by done.
    change (zlen [0]) with 1. lia.
  - apply cstr_of_app, is_char_nonzero. by apply passphrase_sig_hex_cstring.
Qed.

(** Logging in with the wrapped passphrase leaves both keys in the keyring:
    the token of the passphrase with the salt made of the first eight
    characters "99887766" of the file name salt, and the token with the given
    salt, each added unless its signature is there already, every other key
    untouched; the code is 0 or 1 and the signature returned is that of the
    second token. *)
Theorem insert_wrapped_passphrase_correct `{Heap, Nss, !NssLaws, Sys}
    fs kr f wp salt p sig0 junk :
  heap_never_fails -> nss_works -> sys_works -> 8 <= zlen salt -> zlen wp <= 64 ->
  0 < zlen p <= 64 -> is_cstring p -> 65 <= zlen junk -> 17 <= zlen sig0 ->
  fs !! f = Some (wrapped_content salt wp p) ->
  let kr1 := (ensure_token kr (lit "9988776655443322" ++ [0]) p).2 in
  exists sig, ecryptfs_insert_wrapped_passphrase_into_keyring fs kr sig0 f wp salt junk =
    Ok ((ensure_token kr1 salt p).1, sig, (ensure_token kr1 salt p).2) /\
    cstr_of sig = Ok (passphrase_sig_hex salt p).
Proof. apply insert_wrapped_ok. Qed.

Lemma insert_wrapped_passphrase_correct_witness :
  let kr1 := (@ensure_token toy_nss ∅ (lit "9988776655443322" ++ [0]) (lit "secret")).2 in
  exists sig, @ecryptfs_insert_wrapped_passphrase_into_keyring plenty toy_nss calm_sys
    (<[lit "w" := @wrapped_content toy_nss (zeros 8) (lit "login") (lit "secret")]> ∅) ∅ (zeros 17)
    (lit "w") (lit "login") (zeros 8) (zeros 65) =
    Ok ((@ensure_token toy_nss kr1 (zeros 8) (lit "secret")).1, sig,
        (@ensure_token toy_nss kr1 (zeros 8) (lit "secret")).2) /\
    cstr_of sig = Ok (@passphrase_sig_hex toy_nss (zeros 8) (lit "secret")).
Proof.
  apply (@insert_wrapped_passphrase_correct plenty toy_nss toy_nss_laws calm_sys).
  - intros line k. reflexivity.
  - apply toy_nss_works.
  - apply calm_sys_works.
  - vm_compute; congruence.
  - vm_compute; congruence.
  - split; vm_compute; congruence.
  - repeat constructor.
  - vm_compute; congruence.
  - vm_compute; congruence.
  - apply lookup_insert_eq.
Defined.

Lemma check_sig_ok `{Sys} fs f sig l flags :
  sys_works -> 16 <= zlen sig -> Forall (fun s => length s = 16%nat) l ->
  fs !! f = Some (sig_cache l) ->
  ecryptfs_check_sig fs sig f flags =
    Ok (0, Z.lor (Z.land flags (Z.lnot ECRYPTFS_SIG_FLAG_NOENT))
             (if bool_decide (take 16 sig ∈ l) then 0 else ECRYPTFS_SIG_FLAG_NOENT)).
Proof.
  intros (Hop & _) Hsig Hl Hf. unfold ecryptfs_check_sig. rewrite Hop, Hf. cbn [negb].
  rewrite (check_sig_loop_spec _ sig l), bind_Ok; [|lia|done|].
  2:{ clear -Hl. induction Hl as [|s l _ _ IH]; [done|].
      change (sig_cache (s :: l)) with ((s ++ [10]) ++ sig_cache l).
      rewrite !length_app. cbn [length]. lia. }
  destruct (bool_decide (take 16 sig ∈ l)); [by rewrite Z.lor_0_r | done].
Qed.

Lemma append_sig_ok `{Sys} fs f sig l :
  sys_works -> 16 <= zlen sig -> fs !! f = Some (sig_cache l) ->
  ecryptfs_append_sig fs sig f = Ok (0, <[f := sig_cache (l ++ [take 16 sig])]> fs).
Proof.
  intros (_ & Hcr & Hw & _) Hsig Hf. unfold ecryptfs_append_sig. rewrite Hcr. cbn [negb].
  change ECRYPTFS_SIG_SIZE_HEX with 16.
  rewrite rd_ok, bind_Ok by lia. change (Z.to_nat 0) with 0%nat. rewrite drop_0.
  change (Z.to_nat 16) with 16%nat. rewrite Hf. unfold write_file. rewrite Hw.
  assert (zlen (take 16 sig ++ [10]) = 17) as Hlen
    by (rewrite zlen_app, zlen_take; change (zlen [10]) with 1; lia).
  rewrite Hlen. change (negb (17 =? 16 + 1)) with false. cbn match.
  rewrite lookup_insert_eq, insert_insert_eq. cbn [default from_option id].
  rewrite take_ge by (unfold zlen in Hlen; lia).
  unfold sig_cache. rewrite fmap_app, join_app. cbn [fmap list_fmap mjoin list_join]. by rewrite app_nil_r.
Qed.

(** The cache of signatures is a list: checking a signature clears the
    no-entry flag exactly when the signature is in the list, and appending one
    adds it at the end. *)
Theorem sig_cache_correct `{Sys} fs f sig l flags :
  sys_works -> zlen sig = 16 -> Forall (fun s => length s = 16%nat) l ->
  fs !! f = Some (sig_cache l) ->
  ecryptfs_check_sig fs sig f flags =
    Ok (0, Z.lor (Z.land flags (Z.lnot ECRYPTFS_SIG_FLAG_NOENT))
             (if bool_decide (sig ∈ l) then 0 else ECRYPTFS_SIG_FLAG_NOENT)) /\
  ecryptfs_append_sig fs sig f = Ok (0, <[f := sig_cache (l ++ [sig])]> fs).
Proof.
  intros Hs Hsig Hl Hf. assert (take 16 sig = sig) as Ht by (apply take_ge; unfold zlen in Hsig; lia).
  split; [rewrite (check_sig_ok fs f sig l) by (done || lia)|rewrite (append_sig_ok fs f sig l) by (done || lia)];
    by rewrite Ht.
Qed.

Lemma sig_cache_correct_witness :
  let l := [lit "0123456789abcdef"; lit "00112233445566ff"] in
  @ecryptfs_check_sig calm_sys (<[lit "c" := sig_cache l]> ∅) (lit "00112233445566ff") (lit "c") 1 =
    Ok (0, 0) /\
  @ecryptfs_append_sig calm_sys (<[lit "c" := sig_cache l]> ∅) (lit "00112233445566ff") (lit "c") =
    Ok (0, <[lit "c" := sig_cache (l ++ [lit "00112233445566ff"])]> (<[lit "c" := sig_cache l]> ∅)).
Proof.
  apply (@sig_cache_correct calm_sys (<[lit "c" := sig_cache [lit "0123456789abcdef"; lit "00112233445566ff"]]> ∅)
    (lit "c") (lit "00112233445566ff") [lit "0123456789abcdef"; lit "00112233445566ff"] 1).
  - apply calm_sys_works.
  - reflexivity.
  - repeat constructor.
  - apply lookup_insert_eq.
Defined.
