(* ===== verification/Keyring.v ===== *)
(** * What the keyring holds: [src/libecryptfs/key_management.c]

    Every function of the library that changes the keyring, as one relation between
    the keyring before and after; and the type of the tokens in it, which they
    all keep, whatever the system, the allocator and the key modules do. *)

From S2P Require Import Prelude CLib Ecryptfs PassphraseSig KeyMod KeyPayload KeyManagement.

Section Keyring.
Context `{Heap, Nss, Sys} (big_endian : bool).

(** ** The calls *)
Inductive keyring_call (kr kr' : keyring) : Prop :=
  | CallAddPassphrase k sig0 passphrase salt rc sig :
      ecryptfs_add_passphrase_key_to_keyring k kr sig0 passphrase salt = Ok (rc, sig, kr') ->
      keyring_call kr kr'
  | CallAddBlob salt passphrase blob buffer sig rc :
      ecryptfs_passphrase_blob salt passphrase = Ok (Some blob) ->
      (ecryptfs_passphrase_sig_from_blob blob).2 = Some buffer -> cstr_of buffer = Ok sig ->
      ecryptfs_add_blob_to_keyring kr blob sig = (rc, kr') ->
      keyring_call kr kr'
  | CallInsertWrapped fs sig0 filename wrapping_passphrase salt junk rc sig :
      ecryptfs_insert_wrapped_passphrase_into_keyring fs kr sig0 filename wrapping_passphrase salt junk =
        Ok (rc, sig, kr') ->
      keyring_call kr kr'
  | CallAddKeyModuleKey sig0 key_mod rc sig :
      ecryptfs_add_key_module_key_to_keyring big_endian kr sig0 key_mod = Ok (Some (rc, sig, kr')) ->
      keyring_call kr kr'
  | CallRemove sig rc :
      ecryptfs_remove_auth_tok_from_keyring kr sig = (rc, kr') ->
      keyring_call kr kr'.

(** ** The type of a token filed under [sig] *)

(** The signature of a passphrase is made of the key next to it. *)
Definition password_typed (sig : cstring) (p : ecryptfs_password) : Prop :=
  length (pw_session_key_encryption_key p) = Z.to_nat (pw_session_key_encryption_key_bytes p) /\
  (exists d, hash_buf SEC_OID_SHA512 (pw_session_key_encryption_key p) = Some d /\ sig = hex_of (take 8 d)) /\
  pw_signature p = sig ++ [0] /\
  length (pw_salt p) = 8%nat /\
  pw_flags p = ECRYPTFS_SESSION_KEY_ENCRYPTION_KEY_SET.

(** The signature of a key of a module is kept as far as there is room, and the
    blob has the length that is noted. *)
Definition private_key_typed (sig : cstring) (k : ecryptfs_private_key) : Prop :=
  cstr_of (pk_signature k) = Ok (take 16 sig) /\
  length (pk_key_mod_alias k) = 17%nat /\
  zlen (pk_data k) = Z.max 0 (data_room + pk_data_len k).

Definition token_typed (sig : cstring) (tok : ecryptfs_auth_tok) : Prop :=
  at_version tok = version_word ECRYPTFS_VERSION_MAJOR ECRYPTFS_VERSION_MINOR /\
  match at_token tok with
  | TokPassword p => at_token_type tok = ECRYPTFS_PASSWORD /\ password_typed sig p
  | TokPrivateKey k => at_token_type tok = ECRYPTFS_PRIVATE_KEY /\ private_key_typed sig k
  end.
Definition keyring_typed (kr : keyring) : Prop := map_Forall token_typed kr.

(** ** Tokens of passphrases *)
Context `{!NssLaws}.

Lemma do_hash_inv src dst d : do_hash src dst SEC_OID_SHA512 = (0, d) -> hash_buf SEC_OID_SHA512 src = Some d.
Proof. unfold do_hash. by destruct (hash_buf _ src); intros [= ->]. Qed.

Lemma to_hex_inv dst src n r : to_hex dst src n = Ok r -> exists r', r = hex_of (take (Z.to_nat n) src) ++ 0 :: r'.
Proof.
  unfold to_hex. intros (s & (_ & _ & _ & ->)%rd_ok_inv & (_ & _ & ->)%wr_ok_inv)%bind_ok_inv.
  change (Z.to_nat 0) with 0%nat. rewrite drop_0. cbn [take app]. rewrite <- app_assoc. by eexists.
Qed.

(** A derivation that succeeds, into a buffer of the size of a key. *)
Lemma generate_passphrase_sig_inv sig0 fekek0 salt p sig fekek :
  zlen fekek0 = 64 -> generate_passphrase_sig sig0 fekek0 salt p = Ok (0, sig, fekek) ->
  length fekek = 64%nat /\
  exists d r, hash_buf SEC_OID_SHA512 fekek = Some d /\ sig = hex_of (take 8 d) ++ 0 :: r.
Proof.
  intros Hf E. unfold generate_passphrase_sig, mret, outcome_ret in E. destruct (_ <? _); [done|].
  do 4 (apply bind_ok_inv in E as (? & _ & E)).
  destruct (do_hash _ _ _) as [rc1 b1] eqn:E1. destruct (Z.eqb_spec rc1 0) as [->|]; cbn [negb] in E; [|congruence].
  apply do_hash_inv, hash_buf_length in E1 as [Hb1 _].
  destruct (hash_loop _ b1) as [rc2 b2] eqn:E2. destruct (Z.eqb_spec rc2 0) as [->|]; cbn [negb] in E; [|congruence].
  apply hash_loop_length in E2; [|done].
  apply bind_ok_inv in E as (key & (_ & _ & _ & ->)%rd_ok_inv & E).
  change (Z.to_nat 0) with 0%nat in E. rewrite drop_0, take_ge in E by (rewrite E2; unfold ECRYPTFS_MAX_KEY_BYTES; lia).
  apply bind_ok_inv in E as (f' & (_ & _ & ->)%wr_ok_inv & E).
  change (Z.to_nat 0) with 0%nat in E. cbn [take app] in E. rewrite Nat.add_0_l in E.
  rewrite drop_ge, app_nil_r in E by (unfold zlen in Hf; lia).
  destruct (do_hash b2 b2 _) as [rc3 b3] eqn:E3. destruct (Z.eqb_spec rc3 0) as [->|]; cbn [negb] in E; [|congruence].
  apply do_hash_inv in E3. apply bind_ok_inv in E as (s' & (r & ->)%to_hex_inv & [= <- <-]).
  split; [done|]. by exists b3, r.
Qed.

Lemma hex_sig_length d : length d = 64%nat -> length (hex_of (take 8 d)) = 16%nat.
Proof. intros Hd. rewrite length_hex_of, length_take. lia. Qed.

Lemma passphrase_auth_tok_typed k sig0 fekek salt p sig fekek' tok :
  zlen fekek = 64 ->
  ecryptfs_generate_passphrase_auth_tok k sig0 fekek salt p = Ok (0, sig, fekek', Some tok) ->
  exists s pw, cstr_of sig = Ok s /\ at_token tok = TokPassword pw /\ cstr_of (pw_signature pw) = Ok s /\ token_typed s tok.
Proof.
  intros Hf E. unfold ecryptfs_generate_passphrase_auth_tok in E.
  apply bind_ok_inv in E as ([[rc s] f] & E1 & E).
  destruct (Z.eqb_spec rc 0) as [->|Hrc]; cbn [negb] in E.
  2:{ injection E as E _ _ _. unfold negative in E. destruct (Z.ltb_spec rc 0); lia. }
  apply generate_passphrase_sig_inv in E1 as (Hfl & d & r & Hd & ->); [|done].
  pose proof (hash_buf_length _ _ _ Hd) as [Hdl Hdb].
  assert (Forall (fun c => c <> 0) (hex_of (take 8 d))) as Hnz.
  { apply is_char_nonzero, hex_of_cstring. by apply Forall_take. }
  destruct (negb (alloc_ok 70 k)); [done|].
  apply bind_ok_inv in E as ([rc auth] & E2 & E).
  unfold generate_payload in E2. cbn [ecryptfs_get_versions fmap option_fmap option_map] in E2.
  rewrite cstr_of_app, bind_Ok in E2 by done.
  apply bind_ok_inv in E2 as (salt' & (_ & _ & Hsl & ->)%rd_ok_inv & E2).
  apply bind_ok_inv in E2 as (key & (_ & _ & _ & ->)%rd_ok_inv & [= <- <-]).
  cbn [Z.eqb negb mret outcome_ret] in E. injection E as <- _ <-.
  eexists _, _. split; [by apply cstr_of_app|]. split; [done|].
  change (Z.to_nat 0) with 0%nat. cbn [drop pw_signature].
  change (Z.to_nat ECRYPTFS_PASSWORD_SIG_SIZE) with 16%nat. change (Z.to_nat ECRYPTFS_SALT_SIZE) with 8%nat.
  change (Z.to_nat ECRYPTFS_MAX_KEY_BYTES) with 64%nat.
  assert (strncpy (hex_of (take 8 d)) 16 = hex_of (take 8 d)) as Hs.
  { unfold strncpy. rewrite take_ge by (by rewrite hex_sig_length).
    rewrite hex_sig_length by done. cbn [Nat.sub replicate]. by rewrite app_nil_r. }
  rewrite Hs. split; [by apply cstr_of_app|].
  rewrite (take_ge f) by lia. split; [done|]. split; [done|].
  unfold password_typed.
  cbn [pw_session_key_encryption_key pw_session_key_encryption_key_bytes pw_signature pw_salt pw_flags]. split; [done|]. split; [by exists d|]. split; [done|]. split; [|done].
  rewrite drop_0, length_take. unfold zlen, ECRYPTFS_SALT_SIZE in Hsl. lia.
Qed.

(** ** The calls keep the type *)
Lemma add_auth_tok_typed kr tok sig rc kr' :
  ecryptfs_add_auth_tok_to_keyring kr tok sig = (rc, kr') ->
  token_typed sig tok -> keyring_typed kr -> keyring_typed kr'.
Proof.
  unfold ecryptfs_add_auth_tok_to_keyring. intros E Ht Hk.
  destruct (kr !! sig); [by injection E as _ <-|].
  destruct (negb _); [by injection E as _ <-|].
  destruct (add_key_errno sig); injection E as _ <-; [done|]. by apply map_Forall_insert_2.
Qed.

Lemma add_passphrase_typed k kr sig0 p salt rc sig kr' :
  ecryptfs_add_passphrase_key_to_keyring k kr sig0 p salt = Ok (rc, sig, kr') ->
  keyring_typed kr -> keyring_typed kr'.
Proof.
  intros E Hk. unfold ecryptfs_add_passphrase_key_to_keyring in E.
  apply bind_ok_inv in E as ([[[rc1 s] f] [tok|]] & E1 & E);
    destruct (Z.eqb_spec rc1 0) as [->|]; cbn [negb] in E; try (by injection E as _ _ <-); [|done].
  apply passphrase_auth_tok_typed in E1 as (t & pw & Hs & _ & _ & Ht); [|done].
  rewrite Hs, bind_Ok in E. destruct (ecryptfs_add_auth_tok_to_keyring kr tok t) as [rc2 kr2] eqn:E2.
  injection E as _ _ <-. by eapply add_auth_tok_typed.
Qed.

Lemma add_blob_typed kr salt p blob buffer sig rc kr' :
  ecryptfs_passphrase_blob salt p = Ok (Some blob) ->
  (ecryptfs_passphrase_sig_from_blob blob).2 = Some buffer -> cstr_of buffer = Ok sig ->
  ecryptfs_add_blob_to_keyring kr blob sig = (rc, kr') ->
  keyring_typed kr -> keyring_typed kr'.
Proof.
  unfold ecryptfs_passphrase_blob, ecryptfs_passphrase_sig_from_blob, ecryptfs_add_blob_to_keyring.
  intros ([[[rc1 s] f] tok] & E1 & E)%bind_ok_inv Hb Hs Ha.
  destruct (Z.eqb_spec rc1 0) as [->|]; cbn [negb] in E; [|done]. injection E as ->.
  apply passphrase_auth_tok_typed in E1 as (t & pw & _ & Hpw & Ht & Htt); [|done].
  rewrite Hpw in Hb. injection Hb as <-. rewrite Ht in Hs. injection Hs as ->. by eapply add_auth_tok_typed.
Qed.

(** What [strncpy] keeps of the text of a buffer. *)
Lemma cstr_of_take_16 b t : 16 <= zlen b -> cstr_of b = Ok t -> cstr_of (take 16 b ++ [0]) = Ok (take 16 t).
Proof.
  intros Hl E. pose proof (cstr_of_nonzero _ _ E) as Hnz. apply cstr_of_inv in E as [r ->].
  destruct (decide (length t < 16)%nat) as [Hlt|Hge].
  - rewrite (take_ge t) by lia. rewrite take_app_ge by lia.
    destruct (16 - length t)%nat eqn:E; [lia|]. cbn [take]. rewrite <- app_assoc. cbn [app]. by apply cstr_of_app.
  - rewrite take_app_le by lia. apply cstr_of_app. by apply Forall_take.
Qed.

Lemma key_payload_typed k key_mod sig0 blob_size sig tok s :
  ecryptfs_generate_key_payload big_endian k key_mod sig0 blob_size = Ok (PayloadReturn 0 sig tok) ->
  cstr_of sig = Ok s -> token_typed s tok.
Proof.
  intros E Hs. unfold ecryptfs_generate_key_payload, mret, outcome_ret in E.
  apply bind_ok_inv in E as ([[rc1 size] data] & E1 & E).
  assert (zlen data = Z.max 0 (data_room + blob_size)) as Hdata.
  { assert (zlen (zeros (data_room + blob_size)) = Z.max 0 (data_room + blob_size)) as <-.
    { unfold zeros. rewrite zlen_replicate. lia. }
    destruct (km_blob key_mod).
    - apply bind_ok_inv in E1 as (? & _ & E1). apply bind_ok_inv in E1 as (? & Hw%zlen_wr & [= _ _ <-]). done.
    - apply bind_ok_inv in E1 as (g & _ & E1). destruct (g true _) as [[??]?].
      apply bind_ok_inv in E1 as (? & Hw%zlen_wr & [= _ _ <-]). done. }
  destruct (Z.eqb_spec rc1 0); cbn [negb] in E; [|congruence].
  destruct (negb (blob_size =? size)); [done|].
  apply bind_ok_inv in E as ([rc2 s2] & _ & E).
  destruct (Z.eqb_spec rc2 0); cbn [negb] in E; [|congruence].
  destruct (km_alias key_mod) as [alias|]; [|done].
  apply bind_ok_inv in E as (s16 & (_ & _ & H16 & ->)%rd_ok_inv & E). injection E as <- <-.
  split; [done|]. split; [done|]. cbn [pk_signature pk_key_mod_alias pk_data pk_data_len private_key_token at_token].
  split; [|split; [|done]].
  - change (Z.to_nat 0) with 0%nat. rewrite drop_0. by apply cstr_of_take_16.
  - change (length (strncpy alias 16 ++ [0]) = 17%nat). rewrite length_app. unfold strncpy. rewrite length_app, length_replicate.
    rewrite length_take. cbn [length]. lia.
Qed.

Lemma add_key_module_key_typed kr sig0 key_mod rc sig kr' :
  ecryptfs_add_key_module_key_to_keyring big_endian kr sig0 key_mod = Ok (Some (rc, sig, kr')) ->
  keyring_typed kr -> keyring_typed kr'.
Proof.
  intros E Hk. unfold ecryptfs_add_key_module_key_to_keyring in E.
  apply bind_ok_inv in E as ([rc1 size] & _ & E).
  destruct (negb (rc1 =? 0)); [by injection E as _ _ <-|].
  destruct (negb (alloc_ok 636 0)); [by injection E as _ _ <-|].
  apply bind_ok_inv in E as ([st|rc2 s tok] & E2 & E); [done|].
  destruct (Z.eqb_spec rc2 0) as [->|]; cbn [negb] in E; [|by injection E as _ _ <-].
  apply bind_ok_inv in E as (t & Hs & E).
  destruct (kr !! t); [by injection E as _ _ <-|].
  destruct (add_key_errno t); injection E as _ _ <-; [done|].
  apply map_Forall_insert_2; [|done]. by eapply key_payload_typed.
Qed.

Lemma insert_wrapped_typed fs kr sig0 f wp salt junk rc sig kr' :
  ecryptfs_insert_wrapped_passphrase_into_keyring fs kr sig0 f wp salt junk = Ok (rc, sig, kr') ->
  keyring_typed kr -> keyring_typed kr'.
Proof.
  intros E Hk. unfold ecryptfs_insert_wrapped_passphrase_into_keyring in E.
  apply bind_ok_inv in E as ([rc1 d] & _ & E).
  destruct (negb (rc1 =? 0)); [by injection E as _ _ <-|].
  apply bind_ok_inv in E as (p & _ & E). apply bind_ok_inv in E as ([[rc2 s] kr1] & E1 & E).
  apply add_passphrase_typed in E1; [|done].
  destruct (rc2 <? 0); [by injection E as _ _ <-|]. by eapply add_passphrase_typed.
Qed.

Lemma remove_typed kr sig rc kr' :
  ecryptfs_remove_auth_tok_from_keyring kr sig = (rc, kr') -> keyring_typed kr -> keyring_typed kr'.
Proof.
  unfold ecryptfs_remove_auth_tok_from_keyring. intros E Hk.
  destruct (kr !! sig); [|by injection E as _ <-].
  destruct (keyctl_unlink_errno sig); injection E as _ <-; [done|]. by apply map_Forall_delete.
Qed.

Lemma keyring_call_typed kr kr' : keyring_call kr kr' -> keyring_typed kr -> keyring_typed kr'.
Proof.
  destruct 1; eauto using add_passphrase_typed, add_blob_typed, insert_wrapped_typed,
    add_key_module_key_typed, remove_typed.
Qed.
End Keyring.

(** ** Properties *)

(** C5. The keyring is well typed: whatever sequence of calls made it, and whatever
    failed on the way, a token is filed under its own signature.  The signature of a
    passphrase is the hexadecimal digest of the very key that the token carries, with
    the flag that the key is set; of the signature of a key of a module the token keeps the first 16
    characters, and its blob has the length that is noted. *)
Theorem keyring_well_typed `{Heap, Nss, !NssLaws, Sys} big_endian kr kr' sig tok :
  keyring_typed kr -> rtc (keyring_call big_endian) kr kr' -> kr' !! sig = Some tok -> token_typed sig tok.
Proof.
  intros Hk Hr. revert sig tok. change (keyring_typed kr'). induction Hr as [|kr kr1 kr2 Hc _ IH]; [done|].
  apply IH. by eapply keyring_call_typed.
Qed.

(** A key of a module; and a passphrase. *)
Lemma keyring_well_typed_witness :
  match @ecryptfs_add_key_module_key_to_keyring plenty calm_sys false ∅ (zeros 17) sample_key_mod with
  | Ok (Some (_, _, kr')) =>
      exists tok, kr' !! (lit "0123456789abcdef") = Some tok /\ @token_typed toy_nss (lit "0123456789abcdef") tok
  | _ => False
  end /\
  let sig := @passphrase_sig_hex toy_nss (zeros 8) (lit "secret") in
  @token_typed toy_nss sig (@passphrase_token toy_nss (zeros 8) (lit "secret")).
Proof.
  split.
  - eexists. split; [vm_compute; reflexivity|].
    eapply (@keyring_well_typed plenty toy_nss toy_nss_laws calm_sys false ∅); [apply map_Forall_empty|..].
    + apply rtc_once. exact (@CallAddKeyModuleKey plenty toy_nss calm_sys false ∅ _ (zeros 17) sample_key_mod _ _ eq_refl).
    + reflexivity.
  - intros sig.
    apply (@keyring_well_typed plenty toy_nss toy_nss_laws calm_sys false ∅
             (@ensure_token toy_nss ∅ (zeros 8) (lit "secret")).2); [apply map_Forall_empty| |].
    + apply rtc_once. eapply (@CallAddPassphrase plenty toy_nss calm_sys false ∅ _ 0 (zeros 17) (lit "secret") (zeros 8)).
      apply (@add_passphrase_key_ok plenty toy_nss toy_nss_laws calm_sys);
        [by intros|apply toy_nss_works|apply calm_sys_works|..]; vm_compute; congruence.
    + unfold ensure_token. rewrite lookup_empty. cbn [snd]. apply lookup_insert_eq.
Defined.
