(* ===== verification/CmdLnParser.v ===== *)
(** * Name-value lists: [src/libecryptfs/cmd_ln_parser.c]

    Mount options, the rc file and passphrase files are parsed into lists of
    names with optional values.  The members [children] of the list nodes are
    left out: nothing in the sources ever sets them. *)

From S2P Require Import Prelude CLib Ecryptfs PassphraseSig.

Definition MAX_TOK_LEN : Z := 128.
Definition MAX_FILE_SIZE : Z := 0xa000.

Record ecryptfs_name_val_pair := NVPair {
  nv_flags : Z;
  nv_name : option cstring;
  nv_value : option cstring
}.
Definition nv_zero : ecryptfs_name_val_pair := NVPair 0 None None.

(** The list under construction: the nodes up to [current], the node after
    [current] that was allocated but not entered, and the number of pairs
    processed. *)
Record nv_state := NVState {
  nv_done : list ecryptfs_name_val_pair;
  nv_next : option ecryptfs_name_val_pair;
  nv_count : nat
}.
Definition nv_list (st : nv_state) : list ecryptfs_name_val_pair :=
  nv_done st ++ option_list (nv_next st).
Definition nv_start : nv_state := NVState [] None 0.

Section Parser.
Context `{Heap}.

(** ** Tokens *)

(** The scan for ['=']: each occurrence allocates the name up to it; the
    result is the offset of the last one, or a failed allocation. *)
Fixpoint last_equals (k : nat) (i : nat) (s : bytes) (j : option nat) : option (option nat) :=
  match s with
  | [] => Some j
  | c :: s' =>
      if c =? 61 then
        if negb (alloc_ok 291 (k * 128 + i)) then None
        else last_equals k (S i) s' (Some i)
      else last_equals k (S i) s' j
  end.

(** From the label [process_nv_pair] on. *)
Definition process_nv_pair (st : nv_state) (prefix : option cstring) (tok : cstring)
    : outcome (Z * nv_state) :=
  let k := nv_count st in
  let st := NVState (nv_done st) (nv_next st) (S k) in
  let text := default [] prefix ++ tok in
  let sub_token :=
    take (Z.to_nat (MAX_TOK_LEN - 1)) text ++ zeros (MAX_TOK_LEN - Z.min (zlen text) (MAX_TOK_LEN - 1)) in
  let st_len := zlen text in
  scanned ← rd sub_token 0 st_len;
  match last_equals k 0 scanned None with
  | None => mret (- ENOMEM, st)
  | Some None =>
      if negb (alloc_ok 300 k) then mret (- ENOMEM, st)
      else if negb (alloc_ok 317 k) then mret (- ENOMEM, NVState (nv_done st) None (S k))
      else
        name ← cstr_of (scanned ++ [0]);
        if zlen name =? 0 then mret (0, NVState (nv_done st) (Some nv_zero) (S k))
        else mret (0, NVState (nv_done st ++ [NVPair 0 (Some name) None]) None (S k))
  | Some (Some j) =>
      name ← cstr_of (take j scanned ++ [0]);
      let j := Z.of_nat j in
      value ← (if 1 <? st_len - j then
                 if negb (alloc_ok 308 k) then mret None
                 else
                   v ← rd sub_token (j + 1) (st_len - j);
                   value ← cstr_of (v ++ [0]);
                   mret (Some (Some value))
               else mret (Some None));
      match value with
      | None => mret (- ENOMEM, st)
      | Some value =>
          if negb (alloc_ok 317 k) then mret (- ENOMEM, NVState (nv_done st) None (S k))
          else if zlen name =? 0 then mret (0, NVState (nv_done st) (Some nv_zero) (S k))
          else mret (0, NVState (nv_done st ++ [NVPair 0 (Some name) value]) None (S k))
      end
  end.

(** Does the token start a colon list? *)
Definition is_colon_list (tok : cstring) : bool :=
  (4 <? zlen tok) && prefixb (lit "key=") tok && existsb (fun c => c =? 58) (drop 4 tok).

(** The loop of the label [process_colon_list], over a function that processes
    one sub-token; a sub-token is never longer than the token. *)
Fixpoint colon_loop (sub : nv_state -> option cstring -> cstring -> outcome (Z * nv_state))
    (st : nv_state) (s sub_token : cstring) : outcome (Z * nv_state) :=
  match s with
  | [] => sub st (Some []) sub_token
  | c :: s' =>
      if c =? 58 then
        '(rc, st) ← sub st None sub_token;
        if negb (rc =? 0) then mret (rc, st) else colon_loop sub st s' []
      else colon_loop sub st s' (sub_token ++ [c])
  end.

(** Sub-tokens have no colon, so two levels are enough; [fuel] bounds the
    nesting. *)
Fixpoint process_comma_tok_fuel (fuel : nat) (st : nv_state) (prefix : option cstring)
    (tok : cstring) : outcome (Z * nv_state) :=
  match tok with
  | [] => mret (0, st)
  | c0 :: _ =>
      if MAX_TOK_LEN <? zlen tok then mret (- EINVAL, st)
      else if (c0 =? 61) || (c0 =? 58) then mret (- EINVAL, st)
      else if is_colon_list tok then
        match fuel with
        | O => process_nv_pair st prefix tok
        | S fuel' => colon_loop (process_comma_tok_fuel fuel') st tok []
        end
      else process_nv_pair st prefix tok
  end.
Definition process_comma_tok := process_comma_tok_fuel 2.

(** ** Lists *)

(** The loop of [generate_nv_list] and its final token. *)
Fixpoint nv_loop (st : nv_state) (buf tok_str : cstring) : outcome (Z * nv_state) :=
  match buf with
  | [] => process_comma_tok st None tok_str
  | c :: buf' =>
      if (c =? 44) || (c =? 10) then
        '(rc, st) ← process_comma_tok st None tok_str;
        if negb (rc =? 0) then mret (rc, st) else nv_loop st buf' []
      else
        let tok_str := tok_str ++ [c] in
        if zlen tok_str =? MAX_TOK_LEN then mret (0, st) else nv_loop st buf' tok_str
  end.

Definition generate_nv_list (buf : option cstring) : outcome (Z * list ecryptfs_name_val_pair) :=
  match buf with
  | None => mret (0, [])
  | Some buf => '(rc, st) ← nv_loop nv_start buf []; mret (rc, nv_list st)
  end.

Definition ecryptfs_parse_options (opts : option cstring)
    : outcome (Z * list ecryptfs_name_val_pair) := generate_nv_list opts.

(** ** Files *)
Inductive file_kind := FDir | FFifo | FRegular.
Record filestat := FileStat { st_kind : file_kind; st_size : Z }.

(** The [read] loop: every [read] gives as much as there is room for, or fails
    with an errno; a full buffer is doubled.  Each turn but the last consumes
    input, so the length of the input bounds the turns. *)
Fixpoint read_loop (fuel : nat) (read_errno : nat -> option Z) (k : nat) (data : bytes) (pos : Z)
    (input : bytes) : outcome (Z * bytes) :=
  match fuel with
  | O => mret (0, data)
  | S fuel' =>
      match read_errno k with
      | Some errno => mret (- errno, data)
      | None =>
          let chunk := take (Z.to_nat (zlen data - pos)) input in
          if zlen chunk =? 0 then mret (0, data)
          else
            data ← wr data pos chunk;
            let pos := pos + zlen chunk in
            let input := drop (length chunk) input in
            if zlen data <=? pos then
              if negb (alloc_ok 422 k) then mret (- ENOMEM, data)
              else
                let data := data ++ drop (length data) (malloc_block heap_junk (2 * zlen data)) in
                read_loop fuel' read_errno (S k) data pos input
            else read_loop fuel' read_errno (S k) data pos input
      end
  end.

(** [fstat] gives a code or what it fills in; [input] is what the descriptor
    delivers. *)
Definition parse_options_file (fstat : Z + filestat) (read_errno : nat -> option Z) (input : bytes)
    : outcome (Z * list ecryptfs_name_val_pair) :=
  match fstat with
  | inl rc => mret (rc, [])
  | inr st =>
      match st_kind st with
      | FDir => mret (- EISDIR, [])
      | _ =>
          let buf_size := match st_kind st with FFifo => 1024 | _ => st_size st end in
          if MAX_FILE_SIZE <? buf_size then mret (- EFBIG, [])
          else
            let buf_size := buf_size + 1 in
            if negb (alloc_ok 401 0) then mret (- ENOMEM, [])
            else
              let data := malloc_block heap_junk buf_size in
              '(rc, data) ← read_loop (S (length input)) read_errno 0 data 0 input;
              if negb (rc =? 0) then mret (rc, [])
              else
                buf ← cstr_of data;
                generate_nv_list (Some buf)
      end
  end.

(** [open] gives an errno or a file. *)
Definition ecryptfs_parse_rc_file_fullpath (fullpath : cstring)
    (open : cstring -> Z + ((Z + filestat) * (nat -> option Z) * bytes))
    : outcome (Z * list ecryptfs_name_val_pair) :=
  match open fullpath with
  | inl errno => mret (- errno, [])
  | inr (fstat, read_errno, input) => parse_options_file fstat read_errno input
  end.

Definition ecryptfs_parse_rc_file (pw_dir : option cstring)
    (open : cstring -> Z + ((Z + filestat) * (nat -> option Z) * bytes))
    : outcome (Z * list ecryptfs_name_val_pair) :=
  match pw_dir with
  | None => mret (- EIO, [])
  | Some home =>
      if negb (alloc_ok 228 0) then mret (- ENOMEM, [])
      else ecryptfs_parse_rc_file_fullpath (home ++ lit "/.ecryptfsrc") open
  end.

(** ** The salt of the rc file
    ([ecryptfs_read_salt_hex_from_rc] of [key_management.c]) *)

(** The first value of length 16 under the name [salt]; a node without a name
    makes [strcmp] fault. *)
Fixpoint find_salt (l : list ecryptfs_name_val_pair) : outcome (option cstring) :=
  match l with
  | [] => mret None
  | nvp :: l' =>
      match nv_name nvp with
      | None => UB NullDeref
      | Some name =>
          if streq name (lit "salt") then
            match nv_value nvp with
            | None => find_salt l'
            | Some v => if negb (zlen v =? ECRYPTFS_SALT_SIZE_HEX) then find_salt l' else mret (Some v)
            end
          else find_salt l'
      end
  end.

Definition ecryptfs_read_salt_hex_from_rc (salt_hex : bytes) (pw_dir : option cstring)
    (open : cstring -> Z + ((Z + filestat) * (nat -> option Z) * bytes)) : outcome (Z * bytes) :=
  '(rc, l) ← ecryptfs_parse_rc_file pw_dir open;
  if negb (rc =? 0) then mret (rc, salt_hex)
  else
    found ← find_salt l;
    match found with
    | Some v => salt_hex ← wr salt_hex 0 v; mret (0, salt_hex)
    | None => mret (- EINVAL, salt_hex)
    end.

(** What every program does with it: the salt of the rc file, or the default one
    when that cannot be read, with the code of reading it. *)
Definition rc_salt (pw_dir : option cstring)
    (open : cstring -> Z + ((Z + filestat) * (nat -> option Z) * bytes)) : outcome (Z * bytes) :=
  '(rc, salt_hex) ← ecryptfs_read_salt_hex_from_rc (malloc_block heap_junk ECRYPTFS_SALT_SIZE_HEX)
     pw_dir open;
  salt ← from_hex (malloc_block heap_junk ECRYPTFS_SALT_SIZE)
    (if negb (rc =? 0) then ECRYPTFS_DEFAULT_SALT_HEX ++ [0] else salt_hex) ECRYPTFS_SALT_SIZE;
  mret (rc, salt).

(** ** Union of lists *)

(** [copy_nv_pair]; allocations of the [n]-th step. *)
Definition copy_nv_pair (n : nat) (dst src : ecryptfs_name_val_pair) : Z * ecryptfs_name_val_pair :=
  if negb (alloc_ok 60 n) then (- ENOMEM, NVPair (nv_flags src) None (nv_value dst))
  else if negb (alloc_ok 64 n)
  then (- ENOMEM, NVPair (nv_flags src) (Some (show_str (nv_name src))) None)
  else (0, NVPair (nv_flags src) (Some (show_str (nv_name src))) (Some (show_str (nv_value src)))).

(** The loop over [dst]: the value of every node of that name is replaced.
    The result is the code, whether a node matched, and the list. *)
Fixpoint set_matching (n : nat) (name : cstring) (value : option cstring)
    (dst : list ecryptfs_name_val_pair) : Z * bool * list ecryptfs_name_val_pair :=
  match dst with
  | [] => (0, false, [])
  | d :: dst' =>
      if match nv_name d with Some m => streq name m | None => false end then
        if negb (alloc_ok 123 n) then (- ENOMEM, true, NVPair (nv_flags d) (nv_name d) None :: dst')
        else
          let '(rc, _, dst') := set_matching (S n) name value dst' in
          (rc, true, NVPair (nv_flags d) (nv_name d) (Some (show_str value)) :: dst')
      else
        let '(rc, found, dst') := set_matching (S n) name value dst' in
        (rc, found, d :: dst')
  end.

(** The walk over the names that may occur twice. *)
Fixpoint duplicates_allowed (name : cstring) (l : list ecryptfs_name_val_pair) : outcome bool :=
  match l with
  | [] => mret false
  | ad :: l' =>
      match nv_name ad with
      | None => UB NullDeref
      | Some m => if streq name m then mret true else duplicates_allowed name l'
      end
  end.

(** One turn of the loop over [src]. *)
Definition union_one (n : nat) (dst : list ecryptfs_name_val_pair)
    (src : ecryptfs_name_val_pair) (allowed_duplicates : list ecryptfs_name_val_pair)
    : outcome (Z * list ecryptfs_name_val_pair) :=
  match nv_name src with
  | None => mret (0, dst)
  | Some name =>
      dup ← duplicates_allowed name allowed_duplicates;
      let '(rc, found_match, dst) :=
        if dup : bool then (0, false, dst) else set_matching n name (nv_value src) dst in
      if negb (rc =? 0) then mret (rc, dst)
      else if found_match : bool then mret (0, dst)
      else if negb (alloc_ok 142 n) then UB NullDeref
      else
        let '(rc, node) := copy_nv_pair n nv_zero src in
        mret (rc, dst ++ [node])
  end.

Fixpoint ecryptfs_nvp_list_union (n : nat) (dst src allowed_duplicates : list ecryptfs_name_val_pair)
    : outcome (Z * list ecryptfs_name_val_pair) :=
  match src with
  | [] => mret (0, dst)
  | src_cursor :: src' =>
      '(rc, dst) ← union_one n dst src_cursor allowed_duplicates;
      if negb (rc =? 0) then mret (rc, dst)
      else ecryptfs_nvp_list_union (S n) dst src' allowed_duplicates
  end.
End Parser.

(** ** Specification *)

(** An option as the user writes it, and the node it stands for. *)
Definition option_text (o : cstring * option cstring) : cstring :=
  match o with (n, None) => n | (n, Some v) => n ++ 61 :: v end.
Definition option_node (o : cstring * option cstring) : ecryptfs_name_val_pair :=
  NVPair 0 (Some o.1) o.2.
Definition no_equals (s : cstring) : Prop := Forall (fun c => c <> 61) s.
Definition no_separator (s : cstring) : Prop := Forall (fun c => c <> 44 /\ c <> 10) s.
Definition no_colon (s : cstring) : Prop := Forall (fun c => c <> 58) s.

(** Options that the syntax can express: a value, if present, is not empty;
    the name may contain an equals sign, the value may not. *)
Record option_ok (o : cstring * option cstring) : Prop := {
  ok_chars : is_cstring (option_text o);
  ok_separators : no_separator (option_text o);
  ok_name : o.1 <> [] /\ head o.1 <> Some 61 /\ head o.1 <> Some 58;
  ok_flag : o.2 = None -> no_equals o.1;
  ok_value : forall v, o.2 = Some v -> v <> [] /\ no_equals v;
  ok_length : zlen (option_text o) < MAX_TOK_LEN;
  ok_key : is_colon_list (option_text o) = false
}.

(** Options joined by a separator. *)
Fixpoint join_with (c : Z) (l : list cstring) : cstring :=
  match l with
  | [] => []
  | [s] => s
  | s :: l' => s ++ c :: join_with c l'
  end.

(** ** Lemmas *)
Section ParserLemmas.
Context `{Heap}.

Lemma last_equals_none k i s j :
  heap_never_fails -> no_equals s -> last_equals k i s j = Some j.
Proof.
  intros Hh Hs. revert i. induction Hs as [|c s Hc _ IH]; intros i; [done|].
  cbn [last_equals]. rewrite IH. by replace (c =? 61) with false by lia.
Qed.

Lemma last_equals_some k i a b j :
  heap_never_fails -> no_equals b ->
  last_equals k i (a ++ 61 :: b) j = Some (Some (i + length a)%nat).
Proof.
  intros Hh Hb. revert i j. induction a as [|c a IH]; intros i j; cbn [app last_equals length].
  - rewrite Hh. cbn [Z.eqb Pos.eqb negb]. rewrite last_equals_none by done. by rewrite Nat.add_0_r.
  - rewrite Hh. cbn [negb]. case_match; rewrite IH; do 2 f_equal; lia.
Qed.

Lemma sub_token_block text :
  zlen text < MAX_TOK_LEN ->
  take (Z.to_nat (MAX_TOK_LEN - 1)) text ++ zeros (MAX_TOK_LEN - Z.min (zlen text) (MAX_TOK_LEN - 1)) =
  text ++ [0] ++ zeros (MAX_TOK_LEN - 1 - zlen text).
Proof.
  intros Hl. change MAX_TOK_LEN with 128 in *. pose proof (zlen_nonneg text).
  rewrite take_ge by (change (Z.to_nat (128 - 1)) with (Z.to_nat 127); unfold zlen in Hl; lia).
  f_equal. rewrite Z.min_l by lia. unfold zeros. change [0] with (replicate 1 0).
  rewrite <- replicate_add. f_equal. lia.
Qed.

Lemma cstr_of_terminated s : is_cstring s -> cstr_of (s ++ [0]) = Ok s.
Proof. intros Hs. apply (cstr_of_app s []). by apply is_char_nonzero. Qed.

(** A token is split at its last equals sign. *)
Lemma process_nv_pair_ok st prefix n v :
  heap_never_fails -> (prefix = None \/ prefix = Some []) ->
  n <> [] -> is_cstring (option_text (n, v)) -> zlen (option_text (n, v)) < MAX_TOK_LEN ->
  match v with None => no_equals n | Some v => no_equals v end ->
  process_nv_pair st prefix (option_text (n, v)) =
  Ok (0, NVState (nv_done st ++
            [NVPair 0 (Some n) (match v with Some (_ :: _) => v | _ => None end)])
          None (S (nv_count st))).
Proof.
  intros Hh Hpre Hn Hc Hl Heq. unfold process_nv_pair.
  assert (default [] prefix ++ option_text (n, v) = option_text (n, v)) as ->
    by (by destruct Hpre as [-> | ->]).
  rewrite sub_token_block by done.
  rewrite rd_prefix, bind_Ok by done.
  assert (0 < zlen n) as Hpos by (destruct n; [done|]; rewrite zlen_cons; pose proof (zlen_nonneg n); lia).
  destruct v as [v|]; cbn [option_text] in *.
  - rewrite last_equals_some by done. rewrite Nat.add_0_l, take_app_length.
    apply Forall_app in Hc as [Hcn [_ Hcv]%Forall_cons_1].
    rewrite cstr_of_terminated, bind_Ok by done. rewrite zlen_app, zlen_cons in *.
    change (Z.of_nat (length n)) with (zlen n).
    destruct v as [|c v].
    + rewrite zlen_nil. replace (1 <? zlen n + (1 + 0) - zlen n) with false by lia.
      rewrite bind_Ok, (Hh 317). cbn [negb]. by replace (zlen n =? 0) with false by lia.
    + replace (1 <? zlen n + (1 + zlen (c :: v)) - zlen n) with true
        by (rewrite zlen_cons; pose proof (zlen_nonneg v); lia).
      rewrite (Hh 308). cbn [negb].
      replace ((n ++ 61 :: c :: v) ++ [0] ++ zeros (MAX_TOK_LEN - 1 - (zlen n + (1 + zlen (c :: v)))))
        with ((n ++ [61]) ++ ((c :: v) ++ [0]) ++ zeros (MAX_TOK_LEN - 1 - (zlen n + (1 + zlen (c :: v)))))
        by (by rewrite <- !app_assoc).
      rewrite rd_app3; [|by rewrite zlen_app|rewrite zlen_app; change (zlen [0]) with 1; lia].
      rewrite bind_Ok, <- app_assoc. cbn [app].
      change (c :: v ++ [0; 0]) with ((c :: v) ++ 0 :: [0]).
      rewrite cstr_of_app, bind_Ok by (by apply is_char_nonzero). cbn [mret outcome_ret].
      rewrite bind_Ok, (Hh 317). cbn [negb]. by replace (zlen n =? 0) with false by lia.
  - rewrite last_equals_none by done. rewrite (Hh 300), (Hh 317). cbn [negb].
    rewrite cstr_of_terminated, bind_Ok by done. by replace (zlen n =? 0) with false by lia.
Qed.

Lemma process_tok_ok fuel st prefix o :
  heap_never_fails -> option_ok o -> (prefix = None \/ prefix = Some []) ->
  process_comma_tok_fuel fuel st prefix (option_text o) =
  Ok (0, NVState (nv_done st ++ [option_node o]) None (S (nv_count st))).
Proof.
  intros Hh [Hc Hs (Hn & Heq & Hcol) Hfl Hv Hl Hk] Hpre. destruct o as [n v].
  assert (exists c s, option_text (n, v) = c :: s /\ c <> 61 /\ c <> 58) as (c & s & E & H61 & H58).
  { cbn [fst] in *. destruct n as [|c n]; [done|]. cbn [head] in *.
    exists c. destruct v as [v|]; eexists; cbn [option_text app]; repeat split; congruence. }
  assert (match v with None => no_equals n | Some v => no_equals v end) as Hv'
    by (destruct v; [by apply Hv | by apply Hfl]).
  assert ((match v with Some (_ :: _) => v | _ => None end) = v) as Ev
    by (destruct v as [[|]|]; [by destruct (Hv [] eq_refl) | done..]).
  pose proof (process_nv_pair_ok st prefix n v Hh Hpre Hn Hc Hl Hv') as Hp.
  rewrite Ev in Hp. rewrite E in *.
  destruct fuel; cbn [process_comma_tok_fuel];
    replace (MAX_TOK_LEN <? zlen (c :: s)) with false by lia;
    replace ((c =? 61) || (c =? 58)) with false by lia; by rewrite Hk, Hp.
Qed.

(** *** Lists *)
Lemma nv_loop_token st tok rest t0 :
  no_separator tok -> zlen t0 + zlen tok < MAX_TOK_LEN ->
  nv_loop st (tok ++ rest) t0 = nv_loop st rest (t0 ++ tok).
Proof.
  intros Hs. revert t0. induction Hs as [|c tok [H1 H2] _ IH]; intros t0 Hl.
  - by rewrite app_nil_r.
  - cbn [app nv_loop]. rewrite zlen_cons in Hl. pose proof (zlen_nonneg tok).
    replace ((c =? 44) || (c =? 10)) with false by lia.
    replace (zlen (t0 ++ [c]) =? MAX_TOK_LEN) with false
      by (rewrite zlen_app; change (zlen [c]) with 1; lia).
    rewrite IH, <- app_assoc by (rewrite zlen_app; change (zlen [c]) with 1; lia). done.
Qed.

(** A whole token followed by a separator. *)
Lemma nv_loop_option st o c rest :
  heap_never_fails -> option_ok o -> (c = 44 \/ c = 10) ->
  nv_loop st (option_text o ++ c :: rest) [] =
  nv_loop (NVState (nv_done st ++ [option_node o]) None (S (nv_count st))) rest [].
Proof.
  intros Hh Ho Hc. pose proof Ho as [_ Hs _ _ _ Hl _].
  rewrite nv_loop_token by (done || rewrite zlen_nil; lia). cbn [app nv_loop].
  replace ((c =? 44) || (c =? 10)) with true by lia.
  unfold process_comma_tok. rewrite process_tok_ok, bind_Ok by auto. done.
Qed.

Lemma nv_loop_last st o :
  heap_never_fails -> option_ok o ->
  nv_loop st (option_text o) [] =
  Ok (0, NVState (nv_done st ++ [option_node o]) None (S (nv_count st))).
Proof.
  intros Hh Ho. pose proof Ho as [_ Hs _ _ _ Hl _].
  rewrite <- (app_nil_r (option_text o)), nv_loop_token by (done || rewrite zlen_nil; lia).
  cbn [nv_loop app]. unfold process_comma_tok. apply process_tok_ok; auto.
Qed.

(** All options of a list, each followed by a separator. *)
Lemma nv_loop_options st l rest :
  heap_never_fails -> Forall option_ok l ->
  nv_loop st (mjoin ((fun o => option_text o ++ [44]) <$> l) ++ rest) [] =
  nv_loop (NVState (nv_done st ++ (option_node <$> l))
             (if l is [] then nv_next st else None) (nv_count st + length l)) rest [].
Proof.
  intros Hh Hl. revert st. induction Hl as [|o l Ho _ IH]; intros st.
  - cbn. rewrite app_nil_r, Nat.add_0_r. by destruct st.
  - cbn [fmap list_fmap mjoin list_join]. rewrite <- !app_assoc. cbn [app].
    rewrite nv_loop_option by auto. rewrite IH. cbn [nv_done nv_next nv_count length].
    f_equal. f_equal; [by rewrite <- app_assoc|by destruct l|lia].
Qed.

(** *** Colon lists *)
Lemma colon_loop_token sub st tok rest t0 :
  no_colon tok -> colon_loop sub st (tok ++ rest) t0 = colon_loop sub st rest (t0 ++ tok).
Proof.
  intros Hs. revert t0. induction Hs as [|c tok Hc _ IH]; intros t0; [by rewrite app_nil_r|].
  cbn [app colon_loop]. replace (c =? 58) with false by lia. by rewrite IH, <- app_assoc.
Qed.

Lemma process_colon_list fuel st prefix c s :
  is_colon_list (c :: s) = true -> zlen (c :: s) <= MAX_TOK_LEN -> c <> 61 -> c <> 58 ->
  process_comma_tok_fuel (S fuel) st prefix (c :: s) =
  colon_loop (process_comma_tok_fuel fuel) st (c :: s) [].
Proof.
  intros Hc Hl ? ?. cbn [process_comma_tok_fuel].
  replace (MAX_TOK_LEN <? zlen (c :: s)) with false by lia.
  replace ((c =? 61) || (c =? 58)) with false by lia. by rewrite Hc.
Qed.

Lemma colon_loop_options fuel st l :
  heap_never_fails -> Forall option_ok l -> Forall (fun o => no_colon (option_text o)) l -> l <> [] ->
  colon_loop (process_comma_tok_fuel fuel) st (join_with 58 (option_text <$> l)) [] =
  Ok (0, NVState (nv_done st ++ (option_node <$> l)) None (nv_count st + length l)).
Proof.
  intros Hh Hl Hc Hne. revert st. induction Hl as [|o l Ho _ IH]; intros st; [done|].
  apply Forall_cons_1 in Hc as [Hco Hc]. destruct l as [|o' l].
  - cbn [fmap list_fmap join_with]. rewrite <- (app_nil_r (option_text o)), colon_loop_token by done.
    cbn [colon_loop app length]. rewrite process_tok_ok by auto. do 3 f_equal. lia.
  - change (join_with 58 (option_text <$> (o :: o' :: l)))
      with (option_text o ++ 58 :: join_with 58 (option_text <$> (o' :: l))).
    rewrite colon_loop_token by done. cbn [app colon_loop Z.eqb Pos.eqb].
    rewrite process_tok_ok, bind_Ok by auto. cbn [Z.eqb negb].
    specialize (IH Hc ltac:(done) (NVState (nv_done st ++ [option_node o]) None (S (nv_count st)))).
    rewrite IH. cbn [nv_done nv_count length].
    unfold mret, outcome_ret. do 3 f_equal; [by rewrite <- app_assoc | lia].
Qed.
(** *** Reading files *)
Lemma read_file_whole content :
  heap_never_fails ->
  read_loop (S (length content)) (fun _ => None) 0 (malloc_block heap_junk (zlen content + 1)) 0 content =
  Ok (0, content ++ [heap_junk (length content)]).
Proof.
  intros Hh. pose proof (zlen_nonneg content).
  assert (zlen (malloc_block heap_junk (zlen content + 1)) = zlen content + 1) as Hz
    by (apply zlen_malloc_block; lia).
  assert (malloc_block heap_junk (zlen content + 1) =
    malloc_block heap_junk (zlen content) ++ [heap_junk (length content)]) as Hsplit.
  { unfold malloc_block, zlen. rewrite Z2Nat.inj_add by lia. change (Z.to_nat 1) with 1%nat.
    rewrite seq_app, fmap_app, Nat2Z.id. done. }
  assert (wr (malloc_block heap_junk (zlen content + 1)) 0 content =
    Ok (content ++ [heap_junk (length content)])) as Ew.
  { rewrite Hsplit. apply (wr_app3 [] (malloc_block heap_junk (zlen content)) _ 0 content); [done|].
    rewrite zlen_malloc_block; lia. }
  cbn [read_loop]. rewrite Hz, Z.sub_0_r.
  rewrite take_ge by (unfold zlen; lia).
  destruct content as [|c content].
  - reflexivity.
  - set (l := c :: content) in *.
    replace (zlen l =? 0) with false by (subst l; rewrite zlen_cons; pose proof (zlen_nonneg content); lia).
    rewrite Ew, bind_Ok, Z.add_0_l.
    assert (zlen (l ++ [heap_junk (length l)]) = zlen l + 1) as Hz2 by (rewrite zlen_app; done).
    rewrite Hz2. replace (zlen l + 1 <=? zlen l) with false by lia.
    rewrite drop_all. subst l. cbn [length read_loop]. by rewrite take_nil.
Qed.

(** ** The fuel is enough *)

(** Tokens without a colon are processed the same at every depth. *)
Lemma process_no_colon fuel1 fuel2 st prefix tok :
  no_colon tok ->
  process_comma_tok_fuel fuel1 st prefix tok = process_comma_tok_fuel fuel2 st prefix tok.
Proof.
  intros Htok. assert (is_colon_list tok = false) as E.
  { unfold is_colon_list. apply andb_false_iff. right. apply not_true_iff_false.
    intros (c & Hc & Ec)%existsb_exists. apply Z.eqb_eq in Ec as ->. unfold no_colon in Htok.
    apply (Forall_drop _ 4) in Htok. rewrite Forall_forall in Htok.
    apply (Htok 58); [|done]. by apply list_elem_of_In. }
  destruct fuel1, fuel2, tok; cbn -[is_colon_list Z.ltb]; rewrite ?E; done.
Qed.

Lemma colon_loop_fuel fuel1 fuel2 st s tok :
  no_colon tok ->
  colon_loop (process_comma_tok_fuel fuel1) st s tok =
  colon_loop (process_comma_tok_fuel fuel2) st s tok.
Proof.
  revert st tok. induction s as [|c s IH]; intros st tok Htok; cbn [colon_loop].
  - by apply process_no_colon.
  - destruct (Z.eqb_spec c 58).
    + rewrite (process_no_colon fuel1 fuel2) by done.
      destruct (process_comma_tok_fuel fuel2 st None tok) as [[rc st']|]; [cbn [obind]|done].
      destruct (negb _); [done|]. apply IH. constructor.
    + apply IH. apply Forall_app. split; [done|]. by constructor.
Qed.

Lemma process_comma_tok_enough n st prefix tok :
  process_comma_tok_fuel (S n) st prefix tok = process_comma_tok st prefix tok.
Proof.
  unfold process_comma_tok. destruct tok as [|c tok]; [done|].
  cbn [process_comma_tok_fuel]. rewrite (colon_loop_fuel n 1) by constructor. done.
Qed.

(** A turn of the [read] loop but the last consumes input. *)
Lemma read_loop_fuel fuel n errno k data pos input :
  (length input < fuel)%nat ->
  read_loop (fuel + n) errno k data pos input = read_loop fuel errno k data pos input.
Proof.
  revert k data pos input. induction fuel as [|fuel IH]; intros k data pos input Hf; [lia|].
  cbn [Nat.add read_loop]. destruct (errno k); [done|].
  set (chunk := take _ input). destruct (Z.eqb_spec (zlen chunk) 0) as [|Hc]; [done|].
  destruct (wr data pos chunk) as [data1|]; [cbn [obind]|done].
  assert (length (drop (length chunk) input) < fuel)%nat.
  { rewrite length_drop. unfold chunk, zlen in *. rewrite length_take in *. lia. }
  destruct (_ <=? _); [|by apply IH]. destruct (negb _); [done|]. by apply IH.
Qed.
Lemma rc_salt_length pw_dir open rc salt : rc_salt pw_dir open = Ok (rc, salt) -> zlen salt = 8.
Proof.
  unfold rc_salt. intros ([rc0 hex] & _ & E)%bind_ok_inv.
  apply bind_ok_inv in E as (s & Es & [= _ <-]). unfold from_hex in Es.
  apply bind_ok_inv in Es as (bs & _ & Ew). rewrite (zlen_wr _ _ _ _ Ew).
  by apply zlen_malloc_block.
Qed.
End ParserLemmas.

(** *** Unions *)

(** The value of the last node of a name: what its readers see. *)
Fixpoint nv_lookup (name : cstring) (l : list ecryptfs_name_val_pair) : option (option cstring) :=
  match l with
  | [] => None
  | n :: l' =>
      match nv_lookup name l' with
      | Some v => Some v
      | None => if bool_decide (nv_name n = Some name) then Some (nv_value n) else None
      end
  end.

Lemma nv_lookup_app name l1 l2 :
  nv_lookup name (l1 ++ l2) =
  match nv_lookup name l2 with Some v => Some v | None => nv_lookup name l1 end.
Proof.
  induction l1 as [|n l1 IH]; cbn [app nv_lookup]; [by destruct (nv_lookup name l2)|].
  rewrite IH. by destruct (nv_lookup name l2).
Qed.

Lemma set_matching_ok `{Heap} n name value dst :
  heap_never_fails ->
  exists dst', set_matching n name value dst = (0, bool_decide (is_Some (nv_lookup name dst)), dst') /\
    forall m, nv_lookup m dst' =
      if bool_decide (m = name) then
        if bool_decide (is_Some (nv_lookup name dst)) then Some (Some (show_str value)) else None
      else nv_lookup m dst.
Proof.
  intros Hh. revert n. induction dst as [|d dst IH]; intros n.
  { exists []. split; [done|]. intros m. cbn [nv_lookup]. by repeat case_bool_decide. }
  cbn [set_matching]. destruct (IH (S n)) as (dst' & E & Hlk). clear IH.
  assert (match nv_name d with Some m => streq name m | None => false end =
    bool_decide (nv_name d = Some name)) as Htest.
  { unfold streq. destruct (nv_name d) as [m|]; [|done].
    apply bool_decide_ext. split; [by intros ->|by intros [= ->]]. }
  rewrite Htest, Hh, E. cbn [negb]. destruct (decide (nv_name d = Some name)) as [Hd|Hd].
  - rewrite (bool_decide_eq_true_2 (nv_name d = Some name)) by done. eexists. split.
    + rewrite bool_decide_eq_true_2; [done|]. cbn [nv_lookup].
      rewrite (bool_decide_eq_true_2 (nv_name d = Some name)) by done.
      destruct (nv_lookup name dst); eauto.
    + intros m. cbn [nv_lookup nv_name nv_value]. rewrite Hlk.
      destruct (decide (m = name)) as [->|Hm].
      * rewrite (bool_decide_eq_true_2 (name = name)) by done.
        rewrite (bool_decide_eq_true_2 (nv_name d = Some name)) by done.
        destruct (nv_lookup name dst); by rewrite ?bool_decide_eq_true_2 by eauto.
      * rewrite (bool_decide_eq_false_2 (m = name)) by done.
        by rewrite (bool_decide_eq_false_2 (nv_name d = Some m)) by congruence.
  - rewrite (bool_decide_eq_false_2 (nv_name d = Some name)) by done. eexists. split.
    + cbn [nv_lookup]. rewrite (bool_decide_eq_false_2 (nv_name d = Some name)) by done.
      by destruct (nv_lookup name dst).
    + intros m. cbn [nv_lookup nv_name nv_value]. rewrite Hlk.
      destruct (decide (m = name)) as [->|Hm].
      * rewrite (bool_decide_eq_true_2 (name = name)) by done.
        rewrite (bool_decide_eq_false_2 (nv_name d = Some name)) by done.
        by destruct (nv_lookup name dst).
      * by rewrite (bool_decide_eq_false_2 (m = name)) by done.
Qed.

Lemma union_one_ok `{Heap} n dst src name :
  heap_never_fails -> nv_name src = Some name ->
  exists dst', union_one n dst src [] = Ok (0, dst') /\
    forall m, nv_lookup m dst' =
      if bool_decide (m = name) then Some (Some (show_str (nv_value src))) else nv_lookup m dst.
Proof.
  intros Hh Hn. unfold union_one. rewrite Hn. cbn [duplicates_allowed mret outcome_ret]. rewrite bind_Ok.
  destruct (set_matching_ok n name (nv_value src) dst Hh) as (dst' & -> & Hlk). cbn [Z.eqb negb].
  destruct (bool_decide (is_Some (nv_lookup name dst))) eqn:Hs.
  - eexists. split; [done|]. exact Hlk.
  - rewrite (Hh 142). cbn [negb]. unfold copy_nv_pair. rewrite (Hh 60), (Hh 64), Hn. cbn [negb].
    eexists. split; [done|]. intros m. rewrite nv_lookup_app, Hlk. cbn [nv_lookup nv_name nv_value show_str default from_option id].
    destruct (decide (m = name)) as [->|Hm].
    + by rewrite !bool_decide_eq_true_2 by done.
    + by rewrite !bool_decide_eq_false_2 by congruence.
Qed.

Lemma join_options_last l o :
  join_with 44 (option_text <$> (l ++ [o])) =
  mjoin ((fun o => option_text o ++ [44]) <$> l) ++ option_text o.
Proof.
  induction l as [|o' l IH]; [done|].
  assert (mjoin ((fun o => option_text o ++ [44]) <$> o' :: l) =
    (option_text o' ++ [44]) ++ mjoin ((fun o => option_text o ++ [44]) <$> l)) as -> by done.
  rewrite <- app_assoc, <- app_assoc, <- IH. by destruct l.
Qed.

Lemma parse_options_ok `{Heap} l :
  heap_never_fails -> Forall option_ok l ->
  ecryptfs_parse_options (Some (join_with 44 (option_text <$> l))) = Ok (0, option_node <$> l).
Proof.
  intros Hh Hl. unfold ecryptfs_parse_options, generate_nv_list.
  destruct l as [|o l _] using rev_ind; [done|].
  apply Forall_app in Hl as [Hl [Ho _]%Forall_cons_1].
  rewrite join_options_last, nv_loop_options, nv_loop_last, bind_Ok by done.
  unfold nv_list. cbn [nv_done nv_next option_list]. by rewrite fmap_app, app_nil_r.
Qed.

(** ** Properties *)

(** C40. Parsing inverts printing: options joined by commas, every one with a
    name and possibly a value, come back as the list of their names and values
    in the same order. *)
Theorem parse_options_roundtrip `{Heap} l :
  heap_never_fails -> Forall option_ok l ->
  ecryptfs_parse_options (Some (join_with 44 (option_text <$> l))) = Ok (0, option_node <$> l).
Proof. apply parse_options_ok. Qed.

Lemma sample_option_ok n v :
  bool_decide (is_cstring (option_text (n, v)) /\ Forall (fun c => c <> 44 /\ c <> 10) (option_text (n, v)) /\
    n <> [] /\ head n <> Some 61 /\ head n <> Some 58 /\
    Forall (fun c => c <> 61) (default n v) /\ v <> Some [] /\
    zlen (option_text (n, v)) < MAX_TOK_LEN /\ is_colon_list (option_text (n, v)) = false) = true ->
  option_ok (n, v).
Proof.
  intros Hb%bool_decide_eq_true. destruct Hb as (? & ? & ? & ? & ? & Hv & ? & ? & ?).
  split; cbn [fst snd]; try done.
  - intros ->. exact Hv.
  - intros v' ->. split; [congruence | exact Hv].
Qed.

Lemma parse_options_roundtrip_witness :
  @ecryptfs_parse_options plenty (Some (lit "verbose,cipher=aes,key=passphrase")) =
  Ok (0, [NVPair 0 (Some (lit "verbose")) None; NVPair 0 (Some (lit "cipher")) (Some (lit "aes"));
          NVPair 0 (Some (lit "key")) (Some (lit "passphrase"))]).
Proof.
  apply (@parse_options_roundtrip plenty [(lit "verbose", None); (lit "cipher", Some (lit "aes"));
    (lit "key", Some (lit "passphrase"))]).
  - intros line k. reflexivity.
  - repeat (apply Forall_cons_2; [apply sample_option_ok; reflexivity|]). apply Forall_nil_2.
Defined.

(** An option of 128 or more characters ends the parse without an error:
    the options before it are returned with code 0 and it and everything after
    it is dropped. *)
Theorem parse_options_truncates `{Heap} l long rest :
  heap_never_fails -> Forall option_ok l -> no_separator long -> zlen long = MAX_TOK_LEN ->
  ecryptfs_parse_options
    (Some (mjoin ((fun o => option_text o ++ [44]) <$> l) ++ long ++ rest)) =
  Ok (0, option_node <$> l).
Proof.
  intros Hh Hl Hs Hlen. unfold ecryptfs_parse_options, generate_nv_list.
  rewrite nv_loop_options by done.
  destruct long as [|c long _] using rev_ind; [done|].
  apply Forall_app in Hs as [Hs [[H1 H2] _]%Forall_cons_1].
  rewrite zlen_app in Hlen. change (zlen [c]) with 1 in Hlen.
  rewrite <- app_assoc, nv_loop_token by (done || rewrite zlen_nil; lia).
  cbn [app nv_loop]. replace ((c =? 44) || (c =? 10)) with false by lia.
  rewrite zlen_app. change (zlen [c]) with 1.
  replace (zlen long + 1 =? MAX_TOK_LEN) with true by lia.
  rewrite bind_Ok. unfold nv_list. cbn [nv_done nv_next]. cbn [nv_start nv_done nv_next].
  unfold mret, outcome_ret. do 2 f_equal. destruct l; [done|]. by rewrite app_nil_r.
Qed.

Lemma parse_options_truncates_witness :
  @ecryptfs_parse_options plenty
    (Some (mjoin ((fun o => option_text o ++ [44]) <$> [(lit "ro", None)]) ++
           replicate 128 97 ++ lit ",cipher=aes")) =
  Ok (0, option_node <$> [(lit "ro", None)]).
Proof.
  apply (@parse_options_truncates plenty).
  - intros line k. reflexivity.
  - repeat (apply Forall_cons_2; [apply sample_option_ok; reflexivity|]). apply Forall_nil_2.
  - apply Forall_replicate. split; discriminate.
  - reflexivity.
Defined.

(** The suboptions of a key: [key=module:name=value:...] parses to the
    node of the key followed by the nodes of its suboptions, as if they had
    been separated by commas. *)
Theorem parse_key_suboptions `{Heap} m l :
  heap_never_fails -> option_ok (lit "key", Some m) -> no_colon m ->
  Forall option_ok l -> Forall (fun o => no_colon (option_text o)) l -> l <> [] ->
  zlen (join_with 58 (option_text <$> (lit "key", Some m) :: l)) < MAX_TOK_LEN ->
  ecryptfs_parse_options (Some (join_with 58 (option_text <$> (lit "key", Some m) :: l))) =
  Ok (0, option_node <$> (lit "key", Some m) :: l).
Proof.
  intros Hh Hk Hm Hl Hc Hne Hlen. unfold ecryptfs_parse_options, generate_nv_list.
  set (o := (lit "key", Some m)) in *.
  assert (Forall option_ok (o :: l)) as Hol by (by constructor).
  assert (no_colon (option_text o)) as Hoc.
  { subst o. cbn [option_text]. apply Forall_app. split; [|constructor; [discriminate|exact Hm]].
    repeat constructor; discriminate. }
  assert (no_separator (join_with 58 (option_text <$> o :: l))) as Hsep.
  { clear -Hol. induction (o :: l) as [|o' l' IH]; [constructor|].
    apply Forall_cons_1 in Hol as [[_ Ho' _ _ _ _ _] Hol].
    destruct l' as [|o'' l']; [done|].
    change (join_with 58 (option_text <$> o' :: o'' :: l'))
      with (option_text o' ++ 58 :: join_with 58 (option_text <$> o'' :: l')).
    apply Forall_app. split; [done|]. constructor; [done|]. by apply IH. }
  rewrite <- (app_nil_r (join_with _ _)), nv_loop_token by (done || rewrite zlen_nil; lia).
  rewrite app_nil_l. cbn [nv_loop]. unfold process_comma_tok.
  assert (exists s, join_with 58 (option_text <$> o :: l) = lit "key=" ++ m ++ 58 :: s) as [s E].
  { destruct l as [|o' l]; [done|]. eexists.
    change (join_with 58 (option_text <$> o :: o' :: l))
      with (option_text o ++ 58 :: join_with 58 (option_text <$> o' :: l)).
    subst o. cbn [option_text]. by rewrite <- app_assoc. }
  assert (is_colon_list (join_with 58 (option_text <$> o :: l)) = true) as Hcl.
  { rewrite E. unfold is_colon_list. rewrite !andb_true_iff. split; [split|].
    - rewrite !zlen_app, zlen_cons. change (zlen (lit "key=")) with 4.
      pose proof (zlen_nonneg m). pose proof (zlen_nonneg s). lia.
    - unfold prefixb. apply bool_decide_eq_true. apply take_app_length.
    - rewrite (drop_app_length' (lit "key=")) by done. rewrite existsb_app. cbn [existsb].
      apply orb_true_iff. by right. }
  pose proof (colon_loop_options 1 nv_start (o :: l) Hh Hol ltac:(by constructor) ltac:(done)) as Hloop.
  set (tok := join_with 58 (option_text <$> o :: l)) in *.
  assert (exists t, tok = 107 :: t) as [t Et] by (rewrite E; by eexists).
  clear E. clearbody tok. subst tok.
  rewrite process_colon_list, Hloop, bind_Ok by (done || lia).
  unfold nv_list. cbn [nv_done nv_next option_list nv_start]. by rewrite app_nil_r.
Qed.

Lemma parse_key_suboptions_witness :
  @ecryptfs_parse_options plenty (Some (lit "key=openssl:keyfile=a.pem:passwd=x")) =
  Ok (0, [NVPair 0 (Some (lit "key")) (Some (lit "openssl"));
          NVPair 0 (Some (lit "keyfile")) (Some (lit "a.pem"));
          NVPair 0 (Some (lit "passwd")) (Some (lit "x"))]).
Proof.
  apply (@parse_key_suboptions plenty (lit "openssl")
    [(lit "keyfile", Some (lit "a.pem")); (lit "passwd", Some (lit "x"))]).
  - intros line k. reflexivity.
  - apply sample_option_ok. reflexivity.
  - repeat constructor; discriminate.
  - repeat (apply Forall_cons_2; [apply sample_option_ok; reflexivity|]). apply Forall_nil_2.
  - repeat constructor; discriminate.
  - discriminate.
  - reflexivity.
Defined.

(** Reading an options file is right exactly by the luck of the heap: the
    buffer is not terminated, so a file without NUL characters is parsed as its
    contents when the byte after them happens to be zero, and is read out of
    bounds otherwise. *)
Theorem parse_options_file_unterminated `{Heap} content :
  heap_never_fails -> is_cstring content -> zlen content <= MAX_FILE_SIZE ->
  parse_options_file (inr (FileStat FRegular (zlen content))) (fun _ => None) content =
  if heap_junk (length content) =? 0 then generate_nv_list (Some content)
  else UB OutOfBoundsRead.
Proof.
  intros Hh Hc Hl. unfold parse_options_file. cbn [st_kind st_size].
  replace (MAX_FILE_SIZE <? zlen content) with false by lia.
  rewrite (Hh 401). cbn [negb]. rewrite read_file_whole, bind_Ok by done. cbn [Z.eqb negb].
  destruct (Z.eqb_spec (heap_junk (length content)) 0) as [->|Hne].
  - by rewrite cstr_of_terminated, bind_Ok.
  - rewrite cstr_of_unterminated; [done|]. apply Forall_app. split; [by apply is_char_nonzero|].
    by repeat constructor.
Qed.

Lemma parse_options_file_unterminated_witness :
  @parse_options_file {| alloc_ok := fun _ _ => true; heap_junk := fun _ => 65 |}
    (inr (FileStat FRegular 4)) (fun _ => None) (lit "ro,x") = UB OutOfBoundsRead.
Proof.
  apply (@parse_options_file_unterminated {| alloc_ok := fun _ _ => true; heap_junk := fun _ => 65 |}
    (lit "ro,x")).
  - intros line k. reflexivity.
  - repeat constructor.
  - vm_compute; congruence.
Defined.

(** The union of two lists, as their readers see it: a name of the second
    list has the last value the second list gives it, where an option without a
    value gets the text "(null)" for one, and every other name keeps its value. *)
Theorem nvp_list_union_lookup `{Heap} n dst src :
  heap_never_fails -> Forall (fun s => is_Some (nv_name s)) src ->
  exists dst', ecryptfs_nvp_list_union n dst src [] = Ok (0, dst') /\
    forall m, nv_lookup m dst' =
      match nv_lookup m src with
      | Some v => Some (Some (default (lit "(null)") v))
      | None => nv_lookup m dst
      end.
Proof.
  intros Hh Hs. revert n dst. induction Hs as [|s src [name Hn] _ IH]; intros n dst.
  { exists dst. done. }
  destruct (union_one_ok n dst s name Hh Hn) as (d1 & E1 & Hlk1).
  destruct (IH (S n) d1) as (d2 & E2 & Hlk2).
  exists d2. split; [cbn [ecryptfs_nvp_list_union]; by rewrite E1, bind_Ok|].
  intros m. rewrite Hlk2, Hlk1. cbn [nv_lookup]. destruct (nv_lookup m src); [done|].
  rewrite Hn. destruct (decide (m = name)) as [->|Hm].
  - by rewrite !bool_decide_eq_true_2 by done.
  - by rewrite !bool_decide_eq_false_2 by congruence.
Qed.

Lemma nvp_list_union_lookup_witness :
  exists dst', @ecryptfs_nvp_list_union plenty 0 [NVPair 0 (Some (lit "a")) (Some (lit "1"))]
    [NVPair 0 (Some (lit "a")) None] [] = Ok (0, dst') /\
    forall m, nv_lookup m dst' =
      match nv_lookup m [NVPair 0 (Some (lit "a")) None] with
      | Some v => Some (Some (default (lit "(null)") v))
      | None => nv_lookup m [NVPair 0 (Some (lit "a")) (Some (lit "1"))]
      end.
Proof.
  apply (@nvp_list_union_lookup plenty).
  - intros line k. reflexivity.
  - repeat constructor. eauto.
Defined.
