(* ===== verification/DecisionGraph.v ===== *)
(** * Decision graphs: [src/libecryptfs/decision_graph.c] and
    [src/include/decision_graph.h]

    The options of a mount are found by walking a graph of parameter nodes: a
    node gets a value from the option list, from its default or from the user,
    and a transition that fits the value leads to the next node and calls a
    function.  Nodes point to each other and are changed during the walk, so
    they live in a store by address; the functions of transition nodes are tags,
    interpreted where the functions are modelled.  Allocations of this file are
    asked for by line number plus 10000. *)

From S2P Require Import Prelude CLib Ecryptfs PassphraseSig KeyMod KeyPayload KeyManagement CmdLnParser.

(** ** Computations that may end the process
    A transition function can call [exit]: such computations return [None]
    then. *)
Definition running (A : Type) : Type := outcome (option A).
Definition go {A} (a : A) : running A := Ok (Some a).
Definition exited {A} : running A := Ok None.
Definition rbind {A B} (m : running A) (f : A -> running B) : running B :=
  match m with Ok (Some a) => f a | Ok None => Ok None | UB e => UB e end.
(** A computation that does not end the process. *)
Definition stays {A} (m : outcome A) : running A :=
  match m with Ok a => Ok (Some a) | UB e => UB e end.
Notation "x ⇐ y ; z" := (rbind y (fun x : _ => z))
  (at level 20, y at level 100, z at level 200, only parsing) : outcome_scope.
Notation "' x ⇐ y ; z" := (rbind y (fun x : _ => z))
  (at level 20, x pattern, y at level 100, z at level 200, only parsing) : outcome_scope.

(** ** Nodes *)
Definition NULL_TOK : Z := 1.
Definition DEFAULT_TOK : Z := 2.
Definition MOUNT_ERROR : Z := 3.
Definition WRONG_VALUE : Z := 4.
Definition MAX_NUM_TRANSITIONS : Z := 64.
Definition ECRYPTFS_PROCESSED : Z := 8.

Definition ECRYPTFS_PARAM_FLAG_ECHO_INPUT : Z := 0x00000001.
Definition ECRYPTFS_PARAM_FLAG_MASK_OUTPUT : Z := 0x00000002.
Definition ECRYPTFS_ALLOW_IMPLICIT_TRANSITION : Z := 0x00000004.
Definition ECRYPTFS_PARAM_FLAG_NO_VALUE : Z := 0x00000008.
Definition DISPLAY_TRANSITION_NODE_VALS : Z := 0x00000010.
Definition VERIFY_VALUE : Z := 0x00000020.
Definition STDIN_REQUIRED : Z := 0x00000040.
Definition PARAMETER_SET : Z := 0x00000080.
Definition ECRYPTFS_PARAM_FORCE_DISPLAY_NODES : Z := 0x00000200.
Definition ECRYPTFS_DISPLAY_PRETTY_VALS : Z := 0x00000400.
Definition ECRYPTFS_NO_AUTO_TRANSITION : Z := 0x00000800.
Definition ECRYPTFS_IMPLICIT_OVERRIDE_DEFAULT : Z := 0x00001000.
Definition ECRYPTFS_NONEMPTY_VALUE_REQUIRED : Z := 0x00002000.

Definition has_flag (flags flag : Z) : bool := negb (Z.land flags flag =? 0).

(** The functions a transition node can name; [TfModule] are those of modules
    loaded at run time. *)
Inductive trans_fn :=
  | SigParamNodeCallback
  | TfKeyBytes
  | TfCipher
  | GetHmac
  | GetPassthrough
  | GetXattr
  | GetEncryptedPassthrough
  | FilenameCryptoFnekSigCallback
  | GetEnableFilenameCrypto
  | AnotherKeyParamNodeCallback
  | TfPasswd
  | TfPassFile
  | TfSalt
  | EnterLinearSubgraph
  | LinearSubgraphVal
  | ExitLinearSubgraph
  | TfModule (n : Z).

Record transition_node := TransNode {
  tn_val : option cstring;
  tn_pretty_val : option cstring;
  tn_next_token : option Z;
  tn_trans_func : option trans_fn
}.

(** [num_mnt_opt_names] and [num_transitions] are the lengths of the lists. *)
Record param_node := ParamNode {
  pn_mnt_opt_names : list cstring;
  pn_prompt : option cstring;
  pn_val : option cstring;
  pn_default_val : option cstring;
  pn_suggested_val : option cstring;
  pn_flags : Z;
  pn_tl : list transition_node
}.

Definition set_val (v : option cstring) (p : param_node) : param_node :=
  ParamNode (pn_mnt_opt_names p) (pn_prompt p) v (pn_default_val p) (pn_suggested_val p)
    (pn_flags p) (pn_tl p).
Definition set_suggested_val (v : option cstring) (p : param_node) : param_node :=
  ParamNode (pn_mnt_opt_names p) (pn_prompt p) (pn_val p) (pn_default_val p) v
    (pn_flags p) (pn_tl p).
Definition set_flags (flags : Z) (p : param_node) : param_node :=
  ParamNode (pn_mnt_opt_names p) (pn_prompt p) (pn_val p) (pn_default_val p) (pn_suggested_val p)
    flags (pn_tl p).
Definition set_tl (tl : list transition_node) (p : param_node) : param_node :=
  ParamNode (pn_mnt_opt_names p) (pn_prompt p) (pn_val p) (pn_default_val p) (pn_suggested_val p)
    (pn_flags p) tl.
Definition set_next_token (next : option Z) (tn : transition_node) : transition_node :=
  TransNode (tn_val tn) (tn_pretty_val tn) next (tn_trans_func tn).

(** ** The state of a walk *)

(** What [foo] points to: the context of a linear subgraph, with the index of
    its key module and the values so far, that of a module loaded at run time,
    with the strings it keeps, or that of a provider of such a module. *)
Inductive subgraph :=
  | FooNull
  | FooCtx (key_mod : nat) (vals : list cstring)
  | FooModule (key_mod : nat) (members : list (option cstring))
  | FooProvider (members : list (option cstring)) (numbers : list Z)
  | FooFreed.

(** A call of a library that a function of a module makes for its effect. *)
Record library_call := LibraryCall {
  lc_function : cstring;
  lc_strings : list (option cstring);
  lc_numbers : list Z
}.

(** The nodes, the option list, the stack of mount options (top first; the
    entry at the bottom has no value), [foo], the key modules and [verbosity]
    of the context, the keyring, what [get_string] will answer, the static
    variables of [do_transition], the next free address, the number of nodes
    visited and the calls of other libraries, in order. *)
Record gstate := GState {
  g_nodes : gmap Z param_node;
  g_nvp : list ecryptfs_name_val_pair;
  g_mnt : list (option cstring);
  g_foo : subgraph;
  g_mods : key_mod_list;
  g_verbosity : Z;
  g_keyring : gmap (list Z) ecryptfs_auth_tok;
  g_input : list (Z * option cstring);
  g_repeated : Z;
  g_lastnode : option Z;
  g_next_id : Z;
  g_steps : nat;
  g_calls : list library_call
}.

Definition set_nodes (x : gmap Z param_node) (s : gstate) : gstate :=
  GState x (g_nvp s) (g_mnt s) (g_foo s) (g_mods s) (g_verbosity s) (g_keyring s) (g_input s)
    (g_repeated s) (g_lastnode s) (g_next_id s) (g_steps s) (g_calls s).
Definition set_nvp (x : list ecryptfs_name_val_pair) (s : gstate) : gstate :=
  GState (g_nodes s) x (g_mnt s) (g_foo s) (g_mods s) (g_verbosity s) (g_keyring s) (g_input s)
    (g_repeated s) (g_lastnode s) (g_next_id s) (g_steps s) (g_calls s).
Definition set_mnt (x : list (option cstring)) (s : gstate) : gstate :=
  GState (g_nodes s) (g_nvp s) x (g_foo s) (g_mods s) (g_verbosity s) (g_keyring s) (g_input s)
    (g_repeated s) (g_lastnode s) (g_next_id s) (g_steps s) (g_calls s).
Definition set_foo (x : subgraph) (s : gstate) : gstate :=
  GState (g_nodes s) (g_nvp s) (g_mnt s) x (g_mods s) (g_verbosity s) (g_keyring s) (g_input s)
    (g_repeated s) (g_lastnode s) (g_next_id s) (g_steps s) (g_calls s).
Definition set_mods (x : key_mod_list) (s : gstate) : gstate :=
  GState (g_nodes s) (g_nvp s) (g_mnt s) (g_foo s) x (g_verbosity s) (g_keyring s) (g_input s)
    (g_repeated s) (g_lastnode s) (g_next_id s) (g_steps s) (g_calls s).
Definition set_verbosity (x : Z) (s : gstate) : gstate :=
  GState (g_nodes s) (g_nvp s) (g_mnt s) (g_foo s) (g_mods s) x (g_keyring s) (g_input s)
    (g_repeated s) (g_lastnode s) (g_next_id s) (g_steps s) (g_calls s).
Definition set_keyring (x : gmap (list Z) ecryptfs_auth_tok) (s : gstate) : gstate :=
  GState (g_nodes s) (g_nvp s) (g_mnt s) (g_foo s) (g_mods s) (g_verbosity s) x (g_input s)
    (g_repeated s) (g_lastnode s) (g_next_id s) (g_steps s) (g_calls s).
Definition set_input (x : list (Z * option cstring)) (s : gstate) : gstate :=
  GState (g_nodes s) (g_nvp s) (g_mnt s) (g_foo s) (g_mods s) (g_verbosity s) (g_keyring s) x
    (g_repeated s) (g_lastnode s) (g_next_id s) (g_steps s) (g_calls s).
Definition set_repeated (x : Z) (s : gstate) : gstate :=
  GState (g_nodes s) (g_nvp s) (g_mnt s) (g_foo s) (g_mods s) (g_verbosity s) (g_keyring s)
    (g_input s) x (g_lastnode s) (g_next_id s) (g_steps s) (g_calls s).
Definition set_lastnode (x : option Z) (s : gstate) : gstate :=
  GState (g_nodes s) (g_nvp s) (g_mnt s) (g_foo s) (g_mods s) (g_verbosity s) (g_keyring s)
    (g_input s) (g_repeated s) x (g_next_id s) (g_steps s) (g_calls s).
Definition set_next_id (x : Z) (s : gstate) : gstate :=
  GState (g_nodes s) (g_nvp s) (g_mnt s) (g_foo s) (g_mods s) (g_verbosity s) (g_keyring s)
    (g_input s) (g_repeated s) (g_lastnode s) x (g_steps s) (g_calls s).
Definition set_steps (x : nat) (s : gstate) : gstate :=
  GState (g_nodes s) (g_nvp s) (g_mnt s) (g_foo s) (g_mods s) (g_verbosity s) (g_keyring s)
    (g_input s) (g_repeated s) (g_lastnode s) (g_next_id s) x (g_calls s).
Definition add_call (c : library_call) (s : gstate) : gstate :=
  GState (g_nodes s) (g_nvp s) (g_mnt s) (g_foo s) (g_mods s) (g_verbosity s) (g_keyring s)
    (g_input s) (g_repeated s) (g_lastnode s) (g_next_id s) (g_steps s) (g_calls s ++ [c]).

(** Following the pointer [n], and changing what it points to. *)
Definition get_node (s : gstate) (n : Z) : outcome param_node :=
  match g_nodes s !! n with Some p => Ok p | None => UB NullDeref end.
Definition upd_node (n : Z) (f : param_node -> param_node) (s : gstate) : gstate :=
  set_nodes (alter f n (g_nodes s)) s.
(** [node->tl[i]]. *)
Definition get_tn (s : gstate) (n : Z) (i : nat) : outcome transition_node :=
  p ← get_node s n;
  match pn_tl p !! i with Some tn => Ok tn | None => UB OutOfBoundsRead end.
(** [node->tl[i].next_token = next]. *)
Definition set_next (n : Z) (i : nat) (next : option Z) (s : gstate) : gstate :=
  upd_node n (fun p => set_tl (alter (set_next_token next) i (pn_tl p)) p) s.

Section Stack.
Context `{Heap}.

(** ** The stack of values *)
Definition stack_push (v : option cstring) (s : gstate) : Z * gstate :=
  if negb (alloc_ok 10037 (g_steps s)) then (- ENOMEM, s)
  else (0, set_mnt (v :: g_mnt s) s).

Definition stack_pop (stack : list (option cstring)) : outcome (list (option cstring)) :=
  match stack with [] => UB NullDeref | _ :: rest => mret rest end.

Definition stack_pop_val (stack : list (option cstring))
    : Z * option (option cstring) * list (option cstring) :=
  match stack with
  | [] => (-1, None, [])
  | v :: rest => (0, Some v, rest)
  end.

(** ** Building graphs *)
Definition add_transition_node_to_param_node (node : Z) (trans_node : transition_node)
    (s : gstate) : outcome (Z * gstate) :=
  p ← get_node s node;
  if MAX_NUM_TRANSITIONS <=? zlen (pn_tl p) then mret (- ENOMEM, s)
  else mret (0, upd_node node (fun p => set_tl (pn_tl p ++ [trans_node]) p) s).

(** What the exit does to a transition node without successor. *)
Definition set_exit (exit : Z) (tn : transition_node) : transition_node :=
  TransNode (Some (lit "default")) (Some (lit "default")) (Some exit) (tn_trans_func tn).

(** One turn of the loop of [set_exit_param_node_for_node] after another, over a
    function for the recursive call; [None] when that runs out of fuel. *)
Fixpoint set_exit_loop (rec : Z -> gmap Z param_node -> outcome (option (gmap Z param_node)))
    (exit : Z) (recursive : bool) (node : Z) (ixs : list nat) (nodes : gmap Z param_node)
    : outcome (option (gmap Z param_node)) :=
  match ixs with
  | [] => mret (Some nodes)
  | i :: ixs' =>
      match nodes !! node with
      | None => UB NullDeref
      | Some p =>
          match pn_tl p !! i with
          | None => UB OutOfBoundsRead
          | Some tn =>
              match tn_next_token tn with
              | None =>
                  set_exit_loop rec exit recursive node ixs'
                    (<[node := set_tl (alter (set_exit exit) i (pn_tl p)) p]> nodes)
              | Some next =>
                  if recursive then
                    r ← rec next nodes;
                    match r with
                    | None => mret None
                    | Some nodes => set_exit_loop rec exit recursive node ixs' nodes
                    end
                  else set_exit_loop rec exit recursive node ixs' nodes
              end
          end
      end
  end.

(** The recursion follows the graph; [fuel] bounds its depth. *)
Fixpoint set_exit_param_node_for_node (fuel : nat) (exit : Z) (recursive : bool) (node : Z)
    (nodes : gmap Z param_node) : outcome (option (gmap Z param_node)) :=
  match fuel with
  | O => mret None
  | S fuel' =>
      match nodes !! node with
      | None => UB NullDeref
      | Some p =>
          set_exit_loop (set_exit_param_node_for_node fuel' exit recursive) exit recursive node
            (seq 0 (length (pn_tl p))) nodes
      end
  end.

Definition ecryptfs_set_exit_param_on_graph (fuel : nat) (node exit : Z) (s : gstate)
    : outcome (option gstate) :=
  r ← set_exit_param_node_for_node fuel exit true node (g_nodes s);
  mret ((fun nodes => set_nodes nodes s) <$> r).

(** [sizeof] of the array parameter is that of a pointer, smaller than a node:
    the loop runs no times. *)
Definition sizeof_pointer : Z := 8.
Definition sizeof_param_node : Z := 2688.
Definition set_exit_param_node_for_arr (param_node_arr : list Z) (exit : Z)
    (nodes : gmap Z param_node) : outcome (option (gmap Z param_node)) :=
  let arr_len := sizeof_pointer / sizeof_param_node in
  foldl (fun r i =>
    r ← r;
    match r, param_node_arr !! i with
    | Some nodes, Some n => set_exit_param_node_for_node 1 exit false n nodes
    | None, _ => mret None
    | _, None => UB OutOfBoundsRead
    end) (mret (Some nodes)) (seq 0 (Z.to_nat arr_len)).

(** [ecryptfs_delete_nvp] of the node at index [nvp] of the list, which is not
    freed; a null [nvp] is the successor of the last node. *)
Definition ecryptfs_delete_nvp (l : list ecryptfs_name_val_pair) (nvp : option nat)
    : outcome (Z * list ecryptfs_name_val_pair) :=
  match nvp with
  | None => UB NullDeref
  | Some i =>
      match l !! i with
      | Some _ => mret (0, take i l ++ drop (S i) l)
      | None => mret (- EINVAL, l)
      end
  end.

(** The first loop of [ecryptfs_insert_params]: a pair for every name; the
    members [flags] and [value] of the pairs are never set. *)
Fixpoint insert_names (k : nat) (names : list cstring) (nvp : list ecryptfs_name_val_pair)
    : Z * list ecryptfs_name_val_pair :=
  match names with
  | [] => (0, nvp)
  | name :: names' =>
      if negb (alloc_ok 10830 k) then (- ENOMEM, nvp)
      else if negb (alloc_ok 10837 k) then (- ENOMEM, nvp ++ [NVPair 0 None None])
      else insert_names (S k) names' (nvp ++ [NVPair 0 (Some name) None])
  end.

(** The second loop, over a function for the recursive call. *)
Fixpoint insert_successors
    (rec : Z -> list ecryptfs_name_val_pair -> outcome (option (Z * list ecryptfs_name_val_pair)))
    (tl : list transition_node) (nvp : list ecryptfs_name_val_pair)
    : outcome (option (Z * list ecryptfs_name_val_pair)) :=
  match tl with
  | [] => mret (Some (0, nvp))
  | tn :: tl' =>
      match tn_next_token tn with
      | None => insert_successors rec tl' nvp
      | Some next =>
          r ← rec next nvp;
          match r with
          | None => mret None
          | Some (rc, nvp) =>
              if negb (rc =? 0) then mret (Some (rc, nvp)) else insert_successors rec tl' nvp
          end
      end
  end.

Fixpoint ecryptfs_insert_params (fuel : nat) (nodes : gmap Z param_node) (node : Z)
    (nvp : list ecryptfs_name_val_pair) : outcome (option (Z * list ecryptfs_name_val_pair)) :=
  match fuel with
  | O => mret None
  | S fuel' =>
      match nodes !! node with
      | None => UB NullDeref
      | Some p =>
          let '(rc, nvp) := insert_names (length nvp) (pn_mnt_opt_names p) nvp in
          if negb (rc =? 0) then mret (Some (rc, nvp))
          else insert_successors (ecryptfs_insert_params fuel' nodes) (pn_tl p) nvp
      end
  end.

Definition ecryptfs_insert_params_in_subgraph (fuel : nat) (nodes : gmap Z param_node)
    (nvp : list ecryptfs_name_val_pair) (trans_node : transition_node)
    : outcome (option (Z * list ecryptfs_name_val_pair)) :=
  match tn_next_token trans_node with
  | None => mret (Some (0, nvp))
  | Some next => ecryptfs_insert_params fuel nodes next nvp
  end.
End Stack.

(** ** Values *)
Section Values.
Context `{Heap}.

(** [strcmp(temp->name, name) == 0 && !(temp->flags & ECRYPTFS_PROCESSED)], the
    first such pair from index [i] on. *)
Fixpoint find_nvp (name : cstring) (i : nat) (l : list ecryptfs_name_val_pair)
    : outcome (option nat) :=
  match l with
  | [] => mret None
  | temp :: l' =>
      match nv_name temp with
      | None => UB NullDeref
      | Some n =>
          if streq n name && negb (has_flag (nv_flags temp) ECRYPTFS_PROCESSED) then mret (Some i)
          else find_nvp name (S i) l'
      end
  end.

(** The loop over the names of a node, the last one first. *)
Fixpoint find_by_names (names : list cstring) (l : list ecryptfs_name_val_pair)
    : outcome (option nat) :=
  match names with
  | [] => mret None
  | name :: names' =>
      r ← find_nvp name 0 l;
      match r with Some i => mret (Some i) | None => find_by_names names' l end
  end.

Definition mark_processed (nvp : ecryptfs_name_val_pair) : ecryptfs_name_val_pair :=
  NVPair (Z.lor (nv_flags nvp) ECRYPTFS_PROCESSED) (nv_name nvp) (nv_value nvp).

(** The code and [*value_retrieved]. *)
Definition retrieve_val (node : Z) (s : gstate) : outcome (Z * bool * gstate) :=
  p ← get_node s node;
  found ← find_by_names (reverse (pn_mnt_opt_names p)) (g_nvp s);
  match found with
  | Some i =>
      let value := g_nvp s !! i ≫= nv_value in
      let s := set_nvp (alter mark_processed i (g_nvp s)) s in
      match value with
      | Some v =>
          if negb (streq v (lit "(null)")) then
            if negb (alloc_ok 10348 (g_steps s)) then mret (- ENOMEM, false, s)
            else mret (0, true, upd_node node (set_val (Some v)) s)
          else mret (0, true, upd_node node (fun p => set_flags (Z.lor (pn_flags p) PARAMETER_SET) p) s)
      | None =>
          mret (0, true, upd_node node (fun p => set_flags (Z.lor (pn_flags p) PARAMETER_SET) p) s)
      end
  | None =>
      match pn_default_val p with
      | Some d =>
          if streq d (lit "NULL") then mret (0, false, s)
          else if negb (alloc_ok 10362 (g_steps s)) then mret (- ENOMEM, false, s)
          else mret (0, true, upd_node node (set_val (Some d)) s)
      | None => mret (0, false, s)
      end
  end.

(** [ctx->get_string] into [node->val]: the next answer of the user, an error
    at the end of the input. *)
Definition get_string (s : gstate) : Z * option cstring * gstate :=
  match g_input s with
  | [] => (- EIO, None, s)
  | (rc, v) :: input => (rc, v, set_input input s)
  end.

(** [*p] of a string pointer. *)
Definition deref_str (v : option cstring) : outcome cstring :=
  match v with Some x => mret x | None => UB NullDeref end.

(** The choices of a menu whose value is [v]; [strcmp] needs every value up to
    the first match. *)
Fixpoint is_choice (tl : list transition_node) (v : cstring) : outcome bool :=
  match tl with
  | [] => mret false
  | tn :: tl' => t ← deref_str (tn_val tn); if streq v t then mret true else is_choice tl' v
  end.

(** From the label [get_value] on: the code and the value. *)
Fixpoint get_value (k : nat) (tl : list transition_node) (suggested : option cstring)
    (input : list (Z * option cstring)) : outcome (Z * option cstring * list (Z * option cstring)) :=
  match input with
  | [] => mret (- EIO, None, [])
  | (rc, v) :: input' =>
      if negb (rc =? 0) then mret (rc, v, input')
      else
        text ← deref_str v;
        let val := atoi text in
        if (0 <? val) && (val <=? zlen tl) then
          match tl !! Z.to_nat (val - 1) with
          | None => UB OutOfBoundsRead
          | Some tn =>
              if negb (alloc_ok 10588 k) then mret (- ENOMEM, None, input')
              else mret (0, Some (show_str (tn_val tn)), input')
          end
        else if zlen text =? 0 then
          match suggested with
          | None => get_value k tl suggested input'
          | Some d =>
              if negb (alloc_ok 10599 k) then mret (- ENOMEM, None, input')
              else
                valid ← is_choice tl d;
                if valid : bool then mret (0, Some d, input') else get_value k tl suggested input'
          end
        else
          valid ← is_choice tl text;
          if valid : bool then mret (0, Some text, input') else get_value k tl suggested input'
  end.

(** The allocations for the prompt of a menu of [n] choices. *)
Definition menu_allocs (k n : nat) (pretty : bool) (p : param_node) : bool :=
  alloc_ok 10495 k && alloc_ok 10502 k &&
  forallb (fun i => alloc_ok 10509 (k * 64 + i) &&
                    alloc_ok (if pretty then 10517 else 10521) (k * 64 + i)) (seq 0 n) &&
  alloc_ok 10530 k &&
  alloc_ok (match pn_suggested_val p, pn_default_val p with
            | Some _, _ => 10538 | None, Some _ => 10541 | None, None => 10544 end) k &&
  alloc_ok 10560 k.

(** From the label [obtain_value] on; [tries] is its value after the
    increment, of which the fourth gives up. *)
Fixpoint obtain_value (fuel : nat) (k tries : nat) (node : Z) (s : gstate) : outcome (Z * gstate) :=
  match fuel with
  | O => mret (EINVAL, s)
  | S fuel' =>
      p ← get_node s node;
      if negb (alloc_ok (match pn_suggested_val p with Some _ => 10629 | None => 10632 end) (k * 4 + tries))
      then mret (- ENOMEM, s)
      else
        let '(rc, v, s) := get_string s in
        let s := upd_node node (set_val v) s in
        if negb (rc =? 0) then mret (rc, s)
        else
          text ← deref_str v;
          if (zlen text =? 0) && has_flag (pn_flags p) ECRYPTFS_NONEMPTY_VALUE_REQUIRED
          then obtain_value fuel' k (S tries) node s
          else
            let finish s :=
              if zlen text =? 0 then mret (0, upd_node node (set_val (pn_suggested_val p)) s)
              else mret (0, s) in
            if has_flag (pn_flags p) VERIFY_VALUE then
              if negb (alloc_ok 10658 (k * 4 + tries)) then mret (- ENOMEM, s)
              else
                let '(rc, verify, s) := get_string s in
                if negb (rc =? 0) then mret (- EIO, s)
                else
                  verify ← deref_str verify;
                  if negb (streq verify text)
                  then obtain_value fuel' k (S tries) node (upd_node node (set_val None) s)
                  else finish s
            else finish s
  end.

(** The loop over the successors of a node that may decide for it; the boolean
    is [value_retrieved].  [Some rc] leaves the function. *)
Fixpoint implicit_transition (ixs : list nat) (node : Z) (value_retrieved : bool) (s : gstate)
    : outcome (option Z * gstate) :=
  match ixs with
  | [] => mret (None, s)
  | i :: ixs' =>
      tn ← get_tn s node i;
      '(rc, value_retrieved, s) ←
        match tn_next_token tn with
        | Some next => retrieve_val next s
        | None => mret (0, value_retrieved, s)
        end;
      if negb (rc =? 0) then mret (Some rc, s)
      else if value_retrieved : bool then
        match tn_next_token tn with
        | None => UB NullDeref
        | Some next =>
            p ← get_node s next;
            if negb (alloc_ok 10438 (g_steps s)) then mret (Some (- ENOMEM), s)
            else mret (Some 0, upd_node node (set_val (Some (show_str (head (pn_mnt_opt_names p))))) s)
        end
      else implicit_transition ixs' node value_retrieved s
  end.

(** [has_get_string] tells whether the context has such a function. *)
Definition ask_user (has_get_string : bool) (node : Z) (s : gstate) : outcome (Z * gstate) :=
  p ← get_node s node;
  if has_flag (pn_flags p) ECRYPTFS_PARAM_FLAG_NO_VALUE then mret (0, s)
  else if (g_verbosity s =? 0) && negb (has_flag (pn_flags p) STDIN_REQUIRED) then mret (0, s)
  else if has_flag (pn_flags p) PARAMETER_SET && negb (has_flag (pn_flags p) STDIN_REQUIRED)
  then mret (0, s)
  else if negb has_get_string then mret (MOUNT_ERROR, s)
  else if has_flag (pn_flags p) DISPLAY_TRANSITION_NODE_VALS then
    match pn_tl p with
    | [tn] =>
        if negb (has_flag (pn_flags p) ECRYPTFS_PARAM_FORCE_DISPLAY_NODES) then
          if negb (alloc_ok 10487 (g_steps s)) then mret (- ENOMEM, s)
          else mret (0, upd_node node (set_val (Some (show_str (tn_val tn)))) s)
        else if negb (menu_allocs (g_steps s) 1 (has_flag (pn_flags p) ECRYPTFS_DISPLAY_PRETTY_VALS) p)
        then mret (- ENOMEM, s)
        else
          '(rc, v, input) ← get_value (g_steps s) (pn_tl p) (pn_suggested_val p) (g_input s);
          mret (rc, upd_node node (set_val v) (set_input input s))
    | tl =>
        if negb (menu_allocs (g_steps s) (length tl)
                   (has_flag (pn_flags p) ECRYPTFS_DISPLAY_PRETTY_VALS) p)
        then mret (- ENOMEM, s)
        else
          '(rc, v, input) ← get_value (g_steps s) tl (pn_suggested_val p) (g_input s);
          mret (rc, upd_node node (set_val v) (set_input input s))
    end
  else obtain_value 3 (g_steps s) 0 node s.

Definition alloc_and_get_val (has_get_string : bool) (node : Z) (s : gstate) : outcome (Z * gstate) :=
  p ← get_node s node;
  match pn_val p with
  | Some _ => mret (0, s)
  | None =>
      '(rc, value_retrieved, s) ← retrieve_val node s;
      if negb (rc =? 0) then mret (rc, s)
      else
        p ← get_node s node;
        if value_retrieved && negb (has_flag (pn_flags p) ECRYPTFS_ALLOW_IMPLICIT_TRANSITION &&
                                    has_flag (pn_flags p) ECRYPTFS_IMPLICIT_OVERRIDE_DEFAULT)
        then mret (0, s)
        else
          '(r, s) ←
            (if has_flag (pn_flags p) ECRYPTFS_ALLOW_IMPLICIT_TRANSITION &&
                negb (has_flag (pn_flags p) ECRYPTFS_NO_AUTO_TRANSITION)
             then implicit_transition (seq 0 (length (pn_tl p))) node value_retrieved s
             else mret (None, s));
          match r with
          | Some rc => mret (rc, s)
          | None => ask_user has_get_string node s
          end
  end.
End Values.

(** ** The walk *)
Section Walk.
Context `{Heap} (run_tf : trans_fn -> Z -> gstate -> running (Z * gstate)) (has_get_string : bool).

(** A transition function, if there is one; [none] is the code without it. *)
Definition call_tf (f : option trans_fn) (none : Z) (node : Z) (s : gstate) : running (Z * gstate) :=
  match f with Some f => run_tf f node s | None => go (none, s) end.

(** The result of following [node->tl[i]], which is read again: its function may
    have changed it. *)
Definition follow (rc missing : Z) (node : Z) (i : nat) (s : gstate)
    : outcome (Z * option Z * gstate) :=
  tn ← get_tn s node i;
  match tn_next_token tn with
  | Some next => mret (rc, Some next, s)
  | None => mret (missing, None, s)
  end.

(** The loop over the option list for transition [i]: [None] when no option
    decides. *)
Fixpoint try_nvps (current : Z) (i : nat) (nvps : list ecryptfs_name_val_pair) (s : gstate)
    : running (option (Z * option Z) * gstate) :=
  match nvps with
  | [] => go (None, s)
  | nvp :: nvps' =>
      tn ⇐ stays (get_tn s current i);
      matches ⇐ stays match tn_val tn with
                      | None => mret true
                      | Some v => name ← deref_str (nv_name nvp); mret (streq name v)
                      end;
      if negb matches then try_nvps current i nvps' s
      else
        '(trans_func_tok_id, s) ⇐ call_tf (tn_trans_func tn) NULL_TOK current s;
        if trans_func_tok_id =? MOUNT_ERROR then go (Some (MOUNT_ERROR, None), s)
        else if (trans_func_tok_id =? DEFAULT_TOK) || (trans_func_tok_id =? NULL_TOK) then
          '(rc, next, s) ⇐ stays (follow 0 (- EINVAL) current i s);
          go (Some (rc, next), s)
        else try_nvps current i nvps' s
  end.

(** The first loop of [do_transition]. *)
Fixpoint try_transitions (ixs : list nat) (current : Z) (s : gstate)
    : running (option (Z * option Z) * gstate) :=
  match ixs with
  | [] => go (None, s)
  | i :: ixs' =>
      p ⇐ stays (get_node s current);
      tn ⇐ stays (get_tn s current i);
      if match tn_val tn, pn_val p with Some t, Some v => streq v t | _, _ => false end then
        '(rc, s) ⇐ call_tf (tn_trans_func tn) 0 current s;
        '(rc, next, s) ⇐ stays (follow rc EINVAL current i s);
        go (Some (rc, next), s)
      else
        '(r, s) ⇐ try_nvps current i (g_nvp s) s;
        match r with
        | Some _ => go (r, s)
        | None => try_transitions ixs' current s
        end
  end.

(** The second loop: the first transition named "default". *)
Fixpoint try_default (ixs : list nat) (current : Z) (s : gstate)
    : running (option (Z * option Z) * gstate) :=
  match ixs with
  | [] => go (None, s)
  | i :: ixs' =>
      tn ⇐ stays (get_tn s current i);
      if match tn_val tn with Some t => streq (lit "default") t | None => false end then
        '(trans_func_tok_id, s) ⇐ call_tf (tn_trans_func tn) NULL_TOK current s;
        if trans_func_tok_id =? WRONG_VALUE then
          p ⇐ stays (get_node s current);
          if negb (g_verbosity s =? 0) || has_flag (pn_flags p) STDIN_REQUIRED then
            let s := set_repeated (g_repeated s + 1) s in
            if 5 <=? g_repeated s then go (Some (- EINVAL, None), s)
            else go (Some (0, Some current), s)
          else go (Some (- EINVAL, None), s)
        else if (trans_func_tok_id =? MOUNT_ERROR) || (trans_func_tok_id <? 0)
        then go (Some (trans_func_tok_id, None), s)
        else
          '(rc, next, s) ⇐ stays (follow 0 (- EINVAL) current i s);
          go (Some (rc, next), s)
      else try_default ixs' current s
  end.

(** The code and [*next], which matters only when the code is 0. *)
Definition do_transition (current : Z) (s : gstate) : running (Z * option Z * gstate) :=
  let s := if bool_decide (g_lastnode s = Some current) then s else set_repeated 0 s in
  let s := set_lastnode (Some current) s in
  p ⇐ stays (get_node s current);
  '(r, s) ⇐ try_transitions (seq 0 (length (pn_tl p))) current s;
  match r with
  | Some (rc, next) => go (rc, next, s)
  | None =>
      p ⇐ stays (get_node s current);
      '(r, s) ⇐ try_default (seq 0 (length (pn_tl p))) current s;
      match r with
      | Some (rc, next) => go (rc, next, s)
      | None =>
          p ⇐ stays (get_node s current);
          go (if negb (zlen (pn_tl p) =? 0) then MOUNT_ERROR else NULL_TOK, None, s)
      end
  end.

Fixpoint get_verbosity (nvps : list ecryptfs_name_val_pair) : outcome Z :=
  match nvps with
  | [] => mret 1
  | temp :: nvps' =>
      name ← deref_str (nv_name temp);
      if streq name (lit "verbosity") then v ← deref_str (nv_value temp); mret (atoi v)
      else get_verbosity nvps'
  end.

(** How a walk ends. *)
Inductive walk_end :=
  | OutOfFuel
  | Exited
  | Returned (rc : Z) (s : gstate).

(** The body of the [do] loop of [eval_param_tree]: its result, or the next
    node. *)
Definition eval_step (node : Z) (s : gstate) : running (Z * option Z * gstate) :=
  let s := set_steps (S (g_steps s)) s in
  '(rc, s) ⇐ stays (alloc_and_get_val has_get_string node s);
  if negb (rc =? 0) then go (rc, None, s) else do_transition node s.

Fixpoint eval_loop (fuel : nat) (node : Z) (s : gstate) : outcome walk_end :=
  match fuel with
  | O => mret OutOfFuel
  | S fuel' =>
      r ← eval_step node s;
      match r with
      | None => mret Exited
      | Some (rc, next, s) =>
          if negb (rc =? 0) then mret (Returned rc s)
          else match next with
          | Some next => eval_loop fuel' next s
          | None => UB NullDeref
          end
      end
  end.

Definition eval_param_tree (fuel : nat) (node : Z) (s : gstate) : outcome walk_end :=
  verbosity ← get_verbosity (g_nvp s);
  eval_loop fuel node (set_foo FooNull (set_verbosity verbosity s)).

(** The head of the stack, which the caller allocated, becomes its only entry. *)
Definition ecryptfs_eval_decision_graph (fuel : nat) (root_node : Z) (s : gstate)
    : outcome walk_end :=
  match g_mnt s with
  | [] => UB NullDeref
  | _ :: _ =>
      r ← eval_param_tree fuel root_node (set_mnt [None] s);
      match r with
      | Returned rc s =>
          mret (Returned (if (0 <? rc) && negb (rc =? MOUNT_ERROR) then 0 else rc) s)
      | _ => mret r
      end
  end.
End Walk.

(** ** Linear subgraphs
    The graph of a key module that only lists its parameters: a chain of nodes,
    whose values become the parameter values of the module. *)
Definition ecryptfs_map_flags (param_flags nvp_flags : Z) : Z :=
  if has_flag nvp_flags ECRYPTFS_PARAM_FLAG_ECHO_INPUT
  then Z.lor param_flags ECRYPTFS_PARAM_FLAG_ECHO_INPUT else param_flags.

Definition set_param_vals (vals : list (option cstring)) (m : ecryptfs_key_mod) : ecryptfs_key_mod :=
  KeyModEntry (km_lib_handle m) (km_alias m) (km_lib_path m) (km_ops m) vals (km_blob m)
    (km_blob_size m).

(** The position of the module [ecryptfs_find_key_mod] finds. *)
Definition key_mod_index (mods : key_mod_list) (key_mod_alias : cstring) : option nat :=
  fst <$> list_find (fun m => Is_true (match km_alias m with
                                       | Some a => prefixb a key_mod_alias
                                       | None => false
                                       end)) mods.

Section Linear.
Context `{Heap, Nss, Sys} (big_endian : bool).

Definition ecryptfs_enter_linear_subgraph_tf (node : Z) (s : gstate) : running (Z * gstate) :=
  if negb (alloc_ok 10942 (g_steps s)) then go (- ENOMEM, s)
  else
    p ⇐ stays (get_node s node);
    match g_mods s with
    | [] => go (1, s)
    | mods =>
        alias ⇐ stays (deref_str (pn_val p));
        key_mod ⇐ stays (ecryptfs_find_key_mod mods alias);
        match key_mod, key_mod_index mods alias with
        | Some _, Some i => go (0, set_foo (FooCtx i []) s)
        | _, _ => go (1, s)
        end
    end.

Definition ecryptfs_linear_subgraph_val_tf (node : Z) (s : gstate) : running (Z * gstate) :=
  p ⇐ stays (get_node s node);
  match pn_val p with
  | None => go (0, s)
  | Some v =>
      if negb (alloc_ok 10980 (g_steps s) && alloc_ok 10985 (g_steps s)) then go (- ENOMEM, s)
      else match g_foo s with
      | FooNull => UB NullDeref
      | FooFreed => UB UseAfterFree
      | FooModule _ _ | FooProvider _ _ => UB TypeConfusion
      | FooCtx key_mod vals => go (0, set_foo (FooCtx key_mod (vals ++ [v])) s)
      end
  end.

Definition ecryptfs_exit_linear_subgraph_tf (s : gstate) : running (Z * gstate) :=
  match g_foo s with
  | FooNull => UB NullDeref
  | FooFreed => UB UseAfterFree
  | FooModule _ _ | FooProvider _ _ => UB TypeConfusion
  | FooCtx i vals =>
      match g_mods s !! i with
      | None => UB NullDeref
      | Some key_mod =>
          let freed := set_foo FooFreed in
          match vals with
          | [] => go (0, freed (set_mods (<[i := set_param_vals [] key_mod]> (g_mods s)) s))
          | _ =>
              if negb (alloc_ok 11035 (g_steps s)) then go (- ENOMEM, freed s)
              else if negb (forallb (fun j => alloc_ok 11043 (g_steps s * 64 + j)) (seq 0 (length vals)))
              then go (- ENOMEM, freed s)
              else
                let key_mod := set_param_vals (Some <$> vals) key_mod in
                let s := set_mods (<[i := key_mod]> (g_mods s)) s in
                r ⇐ ecryptfs_add_key_module_key_to_keyring big_endian (g_keyring s)
                      (malloc_block heap_junk (ECRYPTFS_SIG_SIZE_HEX + 1)) key_mod;
                let '(rc, sig, kr) := r in
                let s := set_keyring kr s in
                if rc <? 0 then go (rc, freed s)
                else if negb (alloc_ok 11061 (g_steps s)) then go (- ENOMEM, freed s)
                else
                  sig ⇐ stays (cstr_of sig);
                  let '(rc, s) := stack_push (Some (lit "ecryptfs_sig=" ++ sig)) s in
                  go (rc, freed s)
          end
      end
  end.

(** The allocations for parameter [j] of key module [k]. *)
Definition linear_node_allocs (k j : nat) (p : key_mod_param) : bool :=
  let n := (k * 64 + j)%nat in
  alloc_ok 11157 n && alloc_ok 11162 n &&
  alloc_ok (match kmp_description p with Some _ => 11169 | None => 11175 end) n &&
  match kmp_default_val p with Some _ => alloc_ok 11181 n | None => true end &&
  match kmp_suggested_val p with Some _ => alloc_ok 11187 n | None => true end &&
  alloc_ok 11197 n.

Definition linear_node (p : key_mod_param) (next : Z) : param_node :=
  ParamNode [kmp_option p] (Some (default (kmp_option p) (kmp_description p))) None
    (kmp_default_val p) (kmp_suggested_val p) (ecryptfs_map_flags 0 (kmp_flags p))
    [TransNode (Some (lit "default")) None (Some next) (Some LinearSubgraphVal)].

Definition linear_subgraph_exit_dummy_node : param_node :=
  ParamNode [lit "linear_subgraph_exit_dummy_node"] None None None None ECRYPTFS_PARAM_FLAG_NO_VALUE
    [TransNode (Some (lit "default")) None None (Some ExitLinearSubgraph)].

(** The nodes for the parameters from address [id] on, and the exit node after
    them. *)
Fixpoint linear_nodes (k j : nat) (params : list key_mod_param) (id : Z) (nodes : gmap Z param_node)
    : option (gmap Z param_node * Z) :=
  match params with
  | [] =>
      if negb (alloc_ok 11204 k && alloc_ok 11209 k && alloc_ok 11218 k) then None
      else Some (<[id := linear_subgraph_exit_dummy_node]> nodes, id + 1)
  | p :: params' =>
      if negb (linear_node_allocs k j p) then None
      else linear_nodes k (S j) params' (id + 1) (<[id := linear_node p (id + 1)]> nodes)
  end.

(** The code of an empty list of parameters is overwritten. *)
Definition ecryptfs_build_linear_subgraph (k : nat) (key_mod : ecryptfs_key_mod) (s : gstate)
    : outcome (Z * option transition_node * gstate) :=
  '(rc, params) ← call (op_get_params (km_ops key_mod));
  if negb (rc =? 0) then mret (rc, None, s)
  else if negb (alloc_ok 11138 k && alloc_ok 11144 k && alloc_ok 11148 k)
  then mret (- ENOMEM, None, s)
  else
    let alias := show_str (km_alias key_mod) in
    match linear_nodes k 0 params (g_next_id s) (g_nodes s) with
    | None => mret (- ENOMEM, None, s)
    | Some (nodes, id) =>
        mret (0, Some (TransNode (Some alias) (Some alias) (Some (g_next_id s))
                         (Some EnterLinearSubgraph)),
              set_next_id id (set_nodes nodes s))
    end.
End Linear.

(** ** Specification *)

(** A pair that can supply the option [name]. *)
Definition available (name : cstring) (nvp : ecryptfs_name_val_pair) : bool :=
  match nv_name nvp with
  | Some n => streq n name && negb (has_flag (nv_flags nvp) ECRYPTFS_PROCESSED)
  | None => false
  end.
Definition named (nvps : list ecryptfs_name_val_pair) : Prop :=
  Forall (fun nvp => is_Some (nv_name nvp)) nvps.

(** One option list can come from another by using up pairs. *)
Definition pair_used (a b : ecryptfs_name_val_pair) : Prop :=
  b = a \/ b = mark_processed a /\ has_flag (nv_flags a) ECRYPTFS_PROCESSED = false.
Definition options_used : list ecryptfs_name_val_pair -> list ecryptfs_name_val_pair -> Prop :=
  Forall2 pair_used.

(** The number of pairs not used yet. *)
Definition pending (nvps : list ecryptfs_name_val_pair) : nat :=
  length (filter (fun nvp => has_flag (nv_flags nvp) ECRYPTFS_PROCESSED = false) nvps).

(** The graph: one node leads to another. *)
Definition leads_to (nodes : gmap Z param_node) (n m : Z) : Prop :=
  exists p tn, nodes !! n = Some p /\ tn ∈ pn_tl p /\ tn_next_token tn = Some m.
Definition reaches (nodes : gmap Z param_node) : Z -> Z -> Prop := rtc (leads_to nodes).

(** A graph without cycles: [rank] goes down along transitions, to nodes that
    exist. *)
Definition ranked (rank : Z -> nat) (nodes : gmap Z param_node) : Prop :=
  forall n m, leads_to nodes n m -> (rank m < rank n)%nat /\ is_Some (nodes !! m).

(** A node whose open transitions lead to [exit]. *)
Definition seal_tn (exit : Z) (tn : transition_node) : transition_node :=
  match tn_next_token tn with None => set_exit exit tn | Some _ => tn end.
Definition seal (exit : Z) (p : param_node) : param_node :=
  set_tl (seal_tn exit <$> pn_tl p) p.

(** ** Lemmas on the graph *)
Lemma seal_tn_idemp exit tn : seal_tn exit (seal_tn exit tn) = seal_tn exit tn.
Proof. unfold seal_tn. by destruct (tn_next_token tn) eqn:Htn; cbn; rewrite ?Htn. Qed.

Lemma seal_idemp exit p : seal exit (seal exit p) = seal exit p.
Proof.
  unfold seal, set_tl. cbn. f_equal. rewrite <- list_fmap_compose.
  apply list_fmap_ext. intros i tn _. apply seal_tn_idemp.
Qed.

Lemma set_tl_pn_tl p : set_tl (pn_tl p) p = p.
Proof. by destruct p. Qed.
Lemma set_tl_set_tl l l' p : set_tl l (set_tl l' p) = set_tl l p.
Proof. done. Qed.
Lemma pn_tl_set_tl l p : pn_tl (set_tl l p) = l.
Proof. done. Qed.

Lemma seal_tn_closed exit tn : is_Some (tn_next_token tn) -> seal_tn exit tn = tn.
Proof. unfold seal_tn. by intros [m ->]. Qed.

Lemma seal_closed exit p :
  (forall tn, tn ∈ pn_tl p -> is_Some (tn_next_token tn)) -> seal exit p = p.
Proof.
  intros Hc. unfold seal. transitivity (set_tl (id <$> pn_tl p) p);
    [|by rewrite list_fmap_id, set_tl_pn_tl].
  f_equal. apply list_fmap_ext. intros i tn Hi.
  by apply seal_tn_closed, Hc, (list_elem_of_lookup_2 _ i).
Qed.

Section SetExit.
Context (rank : Z -> nat) (G : gmap Z param_node) (exit : Z).
Hypothesis G_ranked : ranked rank G.
(** The exit lies below every node with an open transition. *)
Hypothesis exit_below : forall n p tn,
  G !! n = Some p -> tn ∈ pn_tl p -> tn_next_token tn = None ->
  (rank exit < rank n)%nat /\ is_Some (G !! exit).

Lemma reaches_rank n m : reaches G n m -> (rank m <= rank n)%nat.
Proof. induction 1 as [|n k m Hs _ IH]; [lia|]. apply G_ranked in Hs as [Hs _]. lia. Qed.

Lemma below_exit_closed m : reaches G exit m -> seal exit <$> G !! m = G !! m.
Proof.
  intros Hr%reaches_rank. destruct (G !! m) as [p|] eqn:Hp; [|done]. cbn. f_equal.
  apply seal_closed. intros tn Htn. destruct (tn_next_token tn) eqn:Hn; [done|].
  destruct (exit_below m p tn) as [? _]; [done..|lia].
Qed.

(** Nodes of rank below [b] are as in [G] or sealed. *)
Definition mixed (b : nat) (nodes : gmap Z param_node) : Prop :=
  forall m, (rank m < b)%nat -> nodes !! m = G !! m \/ nodes !! m = seal exit <$> G !! m.
(** What changes from [nodes] to [nodes'] is sealed and was reached from [n]. *)
Definition seals (n : Z) (nodes nodes' : gmap Z param_node) : Prop :=
  forall m, nodes' !! m = nodes !! m \/ reaches G n m /\ nodes' !! m = seal exit <$> G !! m.
Definition sealed (n : Z) (nodes : gmap Z param_node) : Prop :=
  forall m, reaches G n m -> nodes !! m = seal exit <$> G !! m.

Lemma seals_mixed b n nodes nodes' : seals n nodes nodes' -> mixed b nodes -> mixed b nodes'.
Proof. intros Hs Hm m Hb. destruct (Hs m) as [->|[_ ->]]; auto. Qed.
Lemma seals_sealed n k nodes nodes' : seals n nodes nodes' -> sealed k nodes -> sealed k nodes'.
Proof. intros Hs Hk m Hm. destruct (Hs m) as [->|[_ ->]]; auto. Qed.
Lemma seals_trans n nodes1 nodes2 nodes3 :
  seals n nodes1 nodes2 -> seals n nodes2 nodes3 -> seals n nodes1 nodes3.
Proof. intros H1 H2 m. destruct (H2 m) as [->|?]; auto. Qed.
Lemma seals_step n k nodes nodes' : leads_to G n k -> seals k nodes nodes' -> seals n nodes nodes'.
Proof. intros Hl Hs m. destruct (Hs m) as [?|[??]]; [by left|right]. split; [by eapply rtc_l|done]. Qed.
Lemma seals_exit n b nodes nodes' :
  (rank exit < b)%nat -> mixed b nodes -> seals exit nodes nodes' -> seals n nodes nodes'.
Proof.
  intros Hb Hm Hs m. destruct (Hs m) as [?|[Hr Heq]]; [by left|left].
  rewrite Heq. pose proof (reaches_rank _ _ Hr).
  destruct (Hm m) as [->| ->]; [lia| |done]. by apply below_exit_closed.
Qed.
Lemma seals_above n nodes nodes' m : seals n nodes nodes' -> (rank n < rank m)%nat -> nodes' !! m = nodes !! m.
Proof. intros Hs Hr. destruct (Hs m) as [?|[?%reaches_rank _]]; [done|lia]. Qed.

(** Node [n] while its first [k] transitions have been handled. *)
Definition half_sealed (k : nat) (n : Z) (p : param_node) (nodes : gmap Z param_node) : Prop :=
  exists l, nodes !! n = Some (set_tl l p) /\ length l = length (pn_tl p) /\
    forall i tn, pn_tl p !! i = Some tn ->
      exists tn', l !! i = Some tn' /\
        (tn' = seal_tn exit tn \/ tn' = tn /\ (k <= i)%nat).

Lemma half_sealed_start n p nodes :
  G !! n = Some p -> mixed (S (rank n)) nodes -> half_sealed 0 n p nodes.
Proof.
  intros Hp Hm. destruct (Hm n) as [Hn|Hn]; [lia| |]; rewrite Hp in Hn.
  - exists (pn_tl p). rewrite set_tl_pn_tl. split_and!; [done..|].
    intros i tn Hi. exists tn. split; [done|right]. split; [done|lia].
  - exists (seal_tn exit <$> pn_tl p). split_and!; [done|by rewrite length_fmap|].
    intros i tn Hi. exists (seal_tn exit tn). rewrite list_lookup_fmap, Hi. auto.
Qed.

Lemma half_sealed_done n p nodes :
  half_sealed (length (pn_tl p)) n p nodes -> nodes !! n = Some (seal exit p).
Proof.
  intros (l & Hn & Hl & Hi). rewrite Hn. f_equal. unfold seal. f_equal.
  apply list_eq_same_length with (length l); [by rewrite length_fmap|done|].
  intros i tn tn' Hlt Htn Htn'. rewrite list_lookup_fmap in Htn'.
  destruct (pn_tl p !! i) as [t|] eqn:Ht; [|done]. cbn in Htn'.
  destruct (Hi i t Ht) as (x & Hx & [->|[_ ?]]); [|lia]. congruence.
Qed.

Lemma half_sealed_next k n p nodes tn :
  half_sealed k n p nodes -> pn_tl p !! k = Some tn ->
  (exists l, nodes !! n = Some (set_tl l p) /\ l !! k = Some (seal_tn exit tn)) ->
  half_sealed (S k) n p nodes.
Proof.
  intros (l & Hn & Hl & Hi) Htn (l' & Hn' & Hk).
  assert (l' = l) as -> by (rewrite Hn in Hn'; by injection Hn').
  exists l. split_and!; [done..|]. intros i t Ht. destruct (decide (i = k)) as [->|Hne].
  - exists (seal_tn exit tn). split; [done|left; congruence].
  - destruct (Hi i t Ht) as (t' & ? & [?|[? ?]]); exists t'; (split; [done|]); [by left|].
    right. split; [done|lia].
Qed.

Lemma half_sealed_set k n p nodes l tn :
  half_sealed k n p nodes -> nodes !! n = Some (set_tl l p) ->
  pn_tl p !! k = Some tn -> l !! k = Some tn -> tn_next_token tn = None ->
  half_sealed (S k) n p (<[n := set_tl (alter (set_exit exit) k l) (set_tl l p)]> nodes).
Proof.
  intros (l' & Hn & Hl & Hi) Hn' Htn Hk Hnone.
  assert (l' = l) as -> by (rewrite Hn in Hn'; by injection Hn').
  eexists. rewrite lookup_insert_eq, set_tl_set_tl. split_and!; [done|by rewrite length_alter|].
  intros i t Ht. destruct (decide (i = k)) as [->|Hne].
  - exists (set_exit exit tn). rewrite list_lookup_alter_eq, Hk. split; [done|left].
    unfold seal_tn. assert (t = tn) as -> by congruence. by rewrite Hnone.
  - rewrite list_lookup_alter_ne by done.
    destruct (Hi i t Ht) as (t' & ? & [?|[? ?]]); exists t'; (split; [done|]); [by left|].
    right. split; [done|lia].
Qed.

(** What the recursive call does at a node below [b]. *)
Definition sealing_call (b : nat)
    (rec : Z -> gmap Z param_node -> outcome (option (gmap Z param_node))) : Prop :=
  forall n nodes, (rank n < b)%nat -> is_Some (G !! n) -> mixed (S (rank n)) nodes ->
  exists nodes', rec n nodes = Ok (Some nodes') /\ seals n nodes nodes' /\ sealed n nodes'.

(** The node a handled transition leads to lies below and is sealed. *)
Lemma sealing_call_next b rec n p k tn tn' m nodes :
  sealing_call b rec -> G !! n = Some p -> (rank n <= b)%nat -> mixed (rank n) nodes ->
  pn_tl p !! k = Some tn -> tn' = seal_tn exit tn \/ tn' = tn ->
  tn_next_token tn' = Some m ->
  exists nodes', rec m nodes = Ok (Some nodes') /\ seals n nodes nodes' /\
    nodes' !! n = nodes !! n /\ (tn_next_token tn = Some m -> sealed m nodes').
Proof.
  intros Hrec Hp Hb Hm Htn Htn' Hnext.
  pose proof (list_elem_of_lookup_2 _ _ _ Htn) as Hin.
  assert ((rank m < rank n)%nat /\ is_Some (G !! m) /\
          (tn_next_token tn = Some m \/ m = exit)) as (Hlt & Hs & Hor).
  { destruct (tn_next_token tn) as [m'|] eqn:Hn.
    - assert (tn' = tn) as -> by (destruct Htn' as [->|]; [by apply seal_tn_closed; rewrite Hn|done]).
      destruct (G_ranked n m') as [? ?]; [by exists p, tn|]. split_and!; [|congruence|left]; congruence.
    - destruct (exit_below n p tn) as [? ?]; [done..|].
      destruct Htn' as [->| ->]; [|congruence]. unfold seal_tn in Hnext. rewrite Hn in Hnext.
      injection Hnext as <-. auto. }
  destruct (Hrec m nodes) as (nodes' & Hr & Hseals & Hsealed); [lia|done|intros ? ?; apply Hm; lia|].
  exists nodes'. split_and!; [done| |by apply (seals_above m)|done].
  destruct Hor as [Hn| ->]; [|by apply (seals_exit n (rank n))].
  apply (seals_step n m); [by exists p, tn|done].
Qed.

Lemma set_exit_loop_ok b rec n p len k nodes :
  sealing_call b rec -> G !! n = Some p -> (rank n <= b)%nat ->
  (k + len)%nat = length (pn_tl p) -> mixed (rank n) nodes -> half_sealed k n p nodes ->
  exists nodes',
    set_exit_loop rec exit true n (seq k len) nodes = Ok (Some nodes') /\
    (forall m, m <> n -> nodes' !! m = nodes !! m \/
                         reaches G n m /\ nodes' !! m = seal exit <$> G !! m) /\
    half_sealed (k + len) n p nodes' /\
    (forall i tn m, (k <= i)%nat -> pn_tl p !! i = Some tn -> tn_next_token tn = Some m ->
                    sealed m nodes').
Proof.
  intros Hrec Hp Hb. revert k nodes. induction len as [|len IH]; intros k nodes Hlen Hm Hh.
  { exists nodes. rewrite Nat.add_0_r. split_and!; [done|by left|done|].
    intros i tn m Hi Htn. apply lookup_lt_Some in Htn. lia. }
  cbn [seq set_exit_loop].
  destruct (lookup_lt_is_Some_2 (pn_tl p) k) as [tn Htn]; [lia|].
  pose proof Hh as (l & Hn & Hl & Hi). destruct (Hi k tn Htn) as (tn' & Htn' & Hor).
  rewrite Hn, pn_tl_set_tl, Htn'.
  destruct (tn_next_token tn') as [m|] eqn:Hnext.
  - destruct (sealing_call_next b rec n p k tn tn' m nodes) as (nodes1 & -> & Hs & Hn1 & Hsm);
      [done..|tauto|done|].
    rewrite bind_Ok.
    assert (seal_tn exit tn = tn') as Htn''.
    { destruct Hor as [->|[-> _]]; [done|]. by apply seal_tn_closed; rewrite Hnext. }
    destruct (IH (S k) nodes1) as (nodes' & Heq & Hoth & Hh' & Hsub); [lia|by eapply seals_mixed| |].
    { apply (half_sealed_next k n p nodes1 tn); [by exists l; rewrite Hn1|done|].
      exists l. by rewrite Hn1, Htn''. }
    exists nodes'. rewrite Heq. split_and!; [done| |by rewrite <- Nat.add_succ_comm|].
    + intros x Hx. destruct (Hoth x Hx) as [->|?]; auto.
    + intros i t x Hki Ht Hx. destruct (decide (i = k)) as [->|]; [|apply (Hsub i t); [lia|done..]].
      assert (t = tn) as -> by congruence.
      assert (x = m) as -> by (rewrite <- Htn'' in Hnext; rewrite seal_tn_closed in Hnext; [congruence|by exists x]).
      intros y Hy. destruct (Hoth y) as [->|[_ ->]]; [|by apply Hsm|done].
      intros ->. apply reaches_rank in Hy. destruct (G_ranked n m); [|lia].
      exists p, tn. split_and!; [done| |done]. by apply (list_elem_of_lookup_2 _ k).
  - assert (tn' = tn) as ->.
    { destruct Hor as [->|[? _]]; [|done]. unfold seal_tn in Hnext |- *.
      destruct (tn_next_token tn) eqn:?; [done|]. by cbn in Hnext. }
    assert (Hn1 := half_sealed_set k n p nodes l tn Hh Hn Htn Htn' Hnext).
    destruct (IH (S k) (<[n := set_tl (alter (set_exit exit) k l) (set_tl l p)]> nodes))
      as (nodes' & Heq & Hoth & Hh' & Hsub); [lia| |done|].
    { intros m Hlt. rewrite lookup_insert_ne by (intros ->; lia). by apply Hm. }
    exists nodes'. rewrite Heq. split_and!; [done| |by rewrite <- Nat.add_succ_comm|].
    + intros x Hx. destruct (Hoth x Hx) as [->|?]; [left|by right]. by rewrite lookup_insert_ne.
    + intros i t x Hki Ht Hx. destruct (decide (i = k)) as [->|]; [congruence|apply (Hsub i t); [lia|done..]].
Qed.

Lemma set_exit_node_ok fuel : sealing_call fuel (set_exit_param_node_for_node fuel exit true).
Proof.
  induction fuel as [|fuel IH]; intros n nodes Hr [p Hp] Hm; [lia|].
  cbn [set_exit_param_node_for_node].
  pose proof (half_sealed_start n p nodes Hp Hm) as Hh.
  pose proof Hh as (l & Hn & Hl & _). rewrite Hn, pn_tl_set_tl, Hl.
  destruct (set_exit_loop_ok fuel _ n p (length (pn_tl p)) 0 nodes IH)
    as (nodes' & -> & Hoth & Hh' & Hsub); [done|lia|done|intros ? ?; apply Hm; lia|done|].
  apply half_sealed_done in Hh'.
  exists nodes'. split_and!; [done| |].
  - intros m. destruct (decide (m = n)) as [->|?]; [|by apply Hoth].
    right. split; [apply rtc_refl|]. by rewrite Hh', Hp.
  - intros m Hreach. inversion Hreach as [|? k ? Hl1 Hrest]; subst; [by rewrite Hh', Hp|].
    destruct Hl1 as (q & tn & Hq & [i Htn]%list_elem_of_lookup & Hx).
    assert (q = p) as -> by congruence. by apply (Hsub i tn k); [lia|..].
Qed.
End SetExit.

(** ** Lemmas on options *)
Lemma find_nvp_some name i l j :
  find_nvp name i l = Ok (Some j) ->
  exists k a, j = (i + k)%nat /\ l !! k = Some a /\ available name a = true /\
    forall k' b, (k' < k)%nat -> l !! k' = Some b -> available name b = false.
Proof.
  revert i. induction l as [|a l IH]; intros i; cbn [find_nvp]; [done|].
  destruct (nv_name a) as [n|] eqn:Hn; [|done].
  destruct (_ && _) eqn:Ha.
  - intros [= <-]. exists 0%nat, a. rewrite Nat.add_0_r. split_and!; [done..| |lia].
    unfold available. by rewrite Hn.
  - intros (k & b & -> & Hk & Hb & Hmin)%IH. exists (S k), b. split_and!; [lia|done..|].
    intros [|k'] c Hlt Hc; [injection Hc as <-; unfold available; by rewrite Hn|].
    apply (Hmin k'); [lia|done].
Qed.

Lemma find_nvp_none name i l :
  find_nvp name i l = Ok None -> forall k b, l !! k = Some b -> available name b = false.
Proof.
  revert i. induction l as [|a l IH]; intros i; cbn [find_nvp]; [done|].
  destruct (nv_name a) as [n|] eqn:Hn; [|done]. destruct (_ && _) eqn:Ha; [done|].
  intros Hf [|k] b Hb; [injection Hb as <-; unfold available; by rewrite Hn|by eapply IH].
Qed.

Lemma find_by_names_some names l i :
  find_by_names names l = Ok (Some i) ->
  exists name a, name ∈ names /\ l !! i = Some a /\ available name a = true.
Proof.
  induction names as [|name names IH]; cbn [find_by_names]; [done|].
  intros (r & Hf & Hr)%bind_ok_inv. destruct r as [j|].
  - injection Hr as ->. apply find_nvp_some in Hf as (k & a & -> & Hk & Ha & _).
    exists name, a. split_and!; [by left|done..].
  - destruct (IH Hr) as (n & a & ? & ?). exists n, a. split; [by right|done].
Qed.

Lemma find_by_names_none names l :
  find_by_names names l = Ok None ->
  forall name k b, name ∈ names -> l !! k = Some b -> available name b = false.
Proof.
  induction names as [|n names IH]; cbn [find_by_names]; [by intros _ ? ? ? ?%elem_of_nil|].
  intros (r & Hf & Hr)%bind_ok_inv. destruct r as [j|]; [done|].
  intros name k b [->|Hin]%elem_of_cons Hb; [by eapply find_nvp_none|by eapply IH].
Qed.

Lemma available_fresh name a : available name a = true -> has_flag (nv_flags a) ECRYPTFS_PROCESSED = false.
Proof. unfold available. destruct (nv_name a); [|done]. by intros [_ ?%negb_true_iff]%andb_true_iff. Qed.

Lemma mark_processed_flag a : has_flag (nv_flags (mark_processed a)) ECRYPTFS_PROCESSED = true.
Proof.
  unfold has_flag, mark_processed, ECRYPTFS_PROCESSED. cbn [nv_flags].
  destruct (Z.land _ 8 =? 0) eqn:Hz; [|done]. apply Z.eqb_eq in Hz.
  assert (Z.testbit (Z.land (Z.lor (nv_flags a) 8) 8) 3 = true) as Hb
    by (rewrite Z.land_spec, Z.lor_spec; by rewrite orb_true_r).
  by rewrite Hz in Hb.
Qed.

Lemma options_used_refl l : options_used l l.
Proof. apply Forall2_same_length_lookup_2; [done|]. intros i a b Ha Hb. left. congruence. Qed.

Lemma options_used_mark l i a :
  l !! i = Some a -> has_flag (nv_flags a) ECRYPTFS_PROCESSED = false ->
  options_used l (alter mark_processed i l).
Proof.
  intros Hi Hf. apply Forall2_same_length_lookup_2; [by rewrite length_alter|].
  intros j x y Hx Hy. destruct (decide (j = i)) as [->|Hne].
  - rewrite list_lookup_alter_eq, Hi in Hy. injection Hy as <-.
    rewrite Hi in Hx. injection Hx as <-. by right.
  - rewrite list_lookup_alter_ne in Hy by done. left. congruence.
Qed.

Lemma pair_used_trans a b c : pair_used a b -> pair_used b c -> pair_used a c.
Proof.
  intros [->|[-> Ha]] [->|[-> Hb]]; [by left|by right|by right|].
  by rewrite mark_processed_flag in Hb.
Qed.

#[export] Instance options_used_preorder : PreOrder options_used.
Proof.
  split; [intros l; apply options_used_refl|].
  intros l1 l2 l3 H12 H23. eapply Forall2_trans; [|exact H12|exact H23].
  intros a b c. apply pair_used_trans.
Qed.

Lemma pending_mark l i a :
  l !! i = Some a -> has_flag (nv_flags a) ECRYPTFS_PROCESSED = false ->
  S (pending (alter mark_processed i l)) = pending l.
Proof.
  intros Hi Hf. unfold pending.
  rewrite <- (take_drop_middle l i a Hi) at 2.
  assert (alter mark_processed i l = take i l ++ mark_processed a :: drop (S i) l) as ->.
  { rewrite <- (take_drop_middle l i a Hi) at 1.
    assert (i = length (take i l) + 0)%nat as Hlen
      by (rewrite length_take; apply lookup_lt_Some in Hi; lia).
    rewrite Hlen at 1. by rewrite alter_app_r. }
  rewrite !filter_app, !length_app. cbn [filter list_filter].
  rewrite decide_False by (by rewrite mark_processed_flag).
  rewrite decide_True by (exact Hf). cbn [length]. lia.
Qed.

(** The option list after [retrieve_val]. *)
Lemma retrieve_val_nvp `{Heap} node s rc found s' :
  retrieve_val node s = Ok (rc, found, s') ->
  exists p, g_nodes s !! node = Some p /\
  ((exists i name a, name ∈ pn_mnt_opt_names p /\ g_nvp s !! i = Some a /\
      available name a = true /\ g_nvp s' = alter mark_processed i (g_nvp s)) \/
   (g_nvp s' = g_nvp s /\
    forall name k b, name ∈ pn_mnt_opt_names p -> g_nvp s !! k = Some b -> available name b = false)).
Proof.
  unfold retrieve_val, get_node. intros (p & Hp & Hr)%bind_ok_inv.
  destruct (g_nodes s !! node) as [p'|]; [|done]. injection Hp as ->. exists p. split; [done|].
  apply bind_ok_inv in Hr as (r & Hf & Hr). destruct r as [i|].
  - apply find_by_names_some in Hf as (name & a & Hin & Hi & Ha).
    left. exists i, name, a. rewrite elem_of_reverse in Hin. split_and!; [done..|].
    unfold mret, outcome_ret in Hr. repeat case_match; simplify_eq; done.
  - right. split; [unfold mret, outcome_ret in Hr; repeat case_match; simplify_eq; done|].
    intros name k b Hin. eapply find_by_names_none; [done|]. by rewrite elem_of_reverse.
Qed.

Lemma retrieve_val_used `{Heap} node s rc found s' :
  retrieve_val node s = Ok (rc, found, s') -> options_used (g_nvp s) (g_nvp s').
Proof.
  intros (p & _ & [(i & name & a & _ & Hi & Ha & ->)|[-> _]])%retrieve_val_nvp; [|done].
  eapply options_used_mark; [done|]. by eapply available_fresh.
Qed.

(** Take apart the successful run of a computation, one step after another. *)
Ltac run_step H :=
  match type of H with
  | obind _ _ = Ok _ => let a := fresh "a" in let Ha := fresh "Ha" in
      apply bind_ok_inv in H as (a & Ha & H)
  | Ok _ = Ok _ => injection H as H; try (progress subst)
  | mret _ = Ok _ => unfold mret, outcome_ret in H
  | UB _ = Ok _ => discriminate H
  | context [match ?x with _ => _ end] => destruct x eqn:?
  end.
Ltac run_all H := repeat (run_step H); simplify_eq.

Lemma get_string_nvp s rc v s' : get_string s = (rc, v, s') -> g_nvp s' = g_nvp s.
Proof. unfold get_string. destruct (g_input s) as [|[? ?] ?]; by intros [= <- <- <-]. Qed.

Lemma obtain_value_nvp `{Heap} fuel k tries node s rc s' :
  obtain_value fuel k tries node s = Ok (rc, s') -> g_nvp s' = g_nvp s.
Proof.
  revert tries s. induction fuel as [|fuel IH]; intros tries s; cbn [obtain_value].
  { by intros [= <- <-]. }
  intros Hr. run_all Hr; try done;
    repeat match goal with
    | H : obtain_value _ _ _ _ _ = Ok _ |- _ => apply IH in H
    | H : get_string _ = _ |- _ => apply get_string_nvp in H
    end; cbn in *; congruence.
Qed.

Lemma ask_user_nvp `{Heap} b node s rc s' :
  ask_user b node s = Ok (rc, s') -> g_nvp s' = g_nvp s.
Proof.
  unfold ask_user, mret, outcome_ret. intros Hr.
  run_all Hr; try done; by eapply obtain_value_nvp.
Qed.

Lemma implicit_transition_used `{Heap} ixs node b s r s' :
  implicit_transition ixs node b s = Ok (r, s') -> options_used (g_nvp s) (g_nvp s').
Proof.
  revert b s. induction ixs as [|i ixs IH]; intros b s; cbn [implicit_transition].
  { by intros [= _ <-]. }
  unfold mret, outcome_ret. intros (tn & _ & Hr)%bind_ok_inv.
  apply bind_ok_inv in Hr as (((rc & found) & s1) & Hv & Hr).
  assert (options_used (g_nvp s) (g_nvp s1)) as Hu.
  { destruct (tn_next_token tn); [by eapply retrieve_val_used|by injection Hv as _ _ <-]. }
  etransitivity; [exact Hu|]. run_all Hr; try done; by eapply IH.
Qed.

Lemma alloc_and_get_val_used `{Heap} b node s rc s' :
  alloc_and_get_val b node s = Ok (rc, s') -> options_used (g_nvp s) (g_nvp s').
Proof.
  unfold alloc_and_get_val, mret, outcome_ret. intros (p & _ & Hr)%bind_ok_inv.
  destruct (pn_val p); [by injection Hr as _ <-|].
  apply bind_ok_inv in Hr as (((rc1 & found) & s1) & Hv%retrieve_val_used & Hr).
  etransitivity; [exact Hv|]. destruct (negb (rc1 =? 0)); [by injection Hr as _ <-|].
  apply bind_ok_inv in Hr as (q & _ & Hr). case_match; [by injection Hr as _ <-|].
  apply bind_ok_inv in Hr as ((r & s2) & Hi & Hr).
  assert (options_used (g_nvp s1) (g_nvp s2)) as Hu.
  { destruct (_ && _) in Hi; [by eapply implicit_transition_used|by injection Hi as _ <-]. }
  etransitivity; [exact Hu|]. destruct r as [rc2|]; [by injection Hr as _ <-|].
  by rewrite (ask_user_nvp _ _ _ _ _ Hr).
Qed.

(** ** Lemmas on the walk *)
Lemma rbind_inv {A B} (m : running A) (f : A -> running B) b :
  rbind m f = Ok (Some b) -> exists a, m = Ok (Some a) /\ f a = Ok (Some b).
Proof. destruct m as [[a|]|]; [|done..]. intros Hf. by exists a. Qed.

Lemma stays_inv {A} (m : outcome A) a : stays m = Ok (Some a) -> m = Ok a.
Proof. destruct m; [|done]. by intros [= ->]. Qed.

(** Relations between states that the walk keeps, apart from its transition
    functions. *)
Class WalkRel `{Heap} (has_get_string : bool) (R : gstate -> gstate -> Prop) := {
  walk_rel_preorder :: PreOrder R;
  repeated_R s r : R s (set_repeated r s);
  lastnode_R s l : R s (set_lastnode l s);
  steps_R s k : R s (set_steps k s);
  alloc_and_get_val_R node s rc s' :
    alloc_and_get_val has_get_string node s = Ok (rc, s') -> R s s'
}.

Section WalkLemmas.
Context `{Heap} (run_tf : trans_fn -> Z -> gstate -> running (Z * gstate)) (has_get_string : bool).
Context (R : gstate -> gstate -> Prop) `{!WalkRel has_get_string R}.
(** The transition functions keep the relation, too. *)
Hypothesis run_tf_R : forall f node s rc s', run_tf f node s = Ok (Some (rc, s')) -> R s s'.

Lemma call_tf_R f none node s rc s' :
  call_tf run_tf f none node s = Ok (Some (rc, s')) -> R s s'.
Proof.
  destruct f; cbn; [by apply run_tf_R|]. intros [= _ <-]. reflexivity.
Qed.

Lemma follow_state rc missing node i s rc' next s' :
  follow rc missing node i s = Ok (rc', next, s') -> s' = s.
Proof. unfold follow. intros Hr. by run_all Hr. Qed.

Lemma try_nvps_R current i nvps s r s' :
  try_nvps run_tf current i nvps s = Ok (Some (r, s')) -> R s s'.
Proof.
  revert s. induction nvps as [|nvp nvps IH]; intros s; cbn [try_nvps].
  { intros [= _ <-]. reflexivity. }
  intros (tn & _ & Hr)%rbind_inv. apply rbind_inv in Hr as (m & _ & Hr).
  destruct (negb m); [by apply IH|].
  apply rbind_inv in Hr as ((tok & s1) & Hc%call_tf_R & Hr). etransitivity; [exact Hc|].
  destruct (tok =? MOUNT_ERROR); [injection Hr as _ <-; reflexivity|].
  case_match; [|by apply IH].
  apply rbind_inv in Hr as (((rc & next) & s2) & ->%stays_inv%follow_state & Hr).
  injection Hr as _ <-. reflexivity.
Qed.

Lemma try_transitions_R ixs current s r s' :
  try_transitions run_tf ixs current s = Ok (Some (r, s')) -> R s s'.
Proof.
  revert s. induction ixs as [|i ixs IH]; intros s; cbn [try_transitions].
  { intros [= _ <-]. reflexivity. }
  intros (p & _ & Hr)%rbind_inv. apply rbind_inv in Hr as (tn & _ & Hr).
  case_match.
  - apply rbind_inv in Hr as ((rc & s1) & Hc%call_tf_R & Hr). etransitivity; [exact Hc|].
    apply rbind_inv in Hr as (((rc' & next) & s2) & ->%stays_inv%follow_state & Hr).
    injection Hr as _ <-. reflexivity.
  - apply rbind_inv in Hr as ((r' & s1) & Hc%try_nvps_R & Hr). etransitivity; [exact Hc|].
    destruct r'; [injection Hr as _ <-; reflexivity|by apply IH].
Qed.

Lemma try_default_R ixs current s r s' :
  try_default run_tf ixs current s = Ok (Some (r, s')) -> R s s'.
Proof.
  revert s. induction ixs as [|i ixs IH]; intros s; cbn [try_default].
  { intros [= _ <-]. reflexivity. }
  intros (tn & _ & Hr)%rbind_inv. case_match; [|by apply IH].
  apply rbind_inv in Hr as ((tok & s1) & Hc%call_tf_R & Hr). etransitivity; [exact Hc|].
  destruct (tok =? WRONG_VALUE).
  - apply rbind_inv in Hr as (p & _ & Hr). unfold go in Hr.
    repeat case_match; simplify_eq; first [reflexivity|apply repeated_R].
  - case_match; [injection Hr as _ <-; reflexivity|].
    apply rbind_inv in Hr as (((rc & next) & s2) & ->%stays_inv%follow_state & Hr).
    injection Hr as _ <-. reflexivity.
Qed.

Lemma do_transition_R current s rc next s' :
  do_transition run_tf current s = Ok (Some (rc, next, s')) -> R s s'.
Proof.
  unfold do_transition.
  set (s1 := set_lastnode (Some current) _).
  assert (R s s1) as Hs1.
  { unfold s1. case_match; [apply lastnode_R|]. etransitivity; [apply repeated_R|apply lastnode_R]. }
  clearbody s1. intros (p & _ & Hr)%rbind_inv. etransitivity; [exact Hs1|].
  apply rbind_inv in Hr as ((r & s2) & Ht%try_transitions_R & Hr). etransitivity; [exact Ht|].
  destruct r as [[? ?]|]; [injection Hr as _ _ <-; reflexivity|].
  apply rbind_inv in Hr as (q & _ & Hr).
  apply rbind_inv in Hr as ((r & s3) & Hd%try_default_R & Hr). etransitivity; [exact Hd|].
  destruct r as [[? ?]|]; [injection Hr as _ _ <-; reflexivity|].
  apply rbind_inv in Hr as (q' & _ & Hr). injection Hr as _ _ <-. reflexivity.
Qed.

Lemma eval_step_R node s rc next s' :
  eval_step run_tf has_get_string node s = Ok (Some (rc, next, s')) -> R s s'.
Proof.
  unfold eval_step. intros ((rc1 & s1) & Ha%stays_inv%alloc_and_get_val_R & Hr)%rbind_inv.
  etransitivity; [apply steps_R|]. etransitivity; [exact Ha|].
  case_match; [injection Hr as _ _ <-; reflexivity|by eapply do_transition_R].
Qed.

Lemma eval_loop_R fuel node s rc s' :
  eval_loop run_tf has_get_string fuel node s = Ok (Returned rc s') -> R s s'.
Proof.
  revert node s. induction fuel as [|fuel IH]; intros node s; cbn [eval_loop]; [done|].
  intros (r & Hs & Hr)%bind_ok_inv. destruct r as [[[rc1 next] s1]|]; [|done].
  apply eval_step_R in Hs. etransitivity; [exact Hs|].
  destruct (negb (rc1 =? 0)); [injection Hr as _ <-; reflexivity|].
  destruct next; [by eapply IH|done].
Qed.
End WalkLemmas.

#[export] Instance options_used_walk `{Heap} b :
  WalkRel b (fun s s' => options_used (g_nvp s) (g_nvp s')).
Proof.
  split; try (intros; cbn; reflexivity).
  - split; [intros s; reflexivity|]. intros s1 s2 s3 H1 H2. by etransitivity.
  - intros node s rc s'. apply alloc_and_get_val_used.
Qed.

(** More fuel does not change the end of a walk. *)
Lemma eval_loop_fuel `{Heap} run_tf b fuel k node s r :
  eval_loop run_tf b fuel node s = Ok r -> r <> OutOfFuel ->
  eval_loop run_tf b (fuel + k) node s = Ok r.
Proof.
  revert node s. induction fuel as [|fuel IH]; intros node s; cbn [eval_loop Nat.add].
  { by intros [= <-]. }
  intros Hr Hne. apply bind_ok_inv in Hr as (x & -> & Hr). rewrite bind_Ok.
  destruct x as [[[rc next] s1]|]; [|done]. destruct (negb (rc =? 0)); [done|].
  destruct next; [by apply IH|done].
Qed.

(** ** Transitions that are not taken *)

(** Neither the value of the node nor an option selects this transition. *)
Definition quiet_tn (v : option cstring) (nvps : list ecryptfs_name_val_pair) (tn : transition_node) : Prop :=
  exists t, tn_val tn = Some t /\ v <> Some t /\
    Forall (fun nvp => exists n, nv_name nvp = Some n /\ n <> t) nvps.

Section Transitions.
Context `{Heap} (run_tf : trans_fn -> Z -> gstate -> running (Z * gstate)).

Lemma get_tn_ok s n p i tn :
  g_nodes s !! n = Some p -> pn_tl p !! i = Some tn -> get_tn s n i = Ok tn.
Proof. intros Hp Hi. unfold get_tn, get_node. by rewrite Hp, bind_Ok, Hi. Qed.

Lemma get_node_ok s n p : g_nodes s !! n = Some p -> get_node s n = Ok p.
Proof. intros Hp. unfold get_node. by rewrite Hp. Qed.

Lemma try_nvps_quiet current i nvps s p tn v :
  g_nodes s !! current = Some p -> pn_tl p !! i = Some tn -> quiet_tn v nvps tn ->
  try_nvps run_tf current i nvps s = go (None, s).
Proof.
  intros Hp Hi (t & Ht & _ & Hq). induction Hq as [|nvp nvps (n & Hn & Hne) _ IH]; [done|].
  cbn [try_nvps]. rewrite (get_tn_ok s current p i tn) by done. cbn [stays rbind].
  rewrite Ht, Hn. cbn [deref_str mret outcome_ret obind stays rbind].
  rewrite streq_ne by done. exact IH.
Qed.

Lemma try_transitions_quiet ixs current s p :
  g_nodes s !! current = Some p ->
  (forall i, i ∈ ixs -> exists tn, pn_tl p !! i = Some tn /\ quiet_tn (pn_val p) (g_nvp s) tn) ->
  forall rest, try_transitions run_tf (ixs ++ rest) current s = try_transitions run_tf rest current s.
Proof.
  intros Hp Hq rest. induction ixs as [|i ixs IH]; [done|]. cbn [app try_transitions].
  destruct (Hq i) as (tn & Hi & Hqt); [by left|].
  rewrite (get_node_ok s current p), (get_tn_ok s current p i tn) by done. cbn [stays rbind].
  assert (match tn_val tn, pn_val p with Some t, Some v => streq v t | _, _ => false end = false) as ->.
  { destruct Hqt as (t & -> & Hv & _). destruct (pn_val p) as [v|]; [|done]. apply streq_ne. congruence. }
  rewrite (try_nvps_quiet _ _ _ _ p tn (pn_val p)) by done. cbn [rbind go].
  apply IH. intros j Hj. apply Hq. by right.
Qed.

(** The state in which the transition functions are called. *)
Definition entered (node : Z) (s : gstate) : gstate :=
  set_lastnode (Some node)
    (if bool_decide (g_lastnode s = Some node) then s else set_repeated 0 s).

Lemma entered_nodes node s : g_nodes (entered node s) = g_nodes s.
Proof. unfold entered. by case_match. Qed.
Lemma entered_nvp node s : g_nvp (entered node s) = g_nvp s.
Proof. unfold entered. by case_match. Qed.
Lemma entered_mnt node s : g_mnt (entered node s) = g_mnt s.
Proof. unfold entered. by case_match. Qed.
Lemma entered_keyring node s : g_keyring (entered node s) = g_keyring s.
Proof. unfold entered. by case_match. Qed.

(** The only transition left is the one named "default". *)
Lemma do_transition_default current s p i tn tok s' next :
  g_nodes s !! current = Some p ->
  (forall j t, pn_tl p !! j = Some t -> quiet_tn (pn_val p) (g_nvp s) t) ->
  pn_tl p !! i = Some tn -> tn_val tn = Some (lit "default") ->
  (forall j t, (j < i)%nat -> pn_tl p !! j = Some t -> tn_val t <> Some (lit "default")) ->
  call_tf run_tf (tn_trans_func tn) NULL_TOK current (entered current s) = go (tok, s') ->
  0 <= tok -> tok <> WRONG_VALUE -> tok <> MOUNT_ERROR ->
  (exists tn', get_tn s' current i = Ok tn' /\ tn_next_token tn' = Some next) ->
  do_transition run_tf current s = go (0, Some next, s').
Proof.
  intros Hp Hq Hi Hdef Hmin Hcall Htok Hw Hm (tn' & Htn' & Hnext). unfold do_transition.
  fold (entered current s).
  assert (g_nodes (entered current s) !! current = Some p) as Hp1 by (by rewrite entered_nodes).
  rewrite (get_node_ok _ _ p) by done. cbn [stays rbind].
  rewrite <- (app_nil_r (seq 0 (length (pn_tl p)))) at 1.
  rewrite (try_transitions_quiet _ _ _ p); [|done|].
  2:{ intros j [_ Hj]%elem_of_seq. destruct (lookup_lt_is_Some_2 (pn_tl p) j) as [t Ht]; [lia|].
      exists t. rewrite entered_nvp. split; [done|by eapply Hq]. }
  cbn [try_transitions rbind go]. rewrite (get_node_ok _ _ p) by done. cbn [stays rbind].
  assert (forall k rest, (k <= i)%nat ->
    try_default run_tf (seq (i - k) k ++ rest) current (entered current s) =
    try_default run_tf rest current (entered current s)) as Hskip.
  { intros k. induction k as [|k IH]; intros rest Hk; [done|].
    cbn [seq app try_default].
    destruct (lookup_lt_is_Some_2 (pn_tl p) (i - S k)) as [t Ht]; [apply lookup_lt_Some in Hi; lia|].
    rewrite (get_tn_ok _ _ p _ t) by done. cbn [stays rbind].
    replace (match tn_val t with Some t => streq (lit "default") t | None => false end) with false.
    - replace (S (i - S k)) with (i - k)%nat by lia. apply IH. lia.
    - specialize (Hmin (i - S k)%nat t ltac:(lia) Ht). destruct (tn_val t); [|done].
      symmetry. apply streq_ne. congruence. }
  assert (seq 0 (length (pn_tl p)) = seq (i - i) i ++ i :: seq (S i) (length (pn_tl p) - S i)) as ->.
  { rewrite Nat.sub_diag. apply lookup_lt_Some in Hi.
    replace (length (pn_tl p)) with (i + S (length (pn_tl p) - S i))%nat at 1 by lia.
    by rewrite seq_app. }
  rewrite Hskip by lia. cbn [try_default]. rewrite (get_tn_ok _ _ p _ tn) by done. cbn [stays rbind].
  rewrite Hdef, streq_refl, Hcall. cbn [rbind go].
  replace (tok =? WRONG_VALUE) with false by lia.
  replace ((tok =? MOUNT_ERROR) || (tok <? 0)) with false by lia.
  unfold follow. rewrite Htn', bind_Ok, Hnext. done.
Qed.

(** The value of the node selects a transition. *)
Lemma do_transition_match current s p i tn v rc s' next :
  g_nodes s !! current = Some p -> pn_val p = Some v ->
  (forall j t, (j < i)%nat -> pn_tl p !! j = Some t -> quiet_tn (Some v) (g_nvp s) t) ->
  pn_tl p !! i = Some tn -> tn_val tn = Some v ->
  call_tf run_tf (tn_trans_func tn) 0 current (entered current s) = go (rc, s') ->
  (exists tn', get_tn s' current i = Ok tn' /\ tn_next_token tn' = Some next) ->
  do_transition run_tf current s = go (rc, Some next, s').
Proof.
  intros Hp Hv Hq Hi Ht Hcall (tn' & Htn' & Hnext). unfold do_transition.
  fold (entered current s).
  assert (g_nodes (entered current s) !! current = Some p) as Hp1 by (by rewrite entered_nodes).
  rewrite (get_node_ok _ _ p) by done. cbn [stays rbind].
  assert (seq 0 (length (pn_tl p)) = seq 0 i ++ i :: seq (S i) (length (pn_tl p) - S i)) as ->.
  { apply lookup_lt_Some in Hi.
    replace (length (pn_tl p)) with (i + S (length (pn_tl p) - S i))%nat at 1 by lia.
    by rewrite seq_app. }
  rewrite (try_transitions_quiet _ _ _ p); [|done|].
  2:{ intros j [_ Hj]%elem_of_seq. apply lookup_lt_Some in Hi.
      destruct (lookup_lt_is_Some_2 (pn_tl p) j) as [t Htj]; [lia|].
      exists t. rewrite entered_nvp, Hv. split; [done|by eapply Hq]. }
  cbn [try_transitions]. rewrite (get_node_ok _ _ p), (get_tn_ok _ _ p _ tn) by done.
  cbn [stays rbind]. rewrite Ht, Hv, streq_refl, Hcall. cbn [rbind go].
  unfold follow. rewrite Htn', bind_Ok, Hnext. done.
Qed.
End Transitions.

(** ** Checking a graph by evaluation *)
Definition has_node (nodes : gmap Z param_node) (n : Z) : bool :=
  match nodes !! n with Some _ => true | None => false end.
Definition all_transitions (ok : Z -> transition_node -> bool) (nodes : gmap Z param_node) : bool :=
  forallb (fun '(n, p) => forallb (ok n) (pn_tl p)) (map_to_list nodes).
Definition rankedb (rank : Z -> nat) (nodes : gmap Z param_node) : bool :=
  all_transitions (fun n tn =>
    match tn_next_token tn with
    | Some m => (rank m <? rank n)%nat && has_node nodes m
    | None => true
    end) nodes.
Definition exit_belowb (rank : Z -> nat) (exit : Z) (nodes : gmap Z param_node) : bool :=
  has_node nodes exit &&
  all_transitions (fun n tn =>
    match tn_next_token tn with Some _ => true | None => (rank exit <? rank n)%nat end) nodes.

Lemma all_transitions_spec ok nodes :
  all_transitions ok nodes = true ->
  forall n p tn, nodes !! n = Some p -> tn ∈ pn_tl p -> ok n tn = true.
Proof.
  unfold all_transitions. rewrite forallb_forall. intros Hall n p tn Hn Htn.
  specialize (Hall (n, p)). cbn in Hall. rewrite forallb_forall in Hall.
  apply Hall; [|by apply list_elem_of_In]. by apply list_elem_of_In, elem_of_map_to_list.
Qed.

Lemma has_node_spec nodes n : has_node nodes n = true -> is_Some (nodes !! n).
Proof. unfold has_node. by destruct (nodes !! n). Qed.

Lemma rankedb_spec rank nodes : rankedb rank nodes = true -> ranked rank nodes.
Proof.
  intros Hb n m (p & tn & Hp & Htn & Hm). unfold rankedb in Hb.
  pose proof (all_transitions_spec _ _ Hb n p tn Hp Htn) as Hok. cbn in Hok. rewrite Hm in Hok.
  apply andb_true_iff in Hok as [?%Nat.ltb_lt ?%has_node_spec]. done.
Qed.

Lemma exit_belowb_spec rank exit nodes : exit_belowb rank exit nodes = true ->
  forall n p tn, nodes !! n = Some p -> tn ∈ pn_tl p -> tn_next_token tn = None ->
  (rank exit < rank n)%nat /\ is_Some (nodes !! exit).
Proof.
  unfold exit_belowb. intros [He Hb]%andb_true_iff n p tn Hp Htn Hm.
  pose proof (all_transitions_spec _ _ Hb n p tn Hp Htn) as Hok. cbn in Hok. rewrite Hm in Hok.
  apply Nat.ltb_lt in Hok. split; [done|by apply has_node_spec].
Qed.

(** ** Names of a graph *)
Definition bare_pair (name : cstring) : ecryptfs_name_val_pair := NVPair 0 (Some name) None.

Lemma insert_names_ok `{Heap} k names nvp :
  heap_never_fails -> insert_names k names nvp = (0, nvp ++ (bare_pair <$> names)).
Proof.
  intros Hh. revert k nvp. induction names as [|name names IH]; intros k nvp; cbn [insert_names fmap list_fmap].
  { by rewrite app_nil_r. }
  rewrite !Hh. cbn [negb]. rewrite IH. by rewrite <- app_assoc.
Qed.

(** The name of a node that [n] leads to. *)
Definition name_below (nodes : gmap Z param_node) (n : Z) (name : cstring) : Prop :=
  exists m p, reaches nodes n m /\ nodes !! m = Some p /\ name ∈ pn_mnt_opt_names p.

(** What [ecryptfs_insert_params] does for the nodes below [n]. *)
Definition lists_names (nodes : gmap Z param_node) (n : Z)
    (run : list ecryptfs_name_val_pair -> outcome (option (Z * list ecryptfs_name_val_pair))) : Prop :=
  forall nvp, exists names, run nvp = Ok (Some (0, nvp ++ (bare_pair <$> names))) /\
    forall name, name ∈ names <-> name_below nodes n name.

Lemma insert_successors_ok nodes rec tl nvp :
  (forall tn m, tn ∈ tl -> tn_next_token tn = Some m -> lists_names nodes m (rec m)) ->
  exists names, insert_successors rec tl nvp = Ok (Some (0, nvp ++ (bare_pair <$> names))) /\
    forall name, name ∈ names <->
      exists tn m, tn ∈ tl /\ tn_next_token tn = Some m /\ name_below nodes m name.
Proof.
  revert nvp. induction tl as [|tn tl IH]; intros nvp Hrec; cbn [insert_successors].
  { exists []. cbn. rewrite app_nil_r. split; [done|]. intros name.
    split; [by intros ?%elem_of_nil|by intros (? & ? & ?%elem_of_nil & _)]. }
  assert (forall t m, t ∈ tl -> tn_next_token t = Some m -> lists_names nodes m (rec m)) as Htl
    by (intros t m Hin; apply Hrec; by right).
  destruct (tn_next_token tn) as [m|] eqn:Hm.
  - destruct (Hrec tn m) with (nvp := nvp) as (names & -> & Hnames); [by left|done|].
    rewrite bind_Ok. cbn [Z.eqb negb].
    destruct (IH (nvp ++ (bare_pair <$> names)) Htl) as (rest & -> & Hrest).
    exists (names ++ rest). rewrite fmap_app, app_assoc. split; [done|]. intros name.
    rewrite elem_of_app, Hnames, Hrest. split.
    + intros [Hb|(t & x & Hin & ?)]; [exists tn, m; split; [by left|done]|].
      exists t, x. split; [by right|done].
    + intros (t & x & [->|Hin]%elem_of_cons & Hx & Hb); [left; congruence|right; by exists t, x].
  - destruct (IH nvp Htl) as (rest & -> & Hrest). exists rest. split; [done|].
    intros name. rewrite Hrest. split.
    + intros (t & x & Hin & ?). exists t, x. split; [by right|done].
    + intros (t & x & [->|Hin]%elem_of_cons & Hx & Hb); [congruence|by exists t, x].
Qed.

Lemma insert_params_ok `{Heap} rank nodes fuel n :
  heap_never_fails -> ranked rank nodes -> is_Some (nodes !! n) -> (rank n < fuel)%nat ->
  lists_names nodes n (ecryptfs_insert_params fuel nodes n).
Proof.
  intros Hh Hr. revert n. induction fuel as [|fuel IH]; intros n [p Hp] Hf nvp; [lia|].
  cbn [ecryptfs_insert_params]. rewrite Hp, insert_names_ok by done. cbn [Z.eqb negb].
  destruct (insert_successors_ok nodes (ecryptfs_insert_params fuel nodes) (pn_tl p)
              (nvp ++ (bare_pair <$> pn_mnt_opt_names p))) as (rest & -> & Hrest).
  { intros tn m Htn Hm. destruct (Hr n m); [by exists p, tn|]. apply IH; [done|lia]. }
  exists (pn_mnt_opt_names p ++ rest). rewrite fmap_app, app_assoc. split; [done|].
  intros name. rewrite elem_of_app, Hrest. split.
  - intros [Hin|(tn & m & Htn & Hm & (x & q & Hx & ?))]; [exists n, p; split; [apply rtc_refl|done]|].
    exists x, q. split; [|done]. eapply rtc_l; [|exact Hx]. by exists p, tn.
  - intros (x & q & Hx & Hq & Hin). inversion Hx as [|? m ? Hl Hrest']; subst; [left; congruence|right].
    destruct Hl as (p' & tn & Hp' & Htn & Hm). assert (p' = p) as -> by congruence.
    exists tn, m. split_and!; [done..|by exists x, q].
Qed.

(** ** Properties *)

(** C8. Setting the exit of a graph without cycles ends, and changes exactly the
    nodes that the root reaches: every transition without successor leads to
    the exit and is taken by default. *)
Theorem set_exit_on_graph_correct rank fuel root exit s :
  ranked rank (g_nodes s) -> exit_belowb rank exit (g_nodes s) = true ->
  is_Some (g_nodes s !! root) -> (rank root < fuel)%nat ->
  exists nodes, ecryptfs_set_exit_param_on_graph fuel root exit s = Ok (Some (set_nodes nodes s)) /\
    (forall m, reaches (g_nodes s) root m -> nodes !! m = seal exit <$> g_nodes s !! m) /\
    (forall m, ~ reaches (g_nodes s) root m -> nodes !! m = g_nodes s !! m).
Proof.
  intros Hr Hx Hroot Hf. pose proof (exit_belowb_spec rank exit _ Hx) as Hbelow.
  destruct (set_exit_node_ok rank (g_nodes s) exit Hr Hbelow fuel root (g_nodes s))
    as (nodes & Heq & Hseals & Hsealed); [done..|by intros ? ?; left|].
  exists nodes. unfold ecryptfs_set_exit_param_on_graph. rewrite Heq. split_and!; [done..|].
  intros m Hm. by destruct (Hseals m) as [?|[? _]].
Qed.

Definition sample_node (next : list (option Z)) : param_node :=
  ParamNode [lit "n"] None None None None 0
    ((fun m => TransNode None None m None) <$> next).
Definition sample_graph : gmap Z param_node :=
  <[1 := sample_node [Some 2; Some 3; None]]> (<[2 := sample_node [Some 3]]>
  (<[3 := sample_node [None]]> (<[4 := sample_node []]> (<[5 := sample_node [None]]> ∅)))).
Definition sample_rank (n : Z) : nat := Z.to_nat (6 - n).
Definition sample_state : gstate :=
  GState sample_graph [] [None] FooNull [] 1 ∅ [] 0 None 100 0 [].

Lemma set_exit_on_graph_correct_witness :
  ranked (fun n => if n =? 4 then 0%nat else sample_rank n) (g_nodes sample_state) /\
  exists nodes, ecryptfs_set_exit_param_on_graph 6 1 4 sample_state
                = Ok (Some (set_nodes nodes sample_state)) /\
    (forall m, reaches (g_nodes sample_state) 1 m -> nodes !! m = seal 4 <$> g_nodes sample_state !! m) /\
    (forall m, ~ reaches (g_nodes sample_state) 1 m -> nodes !! m = g_nodes sample_state !! m).
Proof.
  split; [apply rankedb_spec; by vm_compute|].
  apply (set_exit_on_graph_correct (fun n => if n =? 4 then 0%nat else sample_rank n)).
  - apply rankedb_spec; by vm_compute.
  - by vm_compute.
  - by eexists.
  - apply Nat.ltb_lt. by vm_compute.
Defined.

(** Listing the parameters of a graph without cycles ends and appends the
    names of exactly the nodes that its root reaches. *)
Theorem insert_params_in_subgraph_correct `{Heap} rank fuel nodes nvp tn :
  heap_never_fails -> ranked rank nodes ->
  (forall m, tn_next_token tn = Some m -> is_Some (nodes !! m) /\ (rank m < fuel)%nat) ->
  exists names,
    ecryptfs_insert_params_in_subgraph fuel nodes nvp tn = Ok (Some (0, nvp ++ (bare_pair <$> names))) /\
    forall name, name ∈ names <->
      exists m, tn_next_token tn = Some m /\ name_below nodes m name.
Proof.
  intros Hh Hr Hm. unfold ecryptfs_insert_params_in_subgraph.
  destruct (tn_next_token tn) as [m|].
  - destruct (Hm m eq_refl) as [Hs Hf].
    destruct (insert_params_ok rank nodes fuel m Hh Hr Hs Hf nvp) as (names & -> & Hn).
    exists names. split; [done|]. intros name. rewrite Hn. split; [by exists m|by intros (? & [= <-] & ?)].
  - exists []. rewrite app_nil_r. split; [done|]. intros name.
    split; [by intros ?%elem_of_nil|by intros (? & ? & _)].
Qed.

Lemma insert_params_in_subgraph_correct_witness :
  exists names,
    @ecryptfs_insert_params_in_subgraph plenty 6 sample_graph [] (TransNode None None (Some 1) None)
      = Ok (Some (0, bare_pair <$> names)) /\
    forall name, name ∈ names <-> exists m, Some 1 = Some m /\ name_below sample_graph m name.
Proof.
  apply (@insert_params_in_subgraph_correct plenty sample_rank 6 sample_graph [] (TransNode None None (Some 1) None)).
  - done.
  - apply rankedb_spec; by vm_compute.
  - intros m [= <-]. split; [by eexists|apply Nat.ltb_lt; by vm_compute].
Defined.

(** A node takes its value from the option list at most once: either the
    list is unchanged and no pair could supply it, or one unused pair under one
    of its names is marked as used and nothing else changes. *)
Theorem retrieve_val_consumes `{Heap} node s rc found s' :
  retrieve_val node s = Ok (rc, found, s') ->
  exists p, g_nodes s !! node = Some p /\
  ((exists i name a, name ∈ pn_mnt_opt_names p /\ g_nvp s !! i = Some a /\
      available name a = true /\ g_nvp s' = alter mark_processed i (g_nvp s) /\
      S (pending (g_nvp s')) = pending (g_nvp s)) \/
   (g_nvp s' = g_nvp s /\
    forall name k b, name ∈ pn_mnt_opt_names p -> g_nvp s !! k = Some b -> available name b = false)).
Proof.
  intros (p & Hp & [(i & name & a & Hin & Hi & Ha & Heq)|?])%retrieve_val_nvp;
    exists p; (split; [done|]); [left|by right].
  exists i, name, a. split_and!; [done..|]. rewrite Heq.
  apply (pending_mark _ _ a); [done|by eapply available_fresh].
Qed.

Lemma retrieve_val_consumes_witness :
  let s := set_nvp [bare_pair (lit "n"); NVPair 0 (Some (lit "n")) (Some (lit "v"))] sample_state in
  exists p, g_nodes s !! 3 = Some p /\
  ((exists i name a, name ∈ pn_mnt_opt_names p /\ g_nvp s !! i = Some a /\
      available name a = true /\
      [mark_processed (bare_pair (lit "n")); NVPair 0 (Some (lit "n")) (Some (lit "v"))]
      = alter mark_processed i (g_nvp s) /\ S 1 = pending (g_nvp s)) \/
   ([mark_processed (bare_pair (lit "n")); NVPair 0 (Some (lit "n")) (Some (lit "v"))] = g_nvp s /\
    forall name k b, name ∈ pn_mnt_opt_names p -> g_nvp s !! k = Some b -> available name b = false)).
Proof.
  intros s.
  exact (@retrieve_val_consumes plenty 3 s 0 true
    (upd_node 3 (fun p => set_flags (Z.lor (pn_flags p) PARAMETER_SET) p)
      (set_nvp [mark_processed (bare_pair (lit "n")); NVPair 0 (Some (lit "n")) (Some (lit "v"))] s))
    eq_refl).
Defined.

(** An empty answer where a value is required costs a try. *)
Lemma obtain_value_empty `{Heap} fuel k tries node s p input :
  heap_never_fails -> g_nodes s !! node = Some p -> g_input s = (0, Some []) :: input ->
  has_flag (pn_flags p) ECRYPTFS_NONEMPTY_VALUE_REQUIRED = true ->
  obtain_value (S fuel) k tries node s =
  obtain_value fuel k (S tries) node (upd_node node (set_val (Some [])) (set_input input s)).
Proof.
  intros Hh Hp Hin Hfl. cbn [obtain_value]. unfold get_node, get_string. rewrite Hp, bind_Ok, Hin.
  rewrite Hh. cbn [negb Z.eqb deref_str mret outcome_ret]. rewrite bind_Ok, zlen_nil, Hfl. done.
Qed.

Lemma upd_node_lookup n f s p : g_nodes s !! n = Some p -> g_nodes (upd_node n f s) !! n = Some (f p).
Proof. intros Hp. cbn. by rewrite lookup_alter_eq, Hp. Qed.

(** Three empty answers where a value is required make the evaluation of the
    graph report success. *)
Theorem empty_answers_succeed `{Heap} run_tf fuel node s p top stack input verbosity :
  heap_never_fails -> get_verbosity (g_nvp s) = Ok verbosity -> verbosity <> 0 ->
  g_mnt s = top :: stack -> g_input s = replicate 3 (0, Some []) ++ input ->
  g_nodes s !! node = Some p -> pn_val p = None -> pn_default_val p = None ->
  pn_flags p = Z.lor ECRYPTFS_PARAM_FLAG_MASK_OUTPUT ECRYPTFS_NONEMPTY_VALUE_REQUIRED ->
  find_by_names (reverse (pn_mnt_opt_names p)) (g_nvp s) = Ok None ->
  exists s', ecryptfs_eval_decision_graph run_tf true (S fuel) node s = Ok (Returned 0 s') /\
    g_mnt s' = [None] /\ g_input s' = input /\ g_keyring s' = g_keyring s.
Proof.
  intros Hh Hv Hnz Hmnt Hin Hp Hval Hdef Hfl Hfind.
  unfold ecryptfs_eval_decision_graph, eval_param_tree. rewrite Hmnt.
  cbn [g_nvp set_mnt]. rewrite Hv, bind_Ok. cbn [eval_loop]. unfold eval_step.
  set (s1 := set_steps _ _).
  assert (g_nodes s1 !! node = Some p) as Hp1 by done.
  assert (alloc_and_get_val true node s1 = obtain_value 3 (g_steps s1) 0 node s1) as ->.
  { unfold alloc_and_get_val, retrieve_val, get_node. rewrite ?Hp1. cbn [obind]. rewrite Hval, ?Hp1.
    cbn [obind]. change (g_nvp s1) with (g_nvp s). rewrite Hfind. cbn [obind]. rewrite Hdef.
    cbn [obind mret outcome_ret Z.eqb negb]. rewrite ?Hp1. cbn [obind andb]. rewrite Hfl.
    match goal with |- context [if ?b then implicit_transition _ _ _ _ else _] => change b with false end.
    cbn [obind mret outcome_ret]. unfold ask_user, get_node. rewrite ?Hp1. cbn [obind]. rewrite Hfl.
    change (g_verbosity s1) with verbosity.
    by replace (verbosity =? 0) with false by (symmetry; by apply Z.eqb_neq). }
  rewrite (obtain_value_empty 2 _ _ _ _ p (replicate 2 (0, Some []) ++ input)) by (done || by rewrite Hfl).
  erewrite (obtain_value_empty 1 _ _ _ _ _ (replicate 1 (0, Some []) ++ input));
    [|done|by apply upd_node_lookup|done|by cbn; rewrite Hfl].
  erewrite (obtain_value_empty 0 _ _ _ _ _ input);
    [|done|by do 2 apply upd_node_lookup|done|by cbn; rewrite Hfl].
  eexists. split_and!; by cbn.
Qed.

Definition passphrase_state : gstate :=
  GState {[1 := ParamNode [lit "passwd"] None None None None
                  (Z.lor ECRYPTFS_PARAM_FLAG_MASK_OUTPUT ECRYPTFS_NONEMPTY_VALUE_REQUIRED) []]}
    [] [None] FooNull [] 1 ∅ (replicate 3 (0, Some [])) 0 None 100 0 [].

Lemma empty_answers_succeed_witness :
  exists s', @ecryptfs_eval_decision_graph plenty (fun _ _ s => go (0, s)) true 1 1 passphrase_state
             = Ok (Returned 0 s') /\
    g_mnt s' = [None] /\ g_input s' = [] /\ g_keyring s' = ∅.
Proof.
  by apply (@empty_answers_succeed plenty (fun _ _ s => go (0, s)) 0 1 passphrase_state
    (ParamNode [lit "passwd"] None None None None
      (Z.lor ECRYPTFS_PARAM_FLAG_MASK_OUTPUT ECRYPTFS_NONEMPTY_VALUE_REQUIRED) []) None [] [] 1).
Defined.
