(* ===== verification/PassphraseGraph.v ===== *)
(** * The graph of the passphrase module:
    [src/key_mod/ecryptfs_key_mod_passphrase.c]

    Five nodes ask how the passphrase is given, for the passphrase, its file or
    its descriptor, and for the salt; the last one derives the key, puts its
    token into the keyring and pushes the signature as a mount option.
    Allocations of this file are asked for by line number plus 30000. *)

From S2P Require Import Prelude CLib Ecryptfs PassphraseSig KeyMod KeyPayload KeyManagement CmdLnParser DecisionGraph.


(** The addresses of the nodes. *)
Definition ECRYPTFS_PASSPHRASE_TOK : Z := 100.
Definition ECRYPTFS_PASSWD_TOK : Z := 101.
Definition ECRYPTFS_PASS_FILE_TOK : Z := 102.
Definition ECRYPTFS_PASS_FD_TOK : Z := 103.
Definition ECRYPTFS_SALT_TOK : Z := 104.

Definition passphrase_tok_node : param_node :=
  ParamNode [lit "passphrase_type"] (Some (lit "Method for providing the passphrase")) None
    (Some (lit "passphrase_passwd")) None
    (Z.lor ECRYPTFS_PARAM_FLAG_NO_VALUE
      (Z.lor ECRYPTFS_ALLOW_IMPLICIT_TRANSITION ECRYPTFS_IMPLICIT_OVERRIDE_DEFAULT))
    [TransNode (Some (lit "passphrase_passwd")) (Some (lit "Provide passphrase directly"))
       (Some ECRYPTFS_PASSWD_TOK) None;
     TransNode (Some (lit "passphrase_passwd_file"))
       (Some (lit "File containing passphrase (only use secure media)"))
       (Some ECRYPTFS_PASS_FILE_TOK) None;
     TransNode (Some (lit "passphrase_passwd_fd"))
       (Some (lit "File descriptor for file containing passphrase"))
       (Some ECRYPTFS_PASS_FD_TOK) None].

(** Both transitions of the three nodes that ask for a passphrase. *)
Definition to_salt (name : cstring) (f : trans_fn) : list transition_node :=
  [TransNode (Some name) (Some (lit "salt")) (Some ECRYPTFS_SALT_TOK) (Some f);
   TransNode (Some (lit "default")) (Some (lit "default")) (Some ECRYPTFS_SALT_TOK) (Some f)].

Definition passwd_tok_node : param_node :=
  ParamNode [lit "passphrase_passwd"; lit "passwd"] (Some (lit "Passphrase")) None None None
    (Z.lor ECRYPTFS_PARAM_FLAG_MASK_OUTPUT ECRYPTFS_NONEMPTY_VALUE_REQUIRED)
    (to_salt (lit "passphrase_salt") TfPasswd).
Definition pass_file_tok_node : param_node :=
  ParamNode [lit "passphrase_passwd_file"; lit "passfile"] (Some (lit "Passphrase File")) None None
    None (Z.lor ECRYPTFS_PARAM_FLAG_ECHO_INPUT ECRYPTFS_NONEMPTY_VALUE_REQUIRED)
    (to_salt (lit "passphrase_salt") TfPassFile).
Definition pass_fd_tok_node : param_node :=
  ParamNode [lit "passphrase_passwd_fd"; lit "passfd"] (Some (lit "Passphrase File Discriptor"))
    None None None (Z.lor ECRYPTFS_PARAM_FLAG_ECHO_INPUT ECRYPTFS_NONEMPTY_VALUE_REQUIRED)
    (to_salt (lit "salt") TfPassFile).
Definition salt_tok_node : param_node :=
  ParamNode [lit "passphrase_salt"; lit "salt"] (Some (lit "Salt (hexadecimal representation)"))
    None (Some ECRYPTFS_DEFAULT_SALT_HEX) None 0 [TransNode None None None (Some TfSalt)].

Definition passphrase_param_nodes : gmap Z param_node :=
  <[ECRYPTFS_PASSPHRASE_TOK := passphrase_tok_node]>
  (<[ECRYPTFS_PASSWD_TOK := passwd_tok_node]>
  (<[ECRYPTFS_PASS_FILE_TOK := pass_file_tok_node]>
  (<[ECRYPTFS_PASS_FD_TOK := pass_fd_tok_node]>
  (<[ECRYPTFS_SALT_TOK := salt_tok_node]> ∅)))).

Definition passphrase_transition : transition_node :=
  TransNode (Some (lit "passphrase")) (Some (lit "Passphrase")) (Some ECRYPTFS_PASSPHRASE_TOK) None.

(** What a descriptor delivers to [parse_options_file]: the result of [fstat],
    the errors of [read], the content. *)
Definition descriptor : Type := (Z + filestat) * (nat -> option Z) * bytes.

Section Transitions.
Context `{Heap, Nss, Sys}.
(** [open] of a name and an open descriptor by its number, at a step of the
    walk. *)
Context (open_file : nat -> cstring -> Z + descriptor) (open_fd : nat -> Z -> descriptor).

Definition tf_passwd (node : Z) (s : gstate) : outcome (Z * gstate) :=
  p ← get_node s node;
  match pn_val p with
  | None => mret (- EINVAL, s)
  | Some _ =>
      let '(rc, s) := stack_push (pn_val p) s in
      if negb (rc =? 0) then mret (rc, s)
      else mret (DEFAULT_TOK, upd_node node (set_val None) s)
  end.

(** The walk over the parsed file for the passphrase: its value. *)
Fixpoint find_passwd (l : list ecryptfs_name_val_pair) : outcome (option (option cstring)) :=
  match l with
  | [] => mret None
  | walker :: l' =>
      name ← deref_str (nv_name walker);
      if streq name (lit "passphrase_passwd") || streq name (lit "passwd")
      then mret (Some (nv_value walker)) else find_passwd l'
  end.

(** The descriptor that is read, or the code without one; the kernel refuses a
    null name, [strtol] does not. *)
Definition pass_file_fd (p : param_node) (s : gstate) : outcome (Z + descriptor) :=
  name ← deref_str (head (pn_mnt_opt_names p));
  if streq name (lit "passphrase_passwd_file") then
    match pn_val p with
    | None => mret (inl (- EFAULT))
    | Some v =>
        match open_file (g_steps s) v with
        | inl errno => mret (inl (- errno))
        | inr d => mret (inr d)
        end
    end
  else if streq name (lit "passphrase_passwd_fd") then
    v ← deref_str (pn_val p);
    mret (inr (open_fd (g_steps s) (i32 (strtol0 v))))
  else mret (inl MOUNT_ERROR).

(** All but the end of the function, which frees the value of the node. *)
Definition pass_file_body (p : param_node) (s : gstate) : outcome (Z * gstate) :=
  if negb (alloc_ok 30054 (g_steps s)) then mret (- ENOMEM, s)
  else
    fd ← pass_file_fd p s;
    match fd with
    | inl rc => mret (rc, s)
    | inr (fstat, read_errno, input) =>
        '(rc, l) ← parse_options_file fstat read_errno input;
        if negb (rc =? 0) then mret (rc, s)
        else
          found ← find_passwd l;
          match found with
          | None => mret (MOUNT_ERROR, s)
          | Some v =>
              if negb (alloc_ok 30087 (g_steps s)) then mret (- ENOMEM, s)
              else mret (0, (stack_push (Some (show_str v)) s).2)
          end
    end.

Definition tf_pass_file (node : Z) (s : gstate) : outcome (Z * gstate) :=
  p ← get_node s node;
  '(rc, s) ← pass_file_body p s;
  mret (rc, upd_node node (set_val None) s).

(** [stack_pop_val] into a variable that held nothing. *)
Definition pop_local (s : gstate) : outcome (option cstring * gstate) :=
  let '(rc, v, stack) := stack_pop_val (g_mnt s) in
  match v with
  | Some v => mret (v, set_mnt stack s)
  | None => UB Uninitialised
  end.

(** After the salt and the passphrase have been popped. *)
Definition salt_key (salt_hex passwd : option cstring) (s : gstate) : outcome (Z * gstate) :=
  if negb (alloc_ok 30129 (g_steps s)) then mret (- ENOMEM, s)
  else
    salt_hex ← deref_str salt_hex;
    salt ← from_hex (malloc_block heap_junk ECRYPTFS_SALT_SIZE) (salt_hex ++ [0]) ECRYPTFS_SIG_SIZE;
    passwd ← deref_str passwd;
    '(rc, auth_tok_sig, kr) ← ecryptfs_add_passphrase_key_to_keyring (g_steps s) (g_keyring s)
       (malloc_block heap_junk (ECRYPTFS_SIG_SIZE_HEX + 1)) passwd salt;
    let s := set_keyring kr s in
    if rc <? 0 then mret (rc, s)
    else if negb (alloc_ok 30140 (g_steps s)) then mret (- ENOMEM, s)
    else
      sig ← cstr_of auth_tok_sig;
      let '(rc, s) := stack_push (Some (lit "ecryptfs_sig=" ++ sig)) s in
      if negb (rc =? 0) then mret (rc, s) else mret (DEFAULT_TOK, s).

Definition tf_salt (node : Z) (s : gstate) : outcome (Z * gstate) :=
  p ← get_node s node;
  if match pn_val p with None => negb (alloc_ok 30122 (g_steps s)) | Some _ => false end
  then mret (- ENOMEM, s)
  else
    let v := match pn_val p with Some v => v | None => show_str (pn_default_val p) end in
    let s := upd_node node (set_val None) (stack_push (Some v) s).2 in
    '(salt_hex, s) ← pop_local s;
    '(passwd, s) ← pop_local s;
    salt_key salt_hex passwd s.
End Transitions.

(** ** Lemmas *)
Lemma from_hex_hex_of dst salt :
  Forall is_byte salt -> zlen salt = 8 -> zlen dst = 8 ->
  from_hex dst (hex_of salt ++ [0]) ECRYPTFS_SIG_SIZE = Ok salt.
Proof.
  intros Hb Hl Hd. unfold from_hex. change (Z.to_nat ECRYPTFS_SIG_SIZE) with 8%nat.
  pose proof (from_hex_loop_hex [] salt [0] Hb eq_refl) as Hx.
  unfold zlen in Hl. replace (length salt) with 8%nat in Hx by lia.
  change (zlen (@nil Z) / 2) with 0 in Hx. rewrite app_nil_l in Hx. rewrite Hx, bind_Ok.
  rewrite wr_ok by (unfold zlen in *; lia). change (Z.to_nat 0) with 0%nat.
  rewrite take_0, drop_ge by (unfold zlen in *; lia). by rewrite app_nil_r.
Qed.

Section Lemmas.
Context `{Heap, Nss, !NssLaws, Sys}.

Lemma stack_push_ok v s : heap_never_fails -> stack_push v s = (0, set_mnt (v :: g_mnt s) s).
Proof. intros Hh. unfold stack_push. by rewrite Hh. Qed.

Lemma ensure_token_rc kr salt p : 0 <= (ensure_token kr salt p).1.
Proof. unfold ensure_token. by case_match. Qed.

Lemma pop_local_ok v rest s : g_mnt s = v :: rest -> pop_local s = Ok (v, set_mnt rest s).
Proof. intros Hm. unfold pop_local. by rewrite Hm. Qed.

(** The state after the key of a passphrase has been added. *)
Definition key_added (salt : bytes) (passwd : cstring) (rest : list (option cstring)) (s : gstate) : gstate :=
  set_mnt (Some (lit "ecryptfs_sig=" ++ passphrase_sig_hex salt passwd) :: rest)
    (set_keyring (ensure_token (g_keyring s) salt passwd).2 s).

Lemma salt_key_ok salt passwd s :
  heap_never_fails -> digest_total -> sys_works -> Forall is_byte salt -> zlen salt = 8 ->
  zlen passwd <= 64 ->
  salt_key (Some (hex_of salt)) (Some passwd) s = Ok (DEFAULT_TOK, key_added salt passwd (g_mnt s) s).
Proof.
  intros Hh Hd Hs Hb Hl Hp. unfold salt_key. rewrite (Hh 30129). cbn [negb deref_str mret outcome_ret].
  rewrite bind_Ok, from_hex_hex_of, bind_Ok by (done || by rewrite zlen_malloc_block). cbn [obind mret outcome_ret].
  rewrite add_passphrase_key_ok by (done || rewrite ?zlen_malloc_block; unfold ECRYPTFS_SIG_SIZE_HEX, ECRYPTFS_SIG_SIZE; lia).
  rewrite bind_Ok. pose proof (ensure_token_rc (g_keyring s) salt passwd) as Hrc.
  replace ((ensure_token (g_keyring s) salt passwd).1 <? 0) with false by lia.
  rewrite (Hh 30140). cbn [negb app]. rewrite cstr_of_app, bind_Ok
    by (by apply is_char_nonzero, passphrase_sig_hex_cstring).
  by rewrite stack_push_ok.
Qed.

Lemma tf_salt_ok node p salt passwd rest s :
  heap_never_fails -> digest_total -> sys_works -> Forall is_byte salt -> zlen salt = 8 ->
  zlen passwd <= 64 ->
  g_nodes s !! node = Some p -> pn_val p = Some (hex_of salt) -> g_mnt s = Some passwd :: rest ->
  tf_salt node s = Ok (DEFAULT_TOK, key_added salt passwd rest (upd_node node (set_val None) s)).
Proof.
  intros Hh Hd Hs Hb Hl Hpw Hp Hv Hm. unfold tf_salt, get_node. rewrite Hp. cbn [obind]. rewrite Hv.
  rewrite stack_push_ok by done.
  rewrite (pop_local_ok (Some (hex_of salt)) (g_mnt s)), bind_Ok by done.
  rewrite (pop_local_ok (Some passwd) rest), bind_Ok by (exact Hm).
  by rewrite salt_key_ok.
Qed.
End Lemmas.

(** ** Properties *)

(** The salt node turns the passphrase on top of the stack into its
    signature: the token of passphrase and salt is in the keyring afterwards, an
    existing one is kept, and the option with the signature is pushed instead of
    the passphrase. *)
Theorem salt_node_adds_key `{Heap, Nss, !NssLaws, Sys} node p salt passwd rest s :
  heap_never_fails -> digest_total -> sys_works -> Forall is_byte salt -> zlen salt = 8 ->
  zlen passwd <= 64 ->
  g_nodes s !! node = Some p -> pn_val p = Some (hex_of salt) -> g_mnt s = Some passwd :: rest ->
  exists s', tf_salt node s = Ok (DEFAULT_TOK, s') /\
    g_mnt s' = Some (lit "ecryptfs_sig=" ++ passphrase_sig_hex salt passwd) :: rest /\
    is_Some (g_keyring s' !! passphrase_sig_hex salt passwd) /\
    (g_keyring s !! passphrase_sig_hex salt passwd = None ->
     g_keyring s' !! passphrase_sig_hex salt passwd = Some (passphrase_token salt passwd)) /\
    (forall sig, sig <> passphrase_sig_hex salt passwd -> g_keyring s' !! sig = g_keyring s !! sig).
Proof.
  intros. eexists. split; [by eapply tf_salt_ok|].
  cbn [key_added g_mnt g_keyring set_mnt set_keyring upd_node set_nodes]. split; [done|].
  unfold ensure_token. destruct (g_keyring s !! _) eqn:Hk; cbn [snd].
  - rewrite Hk. split_and!; [by eexists|done..].
  - rewrite lookup_insert_eq. split_and!; [by eexists|done|].
    intros sig Hne. by rewrite lookup_insert_ne.
Qed.

Lemma salt_node_adds_key_witness :
  let s := GState {[1 := set_val (Some (hex_of (zeros 8))) salt_tok_node]} [] [Some (lit "secret"); None]
             FooNull [] 1 ∅ [] 0 None 100 0 [] in
  exists s', @tf_salt plenty toy_nss calm_sys 1 s = Ok (DEFAULT_TOK, s') /\
    g_mnt s' = [Some (lit "ecryptfs_sig=" ++ @passphrase_sig_hex toy_nss (zeros 8) (lit "secret")); None] /\
    is_Some (g_keyring s' !! @passphrase_sig_hex toy_nss (zeros 8) (lit "secret")) /\
    (g_keyring s !! @passphrase_sig_hex toy_nss (zeros 8) (lit "secret") = None ->
     g_keyring s' !! @passphrase_sig_hex toy_nss (zeros 8) (lit "secret")
     = Some (@passphrase_token toy_nss (zeros 8) (lit "secret"))) /\
    (forall sig, sig <> @passphrase_sig_hex toy_nss (zeros 8) (lit "secret") ->
     g_keyring s' !! sig = g_keyring s !! sig).
Proof.
  intros s. apply (@salt_node_adds_key plenty toy_nss toy_nss_laws calm_sys 1
    (set_val (Some (hex_of (zeros 8))) salt_tok_node)).
  - intros line k. reflexivity.
  - apply toy_digest_total.
  - apply calm_sys_works.
  - apply Forall_replicate. split; vm_compute; congruence.
  - vm_compute; reflexivity.
  - vm_compute; congruence.
  - reflexivity.
  - reflexivity.
  - reflexivity.
Defined.
