(* ===== verification/ModuleMgr.v ===== *)
(** * The graph of mount options: [src/libecryptfs/module_mgr.c]

    The static parameter nodes of the mount options, their transition
    functions, and the functions that assemble the graph from the key modules
    and the version of the kernel module and walk over it.  Allocations of this
    file are asked for by line number plus 20000. *)

From S2P Require Import Prelude CLib Ecryptfs PassphraseSig KeyMod KeyPayload KeyManagement CmdLnParser DecisionGraph PassphraseGraph.

(** ** Versions (the flags of [ecryptfs.h], the tests of [sysfs.c]) *)
Definition ECRYPTFS_VERSIONING_PUBKEY : Z := 0x00000002.
Definition ECRYPTFS_VERSIONING_PLAINTEXT_PASSTHROUGH : Z := 0x00000004.
Definition ECRYPTFS_VERSIONING_POLICY : Z := 0x00000008.
Definition ECRYPTFS_VERSIONING_XATTR : Z := 0x00000010.
Definition ECRYPTFS_VERSIONING_HMAC : Z := 0x00000080.

Definition ecryptfs_supports_passphrase (version : Z) : bool :=
  has_flag version ECRYPTFS_VERSIONING_PASSPHRASE.
Definition ecryptfs_supports_pubkey (version : Z) : bool :=
  has_flag version ECRYPTFS_VERSIONING_PUBKEY.
Definition ecryptfs_supports_plaintext_passthrough (version : Z) : bool :=
  has_flag version ECRYPTFS_VERSIONING_PLAINTEXT_PASSTHROUGH.
Definition ecryptfs_supports_hmac (version : Z) : bool :=
  has_flag version ECRYPTFS_VERSIONING_HMAC.
Definition ecryptfs_supports_filename_encryption (version : Z) : bool :=
  has_flag version ECRYPTFS_VERSIONING_FILENAME_ENCRYPTION.
Definition ecryptfs_supports_policy (version : Z) : bool :=
  has_flag version ECRYPTFS_VERSIONING_POLICY.
Definition ecryptfs_supports_xattr (version : Z) : bool :=
  has_flag version ECRYPTFS_VERSIONING_XATTR.

(** ** The static nodes, by address *)
Definition key_module_select_node : Z := 1.
Definition root_param_node : Z := 2.
Definition end_param_node : Z := 3.
Definition filename_crypto_fnek_sig_param_node : Z := 4.
Definition enable_filename_crypto_param_node : Z := 5.
Definition ecryptfs_version_support_node : Z := 6.
Definition encrypted_passthrough_param_node : Z := 7.
Definition xattr_param_node : Z := 8.
Definition passthrough_param_node : Z := 9.
Definition hmac_param_node : Z := 10.
Definition ecryptfs_key_bytes_param_node : Z := 11.
Definition ecryptfs_cipher_param_node : Z := 12.
Definition another_key_param_node : Z := 13.
Definition dummy_param_node : Z := 14.

Definition default_transition (next : option Z) (f : option trans_fn) : list transition_node :=
  [TransNode (Some (lit "default")) (Some (lit "default")) next f].

Definition key_module_select_init : param_node :=
  ParamNode [lit "key"] (Some (lit "Select key type to use for newly created files")) None None None
    (Z.lor DISPLAY_TRANSITION_NODE_VALS ECRYPTFS_PARAM_FLAG_ECHO_INPUT) [].
Definition root_init : param_node :=
  ParamNode [lit "sig"] (Some (lit "Existing key signature")) None (Some (lit "NULL")) None
    (Z.lor ECRYPTFS_PARAM_FLAG_NO_VALUE ECRYPTFS_NO_AUTO_TRANSITION)
    (default_transition (Some ecryptfs_cipher_param_node) (Some SigParamNodeCallback)).
Definition end_init : param_node :=
  ParamNode [lit "end"] (Some (lit "end")) None None None ECRYPTFS_PARAM_FLAG_NO_VALUE [].
Definition filename_crypto_fnek_sig_init : param_node :=
  ParamNode [lit "ecryptfs_fnek_sig"] (Some (lit "Filename Encryption Key (FNEK) Signature")) None
    None None (Z.lor ECRYPTFS_PARAM_FLAG_NO_VALUE ECRYPTFS_NO_AUTO_TRANSITION)
    (default_transition (Some end_param_node) (Some FilenameCryptoFnekSigCallback)).
Definition enable_filename_crypto_init : param_node :=
  ParamNode [lit "ecryptfs_enable_filename_crypto"] (Some (lit "Enable filename encryption (y/n)"))
    None None None ECRYPTFS_PARAM_FLAG_ECHO_INPUT
    (default_transition (Some filename_crypto_fnek_sig_param_node) (Some GetEnableFilenameCrypto)).
Definition ecryptfs_version_support_init : param_node :=
  ParamNode [lit "end"] (Some (lit "end")) None None None ECRYPTFS_PARAM_FLAG_NO_VALUE
    (default_transition None None).
Definition encrypted_passthrough_init : param_node :=
  ParamNode [lit "ecryptfs_encrypted_view"]
    (Some (lit "Pass through encrypted versions of all files (y/N)")) None (Some (lit "n")) None
    ECRYPTFS_PARAM_FLAG_ECHO_INPUT
    (default_transition (Some end_param_node) (Some GetEncryptedPassthrough)).
Definition xattr_init : param_node :=
  ParamNode [lit "ecryptfs_xattr"] (Some (lit "Write metadata to extended attribute region (y/N)"))
    None (Some (lit "n")) None ECRYPTFS_PARAM_FLAG_ECHO_INPUT
    (default_transition (Some end_param_node) (Some GetXattr)).
Definition passthrough_init : param_node :=
  ParamNode [lit "ecryptfs_passthrough"] (Some (lit "Enable plaintext passthrough (y/n)")) None None
    None ECRYPTFS_PARAM_FLAG_ECHO_INPUT
    (default_transition (Some end_param_node) (Some GetPassthrough)).
Definition hmac_init : param_node :=
  ParamNode [lit "ecryptfs_hmac"] (Some (lit "Enable HMAC integrity verification (y/N)")) None None
    None ECRYPTFS_PARAM_FLAG_ECHO_INPUT
    (default_transition (Some end_param_node) (Some GetHmac)).
Definition ecryptfs_key_bytes_init : param_node :=
  ParamNode [lit "ecryptfs_key_bytes"] (Some (lit "Select key bytes")) None None None
    (Z.lor DISPLAY_TRANSITION_NODE_VALS
      (Z.lor ECRYPTFS_PARAM_FORCE_DISPLAY_NODES ECRYPTFS_PARAM_FLAG_ECHO_INPUT)) [].
Definition ecryptfs_cipher_init : param_node :=
  ParamNode [lit "ecryptfs_cipher"] (Some (lit "Select cipher")) None None None
    (Z.lor DISPLAY_TRANSITION_NODE_VALS
      (Z.lor ECRYPTFS_DISPLAY_PRETTY_VALS ECRYPTFS_PARAM_FLAG_ECHO_INPUT)) [].
Definition another_key_init : param_node :=
  ParamNode [lit "another_key"] (Some (lit "Internal check for another key")) None
    (Some (lit "NULL")) None (Z.lor ECRYPTFS_PARAM_FLAG_NO_VALUE ECRYPTFS_NO_AUTO_TRANSITION)
    (default_transition (Some ecryptfs_cipher_param_node) (Some AnotherKeyParamNodeCallback)).
Definition dummy_init : param_node :=
  ParamNode [lit "dummy"] (Some (lit "dummy")) None None None ECRYPTFS_PARAM_FLAG_NO_VALUE [].

Definition static_nodes : gmap Z param_node :=
  <[key_module_select_node := key_module_select_init]>
  (<[root_param_node := root_init]>
  (<[end_param_node := end_init]>
  (<[filename_crypto_fnek_sig_param_node := filename_crypto_fnek_sig_init]>
  (<[enable_filename_crypto_param_node := enable_filename_crypto_init]>
  (<[ecryptfs_version_support_node := ecryptfs_version_support_init]>
  (<[encrypted_passthrough_param_node := encrypted_passthrough_init]>
  (<[xattr_param_node := xattr_init]>
  (<[passthrough_param_node := passthrough_init]>
  (<[hmac_param_node := hmac_init]>
  (<[ecryptfs_key_bytes_param_node := ecryptfs_key_bytes_init]>
  (<[ecryptfs_cipher_param_node := ecryptfs_cipher_init]>
  (<[another_key_param_node := another_key_init]>
  (<[dummy_param_node := dummy_init]>
  passphrase_param_nodes))))))))))))).

(** [node->tl[0].next_token = next]; the first slot always exists in memory, but
    only transitions below [num_transitions] are in the model. *)
Definition next0 (node : Z) (s : gstate) : outcome (option Z) :=
  tn ← get_tn s node 0; mret (tn_next_token tn).

(** ** Transition functions *)
Section Callbacks.
Context `{Heap}.

Definition sig_param_node_callback (node : Z) (s : gstate) : outcome (Z * gstate) :=
  p ← get_node s node;
  let select := set_next node 0 (Some key_module_select_node) s in
  match pn_val p with
  | None => mret (0, select)
  | Some v =>
      if streq v (lit "NULL") then mret (0, select)
      else if negb (alloc_ok 20071 (g_steps s)) then mret (- ENOMEM, s)
      else mret (stack_push (Some (lit "ecryptfs_sig=" ++ v)) s)
  end.

Definition is_yes (str : option cstring) (on_null : Z) : Z :=
  match str with
  | Some str =>
      if streq str (lit "y") || streq str (lit "yes") then 1
      else if streq str (lit "no") || streq str (lit "n") then 0
      else -1
  | None => on_null
  end.

Definition stack_push_if_yes (node : Z) (opt_name : cstring) (s : gstate) : outcome (Z * gstate) :=
  p ← get_node s node;
  let yes := is_yes (pn_val p) 0 in
  let '(rc, s) :=
    if (yes =? 1) || has_flag (pn_flags p) PARAMETER_SET then stack_push (Some opt_name) s
    else if yes =? -1 then (WRONG_VALUE, s)
    else (yes, s) in
  mret (rc, upd_node node (set_val None) s).

Definition get_hmac (node : Z) := stack_push_if_yes node (lit "ecryptfs_hmac").
Definition get_passthrough (node : Z) := stack_push_if_yes node (lit "ecryptfs_passthrough").
Definition get_xattr (node : Z) := stack_push_if_yes node (lit "ecryptfs_xattr_metadata").
Definition get_encrypted_passthrough (node : Z) :=
  stack_push_if_yes node (lit "ecryptfs_encrypted_view").

Definition filename_crypto_fnek_sig_callback (node : Z) (s : gstate) : outcome (Z * gstate) :=
  p ← get_node s node;
  next ← next0 node s;
  let ask :=
    set_next node 0 (Some enable_filename_crypto_param_node)
      (set_next enable_filename_crypto_param_node 0 next
        (upd_node node (set_flags ECRYPTFS_PARAM_FLAG_ECHO_INPUT) s)) in
  match pn_val p with
  | None => mret (0, ask)
  | Some v =>
      if streq v (lit "NULL") then mret (0, ask)
      else if negb (alloc_ok 20201 (g_steps s)) then mret (- ENOMEM, s)
      else mret (stack_push (Some (lit "ecryptfs_fnek_sig=" ++ v)) s)
  end.

(** The walk over the stack for a signature: what follows "ecryptfs_sig=". *)
Fixpoint find_sig (stack : list (option cstring)) : outcome (option cstring) :=
  match stack with
  | [] => mret None
  | v :: stack' =>
      v ← deref_str v;
      if prefixb (lit "ecryptfs_sig=") v then mret (Some (drop 13 v)) else find_sig stack'
  end.

Definition get_enable_filename_crypto (node : Z) (s : gstate) : outcome (Z * gstate) :=
  p ← get_node s node;
  let yn := is_yes (pn_val p) 0 in
  '(rc, s) ←
    (if (0 <? yn) || has_flag (pn_flags p) PARAMETER_SET then
       next ← next0 node s;
       let s := upd_node filename_crypto_fnek_sig_param_node
                  (fun q => set_tl (set_next_token next <$> pn_tl q) q) s in
       let s := set_next node 0 (Some filename_crypto_fnek_sig_param_node) s in
       sig ← find_sig (g_mnt s);
       match sig with
       | None => mret (0, s)
       | Some sig =>
           if negb (alloc_ok 20249 (g_steps s)) then mret (- ENOMEM, s)
           else mret (0, upd_node filename_crypto_fnek_sig_param_node (set_suggested_val (Some sig)) s)
       end
     else
       mret (match pn_val p with Some _ => if yn <? 0 then WRONG_VALUE else 0 | None => 0 end, s));
  mret (rc, upd_node node (set_val None) s).

(** ** Ciphers and key sizes *)
Definition supported_key_bytes : list (cstring * Z) :=
  [(lit "aes", 16); (lit "aes", 32); (lit "aes", 24); (lit "anubis", 16); (lit "anubis", 32);
   (lit "des3_ede", 24); (lit "serpent", 16); (lit "serpent", 32); (lit "tnepres", 16);
   (lit "tnepres", 32); (lit "tea", 16); (lit "xeta", 16); (lit "xtea", 16); (lit "cast5", 16);
   (lit "cast6", 16); (lit "cast6", 32); (lit "twofish", 16); (lit "twofish", 32);
   (lit "blowfish", 16); (lit "blowfish", 32); (lit "blowfish", 56); (lit "khazad", 16);
   (lit "arc4", 16); (lit "arc4", 32)].

Definition tf_ecryptfs_key_bytes (node : Z) (s : gstate) : outcome (Z * gstate) :=
  p ← get_node s node;
  let s' := upd_node node (set_val None) s in
  if negb (alloc_ok 20429 (g_steps s)) then mret (- ENOMEM, s')
  else mret (stack_push (Some (lit "ecryptfs_key_bytes=" ++ show_str (pn_val p))) s').

(** [suggested_val], if it is not set yet. *)
Definition suggest (v : cstring) (p : param_node) : param_node :=
  match pn_suggested_val p with Some _ => p | None => set_suggested_val (Some v) p end.
Definition add_tn (tn : transition_node) (p : param_node) : param_node :=
  set_tl (pn_tl p ++ [tn]) p.

(** The comparison with the limits is one of unsigned integers. *)
Fixpoint init_key_bytes_loop (k i : nat) (table : list (cstring * Z)) (cipher_name : option cstring)
    (min max : Z) (s : gstate) : outcome (Z * gstate) :=
  match table with
  | [] => mret (0, s)
  | (cipher, key_bytes) :: table' =>
      if (u32 min <=? key_bytes) && (key_bytes <=? u32 max) then
        name ← deref_str cipher_name;
        if streq name cipher then
          p ← get_node s ecryptfs_key_bytes_param_node;
          let digits := show_int key_bytes in
          if negb (alloc_ok 20457 (k * 64 + i)) then mret (- ENOMEM, s)
          else if match pn_suggested_val p with
                  | None => negb (alloc_ok 20465 (k * 64 + i))
                  | Some _ => false
                  end then mret (- ENOMEM, s)
          else
            init_key_bytes_loop k (S i) table' cipher_name min max
              (upd_node ecryptfs_key_bytes_param_node
                (fun p => add_tn (TransNode (Some digits) None (Some ecryptfs_version_support_node)
                                    (Some TfKeyBytes)) (suggest digits p)) s)
        else init_key_bytes_loop k (S i) table' cipher_name min max s
      else init_key_bytes_loop k (S i) table' cipher_name min max s
  end.

Definition init_ecryptfs_key_bytes_param_node (cipher_name : option cstring) (min max : Z)
    (s : gstate) : outcome (Z * gstate) :=
  '(rc, s) ← init_key_bytes_loop (g_steps s) 0 supported_key_bytes cipher_name min max s;
  if negb (rc =? 0) then mret (rc, s)
  else
    p ← get_node s ecryptfs_key_bytes_param_node;
    mret (if zlen (pn_tl p) =? 0 then - EINVAL else 0, s).

(** A key size limit on the stack: [None] when the entry is none, [Some None]
    when its number cannot be read. *)
Definition key_bytes_limit (name : cstring) (v : option cstring) : option (option Z) :=
  match v with
  | None => None
  | Some v =>
      match strstr v name, strchr v 61 with
      | Some _, Some i =>
          let digits := drop (S i) v in
          Some (if strtol_converts 10 digits then Some (i32 (strtol 10 digits)) else None)
      | _, _ => None
      end
  end.

(** The loop over the stack: the limits are taken off it.  After one the loop
    goes on with the entry behind the next.  The boolean tells whether a number
    could not be read. *)
Fixpoint take_limits (stack : list (option cstring)) (min max : Z)
    : outcome (bool * Z * Z * list (option cstring)) :=
  match stack with
  | [] => mret (false, min, max, [])
  | v :: rest =>
      let limit_max := key_bytes_limit (lit "max_key_bytes=") v in
      let limit_min := key_bytes_limit (lit "min_key_bytes=") v in
      match limit_max, limit_min with
      | Some None, _ => mret (true, min, max, stack)
      | _, Some None => mret (true, min, max, stack)
      | None, None =>
          '(bad, min, max, rest) ← take_limits rest min max;
          mret (bad, min, max, v :: rest)
      | _, _ =>
          let max := default max (mjoin limit_max) in
          let min := default min (mjoin limit_min) in
          match rest with
          | [] => UB NullDeref
          | w :: rest =>
              '(bad, min, max, rest) ← take_limits rest min max;
              mret (bad, min, max, w :: rest)
          end
      end
  end.

Definition tf_ecryptfs_cipher (node : Z) (s : gstate) : outcome (Z * gstate) :=
  '(bad, min, max, stack) ← take_limits (g_mnt s) 0 999999;
  let s := set_mnt stack s in
  if bad : bool then mret (- EINVAL, s)
  else
    p ← get_node s node;
    '(rc, s) ← init_ecryptfs_key_bytes_param_node (pn_val p) min max s;
    if negb (rc =? 0) then mret (rc, s)
    else
      let s' := upd_node node (set_val None) s in
      if negb (alloc_ok 20533 (g_steps s)) then mret (- ENOMEM, s')
      else mret (stack_push (Some (lit "ecryptfs_cipher=" ++ show_str (pn_val p))) s').

Record cipher_descriptor := CipherDescriptor {
  cd_name : cstring;
  cd_blocksize : Z;
  cd_min_keysize : Z;
  cd_max_keysize : Z
}.
Definition cipher_descriptors : list cipher_descriptor :=
  [CipherDescriptor (lit "aes") 16 16 32; CipherDescriptor (lit "blowfish") 8 16 56;
   CipherDescriptor (lit "des3_ede") 8 24 24; CipherDescriptor (lit "twofish") 16 16 32;
   CipherDescriptor (lit "cast6") 16 16 32; CipherDescriptor (lit "cast5") 8 5 16].

Definition cipher_pretty_val (cd : cipher_descriptor) : cstring :=
  cd_name cd ++ lit ": blocksize = " ++ show_int (cd_blocksize cd) ++ lit "; min keysize = " ++
  show_int (cd_min_keysize cd) ++ lit "; max keysize = " ++ show_int (cd_max_keysize cd).

(** [rc] is not set before the first allocation. *)
Fixpoint init_cipher_loop (i : nat) (cds : list cipher_descriptor) (s : gstate)
    : outcome (Z * gstate) :=
  match cds with
  | [] => match i with O => UB Uninitialised | S _ => mret (0, s) end
  | cd :: cds' =>
      p ← get_node s ecryptfs_cipher_param_node;
      if MAX_NUM_TRANSITIONS <=? zlen (pn_tl p) then
        match i with O => UB Uninitialised | S _ => mret (0, s) end
      else if negb (alloc_ok 20596 i) then mret (- ENOMEM, s)
      else if match pn_suggested_val p with None => negb (alloc_ok 20603 i) | Some _ => false end
      then mret (- ENOMEM, s)
      else if negb (alloc_ok 20611 i) then mret (- ENOMEM, s)
      else
        init_cipher_loop (S i) cds'
          (upd_node ecryptfs_cipher_param_node
            (fun p => add_tn (TransNode (Some (cd_name cd)) (Some (cipher_pretty_val cd))
                                (Some ecryptfs_key_bytes_param_node) (Some TfCipher))
                        (suggest (cd_name cd) p)) s)
  end.
Definition init_ecryptfs_cipher_param_node : gstate -> outcome (Z * gstate) :=
  init_cipher_loop 0 cipher_descriptors.

(** ** Another key *)

(** An option [key=...] that was not used yet, for one of the key modules. *)
Fixpoint find_other_key (names : cstring) (tl : list transition_node)
    (nvps : list ecryptfs_name_val_pair) : outcome bool :=
  match nvps with
  | [] => mret false
  | nvp :: nvps' =>
      if has_flag (nv_flags nvp) ECRYPTFS_PROCESSED then find_other_key names tl nvps'
      else
        name ← deref_str (nv_name nvp);
        if negb (streq name names) then find_other_key names tl nvps'
        else
          match tl with
          | [] => find_other_key names tl nvps'
          | _ =>
              value ← deref_str (nv_value nvp);
              found ← is_choice tl value;
              if found : bool then mret true else find_other_key names tl nvps'
          end
  end.

Definition another_key_param_node_callback (node : Z) (s : gstate) : outcome (Z * gstate) :=
  select ← get_node s key_module_select_node;
  found ← match g_nvp s with
          | [] => mret false
          | nvps =>
              name ← deref_str (head (pn_mnt_opt_names select));
              find_other_key name (pn_tl select) nvps
          end;
  mret (0, set_next node 0 (Some (if found : bool then key_module_select_node
                                  else ecryptfs_cipher_param_node)) s).
End Callbacks.

(** ** The graph *)

(** The loops [for (i = 0; i < last->num_transitions; i++) last->tl[i].next_token = next]. *)
Definition set_successors (node next : Z) (s : gstate) : gstate :=
  upd_node node (fun p => set_tl (set_next_token (Some next) <$> pn_tl p) p) s.

(** Appending the nodes a version of the kernel module supports; [last] is
    [last_param_node]. *)
Section Graph.
Context `{Heap}.

Definition add_passthrough (version last : Z) (s : gstate) : Z * Z * gstate :=
  if ecryptfs_supports_plaintext_passthrough version then
    let s := set_successors last passthrough_param_node s in
    if negb (alloc_ok 20711 0) then (- ENOMEM, last, s)
    else (0, passthrough_param_node,
          upd_node passthrough_param_node (set_suggested_val (Some (lit "n"))) s)
  else (0, last, s).

Definition add_hmac (version last : Z) (s : gstate) : Z * gstate :=
  if ecryptfs_supports_hmac version then (hmac_param_node, set_successors last hmac_param_node s)
  else (last, s).

Definition add_xattr (version last : Z) (s : gstate) : Z * gstate :=
  if ecryptfs_supports_xattr version then
    (encrypted_passthrough_param_node,
     set_successors xattr_param_node encrypted_passthrough_param_node
       (set_successors last xattr_param_node s))
  else (last, s).

Definition add_filename_encryption (version last : Z) (s : gstate) : Z * gstate :=
  if ecryptfs_supports_filename_encryption version then
    if negb (alloc_ok 20741 0) then (- ENOMEM, s)
    else (0, set_successors last filename_crypto_fnek_sig_param_node
               (upd_node enable_filename_crypto_param_node (set_suggested_val (Some (lit "n"))) s))
  else (0, s).

Definition fill_in_decision_graph_based_on_version_support (fuel : nat) (root version : Z)
    (s : gstate) : outcome (option (Z * gstate)) :=
  r ← ecryptfs_set_exit_param_on_graph fuel root another_key_param_node s;
  match r with
  | None => mret None
  | Some s =>
      '(rc, s) ← init_ecryptfs_cipher_param_node s;
      if negb (rc =? 0) then mret (Some (rc, s))
      else
        let '(rc, last, s) := add_passthrough version ecryptfs_version_support_node s in
        if negb (rc =? 0) then mret (Some (rc, s))
        else
          let '(last, s) := add_hmac version last s in
          let '(last, s) := add_xattr version last s in
          mret (Some (add_filename_encryption version last s))
  end.
End Graph.

(** ** Processing *)

(** The memory of a process that has called nothing of the library yet: static
    data, the head of an empty stack, a keyring and the answers of the user. *)
Definition fresh_state (kr : gmap (list Z) ecryptfs_auth_tok) (input : list (Z * option cstring))
    : gstate :=
  GState static_nodes [] [None] FooNull [] 0 kr input 0 None 1000 0 [].

Section Process.
Context `{Heap, Nss, Sys} (big_endian : bool).
(** The graphs of modules loaded at run time and their functions; the files and
    descriptors of the process; the home directory and [open] for the rc file;
    the directory of key modules and what it holds. *)
Context (module_trans : trans_node_id -> option transition_node)
        (module_tf : Z -> Z -> gstate -> running (Z * gstate))
        (open_file : nat -> cstring -> Z + descriptor) (open_fd : nat -> Z -> descriptor)
        (has_get_string : bool)
        (pw_dir : option cstring) (open_rc : cstring -> Z + descriptor)
        (key_mod_dir : cstring) (dir : option (list dirent)).

Definition run_tf (f : trans_fn) (node : Z) (s : gstate) : running (Z * gstate) :=
  match f with
  | SigParamNodeCallback => stays (sig_param_node_callback node s)
  | TfKeyBytes => stays (tf_ecryptfs_key_bytes node s)
  | TfCipher => stays (tf_ecryptfs_cipher node s)
  | GetHmac => stays (get_hmac node s)
  | GetPassthrough => stays (get_passthrough node s)
  | GetXattr => stays (get_xattr node s)
  | GetEncryptedPassthrough => stays (get_encrypted_passthrough node s)
  | FilenameCryptoFnekSigCallback => stays (filename_crypto_fnek_sig_callback node s)
  | GetEnableFilenameCrypto => stays (get_enable_filename_crypto node s)
  | AnotherKeyParamNodeCallback => stays (another_key_param_node_callback node s)
  | TfPasswd => stays (tf_passwd node s)
  | TfPassFile => stays (tf_pass_file open_file open_fd node s)
  | TfSalt => stays (tf_salt node s)
  | EnterLinearSubgraph => ecryptfs_enter_linear_subgraph_tf node s
  | LinearSubgraphVal => ecryptfs_linear_subgraph_val_tf node s
  | ExitLinearSubgraph => ecryptfs_exit_linear_subgraph_tf big_endian s
  | TfModule n => module_tf n node s
  end.

(** The built-in module is the passphrase module; its transition node has
    the identifier 0. *)
Definition passphrase_transition_id : trans_node_id := 0.
Definition builtin_get_key_mod_ops : list (option ecryptfs_key_mod_ops) :=
  [Some (ecryptfs_passphrase_ops passphrase_transition_id)].

(** [*trans_node]. *)
Definition resolve_trans (id : trans_node_id) : outcome transition_node :=
  if id =? passphrase_transition_id then mret passphrase_transition
  else match module_trans id with Some tn => mret tn | None => UB NullDeref end.

(** The transition node of key module [k]; [None] when it is left out. *)
Definition module_transition (k : nat) (version : Z) (key_mod : ecryptfs_key_mod) (s : gstate)
    : outcome (option transition_node * gstate) :=
  let linear :=
    '(rc, tn, s) ← ecryptfs_build_linear_subgraph k key_mod s;
    mret (if rc =? 0 then tn else None, s) in
  get_param_subgraph_trans_node ← call (op_get_param_subgraph_trans_node (km_ops key_mod));
  let '(rc, id) := get_param_subgraph_trans_node version in
  if negb (rc =? 0) then linear
  else match id with
  | None => linear
  | Some id => tn ← resolve_trans id; mret (Some tn, s)
  end.

(** The loop over the key modules: the code, the names that may occur twice and
    the state; [None] when the fuel for walking a graph runs out. *)
Fixpoint add_key_modules (fuel k : nat) (version : Z) (mods : key_mod_list)
    (allowed_duplicates : list ecryptfs_name_val_pair) (s : gstate)
    : outcome (option (Z * list ecryptfs_name_val_pair * gstate)) :=
  match mods with
  | [] => mret (Some (0, allowed_duplicates, s))
  | key_mod :: mods' =>
      '(trans_node, s) ← module_transition k version key_mod s;
      match trans_node with
      | None => add_key_modules fuel (S k) version mods' allowed_duplicates s
      | Some trans_node =>
          '(rc, s) ← add_transition_node_to_param_node key_module_select_node trans_node s;
          if negb (rc =? 0) then mret (Some (rc, allowed_duplicates, s))
          else
            r ← ecryptfs_insert_params_in_subgraph fuel (g_nodes s) allowed_duplicates trans_node;
            match r with
            | None => mret None
            | Some (rc, allowed_duplicates) =>
                if negb (rc =? 0) then mret (Some (rc, allowed_duplicates, s))
                else add_key_modules fuel (S k) version mods' allowed_duplicates s
            end
      end
  end.

(** The end of the graph: the mount options, or nothing. *)
Definition fill_in_graph (fuel : nat) (key_module_only : bool) (version : Z) (s : gstate)
    : outcome (option (Z * gstate)) :=
  if key_module_only then
    r ← ecryptfs_set_exit_param_on_graph fuel key_module_select_node dummy_param_node s;
    mret ((fun s => (0, s)) <$> r)
  else fill_in_decision_graph_based_on_version_support fuel key_module_select_node version s.

(** The codes of parsing the rc file and the options and of their union are
    not used. *)
Definition read_options (opts_str : option cstring)
    (allowed_duplicates : list ecryptfs_name_val_pair) : outcome (list ecryptfs_name_val_pair) :=
  '(_, rc_file_nvp) ← ecryptfs_parse_rc_file pw_dir open_rc;
  '(_, nvp) ← ecryptfs_parse_options opts_str;
  '(_, rc_file_nvp) ← ecryptfs_nvp_list_union 0 rc_file_nvp nvp allowed_duplicates;
  mret rc_file_nvp.

Definition ecryptfs_process_decision_graph (fuel : nat) (version : Z) (opts_str : option cstring)
    (key_module_only : bool) (s : gstate) : outcome walk_end :=
  '(rc, mods) ← ecryptfs_register_key_modules key_mod_dir builtin_get_key_mod_ops dir;
  let s := set_mods mods s in
  if negb (rc =? 0) then mret (Returned rc s)
  else if negb (alloc_ok 20810 0 && alloc_ok 20816 0) then mret (Returned (- ENOMEM) s)
  else
    select ← get_node s key_module_select_node;
    name ← deref_str (head (pn_mnt_opt_names select));
    let s := upd_node key_module_select_node (set_tl []) s in
    r ← add_key_modules fuel 0 version mods [NVPair 0 (Some name) None] s;
    match r with
    | None => mret OutOfFuel
    | Some (rc, allowed_duplicates, s) =>
        if negb (rc =? 0) then mret (Returned rc s)
        else
          r ← fill_in_graph fuel key_module_only version s;
          match r with
          | None => mret OutOfFuel
          | Some (rc, s) =>
              if negb (rc =? 0) then mret (Returned rc s)
              else
                nvp ← read_options opts_str allowed_duplicates;
                ecryptfs_eval_decision_graph run_tf has_get_string fuel root_param_node
                  (set_nvp nvp s)
          end
    end.

(** ** Key generation *)

(** [rc] is the code of the last call. *)
Fixpoint add_gen_key_modules (rc : Z) (version : Z) (mods : key_mod_list) (s : gstate)
    : outcome (bool * Z * gstate) :=
  match mods with
  | [] => mret (false, rc, s)
  | key_mod :: mods' =>
      get_gen_key_subgraph_trans_node ← call (op_get_gen_key_subgraph_trans_node (km_ops key_mod));
      let '(rc, id) := get_gen_key_subgraph_trans_node version in
      if negb (rc =? 0) then add_gen_key_modules rc version mods' s
      else match id with
      | None => add_gen_key_modules rc version mods' s
      | Some id =>
          tn ← resolve_trans id;
          '(rc, s) ← add_transition_node_to_param_node key_module_select_node tn s;
          if negb (rc =? 0) then mret (true, rc, s) else add_gen_key_modules rc version mods' s
      end
  end.

(** The result of the walk is dropped. *)
Definition ecryptfs_process_key_gen_decision_graph (fuel : nat) (version : Z) (s : gstate)
    : outcome walk_end :=
  if negb (alloc_ok 20926 0) then mret (Returned (- ENOMEM) s)
  else
    '(rc, mods) ← ecryptfs_register_key_modules key_mod_dir builtin_get_key_mod_ops dir;
    let s := set_mnt [None] (set_mods mods s) in
    if negb (rc =? 0) then mret (Returned rc s)
    else
      let s := upd_node key_module_select_node (set_tl []) s in
      '(failed, rc, s) ← add_gen_key_modules rc version mods s;
      if failed : bool then mret (Returned rc s)
      else
        r ← ecryptfs_set_exit_param_on_graph fuel key_module_select_node dummy_param_node s;
        match r with
        | None => mret OutOfFuel
        | Some s =>
            let s := upd_node key_module_select_node
              (fun p => set_flags (Z.lor (pn_flags p) ECRYPTFS_PARAM_FORCE_DISPLAY_NODES) p)
              (set_nvp [] s) in
            r ← ecryptfs_eval_decision_graph run_tf has_get_string fuel key_module_select_node s;
            match r with
            | Returned _ s => mret (Returned rc s)
            | _ => mret r
            end
        end.
End Process.

(** ** Lemmas on ciphers *)
Definition no_limit (v : option cstring) : Prop :=
  key_bytes_limit (lit "max_key_bytes=") v = None /\ key_bytes_limit (lit "min_key_bytes=") v = None.

Lemma take_limits_none stack min max :
  Forall no_limit stack -> take_limits stack min max = Ok (false, min, max, stack).
Proof.
  intros Hs. revert min max. induction Hs as [|v stack [Hmax Hmin] _ IH]; intros min max; [done|].
  cbn [take_limits]. by rewrite Hmax, Hmin, IH, bind_Ok.
Qed.

Lemma key_bytes_limit_none name c v :
  c ∈ name -> c ∉ v -> key_bytes_limit name (Some v) = None.
Proof.
  intros Hc Hv. cbn [key_bytes_limit]. destruct (strstr v name) eqn:Hs; [|done].
  destruct Hv. by eapply strstr_chars.
Qed.

(** A signature on the stack is no limit. *)
Lemma no_limit_sig sig :
  Forall (fun c => isxdigit c = true) sig -> no_limit (Some (lit "ecryptfs_sig=" ++ sig)).
Proof.
  intros Hs. rewrite Forall_forall in Hs.
  assert (forall c, c ∉ lit "ecryptfs_sig=" -> isxdigit c = false -> c ∉ lit "ecryptfs_sig=" ++ sig) as Hnot.
  { intros c Hc Hx [Hin|Hin]%elem_of_app; [done|]. apply Hs in Hin. congruence. }
  split; [apply (key_bytes_limit_none _ 120)|apply (key_bytes_limit_none _ 110)];
    try (apply Hnot; [|done]); apply (bool_decide_unpack _); by vm_compute.
Qed.

(** ** What the transition functions leave alone *)

(** The option list of two states is the same. *)
Definition same_options (s s' : gstate) : Prop := g_nvp s' = g_nvp s.

Section KeepOptions.
Context `{Heap, Nss, Sys}.

Lemma stack_push_nvp v s rc s' : stack_push v s = (rc, s') -> same_options s s'.
Proof. unfold stack_push. case_match; by intros [= _ <-]. Qed.

(** Runs of a function built from tests, pushes and updates of nodes. *)
Local Ltac keeps_options Hr :=
  unfold same_options in *; run_all Hr; try done;
  repeat match goal with
  | H : (if ?b then _ else _) = (_, _) |- _ => destruct b; simplify_eq; try done
  | H : stack_push _ _ = _ |- _ => apply stack_push_nvp in H; unfold same_options in H
  end; cbn in *; congruence.

Lemma sig_param_node_callback_nvp node s rc s' :
  sig_param_node_callback node s = Ok (rc, s') -> same_options s s'.
Proof. unfold sig_param_node_callback. intros Hr. keeps_options Hr. Qed.

Lemma stack_push_if_yes_nvp node o s rc s' :
  stack_push_if_yes node o s = Ok (rc, s') -> same_options s s'.
Proof. unfold stack_push_if_yes. intros Hr. keeps_options Hr. Qed.

Lemma fnek_sig_callback_nvp node s rc s' :
  filename_crypto_fnek_sig_callback node s = Ok (rc, s') -> same_options s s'.
Proof. unfold filename_crypto_fnek_sig_callback. intros Hr. keeps_options Hr. Qed.

Lemma get_enable_filename_crypto_nvp node s rc s' :
  get_enable_filename_crypto node s = Ok (rc, s') -> same_options s s'.
Proof.
  unfold get_enable_filename_crypto. intros (p & _ & Hr)%bind_ok_inv.
  apply bind_ok_inv in Hr as ((rc1 & s1) & Hb & Hr). injection Hr as _ <-.
  transitivity (g_nvp s1); [done|]. keeps_options Hb.
Qed.

Lemma tf_ecryptfs_key_bytes_nvp node s rc s' :
  tf_ecryptfs_key_bytes node s = Ok (rc, s') -> same_options s s'.
Proof. unfold tf_ecryptfs_key_bytes. intros Hr. keeps_options Hr. Qed.

Lemma init_key_bytes_loop_nvp k i table name min max s rc s' :
  init_key_bytes_loop k i table name min max s = Ok (rc, s') -> same_options s s'.
Proof.
  revert i s. induction table as [|[c kb] table IH]; intros i s; cbn [init_key_bytes_loop].
  { by intros [= _ <-]. }
  intros Hr. run_all Hr; try done; match goal with H : init_key_bytes_loop _ _ _ _ _ _ _ = _ |- _ =>
    apply IH in H; exact H end.
Qed.

Lemma tf_ecryptfs_cipher_nvp node s rc s' :
  tf_ecryptfs_cipher node s = Ok (rc, s') -> same_options s s'.
Proof.
  unfold tf_ecryptfs_cipher, init_ecryptfs_key_bytes_param_node.
  intros ((((bad & min) & max) & stack) & _ & Hr)%bind_ok_inv.
  destruct bad; [by injection Hr as _ <-|]. apply bind_ok_inv in Hr as (p & _ & Hr).
  apply bind_ok_inv in Hr as ((rc1 & s1) & Hi & Hr).
  assert (same_options s s1) as Hs.
  { apply bind_ok_inv in Hi as ((rc2 & s2) & Hl%init_key_bytes_loop_nvp & Hi).
    unfold same_options in *. cbn in Hl.
    destruct (negb (rc2 =? 0)); [injection Hi as _ <-; exact Hl|].
    apply bind_ok_inv in Hi as (q & _ & Hi). injection Hi as _ <-. exact Hl. }
  unfold same_options in *. destruct (negb (rc1 =? 0)); [by injection Hr as _ <-|].
  destruct (negb (alloc_ok _ _)); [by injection Hr as _ <-|].
  destruct (stack_push _ _) eqn:Hp in Hr. injection Hr as _ <-.
  apply stack_push_nvp in Hp. exact (eq_trans Hp Hs).
Qed.

Lemma another_key_callback_nvp node s rc s' :
  another_key_param_node_callback node s = Ok (rc, s') -> same_options s s'.
Proof.
  unfold another_key_param_node_callback. intros (p & _ & Hr)%bind_ok_inv.
  apply bind_ok_inv in Hr as (found & _ & Hr). by injection Hr as _ <-.
Qed.

Lemma tf_passwd_nvp node s rc s' : tf_passwd node s = Ok (rc, s') -> same_options s s'.
Proof. unfold tf_passwd. intros Hr. keeps_options Hr. Qed.

Lemma tf_pass_file_nvp open_file open_fd node s rc s' :
  tf_pass_file open_file open_fd node s = Ok (rc, s') -> same_options s s'.
Proof.
  unfold tf_pass_file, pass_file_body. intros (p & _ & Hr)%bind_ok_inv.
  apply bind_ok_inv in Hr as ((rc1 & s1) & Hb & Hr). injection Hr as _ <-.
  transitivity (g_nvp s1); [done|]. unfold mret, outcome_ret in Hb.
  run_all Hb; try done. all: destruct (stack_push _ _) eqn:Hs; by apply stack_push_nvp in Hs.
Qed.

Lemma tf_salt_nvp node s rc s' : tf_salt node s = Ok (rc, s') -> same_options s s'.
Proof.
  unfold tf_salt. intros (p & _ & Hr)%bind_ok_inv.
  case_match; [by injection Hr as _ <-|].
  set (s1 := upd_node node _ _) in Hr.
  assert (same_options s s1) as Hs1.
  { unfold s1. destruct (stack_push _ s) eqn:Hs. by apply stack_push_nvp in Hs. }
  clearbody s1. unfold pop_local, same_options in *.
  apply bind_ok_inv in Hr as ((salt & s2) & Hp & Hr).
  assert (g_nvp s2 = g_nvp s1) as Hs2 by (by run_all Hp).
  apply bind_ok_inv in Hr as ((passwd & s3) & Hp3 & Hr).
  assert (g_nvp s3 = g_nvp s2) as Hs3 by (by run_all Hp3).
  unfold salt_key in Hr. rewrite <- Hs1, <- Hs2, <- Hs3. clear Hp Hp3. keeps_options Hr.
Qed.
End KeepOptions.
