(* ===== verification/Gpg.v ===== *)
(** * GnuPG key module: [src/key_mod/ecryptfs_key_mod_gpg.c]

    The module is switched off: its initialisation always fails, so the registry
    leaves it out, and only two of its operations are in the table.  What is there of
    the others, the state it would keep in a blob, the metadata of a key and the node
    of its graph, is modelled as it stands.  GPGME is a parameter.  Allocations of
    this file are asked for by line number plus 140000. *)

From S2P Require Import Prelude CLib Ecryptfs KeyMod CmdLnParser DecisionGraph ModuleMgr.

Definition KEY_MOD_DATA_SET : Z := 1.

(** [struct key_mod_gpg]; a member that was not written is [None]. *)
Record key_mod_gpg := KeyModGpg {
  kg_flags : option Z;
  kg_ctx : option Z;
  kg_keylist_idx : option Z;
  kg_gpgsig : option ptr;
  kg_sig : option ptr
}.
Definition zero_key_mod_gpg : key_mod_gpg := KeyModGpg (Some 0) (Some 0) (Some 0) (Some PNull) (Some PNull).

Definition destroy_key_mod_gpg (g : key_mod_gpg) : outcome key_mod_gpg :=
  match kg_sig g with
  | None => UB Uninitialised
  | Some PNull => mret zero_key_mod_gpg
  | Some p => _ ← c_free p; mret zero_key_mod_gpg
  end.

(** Both do nothing yet. *)
Definition serialize_key_module_data (blob : bytes) (g : key_mod_gpg) : Z * bytes := (0, blob).
Definition deserialize_key_module_data (g : key_mod_gpg) (blob : bytes) : Z * key_mod_gpg := (0, g).

(** The value of the last pair of that name. *)
Fixpoint find_gpgsig (pairs : list ecryptfs_name_val_pair) (gpgsig : option cstring) : option cstring :=
  match pairs with
  | [] => gpgsig
  | nvp :: pairs' =>
      find_gpgsig pairs'
        (match nv_name nvp with
         | Some name => if streq name (lit "gpgsig") then nv_value nvp else gpgsig
         | None => gpgsig
         end)
  end.

Definition ecryptfs_gpg_initialize_key_module_state (blob : bytes) (pairs : list ecryptfs_name_val_pair)
    : outcome (Z * bytes) :=
  match find_gpgsig pairs None with
  | None => mret (- EINVAL, blob)
  | Some gpgsig =>
      let gpgsig_len := u32 (zlen gpgsig + 1) in
      blob ← wr blob 0 [u8 (gpgsig_len mod 256)];
      blob ← wr blob 1 [u8 (Z.shiftr gpgsig_len 8)];
      text ← rd (gpgsig ++ [0]) 0 gpgsig_len;
      blob ← wr blob 2 text;
      let key_mod_gpg := KeyModGpg (Some KEY_MOD_DATA_SET) None None None None in
      let '(_, blob) := serialize_key_module_data blob key_mod_gpg in
      mret (0, blob)
  end.

(** The code, the signature and the length. *)
Definition ecryptfs_gpg_get_key_metadata (sig blob : bytes) : outcome (Z * bytes * Z) :=
  sig ← wr sig 0 [0];
  let '(rc, g) := deserialize_key_module_data zero_key_mod_gpg blob in
  if negb (rc =? 0) then _ ← destroy_key_mod_gpg g; mret (rc, sig, 0)
  else
    match kg_sig g with
    | None => UB Uninitialised
    | Some p =>
        from ← deref p;
        text ← rd from 0 (ECRYPTFS_SIG_SIZE_HEX + 1);
        sig ← wr sig 0 text;
        _ ← destroy_key_mod_gpg g;
        mret (rc, sig, 0)
    end.

Definition TF_GPG_ENTER : Z := 40.
Definition TF_GPG_KEYSIG : Z := 41.
Definition GPG_TOK : Z := 0.

Section Gpg.
(** Whether a context can be made and a list begun; the keys of the ring, each with
    the names of its subkeys. *)
Context `{Heap} (gpgme_new gpgme_op_keylist_start : bool) (keylist : list (list cstring)).

Definition gpg_param_node : param_node :=
  ParamNode [lit "keysig"] (Some (lit "Key signature")) None None None ECRYPTFS_PARAM_FLAG_NO_VALUE
    [TransNode None None None (Some (TfModule TF_GPG_KEYSIG))].

(** The value of the only transition. *)
Definition set_tl_val (v : option cstring) (node : param_node) : param_node :=
  match pn_tl node with
  | tn :: tl =>
      ParamNode (pn_mnt_opt_names node) (pn_prompt node) (pn_val node) (pn_default_val node)
        (pn_suggested_val node) (pn_flags node)
        (TransNode v (tn_pretty_val tn) (tn_next_token tn) (tn_trans_func tn) :: tl)
  | [] => node
  end.

Fixpoint subkey_loop (k : nat) (subkeys : list cstring) (node : param_node) : bool * nat * param_node :=
  match subkeys with
  | [] => (true, k, node)
  | keyid :: subkeys' =>
      if negb (alloc_ok 140263 k) then (false, k, node)
      else subkey_loop (S k) subkeys' (set_tl_val (Some keyid) node)
  end.
Fixpoint key_loop (k : nat) (keys : list (list cstring)) (node : param_node) : Z * param_node :=
  match keys with
  | [] => (0, node)
  | subkeys :: keys' =>
      let '(ok, k, node) := subkey_loop k subkeys node in
      if negb ok then (- ENOMEM, node) else key_loop k keys' node
  end.
(** [foo] is [*foo]. *)
Definition tf_gpg_keysig (foo : option key_mod_gpg) (node : param_node) : outcome (Z * param_node) :=
  match foo with
  | None => UB NullDeref
  | Some g => match kg_ctx g with None => UB Uninitialised | Some _ => mret (key_loop 0 keylist node) end
  end.

(** The code and [*foo]. *)
Definition tf_gpg_enter : Z * option key_mod_gpg :=
  if negb (alloc_ok 140316 0) then (- ENOMEM, None)
  else if negb gpgme_new then (- EINVAL, None)
  else if negb gpgme_op_keylist_start then (- EINVAL, None)
  else (0, Some (KeyModGpg None (Some 1) (Some 0) None None)).
Definition tf_gpg_exit (foo : option key_mod_gpg) : outcome Z :=
  match foo with
  | None => mret 0
  | Some g => _ ← destroy_key_mod_gpg g; mret 0
  end.

Definition gpg_transition : transition_node :=
  TransNode (Some (lit "gpg")) (Some (lit "GnuPG Module")) (Some GPG_TOK) (Some (TfModule TF_GPG_ENTER)).
Definition ecryptfs_gpg_get_param_subgraph_trans_node (version : Z) : Z * option transition_node :=
  if negb (has_flag version ECRYPTFS_VERSIONING_PUBKEY) then (-1, None) else (0, Some gpg_transition).

Definition ecryptfs_gpg_init : Z * option cstring :=
  if negb (alloc_ok 140376 0) then (- ENOMEM, None) else (- EINVAL, Some (lit "gpgme")).
Definition ecryptfs_gpg_finalize : Z := 0.
Definition ecryptfs_gpg_ops : ecryptfs_key_mod_ops :=
  KeyModOps (Some ecryptfs_gpg_init) None None None None None None None None None None None
    (Some ecryptfs_gpg_finalize).
End Gpg.

(** ** Lemmas *)
Lemma find_gpgsig_last pairs v rest default :
  Forall (fun nvp => nv_name nvp <> Some (lit "gpgsig")) rest ->
  find_gpgsig (pairs ++ NVPair 0 (Some (lit "gpgsig")) v :: rest) default = v.
Proof.
  intros Hr. revert default. induction pairs as [|nvp pairs IH]; intros default; cbn [app find_gpgsig nv_name nv_value].
  - rewrite streq_refl. induction Hr as [|nvp rest Hp _ IH] in v |- *; [done|]. cbn [find_gpgsig].
    destruct (nv_name nvp) as [name|]; [|apply IH]. rewrite streq_ne by congruence. apply IH.
  - apply IH.
Qed.

Lemma subkey_loop_ok `{Heap} k subkeys node :
  heap_never_fails -> exists k', subkey_loop k subkeys node =
    (true, k', match last subkeys with Some v => set_tl_val (Some v) node | None => node end).
Proof.
  intros Hh. revert k node. induction subkeys as [|v l IH]; intros k node; [by eexists|].
  cbn [subkey_loop]. rewrite (Hh 140263). cbn [negb]. destruct (IH (S k) (set_tl_val (Some v) node)) as [k' ->].
  exists k'. rewrite last_cons. destruct (last l); [|done]. by destruct node as [? ? ? ? ? ? [|[]]].
Qed.

Lemma key_loop_ok `{Heap} k keys node :
  heap_never_fails ->
  key_loop k keys node = (0, match last (mjoin keys) with Some v => set_tl_val (Some v) node | None => node end).
Proof.
  intros Hh. revert k node. induction keys as [|l keys IH]; intros k node; [done|].
  cbn [key_loop mjoin list_join]. destruct (subkey_loop_ok k l node Hh) as [k' ->]. cbn [negb].
  rewrite IH, last_app. destruct (last (mjoin keys)) as [v|]; [|done].
  destruct (last l); [|done]. by destruct node as [? ? ? ? ? ? [|[]]].
Qed.

(** ** Properties *)

(** The module cannot be used: wherever its shared object lies in the directory, the
    registry is the one without it.  If it were switched on, the graph would offer the
    last subkey of the ring as its only choice, leaving the graph would read a member that was never
    written, and asking for the metadata of a key would read a null pointer. *)
Theorem gpg_never_registered `{Heap} dir builtins name handle before after keys :
  heap_never_fails ->
  ecryptfs_register_key_modules dir builtins
    (Some (before ++ Dirent name (Some handle) (Some (Some ecryptfs_gpg_ops)) :: after)) =
  ecryptfs_register_key_modules dir builtins (Some (before ++ after)) /\
  (forall foo, tf_gpg_enter true true = (0, Some foo) ->
     tf_gpg_keysig keys (Some foo) gpg_param_node =
       Ok (0, match last (mjoin keys) with Some v => set_tl_val (Some v) gpg_param_node | None => gpg_param_node end) /\
     tf_gpg_exit (Some foo) = UB Uninitialised) /\
  (forall sig blob, 0 < zlen sig -> ecryptfs_gpg_get_key_metadata sig blob = UB NullDeref).
Proof.
  intros Hh. split; [|split].
  - unfold ecryptfs_register_key_modules. rewrite !register_dir_spec, !bind_Ok by done.
    rewrite !omap_app. cbn [omap list_omap]. unfold module_of_entry at 2. cbn [d_name d_dlopen d_get_key_mod_ops].
    destruct (is_shared_object name); [|done]. cbn. unfold ecryptfs_gpg_init. by rewrite (Hh 140376).
  - unfold tf_gpg_enter. rewrite (Hh 140316). cbn [negb]. intros foo [= <-]. split; [|done].
    unfold tf_gpg_keysig. cbn [kg_ctx]. by rewrite key_loop_ok.
  - intros sig blob Hs. unfold ecryptfs_gpg_get_key_metadata. by rewrite wr_ok by (change (zlen [0]) with 1; lia).
Qed.

(** The state of the module is the signature with its terminator behind a length of
    two bytes, the lower first.  Nothing tells how large the blob is: a signature that
    does not fit runs over its end, and without one the blob is as it was. *)
Theorem gpg_state_layout blob pairs rest gpgsig :
  Forall (fun nvp => nv_name nvp <> Some (lit "gpgsig")) rest -> zlen gpgsig < 2 ^ 16 - 1 ->
  let size := zlen gpgsig + 1 in
  ecryptfs_gpg_initialize_key_module_state blob (pairs ++ NVPair 0 (Some (lit "gpgsig")) (Some gpgsig) :: rest) =
    (if 2 + size <=? zlen blob
     then Ok (0, le_bytes 2 size ++ gpgsig ++ 0 :: drop (Z.to_nat (2 + size)) blob)
     else UB BufferOverflow) /\
  ecryptfs_gpg_initialize_key_module_state blob rest = Ok (- EINVAL, blob).
Proof.
  intros Hr Hl size. unfold ecryptfs_gpg_initialize_key_module_state. rewrite find_gpgsig_last by done.
  assert (find_gpgsig rest None = None) as ->.
  { clear -Hr. induction Hr as [|nvp rest Hp _ IH]; [done|]. cbn [find_gpgsig].
    destruct (nv_name nvp) as [name|]; [|done]. by rewrite streq_ne by congruence. }
  split; [|done]. pose proof (zlen_nonneg gpgsig) as Hg. fold size.
  rewrite (wrap_small 32 size) by (unfold size; lia). rewrite Z.shiftr_div_pow2 by lia. change (2 ^ 8) with 256.
  assert (rd (gpgsig ++ [0]) 0 size = Ok (gpgsig ++ [0])) as Ht.
  { assert (zlen (gpgsig ++ [0]) = size) as Hz by (by rewrite zlen_app). rewrite rd_ok by lia.
    change (Z.to_nat 0) with 0%nat. rewrite drop_0, take_ge; [done|]. unfold zlen in Hz. lia. }
  assert (u8 (size mod 256) = size mod 256) as -> by (apply wrap_small, Z.mod_pos_bound; lia).
  assert (u8 (size / 256) = size / 256 mod 256) as -> by done.
  destruct blob as [|b0 [|b1 tail]].
  - change (@zlen Z []) with 0. by rewrite (proj2 (Z.leb_gt (2 + size) 0)) by lia.
  - change (zlen [b0]) with 1. by rewrite (proj2 (Z.leb_gt (2 + size) 1)) by lia.
  - rewrite (wr_app3 [] [b0] (b1 :: tail) 0 [size mod 256] eq_refl eq_refl : wr (b0 :: b1 :: tail) 0 _ = _), bind_Ok.
    cbn [app]. rewrite (wr_app3 [size mod 256] [b1] tail 1 [size / 256 mod 256] eq_refl eq_refl : wr (_ :: b1 :: tail) 1 _ = _), bind_Ok.
    rewrite Ht, bind_Ok. cbn [app]. rewrite !zlen_cons.
    assert (zlen (gpgsig ++ [0]) = size) as Hz by (by rewrite zlen_app).
    destruct (Z.leb_spec (2 + size) (1 + (1 + zlen tail))) as [Hle|Hgt].
    + rewrite wr_ok by (rewrite ?zlen_cons; lia). cbn [obind serialize_key_module_data mret outcome_ret].
      change (Z.to_nat 2) with 2%nat. cbn [take le_bytes app]. rewrite <- app_assoc. cbn [app].
      assert (Z.to_nat (2 + size) = (2 + length (gpgsig ++ [0%Z]))%nat) as -> by (rewrite <- Hz; unfold zlen; lia).
      done.
    + rewrite wr_overflow by (rewrite !zlen_cons; lia). done.
Qed.

Lemma gpg_never_registered_witness :
  @ecryptfs_register_key_modules plenty (lit "/lib") [Some (@ecryptfs_passphrase_ops plenty 1)]
    (Some [Dirent (lit "libecryptfs_key_mod_gpg.so") (Some 3) (Some (Some (@ecryptfs_gpg_ops plenty)))]) =
  @ecryptfs_register_key_modules plenty (lit "/lib") [Some (@ecryptfs_passphrase_ops plenty 1)] (Some []) /\
  @tf_gpg_keysig plenty [[lit "A"; lit "B"]; [lit "C"]; []] (@tf_gpg_enter plenty true true).2 gpg_param_node =
    Ok (0, set_tl_val (Some (lit "C")) gpg_param_node).
Proof.
  destruct (@gpg_never_registered plenty (lit "/lib") [Some (@ecryptfs_passphrase_ops plenty 1)]
    (lit "libecryptfs_key_mod_gpg.so") 3 [] [] [[lit "A"; lit "B"]; [lit "C"]; []] (fun _ _ => eq_refl)) as (E & Hk & _).
  split; [exact E|]. exact (proj1 (Hk _ eq_refl)).
Defined.

Lemma gpg_state_layout_witness :
  ecryptfs_gpg_initialize_key_module_state (zeros 8)
    [NVPair 0 (Some (lit "gpgsig")) (Some (lit "C0DE"))] = Ok (0, [5; 0] ++ lit "C0DE" ++ [0; 0]).
Proof. refine (proj1 (gpg_state_layout (zeros 8) [] [] (lit "C0DE") (Forall_nil_2 _) _)). by vm_compute. Defined.
