(* ===== verification/MountGraph.v ===== *)
(** * Walks over the graph of mount options

    What [ecryptfs_process_decision_graph] of [libecryptfs/module_mgr.c] does
    with the options of a mount, from the text of the options to the stack that
    becomes the options of the kernel. *)

From S2P Require Import Prelude CLib Ecryptfs PassphraseSig KeyMod KeyPayload KeyManagement CmdLnParser DecisionGraph PassphraseGraph ModuleMgr.

(** An allocator that never fails. *)
Definition works (junk : nat -> byte) : Heap :=
  {| alloc_ok := fun _ _ => true; heap_junk := junk |}.

Lemma works_never_fails junk : @heap_never_fails (works junk).
Proof. done. Qed.

(** ** Lemmas on walks *)
Section Steps.
Context `{Heap} (run_tf : trans_fn -> Z -> gstate -> running (Z * gstate)) (has_get_string : bool).

(** [n] visits that all go on to a next node. *)
Fixpoint eval_steps (n : nat) (node : Z) (s : gstate) : option (Z * gstate) :=
  match n with
  | O => Some (node, s)
  | S n' =>
      match eval_step run_tf has_get_string node s with
      | Ok (Some (0, Some next, s)) => eval_steps n' next s
      | _ => None
      end
  end.

Lemma eval_steps_loop n fuel node s node' s' :
  eval_steps n node s = Some (node', s') ->
  eval_loop run_tf has_get_string (n + fuel) node s = eval_loop run_tf has_get_string fuel node' s'.
Proof.
  revert node s. induction n as [|n IH]; intros node s; cbn [eval_steps Nat.add eval_loop].
  { by intros [= -> ->]. }
  destruct (eval_step _ _ node s) as [[[[rc [next|]] s1]|]|]; try (destruct rc; done); [|done..].
  destruct rc; [|done..]. rewrite bind_Ok. cbn [Z.eqb negb]. apply IH.
Qed.

(** A walk from [node] returns [rc] in a state with [P]. *)
Definition walk_ends (fuel : nat) (node : Z) (s : gstate) (rc : Z) (P : gstate -> Prop) : Prop :=
  exists s', eval_loop run_tf has_get_string fuel node s = Ok (Returned rc s') /\ P s'.

Lemma walk_steps n total fuel node s node' s' rc P :
  total = (n + fuel)%nat -> eval_steps n node s = Some (node', s') ->
  walk_ends fuel node' s' rc P -> walk_ends total node s rc P.
Proof. intros -> Hs (s'' & Hw & HP). exists s''. by rewrite (eval_steps_loop _ _ _ _ _ _ Hs). Qed.

Lemma walk_step total fuel node s next s' rc P :
  total = S fuel -> eval_step run_tf has_get_string node s = go (0, Some next, s') ->
  walk_ends fuel next s' rc P -> walk_ends total node s rc P.
Proof. intros -> Hs (s'' & Hw & HP). exists s''. cbn [eval_loop]. by rewrite Hs. Qed.

(** The rest of a walk that evaluation decides. *)
Lemma walk_finish k total fuel node s rc s' (P : gstate -> Prop) :
  total = (k + fuel)%nat -> eval_loop run_tf has_get_string k node s = Ok (Returned rc s') ->
  P s' -> walk_ends total node s rc P.
Proof. intros -> Hw HP. exists s'. split; [by apply eval_loop_fuel|done]. Qed.

Lemma walk_graph fuel node s top stack verbosity rc res P :
  g_mnt s = top :: stack -> get_verbosity (g_nvp s) = Ok verbosity ->
  res = (if (0 <? rc) && negb (rc =? MOUNT_ERROR) then 0 else rc) ->
  walk_ends fuel node (set_foo FooNull (set_verbosity verbosity (set_mnt [None] s))) rc P ->
  exists s', ecryptfs_eval_decision_graph run_tf has_get_string fuel node s =
    Ok (Returned res s') /\ P s'.
Proof.
  intros Hm Hv -> (s' & Hw & HP). exists s'. split; [|done].
  unfold ecryptfs_eval_decision_graph, eval_param_tree. rewrite Hm. cbn [g_nvp set_mnt].
  by rewrite Hv, bind_Ok, Hw.
Qed.

(** A visit of a node that has a value or needs none. *)
Lemma eval_step_get node s s1 :
  alloc_and_get_val has_get_string node (set_steps (S (g_steps s)) s) = Ok (0, s1) ->
  eval_step run_tf has_get_string node s = do_transition run_tf node s1.
Proof. intros Ha. unfold eval_step. by rewrite Ha. Qed.
End Steps.

(** ** The graph of a version *)

(** The version with exactly the given optional features. *)
Definition features (passthrough hmac xattr filenames : bool) : Z :=
  Z.lor ECRYPTFS_VERSIONING_PASSPHRASE
    (Z.lor (if passthrough then ECRYPTFS_VERSIONING_PLAINTEXT_PASSTHROUGH else 0)
      (Z.lor (if hmac then ECRYPTFS_VERSIONING_HMAC else 0)
        (Z.lor (if xattr then ECRYPTFS_VERSIONING_XATTR else 0)
          (if filenames then ECRYPTFS_VERSIONING_FILENAME_ENCRYPTION else 0)))).

Definition features_of (version : Z) : Z :=
  features (ecryptfs_supports_plaintext_passthrough version) (ecryptfs_supports_hmac version)
    (ecryptfs_supports_xattr version) (ecryptfs_supports_filename_encryption version).

(** The graph depends on these features only. *)
Lemma fill_in_features `{Heap} fuel root version s :
  fill_in_decision_graph_based_on_version_support fuel root version s =
  fill_in_decision_graph_based_on_version_support fuel root (features_of version) s.
Proof.
  unfold fill_in_decision_graph_based_on_version_support, add_passthrough, add_hmac, add_xattr,
    add_filename_encryption, features_of.
  destruct (ecryptfs_supports_plaintext_passthrough version), (ecryptfs_supports_hmac version),
    (ecryptfs_supports_xattr version), (ecryptfs_supports_filename_encryption version); reflexivity.
Qed.

(** Evaluate the first computation of a sequence. *)
Ltac compute_bind :=
  match goal with |- context [obind ?m _] =>
    let v := eval vm_compute in m in replace m with v by (vm_compute; reflexivity) end;
  rewrite bind_Ok; cbn [Z.eqb negb].

(** Go on by [n] visits that evaluation alone decides. *)
Ltac walk n :=
  eapply (walk_steps _ _ n); [cbn [Nat.add]; reflexivity|vm_compute; reflexivity|].
Ltac settle :=
  match goal with |- walk_ends _ _ _ _ ?st _ _ =>
    let v := eval vm_compute in st in change st with v end.
Ltac check := vm_compute; reflexivity.
Ltac name_state s := match goal with |- walk_ends _ _ _ _ ?st _ _ => set (s := st) end.

Section MountOptions.
Context (junk : nat -> byte) `{Nss, !NssLaws, Sys} (big_endian : bool).
Context (module_trans : trans_node_id -> option transition_node)
        (module_tf : Z -> Z -> gstate -> running (Z * gstate))
        (open_file : nat -> cstring -> Z + descriptor) (open_fd : nat -> Z -> descriptor)
        (pw_dir : option cstring) (key_mod_dir : cstring).
#[local] Instance works_heap : Heap := works junk.

(** A process with a home directory without rc file, without loadable key
    modules, that can ask the user. *)
Definition process (fuel : nat) (version : Z) (opts_str : option cstring) (s : gstate)
    : outcome walk_end :=
  ecryptfs_process_decision_graph big_endian module_trans module_tf open_file open_fd true pw_dir
    (fun _ => inl ENOENT) key_mod_dir (Some []) fuel version opts_str false s.

(** Parsing options without an rc file. *)
Lemma read_options_ok l allowed_duplicates :
  Forall option_ok l ->
  read_options pw_dir (fun _ => inl ENOENT) (Some (join_with 44 (option_text <$> l))) allowed_duplicates =
  ('(_, nvp) ← ecryptfs_nvp_list_union 0 [] (option_node <$> l) allowed_duplicates; mret nvp).
Proof.
  intros Hl. unfold read_options. rewrite parse_options_ok by done.
  unfold ecryptfs_parse_rc_file. by destruct pw_dir.
Qed.

(** The options of a mount with a passphrase, a cipher and a key size. *)
Definition passphrase_options (passwd cipher : cstring) (key_bytes : Z) : list (cstring * option cstring) :=
  [(lit "key", Some (lit "passphrase")); (lit "passphrase_passwd", Some passwd);
   (lit "ecryptfs_cipher", Some cipher); (lit "ecryptfs_key_bytes", Some (show_int key_bytes));
   (lit "verbosity", Some (lit "0"))].

Record passphrase_ok (passwd : cstring) : Prop := {
  passwd_option : option_ok (lit "passphrase_passwd", Some passwd);
  passwd_length : zlen passwd <= ECRYPTFS_MAX_PASSPHRASE_BYTES;
  passwd_not_null : passwd <> lit "(null)";
  passwd_not_default : passwd <> lit "default";
  passwd_not_salt : passwd <> lit "passphrase_salt"
}.

(** The ciphers the mount helper offers, with their key sizes. *)
Definition cipher_choices : list (cstring * Z) :=
  filter (fun '(c, _) => c ∈ (cd_name <$> cipher_descriptors)) supported_key_bytes.

Lemma retrieve_val_option node s p i nvp v :
  g_nodes s !! node = Some p ->
  find_by_names (reverse (pn_mnt_opt_names p)) (g_nvp s) = Ok (Some i) ->
  g_nvp s !! i = Some nvp -> nv_value nvp = Some v -> v <> lit "(null)" ->
  retrieve_val node s =
  Ok (0, true, upd_node node (set_val (Some v)) (set_nvp (alter mark_processed i (g_nvp s)) s)).
Proof.
  intros Hp Hf Hi Hv Hne. unfold retrieve_val. rewrite (get_node_ok _ _ p), bind_Ok, Hf, bind_Ok by done.
  rewrite Hi. cbn [mbind option_bind]. rewrite Hv, streq_ne by done. reflexivity.
Qed.

Lemma retrieve_val_default node s p d :
  g_nodes s !! node = Some p -> find_by_names (reverse (pn_mnt_opt_names p)) (g_nvp s) = Ok None ->
  pn_default_val p = Some d -> d <> lit "NULL" ->
  retrieve_val node s = Ok (0, true, upd_node node (set_val (Some d)) s).
Proof.
  intros Hp Hf Hd Hne. unfold retrieve_val. rewrite (get_node_ok _ _ p), bind_Ok, Hf, bind_Ok, Hd by done.
  by rewrite streq_ne.
Qed.

Lemma alloc_and_get_val_retrieved b node s s1 p q :
  g_nodes s !! node = Some p -> pn_val p = None -> retrieve_val node s = Ok (0, true, s1) ->
  g_nodes s1 !! node = Some q -> has_flag (pn_flags q) ECRYPTFS_ALLOW_IMPLICIT_TRANSITION = false ->
  alloc_and_get_val b node s = Ok (0, s1).
Proof.
  intros Hp Hv Hr Hq Hfl. unfold alloc_and_get_val.
  rewrite (get_node_ok _ _ p), bind_Ok, Hv, Hr, bind_Ok by done. cbn [Z.eqb negb].
  by rewrite (get_node_ok _ _ q), bind_Ok, Hfl.
Qed.

(** A node whose default gives way to the option of its first successor. *)
Lemma alloc_and_get_val_implicit b node s p d tn tl next q i nvp v :
  g_nodes s !! node = Some p -> pn_val p = None ->
  find_by_names (reverse (pn_mnt_opt_names p)) (g_nvp s) = Ok None ->
  pn_default_val p = Some d -> d <> lit "NULL" ->
  has_flag (pn_flags p) ECRYPTFS_ALLOW_IMPLICIT_TRANSITION = true ->
  has_flag (pn_flags p) ECRYPTFS_IMPLICIT_OVERRIDE_DEFAULT = true ->
  has_flag (pn_flags p) ECRYPTFS_NO_AUTO_TRANSITION = false ->
  pn_tl p = tn :: tl -> tn_next_token tn = Some next -> next <> node -> g_nodes s !! next = Some q ->
  find_by_names (reverse (pn_mnt_opt_names q)) (g_nvp s) = Ok (Some i) ->
  g_nvp s !! i = Some nvp -> nv_value nvp = Some v -> v <> lit "(null)" ->
  alloc_and_get_val b node s =
  Ok (0, upd_node node (set_val (Some (show_str (head (pn_mnt_opt_names q)))))
           (upd_node next (set_val (Some v))
             (set_nvp (alter mark_processed i (g_nvp s)) (upd_node node (set_val (Some d)) s)))).
Proof.
  intros Hp Hv Hf Hd Hdn Hfl1 Hfl2 Hfl3 Htl Hn Hne Hq Hfq Hi Hnv Hvn.
  assert (retrieve_val node s = Ok (0, true, upd_node node (set_val (Some d)) s)) as Hr.
  { by apply (retrieve_val_default node s p). }
  unfold alloc_and_get_val. rewrite (get_node_ok _ _ p), bind_Ok, Hv, Hr, bind_Ok by done.
  cbn [Z.eqb negb]. set (s1 := upd_node node _ s).
  assert (g_nodes s1 !! node = Some (set_val (Some d) p)) as Hp1 by (by apply upd_node_lookup).
  assert (g_nodes s1 !! next = Some q) as Hq1 by (cbn; by rewrite lookup_alter_ne).
  rewrite (get_node_ok _ _ _ Hp1), bind_Ok. cbn [pn_flags set_val]. rewrite Hfl1, Hfl2, Hfl3.
  cbn [andb negb pn_tl set_val]. rewrite Htl. cbn [length seq implicit_transition].
  rewrite (get_tn_ok _ _ _ 0 tn Hp1), bind_Ok, Hn by (cbn; by rewrite Htl).
  rewrite (retrieve_val_option next s1 q i nvp v), bind_Ok by done. cbn [Z.eqb negb].
  rewrite (get_node_ok _ _ (set_val (Some v) q)) by (by apply upd_node_lookup).
  rewrite bind_Ok. cbn [negb alloc_ok works_heap works mret outcome_ret].
  rewrite bind_Ok. reflexivity.
Qed.

(** No option has this name. *)
Definition not_named (nvps : list ecryptfs_name_val_pair) (t : cstring) : bool :=
  forallb (fun nvp => match nv_name nvp with Some n => negb (streq n t) | None => false end) nvps.

Lemma not_named_spec nvps t :
  not_named nvps t = true -> Forall (fun nvp => exists n, nv_name nvp = Some n /\ n <> t) nvps.
Proof.
  unfold not_named. rewrite forallb_forall, Forall_forall. intros Hn nvp Hin%list_elem_of_In.
  specialize (Hn nvp Hin). destruct (nv_name nvp) as [n|]; [|done]. exists n. split; [done|].
  intros ->. by rewrite streq_refl in Hn.
Qed.

Lemma find_by_names_not names nvps :
  Forall (fun name => not_named nvps name = true) names -> find_by_names names nvps = Ok None.
Proof.
  intros Hall. induction Hall as [|name names Hname%not_named_spec Hall IH]; [done|].
  cbn [find_by_names].
  assert (forall i, find_nvp name i nvps = Ok None) as Hf.
  { clear - Hname. induction Hname as [|nvp nvps (n & Hn & Hne) _ IH]; intros i; [done|].
    cbn [find_nvp]. rewrite Hn, streq_ne by done. cbn [andb]. apply IH. }
  by rewrite Hf, bind_Ok.
Qed.

#[local] Abbreviation walk_tf := (run_tf big_endian module_tf open_file open_fd).

Definition quiet_tnb (v : option cstring) (nvps : list ecryptfs_name_val_pair) (tn : transition_node) : bool :=
  match tn_val tn with
  | Some t => match v with Some v => negb (streq v t) | None => true end && not_named nvps t
  | None => false
  end.

Lemma quiet_tnb_spec v nvps tn : quiet_tnb v nvps tn = true -> quiet_tn v nvps tn.
Proof.
  unfold quiet_tnb, quiet_tn. destruct (tn_val tn) as [t|]; [|done].
  intros [Hv Hn%not_named_spec]%andb_true_iff. exists t. split_and!; [done| |done].
  intros ->. by rewrite streq_refl in Hv.
Qed.

Lemma sig_stack_no_limit sig :
  Forall (fun c => isxdigit c = true) sig ->
  Forall no_limit [Some (lit "ecryptfs_sig=" ++ sig); None].
Proof.
  intros Hs. apply Forall_cons_2; [by apply no_limit_sig|].
  apply Forall_cons_2; [done|apply Forall_nil_2].
Qed.

(** The visit of the cipher node, when an option names the cipher of its
    transition [i]; [s2] is the state after its function but for the stack. *)
Lemma visit_cipher s s1 p i tn cipher s2 next :
  alloc_and_get_val true ecryptfs_cipher_param_node (set_steps (S (g_steps s)) s) = Ok (0, s1) ->
  g_nodes s1 !! ecryptfs_cipher_param_node = Some p -> pn_val p = Some cipher ->
  forallb (quiet_tnb (Some cipher) (g_nvp s1)) (take i (pn_tl p)) = true ->
  pn_tl p !! i = Some tn -> tn_val tn = Some cipher -> tn_trans_func tn = Some TfCipher ->
  Forall no_limit (g_mnt s1) ->
  init_ecryptfs_key_bytes_param_node (Some cipher) 0 999999
    (entered ecryptfs_cipher_param_node s1) = Ok (0, s2) ->
  (tn' ← get_tn s2 ecryptfs_cipher_param_node i; mret (tn_next_token tn')) = Ok (Some next) ->
  eval_step walk_tf true ecryptfs_cipher_param_node s =
  go (0, Some next, set_mnt (Some (lit "ecryptfs_cipher=" ++ cipher) :: g_mnt s2)
                      (upd_node ecryptfs_cipher_param_node (set_val None) s2)).
Proof.
  intros Ha Hp Hv Hq Hi Ht Hf Hlim Hinit Hnext.
  rewrite (eval_step_get _ _ _ _ _ Ha).
  eapply (do_transition_match walk_tf _ _ p i tn cipher); [done|done| |done|done| |].
  - intros j t Hj Htj. apply quiet_tnb_spec. rewrite forallb_forall in Hq. apply Hq.
    apply list_elem_of_In, (list_elem_of_lookup_2 _ j). by rewrite lookup_take_lt.
  - rewrite Hf. cbn [call_tf run_tf]. unfold tf_ecryptfs_cipher.
    rewrite entered_mnt, take_limits_none, bind_Ok by done.
    replace (set_mnt (g_mnt s1) (entered ecryptfs_cipher_param_node s1))
      with (entered ecryptfs_cipher_param_node s1)
      by (rewrite <- (entered_mnt ecryptfs_cipher_param_node s1); by destruct (entered _ s1)).
    rewrite (get_node_ok _ _ p), bind_Ok, Hv, Hinit, bind_Ok by (by rewrite entered_nodes).
    cbn [Z.eqb negb alloc_ok works_heap works mret outcome_ret]. by rewrite stack_push_ok.
  - apply bind_ok_inv in Hnext as (tn' & Hget & Hn). injection Hn as Hn.
    unfold get_tn, get_node in *. cbn [g_nodes set_mnt upd_node set_nodes].
    destruct (g_nodes s2 !! _) as [q|] eqn:Hq2; [|done]. rewrite lookup_alter_eq, Hq2. cbn [fmap option_fmap option_map].
    rewrite bind_Ok in *. cbn [pn_tl set_val]. destruct (pn_tl q !! i) as [x|]; [|done].
    injection Hget as ->. by exists tn'.
Qed.

(** The visit of the node that asks how the passphrase is given. *)
Lemma visit_type s i nvp passwd :
  g_nodes s !! ECRYPTFS_PASSPHRASE_TOK = Some passphrase_tok_node ->
  g_nodes s !! ECRYPTFS_PASSWD_TOK = Some passwd_tok_node ->
  not_named (g_nvp s) (lit "passphrase_type") = true ->
  find_by_names [lit "passwd"; lit "passphrase_passwd"] (g_nvp s) = Ok (Some i) ->
  g_nvp s !! i = Some nvp -> nv_value nvp = Some passwd -> passwd <> lit "(null)" ->
  let s1 := upd_node ECRYPTFS_PASSPHRASE_TOK (set_val (Some (lit "passphrase_passwd")))
              (upd_node ECRYPTFS_PASSWD_TOK (set_val (Some passwd))
                (set_nvp (alter mark_processed i (g_nvp s))
                  (upd_node ECRYPTFS_PASSPHRASE_TOK (set_val (Some (lit "passphrase_passwd")))
                    (set_steps (S (g_steps s)) s)))) in
  eval_step walk_tf true ECRYPTFS_PASSPHRASE_TOK s =
  go (0, Some ECRYPTFS_PASSWD_TOK, entered ECRYPTFS_PASSPHRASE_TOK s1).
Proof.
  intros Hp Hq Hn Hf Hi Hv Hnull s1.
  rewrite eval_step_get with (s1 := s1).
  2:{ apply (alloc_and_get_val_implicit true ECRYPTFS_PASSPHRASE_TOK (set_steps (S (g_steps s)) s) passphrase_tok_node (lit "passphrase_passwd")
        (TransNode (Some (lit "passphrase_passwd")) (Some (lit "Provide passphrase directly"))
           (Some ECRYPTFS_PASSWD_TOK) None) (drop 1 (pn_tl passphrase_tok_node))
        ECRYPTFS_PASSWD_TOK passwd_tok_node i nvp passwd); try done.
      apply find_by_names_not. by repeat constructor. }
  assert (g_nodes s1 !! ECRYPTFS_PASSPHRASE_TOK =
    Some (set_val (Some (lit "passphrase_passwd")) passphrase_tok_node)) as Hp1.
  { unfold s1. cbn [g_nodes upd_node set_nodes set_nvp set_steps].
    by rewrite lookup_alter_eq, lookup_alter_ne, lookup_alter_eq, Hp. }
  apply (do_transition_match walk_tf _ _ _ 0
    (TransNode (Some (lit "passphrase_passwd")) (Some (lit "Provide passphrase directly"))
       (Some ECRYPTFS_PASSWD_TOK) None) (lit "passphrase_passwd") _ _ _ Hp1);
    [done|intros; lia|done|done|done|].
  exists (TransNode (Some (lit "passphrase_passwd")) (Some (lit "Provide passphrase directly"))
       (Some ECRYPTFS_PASSWD_TOK) None). split; [|done].
  eapply get_tn_ok; [by rewrite entered_nodes|done].
Qed.

(** The visit of the passphrase node. *)
Lemma visit_passwd s passwd :
  g_nodes s !! ECRYPTFS_PASSWD_TOK = Some (set_val (Some passwd) passwd_tok_node) ->
  not_named (g_nvp s) (lit "passphrase_salt") = true -> not_named (g_nvp s) (lit "default") = true ->
  passwd <> lit "default" -> passwd <> lit "passphrase_salt" ->
  let s1 := entered ECRYPTFS_PASSWD_TOK (set_steps (S (g_steps s)) s) in
  eval_step walk_tf true ECRYPTFS_PASSWD_TOK s =
  go (0, Some ECRYPTFS_SALT_TOK,
      upd_node ECRYPTFS_PASSWD_TOK (set_val None) (set_mnt (Some passwd :: g_mnt s) s1)).
Proof.
  intros Hp Hsalt%not_named_spec Hdef%not_named_spec Hpd Hps s1. set (s0 := set_steps (S (g_steps s)) s).
  rewrite eval_step_get with (s1 := s0).
  2:{ unfold alloc_and_get_val. fold s0. by rewrite (get_node_ok s0 _ _ Hp). }
  assert (g_nodes s1 !! ECRYPTFS_PASSWD_TOK = Some (set_val (Some passwd) passwd_tok_node)) as Hp1
    by (unfold s1; by rewrite entered_nodes).
  eapply (do_transition_default walk_tf _ _ _ 1 _ DEFAULT_TOK);
    [exact Hp| |reflexivity|reflexivity| | |done..|].
  - intros [|[|j]] t Ht; [..|done]; injection Ht as <-; eexists;
      (split; [reflexivity|]); (split; [intros [= He]; first [exact (Hps He)|exact (Hpd He)]|done]).
  - intros [|j] t Hj Ht; [|lia]. injection Ht as <-. done.
  - change (entered ECRYPTFS_PASSWD_TOK s0) with s1.
    cbn [call_tf tn_trans_func run_tf]. unfold tf_passwd. rewrite (get_node_ok s1 _ _ Hp1), bind_Ok.
    cbn [pn_val set_val]. rewrite stack_push_ok by done. cbn [Z.eqb negb mret outcome_ret stays].
    unfold s1. by rewrite entered_mnt.
  - eexists. split; [eapply get_tn_ok; [apply upd_node_lookup; exact Hp1|reflexivity]|reflexivity].
Qed.

(** The visit of the salt node, when no option gives a salt. *)
Definition default_salt : bytes := [0x00; 0x11; 0x22; 0x33; 0x44; 0x55; 0x66; 0x77].

Lemma visit_salt s passwd rest next :
  sys_works -> digest_total -> zlen passwd <= 64 ->
  g_nodes s !! ECRYPTFS_SALT_TOK = Some (seal next salt_tok_node) ->
  not_named (g_nvp s) (lit "passphrase_salt") = true -> not_named (g_nvp s) (lit "salt") = true ->
  not_named (g_nvp s) (lit "default") = true -> g_mnt s = Some passwd :: rest ->
  let s1 := upd_node ECRYPTFS_SALT_TOK (set_val (Some ECRYPTFS_DEFAULT_SALT_HEX))
              (set_steps (S (g_steps s)) s) in
  eval_step walk_tf true ECRYPTFS_SALT_TOK s =
  go (0, Some next,
      set_mnt (Some (lit "ecryptfs_sig=" ++ passphrase_sig_hex default_salt passwd) :: rest)
        (set_keyring (ensure_token (g_keyring s) default_salt passwd).2
          (upd_node ECRYPTFS_SALT_TOK (set_val None) (entered ECRYPTFS_SALT_TOK s1)))).
Proof.
  intros Hs Hd Hl Hp Hps Hsalt Hdef Hm s1.
  assert (g_keyring s = g_keyring (upd_node ECRYPTFS_SALT_TOK (set_val None) (entered ECRYPTFS_SALT_TOK s1)))
    as Hkr by (cbn [g_keyring upd_node set_nodes]; by rewrite entered_keyring).
  rewrite Hkr. fold (key_added default_salt passwd rest
    (upd_node ECRYPTFS_SALT_TOK (set_val None) (entered ECRYPTFS_SALT_TOK s1))). clear Hkr. set (s0 := set_steps (S (g_steps s)) s).
  assert (g_nodes s1 !! ECRYPTFS_SALT_TOK =
    Some (set_val (Some ECRYPTFS_DEFAULT_SALT_HEX) (seal next salt_tok_node))) as Hp1
    by (by apply upd_node_lookup).
  rewrite eval_step_get with (s1 := s1).
  2:{ apply (alloc_and_get_val_retrieved _ _ _ _ (seal next salt_tok_node)
        (set_val (Some ECRYPTFS_DEFAULT_SALT_HEX) (seal next salt_tok_node))); [done..| |done|done].
      apply (retrieve_val_default _ _ (seal next salt_tok_node)); [done| |done|done].
      apply find_by_names_not. by repeat constructor. }
  eapply (do_transition_default walk_tf _ _ _ 0 _ DEFAULT_TOK);
    [exact Hp1| |reflexivity|reflexivity|intros; lia| |done..|].
  - intros [|j] t Ht; [|done]. injection Ht as <-. eexists. split; [reflexivity|]. split; [done|].
    by apply not_named_spec.
  - match goal with |- call_tf _ ?f _ _ _ = _ => change f with (Some TfSalt) end.
    cbn [call_tf run_tf].
    rewrite (tf_salt_ok _ (set_val (Some ECRYPTFS_DEFAULT_SALT_HEX) (seal next salt_tok_node))
               default_salt passwd rest _ (works_never_fails junk) Hd Hs);
      [reflexivity|repeat constructor; vm_compute; congruence|done|done|by rewrite entered_nodes
      |done|by rewrite entered_mnt].
  - exists (seal_tn next (TransNode None None None (Some TfSalt))). split; [|reflexivity].
    apply (get_tn_ok _ _ (set_val None (set_val (Some ECRYPTFS_DEFAULT_SALT_HEX) (seal next salt_tok_node))));
      [|reflexivity].
    cbn [g_nodes key_added set_mnt set_keyring]. apply upd_node_lookup. by rewrite entered_nodes.
Qed.

Lemma passphrase_options_ok passwd cipher key_bytes :
  passphrase_ok passwd -> (cipher, key_bytes) ∈ cipher_choices ->
  Forall option_ok (passphrase_options passwd cipher key_bytes).
Proof.
  intros Hp Hc.
  assert (Forall (fun '(c, k) => option_ok (lit "ecryptfs_cipher", Some c) /\
                                 option_ok (lit "ecryptfs_key_bytes", Some (show_int k))) cipher_choices) as Hall.
  { vm_compute cipher_choices.
    repeat (apply Forall_cons_2; [split; apply sample_option_ok; reflexivity|]). apply Forall_nil_2. }
  rewrite Forall_forall in Hall. destruct (Hall _ Hc) as [? ?]. unfold passphrase_options.
  repeat (apply Forall_cons_2; [first [done | apply Hp | apply sample_option_ok; reflexivity]|]).
  apply Forall_nil_2.
Qed.

Definition passphrase_key_mod : ecryptfs_key_mod :=
  KeyModEntry None (Some (lit "passphrase")) None
    (ecryptfs_passphrase_ops passphrase_transition_id) [] None 0.

(** The state with the passphrase module registered and its transition added. *)
Definition selected_state (kr : gmap (list Z) ecryptfs_auth_tok) (input : list (Z * option cstring)) : gstate :=
  upd_node key_module_select_node (set_tl [passphrase_transition])
    (set_mods [passphrase_key_mod] (fresh_state kr input)).

Definition passphrase_duplicates : list ecryptfs_name_val_pair :=
  bare_pair <$> [lit "key"; lit "passphrase_type";
    lit "passphrase_passwd"; lit "passwd"; lit "passphrase_salt"; lit "salt"; lit "passphrase_salt"; lit "salt";
    lit "passphrase_passwd_file"; lit "passfile"; lit "passphrase_salt"; lit "salt"; lit "passphrase_salt"; lit "salt";
    lit "passphrase_passwd_fd"; lit "passfd"; lit "passphrase_salt"; lit "salt"; lit "passphrase_salt"; lit "salt"].

Lemma process_unfold fuel version opts kr input :
  ecryptfs_supports_passphrase version = true ->
  process (20 + fuel) version opts (fresh_state kr input) =
  (r ← fill_in_graph (20 + fuel) false (features_of version) (selected_state kr input);
   match r with
   | None => mret OutOfFuel
   | Some (rc, s) =>
       if negb (rc =? 0) then mret (Returned rc s)
       else
         nvp ← read_options pw_dir (fun _ => inl ENOENT) opts passphrase_duplicates;
         ecryptfs_eval_decision_graph
           (run_tf big_endian module_tf open_file open_fd) true (20 + fuel) root_param_node (set_nvp nvp s)
   end).
Proof.
  intros Hv. unfold process, ecryptfs_process_decision_graph.
  replace (ecryptfs_register_key_modules key_mod_dir builtin_get_key_mod_ops (Some []))
    with (Ok (0, [passphrase_key_mod])) by reflexivity.
  rewrite bind_Ok. cbn [Z.eqb negb].
  replace (alloc_ok 20810 0 && alloc_ok 20816 0) with true by reflexivity. cbn [negb].
  assert (add_key_modules module_trans (20 + fuel) 0 version [passphrase_key_mod]
    [NVPair 0 (Some (lit "key")) None]
    (upd_node key_module_select_node (set_tl []) (set_mods [passphrase_key_mod] (fresh_state kr input))) =
    Ok (Some (0, passphrase_duplicates, selected_state kr input))) as Hadd.
  { cbn [add_key_modules]. unfold module_transition. cbn [km_ops passphrase_key_mod ecryptfs_passphrase_ops
      op_get_param_subgraph_trans_node call]. rewrite bind_Ok.
    unfold ecryptfs_passphrase_get_param_subgraph_trans_node.
    unfold ecryptfs_supports_passphrase, has_flag in Hv. apply negb_true_iff in Hv. rewrite Hv.
    vm_compute. reflexivity. }
  change (get_node (set_mods [passphrase_key_mod] (fresh_state kr input)) key_module_select_node)
    with (Ok key_module_select_init).
  rewrite bind_Ok. cbn [pn_mnt_opt_names key_module_select_init head deref_str mret outcome_ret].
  rewrite bind_Ok, Hadd, bind_Ok. cbn [Z.eqb negb]. unfold fill_in_graph.
  by rewrite fill_in_features.
Qed.

(** The walk with the options of a passphrase mount, for the graph with the
    given optional nodes. *)
Lemma passphrase_walk b1 b2 b3 b4 passwd kr input fuel :
  sys_works -> digest_total -> passphrase_ok passwd ->
  exists s',
    (r ← fill_in_graph (20 + fuel) false (features b1 b2 b3 b4) (selected_state kr input);
     match r with
     | None => mret OutOfFuel
     | Some (rc, s) =>
         if negb (rc =? 0) then mret (Returned rc s)
         else
           nvp ← ('(_, nvp) ← ecryptfs_nvp_list_union 0 []
                     (option_node <$> passphrase_options passwd (lit "aes") 16) passphrase_duplicates;
                  mret nvp);
           ecryptfs_eval_decision_graph walk_tf true (20 + fuel) root_param_node (set_nvp nvp s)
     end) = Ok (Returned (if b1 || b2 || b3 || b4 then 0 else - EINVAL) s') /\
    (g_mnt s' = [Some (lit "ecryptfs_key_bytes=16"); Some (lit "ecryptfs_cipher=aes");
                 Some (lit "ecryptfs_sig=" ++ passphrase_sig_hex default_salt passwd); None] /\
     g_keyring s' = (ensure_token kr default_salt passwd).2 /\ g_input s' = input).
Proof.
  intros Hs Hd [Ho Hl Hnull Hdef Hsalt].
  assert (Forall (fun c => isxdigit c = true) (passphrase_sig_hex default_salt passwd)) as Hsig
    by (by apply passphrase_sig_hex_xdigits).
  destruct b1, b2, b3, b4; compute_bind; compute_bind; cbn [orb];
    match goal with |- context [Returned ?res] =>
      let rc := eval vm_compute in (if res =? 0 then NULL_TOK else res) in
      eapply (walk_graph _ _ _ _ _ _ _ _ rc); [reflexivity|check|reflexivity|] end.
  all: walk 2%nat; name_state s2.
  all: eapply walk_step; [cbn [Nat.add]; reflexivity
    |apply (visit_type s2 1 (NVPair 0 (Some (lit "passphrase_passwd")) (Some passwd)) passwd);
     try exact Hnull; check|].
  all: subst s2; settle; name_state s2.
  all: eapply walk_step; [reflexivity|apply (visit_passwd s2 passwd); try exact Hdef; try exact Hsalt; check|].
  all: subst s2; settle; name_state s2.
  all: eapply walk_step; [reflexivity
    |apply (visit_salt s2 passwd [None] another_key_param_node Hs Hd Hl); check|].
  all: change (g_keyring s2) with kr; revert Hsig;
    generalize (passphrase_sig_hex default_salt passwd);
    generalize (ensure_token kr default_salt passwd).2; intros kr2 sig Hsig; subst s2.
  all: walk 1%nat; name_state s2.
  all: eapply walk_step; [reflexivity
    |eapply (visit_cipher s2 _ _ 0 _ (lit "aes"));
     [check|check|check|check|check|check|check|exact (sig_stack_no_limit sig Hsig)|check|check]|].
  all: subst s2; eapply (walk_finish _ _ 12); [reflexivity|check|done].
Qed.
End MountOptions.

