(* ===== verification/Questions.v ===== *)
(** * What the nodes of the graph of mount options offer and ask

    The key sizes the node behind a cipher offers, and the visits of a node that
    asks a question to be answered with yes or no. *)

From S2P Require Import Prelude CLib Ecryptfs PassphraseSig KeyMod KeyManagement CmdLnParser DecisionGraph PassphraseGraph ModuleMgr MountGraph.

(** ** Key sizes *)

(** The sizes of a cipher between two limits. *)
Definition offered_sizes (cipher : cstring) (min max : Z) : list Z :=
  snd <$> filter (fun '(c, key_bytes) => c = cipher /\ min <= key_bytes <= max) supported_key_bytes.

Definition size_transition (key_bytes : Z) : transition_node :=
  TransNode (Some (show_int key_bytes)) None (Some ecryptfs_version_support_node) (Some TfKeyBytes).

(** A node that offers these sizes, too; the first is suggested. *)
Definition offering (sizes : list Z) (p : param_node) : param_node :=
  set_tl (pn_tl p ++ (size_transition <$> sizes))
    (match sizes with key_bytes :: _ => suggest (show_int key_bytes) p | [] => p end).

Lemma suggest_tl v p : pn_tl (suggest v p) = pn_tl p.
Proof. unfold suggest. by destruct (pn_suggested_val p). Qed.

Lemma suggest_twice v w p tl : suggest w (set_tl tl (suggest v p)) = set_tl tl (suggest v p).
Proof. unfold suggest. destruct (pn_suggested_val p) eqn:Hs; cbn; by rewrite ?Hs. Qed.

Lemma offering_nil p : offering [] p = p.
Proof. unfold offering. by rewrite app_nil_r, set_tl_pn_tl. Qed.

Lemma offering_cons key_bytes sizes p :
  offering sizes (add_tn (size_transition key_bytes) (suggest (show_int key_bytes) p)) =
  offering (key_bytes :: sizes) p.
Proof.
  unfold offering, add_tn. rewrite pn_tl_set_tl, suggest_tl. cbn [fmap list_fmap].
  rewrite <- app_assoc. cbn [app].
  destruct sizes as [|k sizes]; rewrite ?suggest_twice, set_tl_set_tl; reflexivity.
Qed.

Lemma alter_alter_eq {A} (f g : A -> A) (k : Z) (m : gmap Z A) :
  alter f k (alter g k m) = alter (f ∘ g) k m.
Proof.
  apply map_eq. intros i. destruct (decide (i = k)) as [->|].
  - rewrite !lookup_alter_eq. by destruct (m !! k).
  - by rewrite !lookup_alter_ne.
Qed.

Lemma upd_node_compose n f g s : upd_node n f (upd_node n g s) = upd_node n (f ∘ g) s.
Proof. unfold upd_node, set_nodes. cbn. by rewrite alter_alter_eq. Qed.

Lemma upd_node_ext n f g s :
  (forall p, g_nodes s !! n = Some p -> f p = g p) -> upd_node n f s = upd_node n g s.
Proof.
  intros Hfg. unfold upd_node, set_nodes. f_equal. apply map_eq. intros i.
  destruct (decide (i = n)) as [->|]; [|by rewrite !lookup_alter_ne].
  rewrite !lookup_alter_eq. destruct (g_nodes s !! n); [|done]. cbn. by rewrite Hfg.
Qed.

Lemma upd_node_id n f s : (forall p, g_nodes s !! n = Some p -> f p = p) -> upd_node n f s = s.
Proof.
  intros Hf. rewrite (upd_node_ext n f id) by done. unfold upd_node, set_nodes.
  replace (alter id n (g_nodes s)) with (g_nodes s); [by destruct s|].
  apply map_eq. intros i. destruct (decide (i = n)) as [->|]; [|by rewrite lookup_alter_ne].
  rewrite lookup_alter_eq. by destruct (g_nodes s !! n).
Qed.

Lemma init_key_bytes_loop_ok `{Heap} k i table cipher min max s :
  heap_never_fails -> 0 <= min < 2 ^ 32 -> 0 <= max < 2 ^ 32 ->
  is_Some (g_nodes s !! ecryptfs_key_bytes_param_node) ->
  init_key_bytes_loop k i table (Some cipher) min max s =
  Ok (0, upd_node ecryptfs_key_bytes_param_node
           (offering (snd <$> filter (fun '(c, kb) => c = cipher /\ min <= kb <= max) table)) s).
Proof.
  intros Hh Hmin Hmax. revert i s.
  induction table as [|[c kb] table IH]; intros i s [p Hp]; cbn [init_key_bytes_loop].
  { rewrite filter_nil. cbn [fmap list_fmap]. by rewrite upd_node_id by (intros; apply offering_nil). }
  unfold u32. rewrite !Z.mod_small by done. rewrite filter_cons.
  destruct ((min <=? kb) && (kb <=? max)) eqn:Hin; [cbn [deref_str mret outcome_ret]; rewrite bind_Ok|].
  2:{ rewrite decide_False by (intros [_ ?]; lia). by apply IH. }
  destruct (streq cipher c) eqn:Hc.
  - apply streq_spec in Hc as ->. rewrite decide_True by (split; [done|lia]).
    rewrite (get_node_ok _ _ p), bind_Ok, !Hh by done. cbn [negb].
    replace (match pn_suggested_val p with Some _ => false | None => false end) with false
      by (by destruct (pn_suggested_val p)).
    rewrite IH by (eexists; by apply upd_node_lookup). rewrite upd_node_compose.
    do 2 f_equal. apply upd_node_ext. intros q _. apply offering_cons.
  - rewrite decide_False; [by apply IH; eexists|]. intros [<- _]. by rewrite streq_refl in Hc.
Qed.

(** After a cipher is chosen, the node of key sizes offers exactly the sizes
    of the table that belong to the cipher and respect the limits, in the order
    of the table and behind what it offered before; the first is suggested unless
    a suggestion is there.  With nothing to offer the code is -EINVAL. *)
Theorem key_sizes_offered `{Heap} cipher min max s p :
  heap_never_fails -> 0 <= min < 2 ^ 32 -> 0 <= max < 2 ^ 32 ->
  g_nodes s !! ecryptfs_key_bytes_param_node = Some p ->
  let sizes := offered_sizes cipher min max in
  init_ecryptfs_key_bytes_param_node (Some cipher) min max s =
  Ok (if bool_decide (pn_tl p = [] /\ sizes = []) then - EINVAL else 0,
      upd_node ecryptfs_key_bytes_param_node (offering sizes) s).
Proof.
  intros Hh Hmin Hmax Hp sizes. unfold init_ecryptfs_key_bytes_param_node.
  rewrite init_key_bytes_loop_ok, bind_Ok by (done || by eexists). cbn [negb Z.eqb].
  fold (offered_sizes cipher min max). fold sizes.
  rewrite (get_node_ok _ _ (offering sizes p)), bind_Ok by (by apply upd_node_lookup).
  do 2 f_equal. unfold offering. rewrite pn_tl_set_tl.
  destruct (pn_tl p) as [|tn tl].
  - destruct sizes as [|k sizes']; [done|].
    rewrite bool_decide_eq_false_2 by naive_solver. cbn [app fmap list_fmap].
    by rewrite zlen_cons, (proj2 (Z.eqb_neq _ _))
      by (pose proof (zlen_nonneg (size_transition <$> sizes')); lia).
  - rewrite bool_decide_eq_false_2 by naive_solver. cbn [app]. rewrite zlen_cons.
    by rewrite (proj2 (Z.eqb_neq _ _))
      by (pose proof (zlen_nonneg (tl ++ (size_transition <$> sizes))); lia).
Qed.

Lemma key_sizes_offered_witness :
  @init_ecryptfs_key_bytes_param_node plenty (Some (lit "blowfish")) 0 40 (fresh_state ∅ []) =
  Ok (0, upd_node ecryptfs_key_bytes_param_node (offering [16; 32]) (fresh_state ∅ [])).
Proof.
  exact (@key_sizes_offered plenty (lit "blowfish") 0 40 (fresh_state ∅ []) ecryptfs_key_bytes_init
    (fun _ _ => eq_refl) ltac:(lia) ltac:(lia) eq_refl).
Defined.

(** ** Questions to be answered with yes or no *)
Lemma eval_steps_app `{Heap} run_tf b n k node s :
  eval_steps run_tf b (n + k) node s =
  match eval_steps run_tf b n node s with
  | Some (node', s') => eval_steps run_tf b k node' s'
  | None => None
  end.
Proof.
  revert node s. induction n as [|n IH]; intros node s; [done|]. cbn [Nat.add eval_steps].
  destruct (eval_step _ _ node s) as [[[[rc [next|]] s1]|]|]; by destruct rc || done.
Qed.

(** What the user types in. *)
Definition typed (answers : list cstring) : list (Z * option cstring) :=
  (fun a => (0, Some a)) <$> answers.

Lemma typed_app l k : typed (l ++ k) = typed l ++ typed k.
Proof. apply fmap_app. Qed.

Section YesNo.
Context `{Heap} (run_tf : trans_fn -> Z -> gstate -> running (Z * gstate)).
Context (node next : Z) (f : trans_fn) (opt : cstring) (p : param_node).

(** A node that asks whether the option [opt] is wanted. *)
Record yes_no_question : Prop := {
  question_function s : run_tf f node s = stays (stack_push_if_yes node opt s);
  question_val : pn_val p = None;
  question_default : pn_default_val p = None;
  question_flags : pn_flags p = ECRYPTFS_PARAM_FLAG_ECHO_INPUT;
  question_next : pn_tl p = default_transition (Some next) (Some f)
}.
Hypothesis Hq : yes_no_question.
Hypothesis Hh : heap_never_fails.

(** A state in which the user is asked, after [r] wrong answers. *)
Record asking (r : Z) (s : gstate) : Prop := {
  asking_node : g_nodes s !! node = Some p;
  asking_option : find_by_names (reverse (pn_mnt_opt_names p)) (g_nvp s) = Ok None;
  asking_default : not_named (g_nvp s) (lit "default") = true;
  asking_verbosity : g_verbosity s <> 0;
  asking_wrong : (if bool_decide (g_lastnode s = Some node) then g_repeated s else 0) = r
}.

Definition wrong_answer (a : cstring) : Prop :=
  is_yes (Some a) 0 = -1 /\ a <> [] /\ a <> lit "default".
Definition right_answer (a : cstring) : Prop := a ∈ [lit "y"; lit "yes"; lit "n"; lit "no"].

Definition answered (a : cstring) (input : list (Z * option cstring)) (s : gstate) : gstate :=
  upd_node node (set_val (Some a)) (set_input input (set_steps (S (g_steps s)) s)).

Lemma ask_answer r s a input :
  asking r s -> g_input s = (0, Some a) :: input -> a <> [] ->
  alloc_and_get_val true node (set_steps (S (g_steps s)) s) = Ok (0, answered a input s).
Proof.
  intros [Hp Hfind _ Hverb _] Hin Ha. destruct Hq as [_ Hv Hd Hfl _].
  set (s1 := set_steps _ _). assert (get_node s1 node = Ok p) as Hn by (by apply get_node_ok).
  unfold alloc_and_get_val. rewrite Hn, bind_Ok, Hv. unfold retrieve_val.
  rewrite Hn, bind_Ok. change (g_nvp s1) with (g_nvp s). rewrite Hfind, bind_Ok, Hd.
  cbn [mret outcome_ret]. rewrite bind_Ok. cbn [Z.eqb negb]. rewrite Hn, bind_Ok.
  cbn [andb]. rewrite Hfl.
  match goal with |- context [if ?b then implicit_transition _ _ _ _ else _] => change b with false end.
  cbn [mret outcome_ret]. rewrite bind_Ok. unfold ask_user. rewrite Hn, bind_Ok, Hfl.
  change (g_verbosity s1) with (g_verbosity s).
  replace (g_verbosity s =? 0) with false by (symmetry; by apply Z.eqb_neq).
  cbn [obtain_value]. rewrite Hn, bind_Ok, !Hh. cbn [negb].
  unfold get_string. change (g_input s1) with (g_input s). rewrite Hin. cbn [Z.eqb negb deref_str mret outcome_ret].
  rewrite bind_Ok. destruct a as [|c a]; [done|]. rewrite zlen_cons.
  replace (1 + zlen a =? 0) with false by (pose proof (zlen_nonneg a); lia). cbn [andb]. by rewrite Hfl.
Qed.

(** The state after a visit with an answer. *)
Definition visited (a : cstring) (input : list (Z * option cstring)) (s : gstate) : gstate :=
  entered node (answered a input s).

Lemma visited_node r s a input :
  asking r s -> g_nodes (visited a input s) !! node = Some (set_val (Some a) p).
Proof. intros Ha. unfold visited. rewrite entered_nodes. apply upd_node_lookup, Ha. Qed.

Lemma visited_repeated r s a input : asking r s -> g_repeated (visited a input s) = r.
Proof. intros [_ _ _ _ Hr]. unfold visited, entered. rewrite <- Hr. cbn. by case_match. Qed.

Lemma visited_val r s a input :
  asking r s -> g_nodes (upd_node node (set_val None) (visited a input s)) = g_nodes s.
Proof.
  intros Ha. unfold visited. unfold upd_node at 1. cbn [g_nodes set_nodes]. rewrite entered_nodes.
  cbn. rewrite alter_alter_eq.
  apply map_eq. intros i. destruct (decide (i = node)) as [->|]; [|by rewrite lookup_alter_ne].
  rewrite lookup_alter_eq, (asking_node _ _ Ha). cbn. rewrite <- (question_val Hq). by destruct p.
Qed.

(** No transition is taken for the answer itself. *)
Lemma visit_quiet r s a input :
  asking r s -> a <> lit "default" ->
  forall j t, pn_tl p !! j = Some t -> quiet_tn (Some a) (g_nvp (visited a input s)) t.
Proof.
  intros Ha Hd j t Hj. rewrite (question_next Hq) in Hj. destruct j as [|j]; [|done].
  injection Hj as <-. exists (lit "default"). split; [done|]. split; [congruence|].
  unfold visited. rewrite entered_nvp. apply not_named_spec, Ha.
Qed.

Lemma push_if_yes r s a input :
  asking r s ->
  stack_push_if_yes node opt (visited a input s) =
  Ok (if is_yes (Some a) 0 =? 1 then 0 else if is_yes (Some a) 0 =? -1 then WRONG_VALUE else is_yes (Some a) 0,
      upd_node node (set_val None)
        (set_mnt (if is_yes (Some a) 0 =? 1 then Some opt :: g_mnt s else g_mnt s) (visited a input s))).
Proof.
  intros Ha. unfold stack_push_if_yes.
  rewrite (get_node_ok _ _ _ (visited_node _ _ _ _ Ha)), bind_Ok. cbn [pn_val pn_flags set_val].
  rewrite (question_flags Hq).
  match goal with |- context [_ || ?b] => change b with false end. rewrite orb_false_r.
  assert (g_mnt (visited a input s) = g_mnt s) as Hm by (unfold visited; by rewrite entered_mnt).
  assert (set_mnt (g_mnt s) (visited a input s) = visited a input s) as Hs
    by (rewrite <- Hm; by destruct (visited a input s)).
  destruct (is_yes (Some a) 0 =? 1); [by rewrite stack_push_ok, Hm by done|].
  rewrite Hs. by destruct (is_yes (Some a) 0 =? -1).
Qed.

(** A wrong answer is asked for again, unless it is the fifth. *)
Lemma visit_wrong r s a input :
  asking r s -> g_input s = (0, Some a) :: input -> wrong_answer a ->
  exists s',
    eval_step run_tf true node s =
      (if 5 <=? r + 1 then go (- EINVAL, None, s') else go (0, Some node, s')) /\
    asking (r + 1) s' /\ g_input s' = input /\ g_mnt s' = g_mnt s /\ g_keyring s' = g_keyring s /\
    g_nvp s' = g_nvp s.
Proof.
  intros Ha Hin (Hw & Hne & Hd).
  set (s1 := upd_node node (set_val None) (set_mnt (g_mnt s) (visited a input s))).
  assert (g_nodes s1 = g_nodes s) as Hn1 by (by apply (visited_val r)).
  assert (g_nvp s1 = g_nvp s) as Hnvp by exact (entered_nvp node (answered a input s)).
  assert (g_repeated s1 = r) as Hr by (by apply (visited_repeated r s a input)).
  assert (g_verbosity s1 = g_verbosity s) as Hv by (unfold s1, visited, entered; cbn; by case_match).
  assert (g_lastnode s1 = Some node) as Hl by done.
  exists (set_repeated (r + 1) s1). split.
  - rewrite (eval_step_get _ _ _ _ _ (ask_answer _ _ _ _ Ha Hin Hne)). unfold do_transition.
    fold (entered node (answered a input s)). fold (visited a input s).
    rewrite (get_node_ok _ _ _ (visited_node _ _ _ _ Ha)). cbn [stays rbind pn_tl set_val].
    rewrite <- (app_nil_r (seq 0 _)) at 1.
    rewrite (try_transitions_quiet run_tf _ _ _ _ (visited_node _ _ a input Ha)).
    2:{ intros j [_ Hj]%elem_of_seq. destruct (lookup_lt_is_Some_2 (pn_tl p) j) as [t Ht]; [lia|].
        exists t. split; [done|]. by eapply visit_quiet. }
    cbn [try_transitions rbind go]. rewrite (get_node_ok _ _ _ (visited_node _ _ _ _ Ha)).
    cbn [stays rbind pn_tl set_val]. rewrite (question_next Hq).
    cbn [length seq default_transition try_default].
    rewrite (get_tn_ok _ _ _ 0 (TransNode (Some (lit "default")) (Some (lit "default")) (Some next) (Some f))
      (visited_node _ _ a input Ha)) by (cbn; by rewrite (question_next Hq)).
    cbn [stays rbind tn_val tn_trans_func call_tf]. rewrite streq_refl.
    rewrite (question_function Hq), (push_if_yes _ _ _ _ Ha), Hw. cbn [stays rbind Z.eqb]. fold s1.
    change (WRONG_VALUE =? WRONG_VALUE) with true. cbn [negb].
    rewrite (get_node_ok _ _ p) by (rewrite Hn1; apply Ha). cbn [stays rbind].
    rewrite Hv, (proj2 (Z.eqb_neq _ _) (asking_verbosity _ _ Ha)). cbn [negb orb].
    rewrite Hr. cbn [g_repeated set_repeated]. by destruct (5 <=? r + 1).
  - split_and!.
    + split; cbn [g_nodes g_nvp g_verbosity g_lastnode g_repeated set_repeated];
        rewrite ?Hn1, ?Hnvp, ?Hv, ?Hl; try apply Ha. by rewrite bool_decide_eq_true_2.
    + unfold s1, visited, entered. cbn. by case_match.
    + done.
    + exact (entered_keyring node (answered a input s)).
    + exact Hnvp.
Qed.

(** A right answer leads on. *)
Lemma visit_right r s a input :
  asking r s -> g_input s = (0, Some a) :: input -> right_answer a ->
  exists s',
    eval_step run_tf true node s = go (0, Some next, s') /\ g_nodes s' = g_nodes s /\
    g_input s' = input /\ g_keyring s' = g_keyring s /\ g_nvp s' = g_nvp s /\
    g_mnt s' = (if bool_decide (a ∈ [lit "y"; lit "yes"]) then Some opt :: g_mnt s else g_mnt s).
Proof.
  intros Ha Hin Hright.
  assert (a <> [] /\ a <> lit "default" /\ 0 <= is_yes (Some a) 0 <= 1 /\
          (is_yes (Some a) 0 =? 1) = bool_decide (a ∈ [lit "y"; lit "yes"])) as (Hne & Hd & Hy & Hyes).
  { unfold right_answer in Hright.
    repeat (apply elem_of_cons in Hright as [->|Hright]; [by vm_compute|]). by apply elem_of_nil in Hright. }
  eexists. split.
  - rewrite (eval_step_get _ _ _ _ _ (ask_answer _ _ _ _ Ha Hin Hne)).
    eapply (do_transition_default run_tf node _ (set_val (Some a) p) 0
      (TransNode (Some (lit "default")) (Some (lit "default")) (Some next) (Some f))).
    + apply upd_node_lookup, Ha.
    + intros j t Hj. rewrite <- (entered_nvp node). by eapply visit_quiet.
    + cbn. by rewrite (question_next Hq).
    + done.
    + intros; lia.
    + cbn [call_tf tn_trans_func]. rewrite (question_function Hq). fold (visited a input s).
      rewrite (push_if_yes _ _ _ _ Ha), Hyes. reflexivity.
    + repeat case_match; unfold WRONG_VALUE; lia.
    + repeat case_match; unfold WRONG_VALUE; lia.
    + repeat case_match; unfold WRONG_VALUE, MOUNT_ERROR; lia.
    + exists (TransNode (Some (lit "default")) (Some (lit "default")) (Some next) (Some f)).
      split; [apply (get_tn_ok _ _ p)|reflexivity].
      * change (g_nodes (upd_node node (set_val None) (visited a input s)) !! node = Some p).
        rewrite (visited_val _ _ _ _ Ha). apply Ha.
      * by rewrite (question_next Hq).
  - split_and!.
    + by apply (visited_val r).
    + unfold visited, entered. cbn. by case_match.
    + exact (entered_keyring node (answered a input s)).
    + exact (entered_nvp node (answered a input s)).
    + done.
Qed.

(** Wrong answers, one after the other, stay at the node. *)
Lemma ask_again wrong r s input :
  Forall wrong_answer wrong -> 0 <= r -> r + zlen wrong <= 4 -> asking r s ->
  g_input s = typed wrong ++ input ->
  exists s', eval_steps run_tf true (length wrong) node s = Some (node, s') /\
    asking (r + zlen wrong) s' /\ g_input s' = input /\ g_mnt s' = g_mnt s /\
    g_keyring s' = g_keyring s /\ g_nvp s' = g_nvp s.
Proof.
  intros Hw. revert r s. induction Hw as [|a wrong Ha Hw IH]; intros r s Hr Hlen Hs Hin.
  { exists s. cbn in Hin. rewrite zlen_nil, Z.add_0_r. by split_and!. }
  rewrite zlen_cons in *. pose proof (zlen_nonneg wrong).
  destruct (visit_wrong r s a (typed wrong ++ input) Hs Hin Ha)
    as (s1 & Hstep & Hs1 & Hin1 & Hm1 & Hk1 & Hn1).
  destruct (IH (r + 1) s1) as (s2 & Hsteps & Hs2 & Hin2 & Hm2 & Hk2 & Hn2); [lia|lia|done|done|].
  exists s2. cbn [length eval_steps]. rewrite Hstep.
  replace (5 <=? r + 1) with false by lia. cbn [go]. rewrite Hm2, Hk2, Hn2.
  split_and!; try done. by replace (r + (1 + zlen wrong)) with (r + 1 + zlen wrong) by lia.
Qed.
End YesNo.

(** C10. A question of the mount helper: up to four answers that are neither yes
    nor no are asked again; a right one leads on to the next node and puts the
    option on the stack exactly when it is a yes; nothing else of the options,
    the keyring and the graph changes. *)
Theorem question_answered `{Heap} run_tf node next f opt p wrong a s input :
  heap_never_fails -> yes_no_question run_tf node next f opt p -> asking node p 0 s ->
  Forall wrong_answer wrong -> zlen wrong <= 4 -> right_answer a ->
  g_input s = typed (wrong ++ [a]) ++ input ->
  exists s', eval_steps run_tf true (length wrong + 1) node s = Some (next, s') /\
    g_mnt s' = (if bool_decide (a ∈ [lit "y"; lit "yes"]) then Some opt :: g_mnt s else g_mnt s) /\
    g_nodes s' !! node = Some p /\ g_input s' = input /\ g_keyring s' = g_keyring s /\
    g_nvp s' = g_nvp s.
Proof.
  intros Hh Hq Hs Hw Hlen Ha Hin. rewrite typed_app, <- app_assoc in Hin.
  destruct (ask_again run_tf node next f opt p Hq Hh wrong 0 s _ Hw ltac:(lia) ltac:(lia) Hs Hin)
    as (s1 & Hsteps & Hs1 & Hin1 & Hm1 & Hk1 & Hn1).
  destruct (visit_right run_tf node next f opt p Hq Hh _ s1 a input Hs1 Hin1 Ha)
    as (s2 & Hstep & Hnodes & Hin2 & Hk2 & Hn2 & Hm2).
  exists s2. split.
  - rewrite (eval_steps_app run_tf true), Hsteps. cbn [eval_steps]. by rewrite Hstep.
  - rewrite Hm2, Hm1, Hnodes, Hk2, Hk1, Hn2, Hn1. split_and!; try done. apply Hs1.
Qed.

(** The node of the HMAC option asks such a question. *)
Lemma hmac_question `{Heap, Nss, Sys} big_endian module_tf open_file open_fd :
  yes_no_question (run_tf big_endian module_tf open_file open_fd) hmac_param_node end_param_node
    GetHmac (lit "ecryptfs_hmac") hmac_init.
Proof. by split. Qed.

Definition hmac_state (answers : list cstring) : gstate :=
  set_verbosity 1 (fresh_state ∅ (typed answers)).

Lemma hmac_asking answers : asking hmac_param_node hmac_init 0 (hmac_state answers).
Proof. by split. Qed.

#[local] Abbreviation toy_tf :=
  (@run_tf plenty toy_nss calm_sys false (fun _ _ s => go (0, s)) (fun _ _ => inl ENOENT)
     (fun _ _ => (inl (- EIO), fun _ => None, []))).

Lemma question_answered_witness :
  exists s', @eval_steps plenty toy_tf true 3 hmac_param_node
               (hmac_state [lit "maybe"; lit "Y"; lit "yes"]) = Some (end_param_node, s') /\
    g_mnt s' = [Some (lit "ecryptfs_hmac"); None] /\ g_nodes s' !! hmac_param_node = Some hmac_init /\
    g_input s' = [] /\ g_keyring s' = ∅ /\ g_nvp s' = [].
Proof.
  exact (@question_answered plenty toy_tf hmac_param_node end_param_node GetHmac (lit "ecryptfs_hmac")
    hmac_init [lit "maybe"; lit "Y"] (lit "yes")
    (hmac_state [lit "maybe"; lit "Y"; lit "yes"]) [] (fun _ _ => eq_refl)
    (@hmac_question plenty toy_nss calm_sys _ _ _ _) (hmac_asking _)
    ltac:(repeat constructor; done) ltac:(done) ltac:(by right; left) eq_refl).
Defined.

(** The fifth wrong answer ends the walk with -EINVAL. *)
Theorem question_gives_up `{Heap} run_tf node next f opt p wrong s input fuel :
  heap_never_fails -> yes_no_question run_tf node next f opt p -> asking node p 0 s ->
  Forall wrong_answer wrong -> zlen wrong = 5 ->
  g_input s = typed wrong ++ input ->
  exists s', eval_loop run_tf true (5 + fuel) node s = Ok (Returned (- EINVAL) s') /\
    g_mnt s' = g_mnt s /\ g_input s' = input /\ g_keyring s' = g_keyring s.
Proof.
  intros Hh Hq Hs Hw Hlen Hin. destruct wrong as [|a wrong] using rev_ind; [done|].
  clear IHwrong. rewrite zlen_app in Hlen. change (zlen [a]) with 1 in Hlen.
  apply Forall_app in Hw as [Hw Ha%Forall_inv]. rewrite typed_app, <- app_assoc in Hin.
  destruct (ask_again run_tf node next f opt p Hq Hh wrong 0 s _ Hw ltac:(lia) ltac:(lia) Hs Hin)
    as (s1 & Hsteps & Hs1 & Hin1 & Hm1 & Hk1 & Hn1).
  destruct (visit_wrong run_tf node next f opt p Hq Hh _ s1 a input Hs1 Hin1 Ha)
    as (s2 & Hstep & _ & Hin2 & Hm2 & Hk2 & Hn2).
  exists s2. split; [|by rewrite Hm2, Hm1, Hk2, Hk1].
  replace (5 + fuel)%nat with (length wrong + S fuel)%nat by (unfold zlen in Hlen; lia).
  rewrite (eval_steps_loop _ _ _ _ _ _ _ _ Hsteps). cbn [eval_loop]. rewrite Hstep.
  by replace (5 <=? 0 + zlen wrong + 1) with true by lia.
Qed.

Lemma question_gives_up_witness :
  exists s', @eval_loop plenty toy_tf true (5 + 0) hmac_param_node
               (hmac_state (replicate 5 (lit "maybe"))) = Ok (Returned (- EINVAL) s') /\
    g_mnt s' = [None] /\ g_input s' = [] /\ g_keyring s' = ∅.
Proof.
  exact (@question_gives_up plenty toy_tf hmac_param_node end_param_node GetHmac (lit "ecryptfs_hmac")
    hmac_init (replicate 5 (lit "maybe")) (hmac_state (replicate 5 (lit "maybe"))) [] 0 (fun _ _ => eq_refl)
    (@hmac_question plenty toy_nss calm_sys _ _ _ _) (hmac_asking _)
    ltac:(repeat constructor; done) ltac:(done) eq_refl).
Defined.
