(* ===== verification/MountWalks.v ===== *)
(** * Properties of the walks over the graph of mount options *)

From S2P Require Import Prelude CLib Ecryptfs PassphraseSig KeyMod KeyPayload KeyManagement CmdLnParser DecisionGraph PassphraseGraph ModuleMgr MountGraph.

Lemma aes_choice : (lit "aes", 16) ∈ cipher_choices.
Proof. apply (bool_decide_unpack _). vm_compute. exact I. Qed.

Lemma passphrase_process junk `{Nss, !NssLaws, Sys} big_endian module_trans module_tf
    open_file open_fd pw_dir key_mod_dir version passwd kr input fuel :
  sys_works -> digest_total -> ecryptfs_supports_passphrase version = true ->
  passphrase_ok passwd ->
  exists s',
    process junk big_endian module_trans module_tf open_file open_fd pw_dir key_mod_dir (20 + fuel)
      version (Some (join_with 44 (option_text <$> passphrase_options passwd (lit "aes") 16)))
      (fresh_state kr input) =
    Ok (Returned (if ecryptfs_supports_plaintext_passthrough version || ecryptfs_supports_hmac version ||
                     ecryptfs_supports_xattr version || ecryptfs_supports_filename_encryption version
                  then 0 else - EINVAL) s') /\
    (g_mnt s' = [Some (lit "ecryptfs_key_bytes=16"); Some (lit "ecryptfs_cipher=aes");
                 Some (lit "ecryptfs_sig=" ++ passphrase_sig_hex default_salt passwd); None] /\
     g_keyring s' = (ensure_token kr default_salt passwd).2 /\ g_input s' = input).
Proof.
  intros Hs Hd Hv Hp. rewrite process_unfold by done.
  destruct (passphrase_walk junk big_endian module_trans module_tf open_file open_fd
    (ecryptfs_supports_plaintext_passthrough version) (ecryptfs_supports_hmac version)
    (ecryptfs_supports_xattr version) (ecryptfs_supports_filename_encryption version)
    passwd kr input fuel Hs Hd Hp) as (s' & Hw & HP).
  exists s'. split; [|exact HP]. etransitivity; [|exact Hw].
  unfold features_of. destruct (fill_in_graph _ _ _ _) as [[[rc s]|]|]; [|done..].
  rewrite !bind_Ok. destruct (negb (rc =? 0)); [done|].
  rewrite read_options_ok; [done|]. apply passphrase_options_ok; [done|exact aes_choice].
Qed.

(** The code of a mount with a passphrase: one of the optional features is needed. *)
Definition passphrase_mount_code (version : Z) : Z :=
  if ecryptfs_supports_plaintext_passthrough version || ecryptfs_supports_hmac version ||
     ecryptfs_supports_xattr version || ecryptfs_supports_filename_encryption version
  then 0 else - EINVAL.

(** C6. A mount with a passphrase, walked through without asking the user: the
    options of the kernel are the signature of the passphrase under the default
    salt, the cipher and the key size, and the keyring has the token.  The walk
    succeeds exactly when the kernel module supports one of the optional
    features. *)
Theorem passphrase_mount_options junk `{Nss, !NssLaws, Sys} big_endian module_trans module_tf
    open_file open_fd pw_dir key_mod_dir version passwd kr input fuel :
  sys_works -> digest_total -> ecryptfs_supports_passphrase version = true ->
  passphrase_ok passwd ->
  exists s',
    process junk big_endian module_trans module_tf open_file open_fd pw_dir key_mod_dir (20 + fuel)
      version (Some (join_with 44 (option_text <$> passphrase_options passwd (lit "aes") 16)))
      (fresh_state kr input) =
    Ok (Returned (passphrase_mount_code version) s') /\
    (g_mnt s' = [Some (lit "ecryptfs_key_bytes=16"); Some (lit "ecryptfs_cipher=aes");
                 Some (lit "ecryptfs_sig=" ++ passphrase_sig_hex default_salt passwd); None] /\
     g_keyring s' = (ensure_token kr default_salt passwd).2 /\ g_input s' = input).
Proof. intros Hs Hd Hv Hp. by apply passphrase_process. Qed.

Lemma secret_ok : passphrase_ok (lit "secret").
Proof. split; [by apply sample_option_ok|by vm_compute|done..]. Qed.

Lemma passphrase_mount_options_witness :
  exists s',
    @process (fun _ => 0) toy_nss calm_sys false (fun _ => None) (fun _ _ s => go (0, s))
      (fun _ _ => inl ENOENT) (fun _ _ => (inl (- EIO), fun _ => None, [])) None (lit "/lib") (20 + 0)
      0x397 (Some (lit "key=passphrase,passphrase_passwd=secret,ecryptfs_cipher=aes,ecryptfs_key_bytes=16,verbosity=0"))
      (fresh_state ∅ []) = Ok (Returned 0 s') /\
    (g_mnt s' = [Some (lit "ecryptfs_key_bytes=16"); Some (lit "ecryptfs_cipher=aes");
                 Some (lit "ecryptfs_sig=" ++ @passphrase_sig_hex toy_nss default_salt (lit "secret")); None] /\
     g_keyring s' = (@ensure_token toy_nss ∅ default_salt (lit "secret")).2 /\ g_input s' = []).
Proof.
  exact (@passphrase_mount_options (fun _ => 0) toy_nss toy_nss_laws calm_sys false (fun _ => None)
    (fun _ _ s => go (0, s)) (fun _ _ => inl ENOENT) (fun _ _ => (inl (- EIO), fun _ => None, []))
    None (lit "/lib") 0x397 (lit "secret") ∅ [] 0 calm_sys_works toy_digest_total eq_refl secret_ok).
Defined.

(** The passphrases "default" and "passphrase_salt" end the walk: it reports
    success, the passphrase itself is the only mount option and no key is added. *)
Theorem passphrase_named_like_transition junk `{Nss, Sys} big_endian module_trans module_tf open_file
    open_fd pw_dir key_mod_dir passwd kr input fuel :
  passwd ∈ [lit "default"; lit "passphrase_salt"] ->
  exists s',
    process junk big_endian module_trans module_tf open_file open_fd pw_dir key_mod_dir (20 + fuel)
      0x397 (Some (join_with 44 (option_text <$> passphrase_options passwd (lit "aes") 16)))
      (fresh_state kr input) = Ok (Returned 0 s') /\
    g_mnt s' = [Some passwd; None] /\ g_keyring s' = kr.
Proof.
  intros Hp. repeat (apply elem_of_cons in Hp as [->|Hp]); [..|by apply elem_of_nil in Hp].
  all: destruct pw_dir; eexists; (split; [vm_compute; reflexivity|done]).
Qed.

Lemma passphrase_named_like_transition_witness :
  exists s',
    @process (fun _ => 0) toy_nss calm_sys false (fun _ => None) (fun _ _ s => go (0, s))
      (fun _ _ => inl ENOENT) (fun _ _ => (inl (- EIO), fun _ => None, [])) None (lit "/lib") (20 + 0)
      0x397 (Some (join_with 44 (option_text <$> passphrase_options (lit "default") (lit "aes") 16)))
      (fresh_state ∅ []) = Ok (Returned 0 s') /\
    g_mnt s' = [Some (lit "default"); None] /\ g_keyring s' = ∅.
Proof.
  apply (@passphrase_named_like_transition (fun _ => 0) toy_nss calm_sys false (fun _ => None)
    (fun _ _ s => go (0, s)) (fun _ _ => inl ENOENT) (fun _ _ => (inl (- EIO), fun _ => None, []))
    None (lit "/lib") (lit "default") ∅ [] 0).
  by left.
Defined.

(** ** Options over a whole walk *)
Section UsesOptions.
Context `{Heap, Nss, Sys} (big_endian : bool) (module_tf : Z -> Z -> gstate -> running (Z * gstate))
        (open_file : nat -> cstring -> Z + descriptor) (open_fd : nat -> Z -> descriptor).

Lemma enter_linear_nvp node s rc s' :
  ecryptfs_enter_linear_subgraph_tf node s = Ok (Some (rc, s')) -> same_options s s'.
Proof.
  unfold ecryptfs_enter_linear_subgraph_tf. destruct (negb _); [by intros [= _ <-]|].
  intros (p & _ & Hr)%rbind_inv. destruct (g_mods s); [by injection Hr as _ <-|].
  apply rbind_inv in Hr as (alias & _ & Hr). apply rbind_inv in Hr as (m & _ & Hr).
  repeat case_match; by injection Hr as _ <-.
Qed.

Lemma linear_val_nvp node s rc s' :
  ecryptfs_linear_subgraph_val_tf node s = Ok (Some (rc, s')) -> same_options s s'.
Proof.
  unfold ecryptfs_linear_subgraph_val_tf. intros (p & _ & Hr)%rbind_inv.
  unfold go in Hr. repeat case_match; simplify_eq; done.
Qed.

Lemma exit_linear_nvp s rc s' :
  ecryptfs_exit_linear_subgraph_tf big_endian s = Ok (Some (rc, s')) -> same_options s s'.
Proof.
  unfold ecryptfs_exit_linear_subgraph_tf. intros Hr.
  repeat case_match; try done; try (by injection Hr as _ <-).
  apply rbind_inv in Hr as ([[rc1 sig] kr] & _ & Hr).
  repeat case_match; try done; try (by injection Hr as _ <-).
  apply rbind_inv in Hr as (sig' & _ & Hr). destruct (stack_push _ _) eqn:Hs in Hr.
  apply stack_push_nvp in Hs. by injection Hr as _ <-.
Qed.

(** The functions of loaded modules leave the options alone. *)
Hypothesis module_tf_nvp : forall n node s rc s',
  module_tf n node s = Ok (Some (rc, s')) -> same_options s s'.

Lemma run_tf_nvp f node s rc s' :
  run_tf big_endian module_tf open_file open_fd f node s = Ok (Some (rc, s')) -> same_options s s'.
Proof.
  destruct f; cbn [run_tf]; intros Hr; try apply stays_inv in Hr.
  all: eauto using sig_param_node_callback_nvp, tf_ecryptfs_key_bytes_nvp, tf_ecryptfs_cipher_nvp,
    stack_push_if_yes_nvp, fnek_sig_callback_nvp, get_enable_filename_crypto_nvp,
    another_key_callback_nvp, tf_passwd_nvp, tf_pass_file_nvp, tf_salt_nvp,
    enter_linear_nvp, linear_val_nvp, exit_linear_nvp.
Qed.

Lemma walk_options fuel node b s rc s' :
  eval_loop (run_tf big_endian module_tf open_file open_fd) b fuel node s = Ok (Returned rc s') ->
  options_used (g_nvp s) (g_nvp s').
Proof.
  apply (eval_loop_R _ _ (fun s s' => options_used (g_nvp s) (g_nvp s'))).
  intros f node' s1 rc1 s2 ->%run_tf_nvp. reflexivity.
Qed.
End UsesOptions.

Lemma options_used_pending l k : options_used l k -> (pending k <= pending l)%nat.
Proof.
  unfold pending. induction 1 as [|a b l k Hab _ IH]; [done|].
  rewrite !filter_cons. destruct Hab as [->|[-> Ha]].
  - destruct (decide _); cbn; lia.
  - rewrite mark_processed_flag. rewrite decide_False by done. rewrite decide_True by done. cbn. lia.
Qed.

(** Whatever the graph, a whole evaluation changes the option list only by
    using options up: no name and no value changes, no used option becomes free
    again, and the number of options left to use never grows. *)
Theorem walk_uses_options `{Heap, Nss, Sys} big_endian module_tf open_file open_fd b fuel root s rc s' :
  (forall n node s1 rc1 s2, module_tf n node s1 = Ok (Some (rc1, s2)) -> g_nvp s2 = g_nvp s1) ->
  ecryptfs_eval_decision_graph (run_tf big_endian module_tf open_file open_fd) b fuel root s =
    Ok (Returned rc s') ->
  options_used (g_nvp s) (g_nvp s') /\ (pending (g_nvp s') <= pending (g_nvp s))%nat.
Proof.
  intros Hm He. unfold ecryptfs_eval_decision_graph, eval_param_tree in He.
  destruct (g_mnt s) as [|top stack]; [done|].
  apply bind_ok_inv in He as (r & Hr & He). apply bind_ok_inv in Hr as (verbosity & _ & Hr).
  destruct r as [| |rc1 s1]; [done..|]. injection He as _ <-.
  apply walk_options in Hr; [|exact Hm]. split; [exact Hr|by apply options_used_pending].
Qed.

(** The hmac option given, and no questions to be asked. *)
Lemma walk_uses_options_witness :
  let s := set_nvp [bare_pair (lit "ecryptfs_hmac"); NVPair 0 (Some (lit "verbosity")) (Some (lit "0"))]
             (fresh_state ∅ []) in
  exists s',
    @ecryptfs_eval_decision_graph plenty (@run_tf plenty toy_nss calm_sys false (fun _ _ s => go (0, s))
      (fun _ _ => inl ENOENT) (fun _ _ => (inl (- EIO), fun _ => None, []))) true 2 hmac_param_node s =
      Ok (Returned 0 s') /\
    options_used (g_nvp s) (g_nvp s') /\ (pending (g_nvp s') <= pending (g_nvp s))%nat.
Proof.
  intros s. eexists. split; [vm_compute; reflexivity|].
  eapply (@walk_uses_options plenty toy_nss calm_sys false (fun _ _ s => go (0, s))
    (fun _ _ => inl ENOENT) (fun _ _ => (inl (- EIO), fun _ => None, [])) true 2 hmac_param_node s 0);
    [by intros n node s1 rc1 s2 [= _ <-]|vm_compute; reflexivity].
Defined.

(** ** A walk without end *)

(** Two visits that lead from one state to another and back. *)
Lemma eval_loop_cycle `{Heap} run_tf b x y s t :
  (forall k, eval_step run_tf b x (set_steps k s) = go (0, Some y, set_steps (S k) t)) ->
  (forall k, eval_step run_tf b y (set_steps k t) = go (0, Some x, set_steps (S k) s)) ->
  forall fuel k, eval_loop run_tf b fuel x (set_steps k s) = Ok OutOfFuel /\
                 eval_loop run_tf b fuel y (set_steps k t) = Ok OutOfFuel.
Proof.
  intros Hx Hy fuel. induction fuel as [|fuel IH]; intros k; [done|].
  cbn [eval_loop]. rewrite Hx, Hy. split; apply IH.
Qed.

Lemma walk_forever `{Heap} run_tf b n total fuel node s x s1 y t verbosity top stack :
  g_mnt s = top :: stack -> get_verbosity (g_nvp s) = Ok verbosity -> total = (n + fuel)%nat ->
  eval_steps run_tf b n node (set_foo FooNull (set_verbosity verbosity (set_mnt [None] s))) = Some (x, s1) ->
  eval_steps run_tf b 1 x s1 = Some (y, t) ->
  (forall k, eval_step run_tf b x (set_steps k s1) = go (0, Some y, set_steps (S k) t)) ->
  (forall k, eval_step run_tf b y (set_steps k t) = go (0, Some x, set_steps (S k) s1)) ->
  ecryptfs_eval_decision_graph run_tf b total node s = Ok OutOfFuel.
Proof.
  intros Hm Hv -> Hn _ Hx Hy. unfold ecryptfs_eval_decision_graph, eval_param_tree. rewrite Hm.
  cbn [g_nvp set_mnt]. rewrite Hv, bind_Ok, (eval_steps_loop _ _ _ _ _ _ _ _ Hn).
  replace s1 with (set_steps (g_steps s1) s1) by (by destruct s1).
  destruct (eval_loop_cycle run_tf b x y s1 t Hx Hy fuel (g_steps s1)) as [-> _]. done.
Qed.

Definition loop_options : list (cstring * option cstring) :=
  [(lit "sig", Some (lit "0011223344556677")); (lit "ecryptfs_cipher", Some (lit "aes"));
   (lit "ecryptfs_key_bytes", Some (lit "16")); (lit "ecryptfs_enable_filename_crypto", None);
   (lit "verbosity", Some (lit "0"))].

Lemma loop_options_ok : Forall option_ok loop_options.
Proof. repeat (apply Forall_cons_2; [apply sample_option_ok; reflexivity|]). apply Forall_nil_2. Qed.

(** The option ecryptfs_enable_filename_crypto without a value, with
    verbosity=0 and no signature for file names: the mount helper never ends.  The
    nodes of the signature and of the option lead to each other for ever, so no
    amount of fuel (beyond the 20 that build the graph) is enough. *)
Theorem enable_without_value_loops junk `{Nss, Sys} big_endian module_trans module_tf open_file open_fd
    pw_dir key_mod_dir version kr input fuel :
  ecryptfs_supports_passphrase version = true -> ecryptfs_supports_filename_encryption version = true ->
  process junk big_endian module_trans module_tf open_file open_fd pw_dir key_mod_dir (20 + fuel)
    version (Some (join_with 44 (option_text <$> loop_options))) (fresh_state kr input) = Ok OutOfFuel.
Proof.
  intros Hv Hf. rewrite process_unfold by done. unfold features_of. rewrite Hf.
  destruct (ecryptfs_supports_plaintext_passthrough version), (ecryptfs_supports_hmac version),
    (ecryptfs_supports_xattr version).
  all: compute_bind; rewrite read_options_ok by exact loop_options_ok; compute_bind;
  (eapply (walk_forever _ _ 10); [reflexivity|vm_compute; reflexivity|cbn [Nat.add]; reflexivity
    |vm_compute; reflexivity|vm_compute; reflexivity|intros k; vm_compute; reflexivity..]).
Qed.

Lemma enable_without_value_loops_witness :
  @process (fun _ => 0) toy_nss calm_sys false (fun _ => None) (fun _ _ s => go (0, s))
    (fun _ _ => inl ENOENT) (fun _ _ => (inl (- EIO), fun _ => None, [])) None (lit "/lib") (20 + 100)
    0x397 (Some (lit "sig=0011223344556677,ecryptfs_cipher=aes,ecryptfs_key_bytes=16,ecryptfs_enable_filename_crypto,verbosity=0"))
    (fresh_state ∅ []) = Ok OutOfFuel.
Proof.
  exact (@enable_without_value_loops (fun _ => 0) toy_nss calm_sys false (fun _ => None)
    (fun _ _ s => go (0, s)) (fun _ _ => inl ENOENT) (fun _ _ => (inl (- EIO), fun _ => None, []))
    None (lit "/lib") 0x397 ∅ [] 100 eq_refl eq_refl).
Defined.

(** Generating a key crashes whatever the version of the kernel module, when
    no key module can be loaded: the built-in module has no graph for it, and its
    missing operation is called. *)
Theorem key_generation_crashes `{Heap, Nss, Sys} big_endian module_trans module_tf open_file open_fd b
    key_mod_dir entries fuel version s :
  heap_never_fails -> omap (module_of_entry key_mod_dir) entries = [] ->
  ecryptfs_process_key_gen_decision_graph big_endian module_trans module_tf open_file open_fd b
    key_mod_dir (Some entries) fuel version s = UB NullDeref.
Proof.
  intros Hh He. unfold ecryptfs_process_key_gen_decision_graph, ecryptfs_register_key_modules.
  rewrite !Hh, register_dir_spec, He by done. cbn [negb obind]. cbn -[lit].
  unfold ecryptfs_passphrase_init. by rewrite !Hh.
Qed.

Lemma key_generation_crashes_witness :
  @ecryptfs_process_key_gen_decision_graph plenty toy_nss calm_sys false (fun _ => None)
    (fun _ _ s => go (0, s)) (fun _ _ => inl ENOENT) (fun _ _ => (inl (- EIO), fun _ => None, [])) true
    (lit "/lib") (Some [Dirent (lit "README") None None]) 20 0x397 (fresh_state ∅ []) = UB NullDeref.
Proof.
  exact (@key_generation_crashes plenty toy_nss calm_sys false (fun _ => None)
    (fun _ _ s => go (0, s)) (fun _ _ => inl ENOENT) (fun _ _ => (inl (- EIO), fun _ => None, [])) true
    (lit "/lib") [Dirent (lit "README") None None] 20 0x397 (fresh_state ∅ []) (fun _ _ => eq_refl) eq_refl).
Defined.
