(* ===== verification/Ssl.v ===== *)
(** * The interface of OpenSSL, and signatures of RSA keys

    What the public-key modules call of OpenSSL, as a class of parameters with
    its documented laws and an instance; the OpenPGP packet of an RSA key whose
    digest the modules take for their signatures, each with its own copy of the
    code, and the lemmas that the copies share. *)

From S2P Require Import Prelude CLib Ecryptfs PassphraseSig KeyMod KeyPayload KeyManagement.

Definition SHA_DIGEST_LENGTH : Z := 20.

(** The paddings of [RSA_public_encrypt(3)]. *)
Definition RSA_PKCS1_PADDING : Z := 1.
Definition RSA_PKCS1_OAEP_PADDING : Z := 4.

(** ** The library
    The error queue of the thread is threaded through the calls that may add to
    it. *)
Class Ssl := {
  RSA : Type;
  rsa_n : RSA -> Z;
  rsa_e : RSA -> Z;
  BN_num_bits : Z -> Z;
  BN_bn2bin : Z -> bytes;
  SHA1 : bytes -> bytes;
  RSA_size : RSA -> Z;
  err_queue : Type;
  ERR_get_error : err_queue -> Z;
  ERR_remove_state : err_queue -> err_queue;
  BIO_new : err_queue -> bool * err_queue;
  BIO_read_filename : cstring -> err_queue -> bool * err_queue;
  PEM_read_bio_RSAPrivateKey : cstring -> cstring -> err_queue -> option RSA * err_queue;
  RSA_public_encrypt : RSA -> Z -> bytes -> err_queue -> option bytes * err_queue;
  RSA_private_decrypt : RSA -> Z -> bytes -> err_queue -> option bytes * err_queue;
  BIO_write_filename : cstring -> bool;
  PEM_write_bio_RSAPrivateKey : RSA -> cstring -> bool;
  RSA_generate_key : option RSA
}.

(** [BN_num_bits(3)], [BN_bn2bin(3)], [SHA1(3)], [RSA_size(3)],
    [RSA_public_encrypt(3)], [ERR_get_error(3)], [ERR_remove_state(3)].  A message
    comes back only when it is decrypted with the padding it was encrypted with. *)
Class SslLaws `{Ssl} := {
  num_bits_zero : BN_num_bits 0 = 0;
  num_bits_pos x : 0 < x -> BN_num_bits x = Z.log2 x + 1;
  bn2bin_be x : 0 <= x -> BN_bn2bin x = be_bytes (Z.to_nat ((BN_num_bits x + 7) / 8)) x;
  SHA1_length m : zlen (SHA1 m) = SHA_DIGEST_LENGTH;
  SHA1_bytes m : Forall is_byte (SHA1 m);
  rsa_n_pos r : 0 < rsa_n r;
  rsa_e_pos r : 0 < rsa_e r;
  RSA_size_modulus r : RSA_size r = (BN_num_bits (rsa_n r) + 7) / 8;
  encrypt_length r pad m q c q' : RSA_public_encrypt r pad m q = (Some c, q') -> zlen c = RSA_size r;
  encrypt_room r pad m q c q' : RSA_public_encrypt r pad m q = (Some c, q') -> zlen m < RSA_size r;
  decrypt_encrypt r pad m q c q' : RSA_public_encrypt r pad m q = (Some c, q') ->
    forall p, exists p', RSA_private_decrypt r pad c p = (Some m, p');
  get_error_empty q : ERR_get_error (ERR_remove_state q) = 0
}.

(** ** An instance
    A key is its modulus and exponent; a message is encrypted by putting the
    padding and its length in front and filling up to the size of the key. *)
Definition toy_num_bits (x : Z) : Z := if x =? 0 then 0 else Z.log2 x + 1.
Definition toy_rsa_size (r : Z * Z) : Z := (toy_num_bits (Z.max 1 r.1) + 7) / 8.
Definition toy_encrypt (r : Z * Z) (padding : Z) (m : bytes) : option bytes :=
  if zlen m + 2 <=? toy_rsa_size r then
    Some (padding :: zlen m :: m ++ zeros (toy_rsa_size r - 2 - zlen m))
  else None.
Definition toy_decrypt (padding : Z) (c : bytes) : option bytes :=
  match c with
  | p :: n :: m => if p =? padding then Some (take (Z.to_nat n) m) else None
  | _ => None
  end.

Definition toy_ssl : Ssl := {|
  RSA := Z * Z;
  rsa_n := fun r => Z.max 1 r.1;
  rsa_e := fun r => Z.max 1 r.2;
  BN_num_bits := toy_num_bits;
  BN_bn2bin := fun x => be_bytes (Z.to_nat ((toy_num_bits x + 7) / 8)) x;
  SHA1 := fun m => take 20 (toy_hash m);
  RSA_size := toy_rsa_size;
  err_queue := list Z;
  ERR_get_error := fun q => default 0 (head q);
  ERR_remove_state := fun _ => [];
  BIO_new := fun q => (true, q);
  BIO_read_filename := fun f q => if bool_decide (f = lit "/missing.pem") then (false, 33558530 :: q) else (true, q);
  PEM_read_bio_RSAPrivateKey := fun f p q =>
    if bool_decide (p = lit "secret") then (Some (2 ^ 1023 + 12345, 65537), q) else (None, 101077092 :: q);
  RSA_public_encrypt := fun r pad m q => (toy_encrypt r pad m, q);
  RSA_private_decrypt := fun r pad c q => (toy_decrypt pad c, q);
  BIO_write_filename := fun _ => true;
  PEM_write_bio_RSAPrivateKey := fun _ _ => true;
  RSA_generate_key := Some (2 ^ 1023 + 12345, 65537)
|}.

#[export] Instance toy_ssl_laws : @SslLaws toy_ssl.
Proof.
  split; cbn; intros; try done.
  - unfold toy_num_bits. by destruct (Z.eqb_spec x 0); [lia|].
  - destruct (toy_hash_bytes m) as [_ Hb]. by apply (Forall_take _ 20) in Hb.
  - lia.
  - lia.
  - unfold toy_encrypt in *. case_match; simplify_eq. to_prop.
    rewrite !zlen_cons, zlen_app. unfold zeros. rewrite zlen_replicate.
    pose proof (zlen_nonneg m). lia.
  - unfold toy_encrypt in *. case_match; simplify_eq. to_prop. lia.
  - unfold toy_encrypt in *. case_match; simplify_eq. exists p. f_equal. cbn. rewrite Z.eqb_refl. f_equal.
    unfold zlen. by rewrite Nat2Z.id, take_app_length.
Qed.

(** ** The signature of an RSA key *)
Section Signature.
Context `{Heap, Ssl}.

(** ** Specification: the OpenPGP packet of a version 4 public key *)

(** The bytes that a number of bits takes. *)
Definition num_bytes (nbits : Z) : Z := (nbits + 7) / 8.

(** A multiprecision integer: the number of its bits, and its bytes. *)
Definition mpi (x : Z) : bytes := be_bytes 2 (BN_num_bits x) ++ BN_bn2bin x.
Definition openpgp_key_body (key : RSA) : bytes :=
  [4; 0; 0; 0; 0; 2] ++ mpi (rsa_n key) ++ mpi (rsa_e key).
Definition openpgp_key_packet (key : RSA) : bytes :=
  0x99 :: be_bytes 2 (zlen (openpgp_key_body key)) ++ openpgp_key_body key.

(** The signature: the first eight bytes of the digest of the packet, which is the
    fingerprint of the key, in hexadecimal.  (The key ID of OpenPGP is the last
    eight bytes of it.) *)
Definition rsa_sig_hex (key : RSA) : cstring := hex_of (take 8 (SHA1 (openpgp_key_packet key))).

(** Reading a whole block. *)
Lemma rd_all b n : n = zlen b -> rd b 0 n = Ok b.
Proof. intros ->. pose proof (rd_prefix b [] (zlen b) eq_refl) as Hr. by rewrite app_nil_r in Hr. Qed.

(** Filling a block from its beginning. *)
Lemma wr_after acc tail src :
  zlen src <= zlen tail -> wr (acc ++ tail) (zlen acc) src = Ok ((acc ++ src) ++ drop (length src) tail).
Proof.
  intros Hs. rewrite <- (take_drop (length src) tail) at 1.
  rewrite wr_app3; [by rewrite app_assoc|done|]. rewrite zlen_take. unfold zlen in *. lia.
Qed.

Section Lemmas.
Context `{!SslLaws}.

Lemma num_bits_nonneg x : 0 <= x -> 0 <= BN_num_bits x.
Proof.
  intros Hx. destruct (Z.eq_dec x 0) as [->|]; [by rewrite num_bits_zero|].
  rewrite num_bits_pos by lia. pose proof (Z.log2_nonneg x). lia.
Qed.

Lemma num_bytes_nonneg n : 0 <= n -> 0 <= num_bytes n.
Proof. unfold num_bytes. lia. Qed.

(** How the code computes it. *)
Lemma num_bytes_ceil n : 0 <= n -> (if negb (n mod 8 =? 0) then n / 8 + 1 else n / 8) = num_bytes n.
Proof. intros. unfold num_bytes. destruct (Z.eqb_spec (n mod 8) 0); cbn [negb]; lia. Qed.

Lemma zlen_bn2bin x : 0 <= x -> zlen (BN_bn2bin x) = num_bytes (BN_num_bits x).
Proof.
  intros Hx. pose proof (num_bits_nonneg x Hx). rewrite bn2bin_be by done. unfold zlen.
  rewrite length_be_bytes. unfold num_bytes. lia.
Qed.

Lemma be_bytes_2 x : be_bytes 2 x = [u8 (Z.shiftr x 8); u8 x].
Proof.
  unfold be_bytes. cbn. unfold wrap. rewrite Z.shiftr_div_pow2 by lia. done.
Qed.

Lemma zlen_packet key :
  zlen (openpgp_key_packet key) =
  13 + num_bytes (BN_num_bits (rsa_n key)) + num_bytes (BN_num_bits (rsa_e key)).
Proof.
  pose proof (rsa_n_pos key). pose proof (rsa_e_pos key).
  unfold openpgp_key_packet, openpgp_key_body, mpi. rewrite !be_bytes_2, zlen_cons, !zlen_app.
  rewrite !zlen_bn2bin by lia. rewrite !zlen_cons. unfold zlen. cbn [length]. lia.
Qed.

Lemma length_rsa_sig_hex key : length (rsa_sig_hex key) = 16%nat.
Proof.
  unfold rsa_sig_hex. rewrite length_hex_of, length_take.
  pose proof (SHA1_length (openpgp_key_packet key)). unfold zlen, SHA_DIGEST_LENGTH in *. lia.
Qed.

Lemma rsa_sig_hex_cstring key : is_cstring (rsa_sig_hex key).
Proof. apply hex_of_cstring. apply Forall_take, SHA1_bytes. Qed.

(** The bytes that the function collects are the packet. *)
Lemma packet_pieces key :
  let nbits := BN_num_bits (rsa_n key) in
  let ebits := BN_num_bits (rsa_e key) in
  let len := 10 + num_bytes nbits + num_bytes ebits in
  (([0x99; u8 (Z.shiftr len 8); u8 len; 4; 0; 0; 0; 0; 2; u8 (Z.shiftr nbits 8); u8 nbits] ++
    BN_bn2bin (rsa_n key)) ++ [u8 (Z.shiftr ebits 8); u8 ebits]) ++ BN_bn2bin (rsa_e key) =
  openpgp_key_packet key.
Proof.
  intros nbits ebits len. unfold openpgp_key_packet.
  assert (zlen (openpgp_key_body key) = len) as Hlen.
  { pose proof (zlen_packet key) as Hz. unfold openpgp_key_packet in Hz.
    rewrite be_bytes_2, zlen_cons, zlen_app in Hz. subst len nbits ebits.
    change (zlen [_; _]) with 2 in Hz. lia. }
  rewrite Hlen. unfold openpgp_key_body, mpi. rewrite !be_bytes_2. fold nbits ebits.
  rewrite <- !app_assoc. reflexivity.
Qed.

(** Collecting them in a block of their length. *)
Lemma collect_packet {A} key block (f : bytes -> outcome A) :
  let nbits := BN_num_bits (rsa_n key) in
  let ebits := BN_num_bits (rsa_e key) in
  let len := 10 + num_bytes nbits + num_bytes ebits in
  zlen block = 3 + len ->
  (data ← wr block 0 [0x99; u8 (Z.shiftr len 8); u8 len; 4; 0; 0; 0; 0; 2; u8 (Z.shiftr nbits 8); u8 nbits];
   data ← wr data 11 (BN_bn2bin (rsa_n key));
   data ← wr data (11 + num_bytes nbits) [u8 (Z.shiftr ebits 8); u8 ebits];
   data ← wr data (11 + num_bytes nbits + 2) (BN_bn2bin (rsa_e key));
   f data) = f (openpgp_key_packet key).
Proof.
  intros nbits ebits len Hblock.
  pose proof (rsa_n_pos key) as Hn. pose proof (rsa_e_pos key) as He.
  pose proof (zlen_bn2bin (rsa_n key) ltac:(lia)) as Hzn. pose proof (zlen_bn2bin (rsa_e key) ltac:(lia)) as Hze.
  pose proof (packet_pieces key) as Hp. pose proof (zlen_packet key) as Hlen. cbn zeta in Hp.
  fold nbits in Hp, Hzn, Hlen. fold ebits in Hp, Hze, Hlen. fold len in Hp.
  pose proof (zlen_nonneg (BN_bn2bin (rsa_n key))). pose proof (zlen_nonneg (BN_bn2bin (rsa_e key))).
  set (h1 := [0x99; u8 (Z.shiftr len 8); u8 len; 4; 0; 0; 0; 0; 2; u8 (Z.shiftr nbits 8); u8 nbits]) in *.
  set (h2 := [u8 (Z.shiftr ebits 8); u8 ebits]) in *.
  assert (zlen h1 = 11) as Hh1 by reflexivity. assert (zlen h2 = 2) as Hh2 by reflexivity.
  pose proof (wr_after [] block h1 ltac:(lia)) as Hw. cbn [app] in Hw. change (zlen []) with 0 in Hw.
  rewrite Hw, bind_Ok. clear Hw.
  rewrite (wr_after h1 _ (BN_bn2bin (rsa_n key))), bind_Ok by (rewrite zlen_drop; unfold zlen in *; lia).
  replace (11 + num_bytes nbits) with (zlen (h1 ++ BN_bn2bin (rsa_n key))) by (rewrite zlen_app; lia).
  rewrite wr_after, bind_Ok by (rewrite !zlen_drop; unfold zlen in *; lia).
  replace (zlen (h1 ++ BN_bn2bin (rsa_n key)) + 2) with (zlen ((h1 ++ BN_bn2bin (rsa_n key)) ++ h2))
    by (rewrite (zlen_app _ h2); lia).
  rewrite wr_after, bind_Ok by (rewrite !zlen_drop; unfold zlen in *; lia).
  rewrite Hp. by rewrite drop_ge, app_nil_r by (rewrite !length_drop; unfold zlen in *; lia).
Qed.

(** The digest in a block of its length, and its first bytes in hexadecimal. *)
Lemma digest_to_sig key sig :
  17 <= zlen sig ->
  (hash ← wr (malloc_block heap_junk SHA_DIGEST_LENGTH) 0 (SHA1 (openpgp_key_packet key));
   sig ← to_hex sig hash ECRYPTFS_SIG_SIZE;
   sig ← wr sig ECRYPTFS_SIG_SIZE_HEX [0];
   mret (0, sig)) = Ok (0, rsa_sig_hex key ++ 0 :: drop 17 sig).
Proof.
  intros Hsig. pose proof (SHA1_length (openpgp_key_packet key)) as Hs.
  rewrite wr_ok, bind_Ok by (rewrite ?zlen_malloc_block; unfold SHA_DIGEST_LENGTH in *; lia).
  change (Z.to_nat 0) with 0%nat. rewrite take_0. cbn [app].
  rewrite drop_ge, app_nil_r by (unfold malloc_block; rewrite length_fmap, length_seq;
    unfold zlen, SHA_DIGEST_LENGTH in *; lia).
  rewrite to_hex_ok, bind_Ok by (unfold ECRYPTFS_SIG_SIZE, SHA_DIGEST_LENGTH in *; lia).
  change (Z.to_nat ECRYPTFS_SIG_SIZE) with 8%nat. change (2 * 8 + 1)%nat with 17%nat.
  fold (rsa_sig_hex key).
  rewrite (wr_app3 (rsa_sig_hex key) [0] (drop 17 sig)); [done| |done].
  unfold zlen. rewrite length_rsa_sig_hex. done.
Qed.
End Lemmas.
End Signature.

(** ** Tokens of modules in the keyring *)
Section Tokens.
Context `{Heap, Sys}.

(** The token of a module key: its alias, its signature and its blob. *)
Definition module_token (alias sig blob : bytes) : ecryptfs_auth_tok :=
  private_key_token (strncpy alias (Z.to_nat ECRYPTFS_MAX_KEY_MOD_NAME_BYTES) ++ [0]) (sig ++ [0])
    (blob ++ zeros data_room) ECRYPTFS_MAX_KEY_MOD_NAME_BYTES (zlen blob).

(** Adding a token that is not there yet. *)
Definition ensure_module_token (kr : gmap (list Z) ecryptfs_auth_tok) (sig : cstring)
    (tok : ecryptfs_auth_tok) : Z * gmap (list Z) ecryptfs_auth_tok :=
  match kr !! sig with Some _ => (1, kr) | None => (0, <[sig := tok]> kr) end.

Lemma ensure_module_token_lookup kr sig tok :
  (kr !! sig = None -> (ensure_module_token kr sig tok).2 !! sig = Some tok) /\
  (forall sig', sig' <> sig \/ is_Some (kr !! sig') ->
   (ensure_module_token kr sig tok).2 !! sig' = kr !! sig').
Proof.
  unfold ensure_module_token. destruct (kr !! sig) eqn:Hkr; cbn [snd]; [done|].
  rewrite lookup_insert_eq. split; [done|]. intros sig' [Hne|[t Ht]]; (rewrite lookup_insert_ne; [done|]); congruence.
Qed.

Lemma add_module_key_ok be kr sigbuf m alias blob sig f :
  heap_never_fails -> sys_works -> zlen sigbuf = 17 ->
  km_alias m = Some alias -> km_blob m = Some blob -> km_blob_size m = zlen blob ->
  op_get_key_data (km_ops m) = Some ecryptfs_dummy_get_key_data ->
  op_get_key_sig (km_ops m) = Some f ->
  f (blob ++ zeros data_room) = (0, sig ++ [0]) -> is_cstring sig -> zlen sig = 16 ->
  ecryptfs_add_key_module_key_to_keyring be kr sigbuf m =
  let '(rc, kr') := ensure_module_token kr sig (module_token alias sig blob) in
  Ok (Some (rc, sig ++ [0], kr')).
Proof.
  intros Hh Hs Hbuf Ha Hb Hsize Hd Hf Hsig Hc Hl. unfold ecryptfs_add_key_module_key_to_keyring.
  rewrite Hb, Hsize. cbn [mret outcome_ret obind]. cbn [Z.eqb negb]. rewrite Hh. cbn [negb].
  assert (ecryptfs_generate_key_payload be 0 m sigbuf (zlen blob) =
    Ok (PayloadReturn 0 (sig ++ [0]) (module_token alias sig blob))) as Hp.
  { unfold ecryptfs_generate_key_payload. rewrite Hb, Hsize, Ha.
    pose proof (zlen_nonneg blob). unfold zeros.
    replace (Z.to_nat (data_room + zlen blob)) with (length blob + Z.to_nat data_room)%nat
      by (unfold zlen, data_room; lia).
    rewrite replicate_add.
    pose proof (rd_prefix blob [] (zlen blob) eq_refl) as Hrd. rewrite app_nil_r in Hrd.
    rewrite Hrd, bind_Ok.
    pose proof (wr_app3 [] (replicate (length blob) 0) (replicate (Z.to_nat data_room) 0) 0 blob eq_refl) as Hw.
    rewrite !app_nil_l in Hw. rewrite Hw by (by rewrite zlen_replicate). rewrite bind_Ok.
    cbn [obind mret outcome_ret Z.eqb negb]. rewrite Z.eqb_refl. cbn [negb].
    unfold payload_sig. rewrite Hd. cbn [call mret outcome_ret obind].
    change (ecryptfs_dummy_get_key_data false _) with (0, 0, @nil Z). cbn [Z.eqb negb].
    unfold call_get_key_sig. rewrite Hf. cbn [call mret outcome_ret obind].
    fold (zeros data_room). rewrite Hsig.
    rewrite wr_ok by (rewrite ?zlen_app; change (zlen [0]) with 1; lia).
    change (Z.to_nat 0) with 0%nat. rewrite take_0. cbn [app].
    rewrite drop_ge, app_nil_r by (rewrite length_app; unfold zlen in *; cbn [length]; lia).
    rewrite !bind_Ok. cbn [Z.eqb negb].
    rewrite rd_prefix, bind_Ok by (unfold ECRYPTFS_SIG_SIZE_HEX, ECRYPTFS_SIG_SIZE; lia). done. }
  rewrite Hp, bind_Ok. cbn [Z.eqb negb].
  rewrite (cstr_of_app sig []), bind_Ok by (by apply is_char_nonzero).
  unfold ensure_module_token. destruct (kr !! sig); [done|].
  destruct Hs as (_ & _ & _ & _ & Hadd & _). by rewrite Hadd.
Qed.
End Tokens.
