(* ===== verification/Openssl.v ===== *)
(** * The OpenSSL key module: [src/key_mod/ecryptfs_key_mod_openssl.c]

    A key of this module is the path of a PEM file and the passphrase that opens
    it, packed into the blob of a token.  The module signs, encrypts and decrypts
    with the RSA key in the file, and has graphs that ask for file and passphrase
    on a mount and when a key is generated.  Allocations of this file are asked
    for by line number plus 50000. *)

From S2P Require Import Prelude CLib Ecryptfs PassphraseSig KeyMod KeyPayload KeyManagement CmdLnParser DecisionGraph PassphraseGraph ModuleMgr Ssl.

Definition ENOSYS : Z := 38.

(** [struct openssl_data]. *)
Record openssl_data := OpensslData {
  od_path : option cstring;
  od_passphrase : option cstring
}.

(** ** The blob *)

(** Where path and passphrase start in the blob; the length of the passphrase is
    read and not used. *)
Definition ecryptfs_openssl_deserialize (blob : bytes) : outcome (Z * Z) :=
  b0 ← rd1 blob 0;
  b1 ← rd1 blob 1;
  let path_length := b0 mod 256 + Z.shiftl b1 8 in
  let i := 2 + path_length in
  _ ← rd1 blob i;
  _ ← rd1 blob (i + 1);
  mret (2, 2 + path_length + 2).

(** The string at an offset of a block. *)
Definition string_at (blob : bytes) (off : Z) : outcome cstring := cstr_of (drop (Z.to_nat off) blob).

(** The code, [*blob_size] and the blob. *)
Definition ecryptfs_openssl_serialize (blob : option bytes) (d : openssl_data)
    : outcome (Z * Z * option bytes) :=
  match od_path d, od_passphrase d with
  | Some path, Some passphrase =>
      let path_length := zlen path + 1 in
      let passphrase_length := zlen passphrase + 1 in
      let blob_size := 2 + path_length + 2 + passphrase_length in
      match blob with
      | None => mret (0, blob_size, None)
      | Some blob =>
          blob ← wr blob 0 [u8 (path_length mod 256); u8 (Z.shiftr path_length 8)];
          blob ← wr blob 2 (path ++ [0]);
          let i := 2 + path_length in
          blob ← wr blob i [u8 (passphrase_length mod 256); u8 (Z.shiftr passphrase_length 8)];
          blob ← wr blob (i + 2) (passphrase ++ [0]);
          mret (0, blob_size, Some blob)
      end
  | _, _ => mret (- EINVAL, 0, blob)
  end.

(** ** Directories *)

(** [dirname] of the GNU C library. *)
Fixpoint skip_slashes (s : cstring) : cstring :=
  match s with c :: s' => if c =? 47 then skip_slashes s' else s | [] => [] end.
Definition rstrip_slashes (s : cstring) : cstring := reverse (skip_slashes (reverse s)).
Definition dirname (path : cstring) : cstring :=
  match rstrip_slashes path with
  | [] => match length path with O => lit "." | 2%nat => lit "//" | _ => lit "/" end
  | body =>
      match strchr (reverse body) 47 with
      | None => lit "."
      | Some k =>
          let slash := (length body - S k)%nat in
          match rstrip_slashes (take slash body) with
          | [] => if bool_decide (slash = 1%nat) then lit "//" else lit "/"
          | parent => parent
          end
      end
  end.

(** ** Keys *)
Section Keys.
Context `{Heap, Ssl}.

(** The directories that [mkdir] is called for, in order; [mkdir dir] is the
    error of that call.  [None] when the fuel runs out. *)
Fixpoint ecryptfs_openssl_mkdir_recursive (mkdir : cstring -> option Z) (fuel : nat) (dir : cstring)
    : option (Z * list cstring) :=
  match fuel with
  | O => None
  | S fuel' =>
      if streq dir (lit ".") || streq dir (lit "/") then Some (0, [])
      else if negb (alloc_ok 50207 fuel') then Some (- ENOMEM, [])
      else match ecryptfs_openssl_mkdir_recursive mkdir fuel' (dirname dir) with
      | None => None
      | Some (rc, made) =>
          if negb (rc =? 0) then Some (rc, made)
          else match mkdir dir with
          | Some errno => Some (if errno =? EEXIST then 0 else - errno, made ++ [dir])
          | None => Some (0, made ++ [dir])
          end
      end
  end.

(** What generating a key leaves: the code, the directories tried, and the file
    with the key and its passphrase. *)
Definition key_written : Type := Z * list cstring * option (cstring * RSA * cstring).

(** The code of making the directories is the result when the rest works. *)
Definition ecryptfs_openssl_write_key_to_file (mkdir : cstring -> option Z) (fuel : nat)
    (queue : err_queue) (rsa : RSA) (filename passphrase : cstring) : option key_written :=
  if negb (alloc_ok 50237 0) then Some (- ENOMEM, [], None)
  else match ecryptfs_openssl_mkdir_recursive mkdir fuel (dirname filename) with
  | None => None
  | Some (rc, made) =>
      if negb (BIO_new queue).1 then Some (- EIO, made, None)
      else if negb (BIO_write_filename filename) then Some (- EIO, made, None)
      else if negb (PEM_write_bio_RSAPrivateKey rsa passphrase) then Some (- EIO, made, None)
      else Some (rc, made, Some (filename, rsa, passphrase))
  end.

Definition ecryptfs_openssl_generate_key (mkdir : cstring -> option Z) (fuel : nat)
    (queue : err_queue) (d : openssl_data) : outcome (option key_written) :=
  match RSA_generate_key with
  | None => mret (Some (- ENOMEM, [], None))
  | Some rsa =>
      match od_path d, od_passphrase d with
      | Some path, Some passphrase =>
          mret (match ecryptfs_openssl_write_key_to_file mkdir fuel queue rsa path passphrase with
                | None => None
                | Some (rc, made, written) => Some (if rc =? 0 then 0 else - EIO, made, written)
                end)
      | _, _ => UB NullDeref
      end
  end.

(** The code or the key.  The error queue is emptied on the way out, whatever
    happened. *)
Definition ecryptfs_openssl_read_key (k : nat) (queue : err_queue) (blob : bytes)
    : outcome ((Z + RSA) * err_queue) :=
  let out (r : Z + RSA) (queue : err_queue) := mret (r, ERR_remove_state queue) in
  if negb (alloc_ok 50286 k) then out (inl (- ENOMEM)) queue
  else
    '(path, passphrase) ← ecryptfs_openssl_deserialize blob;
    let '(ok, queue) := BIO_new queue in
    if negb ok then out (inl (- EIO)) queue
    else
      path ← string_at blob path;
      let '(ok, queue) := BIO_read_filename path queue in
      if negb ok then out (inl (- EIO)) queue
      else
        passphrase ← string_at blob passphrase;
        let '(rsa, queue) := PEM_read_bio_RSAPrivateKey path passphrase queue in
        match rsa with
        | None => out (inl (- ENOKEY)) queue
        | Some rsa => out (inr rsa) queue
        end.

(** The code and the signature buffer. *)
Definition ecryptfs_openssl_generate_signature (k : nat) (sig : bytes) (key : RSA)
    : outcome (Z * bytes) :=
  if negb (alloc_ok 50150 k) then mret (- ENOMEM, sig)
  else
    let hash := malloc_block heap_junk SHA_DIGEST_LENGTH in
    let nbits := BN_num_bits (rsa_n key) in
    let nbytes := if negb (nbits mod 8 =? 0) then nbits / 8 + 1 else nbits / 8 in
    let ebits := BN_num_bits (rsa_e key) in
    let ebytes := if negb (ebits mod 8 =? 0) then ebits / 8 + 1 else ebits / 8 in
    let len := 10 + nbytes + ebytes in
    if negb (alloc_ok 50165 k) then mret (- ENOMEM, sig)
    else
      let data := malloc_block heap_junk (3 + len) in
      data ← wr data 0 [0x99; u8 (Z.shiftr len 8); u8 len; 4; 0; 0; 0; 0; 2;
                        u8 (Z.shiftr nbits 8); u8 nbits];
      data ← wr data 11 (BN_bn2bin (rsa_n key));
      let i := 11 + nbytes in
      data ← wr data i [u8 (Z.shiftr ebits 8); u8 ebits];
      data ← wr data (i + 2) (BN_bn2bin (rsa_e key));
      input ← rd data 0 (len + 3);
      hash ← wr hash 0 (SHA1 input);
      sig ← to_hex sig hash ECRYPTFS_SIG_SIZE;
      sig ← wr sig ECRYPTFS_SIG_SIZE_HEX [0];
      mret (0, sig).

(** The code and the signature buffer. *)
Definition ecryptfs_openssl_get_key_sig (queue : err_queue) (sig blob : bytes)
    : outcome (Z * bytes) :=
  '(r, _) ← ecryptfs_openssl_read_key 0 queue blob;
  match r with
  | inl rc => mret (rc, sig)
  | inr rsa => ecryptfs_openssl_generate_signature 0 sig rsa
  end.

(** [-(int)ERR_get_error()]. *)
Definition queued_error (queue : err_queue) : Z := - i32 (ERR_get_error queue).

(** The code, [*to_size] and what is written to [to], which may be null
    ([to = false]); [from_size] is the length of [from]. *)
Definition ecryptfs_openssl_encrypt (queue : err_queue) (to : bool) (from blob : bytes)
    (blob_type : Z) : outcome (Z * Z * bytes) :=
  '(r, queue) ← ecryptfs_openssl_read_key 0 queue blob;
  match r with
  | inl _ => mret (queued_error queue, 0, [])
  | inr rsa =>
      if to then
        match RSA_public_encrypt rsa RSA_PKCS1_OAEP_PADDING from queue with
        | (None, queue) => mret (queued_error queue, RSA_size rsa, [])
        | (Some data, _) => mret (0, zlen data, data)
        end
      else mret (0, RSA_size rsa, [])
  end.

Definition ecryptfs_openssl_decrypt (queue : err_queue) (to : bool) (from blob : bytes)
    (blob_type : Z) : outcome (Z * Z * bytes) :=
  '(r, queue) ← ecryptfs_openssl_read_key 0 queue blob;
  match r with
  | inl _ => mret (queued_error queue, 0, [])
  | inr rsa =>
      if to then
        match RSA_private_decrypt rsa RSA_PKCS1_OAEP_PADDING from queue with
        | (None, queue) => mret (queued_error queue, RSA_size rsa, [])
        | (Some data, _) => mret (0, zlen data, data)
        end
      else mret (0, RSA_size rsa, [])
  end.

(** [init_from_param_vals] is declared in the file and defined nowhere: it is a
    parameter here. *)
Definition ecryptfs_openssl_get_blob
    (init_from_param_vals : list (option cstring) -> Z * openssl_data)
    (blob : option bytes) (param_vals : list (option cstring)) : outcome (Z * Z * option bytes) :=
  let '(rc, d) := init_from_param_vals param_vals in
  if negb (rc =? 0) then mret (rc, 0, blob) else ecryptfs_openssl_serialize blob d.
End Keys.

(** ** The graphs *)

(** The addresses of the nodes. *)
Definition SSL_KEY_SOURCE_TOK : Z := 200.
Definition SSL_KEY_FILE_TOK : Z := 201.
Definition SSL_PASSPHRASE_METHOD_TOK : Z := 202.
Definition SSL_USER_PROVIDED_PASSWD_TOK : Z := 203.
Definition SSL_FILE_PASSWD_TOK : Z := 204.
Definition SSL_FD_PASSWD_TOK : Z := 205.
Definition GEN_KEY_KEYFILE_TOK : Z := 206.
Definition GEN_KEY_PASSPHRASE_TOK : Z := 207.

(** The functions of the module, by their number among those of loaded
    modules. *)
Definition TF_SSL_KEYFILE : Z := 20.
Definition TF_SSL_PASSWD : Z := 21.
Definition TF_SSL_PASSWD_FILE : Z := 22.
Definition TF_SSL_PASSWD_FD : Z := 23.
Definition TF_OPENSSL_ENTER : Z := 24.
Definition TF_GEN_KEY_KEYFILE : Z := 25.
Definition TF_GEN_KEY_PASSPHRASE : Z := 26.

Definition ssl_key_source_node : param_node :=
  ParamNode [lit "openssl_keysource"; lit "keysource"] (Some (lit "Key source")) None
    (Some (lit "keyfile")) None ECRYPTFS_PARAM_FLAG_NO_VALUE
    [TransNode (Some (lit "default")) (Some (lit "OpenSSL Key File")) (Some SSL_KEY_FILE_TOK) None].
Definition ssl_key_file_node : param_node :=
  ParamNode [lit "openssl_keyfile"; lit "keyfile"] (Some (lit "PEM key file")) None None None
    ECRYPTFS_PARAM_FLAG_ECHO_INPUT
    [TransNode (Some (lit "default")) (Some (lit "Passphrase Method"))
       (Some SSL_PASSPHRASE_METHOD_TOK) (Some (TfModule TF_SSL_KEYFILE))].
Definition ssl_passphrase_method_node : param_node :=
  ParamNode [lit "openssl_passwd_specification_method"; lit "passwd_specification_method"]
    (Some (lit "Method of providing the passphrase")) None None (Some (lit "openssl_passwd"))
    (Z.lor (Z.lor DISPLAY_TRANSITION_NODE_VALS ECRYPTFS_DISPLAY_PRETTY_VALS)
       (Z.lor ECRYPTFS_PARAM_FLAG_ECHO_INPUT ECRYPTFS_ALLOW_IMPLICIT_TRANSITION))
    [TransNode (Some (lit "openssl_passwd")) (Some (lit "openssl_passwd: Enter on Console"))
       (Some SSL_USER_PROVIDED_PASSWD_TOK) None;
     TransNode (Some (lit "openssl_passwd_file"))
       (Some (lit "openssl_passwd_file: File Containing Passphrase")) (Some SSL_FILE_PASSWD_TOK) None;
     TransNode (Some (lit "openssl_passwd_fd"))
       (Some (lit "openssl_passwd_fd: File Descriptor for File Containing Passphrase"))
       (Some SSL_FD_PASSWD_TOK) None].
(** The last three nodes call their function for any value. *)
Definition ssl_last_node (names : list cstring) (prompt : cstring) (flags tf : Z) : param_node :=
  ParamNode names (Some prompt) None None None flags
    [TransNode None None None (Some (TfModule tf))].
Definition ssl_passwd_node : param_node :=
  ssl_last_node [lit "openssl_passwd"; lit "passwd"] (lit "Passphrase")
    (Z.lor STDIN_REQUIRED ECRYPTFS_PARAM_FLAG_MASK_OUTPUT) TF_SSL_PASSWD.
Definition ssl_file_passwd_node : param_node :=
  ssl_last_node [lit "openssl_passwd_file"; lit "passwd_file"] (lit "Passphrase File")
    (Z.lor (Z.lor STDIN_REQUIRED ECRYPTFS_PARAM_FLAG_ECHO_INPUT) ECRYPTFS_NONEMPTY_VALUE_REQUIRED)
    TF_SSL_PASSWD_FILE.
Definition ssl_fd_passwd_node : param_node :=
  ssl_last_node [lit "openssl_passwd_fd"; lit "passwd_fd"] (lit "Passphrase File Descriptor")
    (Z.lor (Z.lor STDIN_REQUIRED ECRYPTFS_PARAM_FLAG_ECHO_INPUT) ECRYPTFS_NONEMPTY_VALUE_REQUIRED)
    TF_SSL_PASSWD_FD.
Definition gen_key_keyfile_node : param_node :=
  ParamNode [lit "keyfile"] (Some (lit "SSL key file path")) None None None
    ECRYPTFS_PARAM_FLAG_ECHO_INPUT
    [TransNode (Some (lit "default")) (Some []) (Some GEN_KEY_PASSPHRASE_TOK)
       (Some (TfModule TF_GEN_KEY_KEYFILE))].
Definition gen_key_passphrase_node : param_node :=
  ParamNode [lit "passphrase"] (Some (lit "Passphrase")) None None None
    (Z.lor ECRYPTFS_PARAM_FLAG_MASK_OUTPUT VERIFY_VALUE)
    [TransNode None None None (Some (TfModule TF_GEN_KEY_PASSPHRASE))].

Definition ssl_param_nodes : gmap Z param_node :=
  <[SSL_KEY_SOURCE_TOK := ssl_key_source_node]>
  (<[SSL_KEY_FILE_TOK := ssl_key_file_node]>
  (<[SSL_PASSPHRASE_METHOD_TOK := ssl_passphrase_method_node]>
  (<[SSL_USER_PROVIDED_PASSWD_TOK := ssl_passwd_node]>
  (<[SSL_FILE_PASSWD_TOK := ssl_file_passwd_node]>
  (<[SSL_FD_PASSWD_TOK := ssl_fd_passwd_node]> ∅))))).
Definition ecryptfs_openssl_gen_key_param_nodes : gmap Z param_node :=
  <[GEN_KEY_KEYFILE_TOK := gen_key_keyfile_node]>
  (<[GEN_KEY_PASSPHRASE_TOK := gen_key_passphrase_node]> ∅).

Definition openssl_transition : transition_node :=
  TransNode (Some (lit "openssl")) (Some (lit "OpenSSL module")) (Some SSL_KEY_SOURCE_TOK)
    (Some (TfModule TF_OPENSSL_ENTER)).
Definition openssl_gen_key_transition : transition_node :=
  TransNode (Some (lit "openssl")) (Some (lit "OpenSSL module")) (Some GEN_KEY_KEYFILE_TOK)
    (Some (TfModule TF_OPENSSL_ENTER)).

Definition openssl_transition_id : trans_node_id := 20.
Definition openssl_gen_key_transition_id : trans_node_id := 21.
Definition ecryptfs_openssl_get_param_subgraph_trans_node (version : Z) : Z * option trans_node_id :=
  if negb (has_flag version ECRYPTFS_VERSIONING_PUBKEY) then (-1, None)
  else (0, Some openssl_transition_id).
Definition ecryptfs_openssl_get_gen_key_param_subgraph_trans_node (version : Z)
    : Z * option trans_node_id :=
  if negb (has_flag version ECRYPTFS_VERSIONING_PUBKEY) then (-1, None)
  else (0, Some openssl_gen_key_transition_id).

(** ** The functions of the graphs *)
Section Transitions.
Context `{Heap, Nss, Sys, Ssl} (big_endian : bool) (queue : err_queue).
Context (open_file : nat -> cstring -> Z + descriptor) (open_fd : nat -> Z -> descriptor)
        (mkdir : cstring -> option Z) (dir_fuel : nat).

(** [*foo] as [struct ecryptfs_subgraph_ctx]. *)
Definition ssl_ctx (s : gstate) : outcome (nat * openssl_data) :=
  match g_foo s with
  | FooNull => UB NullDeref
  | FooFreed => UB UseAfterFree
  | FooModule i [path; passphrase] => mret (i, OpensslData path passphrase)
  | _ => UB TypeConfusion
  end.
Definition set_ssl_ctx (i : nat) (d : openssl_data) : gstate -> gstate :=
  set_foo (FooModule i [od_path d; od_passphrase d]).

(** [key_mod->blob] and [key_mod->blob_size] of module [i]. *)
Definition set_blob (blob : option bytes) (blob_size : Z) (m : ecryptfs_key_mod) : ecryptfs_key_mod :=
  KeyModEntry (km_lib_handle m) (km_alias m) (km_lib_path m) (km_ops m) (km_param_vals m) blob
    blob_size.
Definition set_mod_blob (i : nat) (blob : option bytes) (blob_size : Z) (s : gstate) : gstate :=
  set_mods (alter (set_blob blob blob_size) i (g_mods s)) s.

Definition tf_ssl_keyfile (node : Z) (s : gstate) : outcome (Z * gstate) :=
  '(i, d) ← ssl_ctx s;
  p ← get_node s node;
  if negb (alloc_ok 50501 (g_steps s)) then mret (- ENOMEM, s)
  else mret (DEFAULT_TOK,
    upd_node node (set_val None)
      (set_ssl_ctx i (OpensslData (Some (show_str (pn_val p))) (od_passphrase d)) s)).

(** The process ends when the two passes of the serialization disagree. *)
Definition ecryptfs_openssl_process_key (i : nat) (d : openssl_data) (s : gstate)
    : running (Z * gstate) :=
  '(rc, blob_size, _) ⇐ stays (ecryptfs_openssl_serialize None d);
  if negb (rc =? 0) then go (MOUNT_ERROR, s)
  else if blob_size =? 0 then go (MOUNT_ERROR, s)
  else match g_mods s !! i with
  | None => UB NullDeref
  | Some key_mod =>
      if negb (alloc_ok 50533 (g_steps s))
      then go (- ENOMEM, set_mod_blob i None (km_blob_size key_mod) s)
      else
        '(rc, size, blob) ⇐ stays (ecryptfs_openssl_serialize
                                     (Some (malloc_block heap_junk blob_size)) d);
        let key_mod := set_blob blob size key_mod in
        let s := set_mod_blob i blob size s in
        if negb (rc =? 0) then go (MOUNT_ERROR, s)
        else if negb (size =? blob_size) then exited
        else
          r ⇐ ecryptfs_add_key_module_key_to_keyring big_endian (g_keyring s)
                (malloc_block heap_junk (ECRYPTFS_SIG_SIZE_HEX + 1)) key_mod;
          let '(rc, sig, kr) := r in
          let s := set_keyring kr s in
          if rc <? 0 then go (rc, s)
          else if negb (alloc_ok 50557 (g_steps s)) then go (- ENOMEM, s)
          else
            sig ⇐ stays (cstr_of sig);
            go (stack_push (Some (lit "ecryptfs_sig=" ++ sig)) s)
  end.

(** 41 bytes are for the padding, three for what the kernel adds. *)
Definition limit_key_size (i : nat) (s : gstate) : outcome (Z * gstate) :=
  match g_mods s !! i ≫= km_blob with
  | None => UB NullDeref
  | Some blob =>
      '(r, _) ← ecryptfs_openssl_read_key (S (g_steps s)) queue blob;
      match r with
      | inl rc => mret (rc, s)
      | inr rsa =>
          if negb (alloc_ok 50578 (g_steps s)) then mret (- ENOMEM, s)
          else mret (stack_push (Some (lit "max_key_bytes=" ++ show_int (RSA_size rsa - 41 - 3))) s)
      end
  end.

(** The end of the two functions that have a passphrase. *)
Definition finish_key (i : nat) (d : openssl_data) (s : gstate) : running (Z * gstate) :=
  r ⇐ ecryptfs_openssl_process_key i d s;
  let '(rc, s) := r in
  if negb (rc =? 0) then go (rc, s)
  else
    '(_, s) ⇐ stays (limit_key_size i s);
    go (DEFAULT_TOK, set_foo FooNull s).

Definition tf_ssl_passwd (node : Z) (s : gstate) : running (Z * gstate) :=
  '(i, d) ⇐ stays (ssl_ctx s);
  p ⇐ stays (get_node s node);
  if negb (alloc_ok 50604 (g_steps s)) then go (- ENOMEM, s)
  else
    let d := OpensslData (od_path d) (Some (show_str (pn_val p))) in
    finish_key i d (upd_node node (set_val None) (set_ssl_ctx i d s)).

(** The first pair named [openssl_passwd]. *)
Fixpoint find_openssl_passwd (l : list ecryptfs_name_val_pair) : outcome (option (option cstring)) :=
  match l with
  | [] => mret None
  | walker :: l' =>
      name ← deref_str (nv_name walker);
      if streq name (lit "openssl_passwd") then mret (Some (nv_value walker))
      else find_openssl_passwd l'
  end.

(** The descriptor that is read; [None] when it is not open. *)
Definition passwd_file_fd (p : param_node) (s : gstate) : outcome (option descriptor) :=
  name ← deref_str (head (pn_mnt_opt_names p));
  if streq name (lit "openssl_passwd_file") then
    mret (match pn_val p with
          | None => None
          | Some v => match open_file (g_steps s) v with inl _ => None | inr d => Some d end
          end)
  else if streq name (lit "openssl_passwd_fd") then
    v ← deref_str (pn_val p);
    let fd := i32 (strtol0 v) in
    mret (if fd =? -1 then None else Some (open_fd (g_steps s) fd))
  else mret None.

(** All but the end of the function, which frees the value of the node. *)
Definition passwd_file_body (p : param_node) (s : gstate) : running (Z * gstate) :=
  '(i, d) ⇐ stays (ssl_ctx s);
  fd ⇐ stays (passwd_file_fd p s);
  match fd with
  | None => go (MOUNT_ERROR, s)
  | Some (fstat, read_errno, input) =>
      '(rc, l) ⇐ stays (parse_options_file fstat read_errno input);
      if negb (rc =? 0) then go (rc, s)
      else
        found ⇐ stays (find_openssl_passwd l);
        match found with
        | None => go (MOUNT_ERROR, s)
        | Some v =>
            if negb (alloc_ok 50660 (g_steps s)) then go (- ENOMEM, s)
            else
              let d := OpensslData (od_path d) (Some (show_str v)) in
              finish_key i d (set_ssl_ctx i d s)
        end
  end.

Definition tf_ssl_passwd_file (node : Z) (s : gstate) : running (Z * gstate) :=
  p ⇐ stays (get_node s node);
  '(rc, s) ⇐ passwd_file_body p s;
  go (rc, upd_node node (set_val None) s).

Definition tf_ssl_passwd_fd (node : Z) (s : gstate) : outcome (Z * gstate) := mret (ENOSYS, s).

Definition tf_ecryptfs_openssl_gen_key_param_node_keyfile (node : Z) (s : gstate)
    : outcome (Z * gstate) :=
  '(i, d) ← ssl_ctx s;
  p ← get_node s node;
  if negb (alloc_ok 50709 (g_steps s)) then mret (- ENOMEM, s)
  else mret (DEFAULT_TOK,
             set_ssl_ctx i (OpensslData (Some (show_str (pn_val p))) (od_passphrase d)) s).

(** [None] when the directories are never all made. *)
Definition tf_ecryptfs_openssl_gen_key_param_node_passphrase (node : Z) (s : gstate)
    : outcome (option (Z * gstate * option (cstring * RSA * cstring))) :=
  '(i, d) ← ssl_ctx s;
  p ← get_node s node;
  if negb (alloc_ok 50727 (g_steps s)) then mret (Some (- ENOMEM, s, None))
  else
    let d := OpensslData (od_path d) (Some (show_str (pn_val p))) in
    let s := set_ssl_ctx i d s in
    r ← ecryptfs_openssl_generate_key mkdir dir_fuel queue d;
    mret (match r with
          | None => None
          | Some (rc, _, written) =>
              Some (if rc =? 0 then 0 else MOUNT_ERROR, s, written)
          end).

Definition tf_openssl_enter (node : Z) (s : gstate) : outcome (Z * gstate) :=
  if negb (alloc_ok 50918 (g_steps s)) then mret (- ENOMEM, s)
  else
    p ← get_node s node;
    match g_mods s with
    | [] => mret (1, s)
    | mods =>
        alias ← deref_str (pn_val p);
        key_mod ← ecryptfs_find_key_mod mods alias;
        match key_mod, key_mod_index mods alias with
        | Some _, Some i => mret (0, set_ssl_ctx i (OpensslData None None) s)
        | _, _ => mret (1, s)
        end
    end.

(** The functions of this module, as those of a module loaded at run time. *)
Definition openssl_tf (f node : Z) (s : gstate) : running (Z * gstate) :=
  if f =? TF_SSL_KEYFILE then stays (tf_ssl_keyfile node s)
  else if f =? TF_SSL_PASSWD then tf_ssl_passwd node s
  else if f =? TF_SSL_PASSWD_FILE then tf_ssl_passwd_file node s
  else if f =? TF_SSL_PASSWD_FD then stays (tf_ssl_passwd_fd node s)
  else if f =? TF_OPENSSL_ENTER then stays (tf_openssl_enter node s)
  else if f =? TF_GEN_KEY_KEYFILE then stays (tf_ecryptfs_openssl_gen_key_param_node_keyfile node s)
  else UB NullDeref.
End Transitions.

(** ** The module *)
Section Module.
Context `{Heap, Ssl}.

(** The code, the alias and the nodes of the graphs; [pw_dir] is the home
    directory. *)
Definition ecryptfs_openssl_init (pw_dir : option cstring) (nodes : gmap Z param_node)
    : Z * option cstring * gmap Z param_node :=
  if negb (alloc_ok 50982 0) then (- ENOMEM, None, nodes)
  else
    let alias := Some (lit "openssl") in
    match pw_dir with
    | None => (- EIO, alias, nodes)
    | Some home =>
        let suggestion := Some (home ++ lit "/.ecryptfs/pki/openssl/key.pem") in
        if negb (alloc_ok 50993 0) then (- ENOMEM, alias, nodes)
        else
          let nodes := alter (set_suggested_val suggestion) SSL_KEY_FILE_TOK nodes in
          if negb (alloc_ok 50999 0) then (- ENOMEM, alias, nodes)
          else (0, alias, alter (set_suggested_val suggestion) GEN_KEY_KEYFILE_TOK nodes)
    end.

Definition ecryptfs_openssl_finalize : Z := 0.

(** [ops] are the operations of the module: what they answer is what the
    functions above return, where these do not fault. *)
Record ecryptfs_openssl_ops (queue : err_queue) (ops : ecryptfs_key_mod_ops) : Prop := OpensslOps {
  ssl_get_key_sig : exists f, op_get_key_sig ops = Some f /\
    forall blob rc out, ecryptfs_openssl_get_key_sig queue (zeros 17) blob = Ok (rc, out) ->
      f blob = (rc, if rc =? 0 then out else []);
  ssl_encrypt : exists f, op_encrypt ops = Some f /\
    forall to from blob ty r, ecryptfs_openssl_encrypt queue to from blob ty = Ok r ->
      f to from blob ty = r;
  ssl_decrypt : exists f, op_decrypt ops = Some f /\
    forall to from blob ty r, ecryptfs_openssl_decrypt queue to from blob ty = Ok r ->
      f to from blob ty = r;
  ssl_get_key_data : exists f, op_get_key_data ops = Some f /\ f = ecryptfs_dummy_get_key_data;
  ssl_destroy : op_destroy ops = Some ecryptfs_dummy_destroy
}.
End Module.

(** ** Lemmas *)

(** What the two passes of the serialization write. *)
Definition length_field (n : Z) : bytes := [u8 (n mod 256); u8 (Z.shiftr n 8)].
Definition ssl_blob (path passphrase : cstring) : bytes :=
  length_field (zlen path + 1) ++ (path ++ [0]) ++
  length_field (zlen passphrase + 1) ++ (passphrase ++ [0]).

(** The length of a string survives in its two bytes. *)
Lemma length_field_value n :
  0 <= n < 65536 -> exists b0 b1, length_field n = [b0; b1] /\ b0 mod 256 + Z.shiftl b1 8 = n.
Proof.
  intros Hn. exists (u8 (n mod 256)), (u8 (Z.shiftr n 8)). split; [done|].
  rewrite Z.shiftr_div_pow2, Z.shiftl_mul_pow2 by lia. unfold wrap. change (2 ^ 8) with 256. lia.
Qed.

Lemma zlen_ssl_blob path passphrase :
  zlen (ssl_blob path passphrase) = 2 + (zlen path + 1) + 2 + (zlen passphrase + 1).
Proof. unfold ssl_blob. rewrite !zlen_app. change (zlen (length_field _)) with 2. change (zlen [0]) with 1. lia. Qed.

Lemma string_at_app pre s post :
  Forall (fun c => c <> 0) s -> string_at (pre ++ (s ++ [0]) ++ post) (zlen pre) = Ok s.
Proof.
  intros Hs. unfold string_at, zlen. rewrite Nat2Z.id, drop_app_length, <- app_assoc.
  by apply cstr_of_app.
Qed.

Lemma serialize_ok block path passphrase :
  zlen (ssl_blob path passphrase) = zlen block ->
  ecryptfs_openssl_serialize (Some block) (OpensslData (Some path) (Some passphrase)) =
  Ok (0, zlen block, Some (ssl_blob path passphrase)).
Proof.
  intros Hz. rewrite zlen_ssl_blob in Hz. cbn [ecryptfs_openssl_serialize od_path od_passphrase].
  pose proof (zlen_nonneg path). pose proof (zlen_nonneg passphrase).
  fold (length_field (zlen path + 1)) (length_field (zlen passphrase + 1)).
  set (a := length_field (zlen path + 1)). set (c := length_field (zlen passphrase + 1)).
  assert (zlen a = 2) as Ha by done. assert (zlen c = 2) as Hc by done.
  assert (zlen (path ++ [0]) = zlen path + 1) as Hb by (by rewrite zlen_app).
  assert (zlen (passphrase ++ [0]) = zlen passphrase + 1) as Hd by (by rewrite zlen_app).
  pose proof (wr_after [] block a ltac:(lia)) as Hw. cbn [app] in Hw. change (zlen []) with 0 in Hw.
  rewrite Hw, bind_Ok. clear Hw.
  replace 2 with (zlen a) at 1 by done.
  rewrite wr_after, bind_Ok by (rewrite zlen_drop; unfold zlen in *; lia).
  replace (2 + (zlen path + 1)) with (zlen (a ++ path ++ [0])) by (rewrite (zlen_app a); lia).
  rewrite wr_after, bind_Ok by (rewrite !zlen_drop; unfold zlen in *; lia).
  replace (zlen (a ++ path ++ [0]) + 2) with (zlen ((a ++ path ++ [0]) ++ c)) by (rewrite (zlen_app _ c); lia).
  rewrite wr_after, bind_Ok by (rewrite !zlen_drop; unfold zlen in *; lia).
  rewrite (drop_ge _ (length (passphrase ++ [0]))), app_nil_r
    by (rewrite !length_drop; unfold zlen in *; lia).
  unfold ssl_blob. fold a c. rewrite <- !app_assoc.
  cbn [mret outcome_ret]. do 3 f_equal. rewrite !zlen_app. change (zlen [0]) with 1. lia.
Qed.

Lemma deserialize_ok path passphrase tail :
  zlen path < 65535 ->
  ecryptfs_openssl_deserialize (ssl_blob path passphrase ++ tail) = Ok (2, zlen path + 5).
Proof.
  intros Hp. pose proof (zlen_nonneg path).
  destruct (length_field_value (zlen path + 1)) as (b0 & b1 & Hf & Hv); [lia|].
  set (pre := [b0; b1] ++ path ++ [0]).
  assert (exists c0 c1 rest, ssl_blob path passphrase ++ tail = pre ++ c0 :: c1 :: rest) as (c0 & c1 & rest & ->).
  { do 3 eexists. unfold ssl_blob, pre. rewrite Hf, <- !app_assoc. reflexivity. }
  assert (zlen pre = 2 + (zlen path + 1)) as Hpre by (unfold pre; rewrite !zlen_app; done).
  unfold ecryptfs_openssl_deserialize.
  assert (rd1 (pre ++ c0 :: c1 :: rest) 0 = Ok b0) as -> by done. rewrite bind_Ok.
  assert (rd1 (pre ++ c0 :: c1 :: rest) 1 = Ok b1) as -> by done. rewrite bind_Ok, Hv.
  rewrite rd1_app, bind_Ok by done.
  replace (pre ++ c0 :: c1 :: rest) with ((pre ++ [c0]) ++ c1 :: rest) by (by rewrite <- app_assoc).
  rewrite rd1_app, bind_Ok by (rewrite zlen_app; change (zlen [c0]) with 1; lia).
  cbn [mret outcome_ret]. do 2 f_equal. lia.
Qed.

Lemma string_at_path path passphrase tail :
  is_cstring path -> string_at (ssl_blob path passphrase ++ tail) 2 = Ok path.
Proof.
  intros Hp. unfold ssl_blob. rewrite <- !(app_assoc (length_field _)), <- app_assoc.
  apply (string_at_app (length_field (zlen path + 1))). by apply is_char_nonzero.
Qed.

Lemma string_at_passphrase path passphrase tail :
  is_cstring passphrase -> string_at (ssl_blob path passphrase ++ tail) (zlen path + 5) = Ok passphrase.
Proof.
  intros Hp. unfold ssl_blob.
  replace ((length_field (zlen path + 1) ++ (path ++ [0]) ++ length_field (zlen passphrase + 1) ++
            passphrase ++ [0]) ++ tail)
    with ((length_field (zlen path + 1) ++ (path ++ [0]) ++ length_field (zlen passphrase + 1)) ++
          (passphrase ++ [0]) ++ tail) by (by rewrite <- !app_assoc).
  replace (zlen path + 5) with (zlen (length_field (zlen path + 1) ++ (path ++ [0]) ++ length_field (zlen passphrase + 1))).
  - apply string_at_app. by apply is_char_nonzero.
  - rewrite !zlen_app. change (zlen (length_field _)) with 2. change (zlen [0]) with 1. lia.
Qed.

(** A key file that opens with its passphrase. *)
Definition key_opens `{Ssl} (path passphrase : cstring) (rsa : RSA) : Prop :=
  (forall q, (BIO_new q).1 = true) /\
  (forall q, (BIO_read_filename path q).1 = true) /\
  (forall q, (PEM_read_bio_RSAPrivateKey path passphrase q).1 = Some rsa).

(** The strings fit the fields of the blob. *)
Definition ssl_strings (path passphrase : cstring) : Prop :=
  is_cstring path /\ is_cstring passphrase /\ zlen path < 65535 /\ zlen passphrase < 65535.

Section Lemmas.
Context `{Heap, Ssl}.

Lemma read_key_ok k q path passphrase tail rsa :
  heap_never_fails -> ssl_strings path passphrase -> key_opens path passphrase rsa ->
  exists q', ecryptfs_openssl_read_key k q (ssl_blob path passphrase ++ tail) =
    Ok (inr rsa, ERR_remove_state q').
Proof.
  intros Hh (Hp & Hs & Hl & _) (Hn & Hr & Hpem). unfold ecryptfs_openssl_read_key. rewrite Hh. cbn [negb].
  rewrite deserialize_ok, bind_Ok by done.
  specialize (Hn q). destruct (BIO_new q) as [ok q1]. cbn [fst] in Hn. subst ok. cbn [negb].
  rewrite string_at_path, bind_Ok by done.
  specialize (Hr q1). destruct (BIO_read_filename path q1) as [ok q2]. cbn [fst] in Hr. subst ok. cbn [negb].
  rewrite string_at_passphrase, bind_Ok by done.
  specialize (Hpem q2). destruct (PEM_read_bio_RSAPrivateKey path passphrase q2) as [r q3].
  cbn [fst] in Hpem. subst r. by exists q3.
Qed.

(** Whatever happens, the queue is empty afterwards. *)
Lemma read_key_empties k q blob r q' :
  ecryptfs_openssl_read_key k q blob = Ok (r, q') -> exists q0, q' = ERR_remove_state q0.
Proof.
  unfold ecryptfs_openssl_read_key. case_goal; [by intros [= _ <-]; eexists|].
  intros ([path pass] & _ & Hr)%bind_ok_inv. destruct (BIO_new q) as [ok q1].
  destruct (negb ok); [injection Hr as _ <-; by eexists|].
  apply bind_ok_inv in Hr as (p & _ & Hr). destruct (BIO_read_filename p q1) as [ok2 q2].
  destruct (negb ok2); [injection Hr as _ <-; by eexists|].
  apply bind_ok_inv in Hr as (w & _ & Hr). destruct (PEM_read_bio_RSAPrivateKey p w q2) as [rsa q3].
  destruct rsa; injection Hr as _ <-; by eexists.
Qed.

Lemma generate_signature_ok `{!SslLaws} k sig key :
  heap_never_fails -> 17 <= zlen sig ->
  ecryptfs_openssl_generate_signature k sig key = Ok (0, rsa_sig_hex key ++ 0 :: drop 17 sig).
Proof.
  intros Hh Hsig. unfold ecryptfs_openssl_generate_signature. rewrite !Hh. cbn [negb].
  pose proof (zlen_packet key) as Hlen. pose proof (rsa_n_pos key) as Hn. pose proof (rsa_e_pos key) as He.
  rewrite !num_bytes_ceil by (apply num_bits_nonneg; lia).
  pose proof (num_bytes_nonneg (BN_num_bits (rsa_n key)) (num_bits_nonneg (rsa_n key) ltac:(lia))).
  pose proof (num_bytes_nonneg (BN_num_bits (rsa_e key)) (num_bits_nonneg (rsa_e key) ltac:(lia))).
  rewrite collect_packet by (apply zlen_malloc_block; lia).
  rewrite rd_all, bind_Ok by lia. by apply digest_to_sig.
Qed.

Lemma get_key_sig_ok `{!SslLaws} q sig path passphrase tail rsa :
  heap_never_fails -> ssl_strings path passphrase -> key_opens path passphrase rsa ->
  17 <= zlen sig ->
  ecryptfs_openssl_get_key_sig q sig (ssl_blob path passphrase ++ tail) =
  Ok (0, rsa_sig_hex rsa ++ 0 :: drop 17 sig).
Proof.
  intros Hh Hs Hk Hl. unfold ecryptfs_openssl_get_key_sig.
  destruct (read_key_ok 0 q path passphrase tail rsa) as (q' & ->); [done..|]. rewrite bind_Ok.
  by apply generate_signature_ok.
Qed.
End Lemmas.

(** ** Properties of keys *)

(** Packing path and passphrase into a blob and unpacking them again is the
    identity, for strings of up to 65534 characters: both passes agree on the
    size, the blob is filled exactly, and the offsets found are those of the two
    strings. *)
Theorem openssl_blob_roundtrip path passphrase block :
  ssl_strings path passphrase ->
  let d := OpensslData (Some path) (Some passphrase) in
  ecryptfs_openssl_serialize None d = Ok (0, zlen (ssl_blob path passphrase), None) /\
  (zlen block = zlen (ssl_blob path passphrase) ->
   exists blob off_path off_passphrase,
     ecryptfs_openssl_serialize (Some block) d = Ok (0, zlen block, Some blob) /\
     zlen blob = zlen block /\
     ecryptfs_openssl_deserialize blob = Ok (off_path, off_passphrase) /\
     string_at blob off_path = Ok path /\ string_at blob off_passphrase = Ok passphrase).
Proof.
  intros (Hp & Hs & Hl & _) d. split.
  - unfold d. cbn [ecryptfs_openssl_serialize od_path od_passphrase]. by rewrite zlen_ssl_blob.
  - intros Hz. exists (ssl_blob path passphrase), 2, (zlen path + 5).
    pose proof (deserialize_ok path passphrase [] Hl) as H1.
    pose proof (string_at_path path passphrase [] Hp) as H2.
    pose proof (string_at_passphrase path passphrase [] Hs) as H3.
    rewrite app_nil_r in *. split_and!; try done. by apply serialize_ok.
Qed.

Lemma openssl_blob_roundtrip_witness :
  let d := OpensslData (Some (lit "/k.pem")) (Some (lit "secret")) in
  ecryptfs_openssl_serialize None d = Ok (0, zlen (ssl_blob (lit "/k.pem") (lit "secret")), None) /\
  (zlen (zeros 18) = zlen (ssl_blob (lit "/k.pem") (lit "secret")) ->
   exists blob off_path off_passphrase,
     ecryptfs_openssl_serialize (Some (zeros 18)) d = Ok (0, zlen (zeros 18), Some blob) /\
     zlen blob = zlen (zeros 18) /\
     ecryptfs_openssl_deserialize blob = Ok (off_path, off_passphrase) /\
     string_at blob off_path = Ok (lit "/k.pem") /\ string_at blob off_passphrase = Ok (lit "secret")).
Proof.
  apply (openssl_blob_roundtrip (lit "/k.pem") (lit "secret") (zeros 18)).
  apply (bool_decide_unpack _). vm_compute. exact I.
Defined.

(** C23. The signature of a key in a file is the beginning of its OpenPGP fingerprint,
    in hexadecimal: the first eight of the twenty bytes of the digest of the version 4
    public-key packet of modulus and exponent, with the creation time zero.  It
    depends neither on the passphrase nor on what the heap holds. *)
Theorem openssl_sig_is_fingerprint_prefix `{Heap, Ssl, !SslLaws} q sig path passphrase rsa :
  heap_never_fails -> ssl_strings path passphrase -> key_opens path passphrase rsa ->
  17 <= zlen sig ->
  ecryptfs_openssl_get_key_sig q sig (ssl_blob path passphrase) =
  Ok (0, hex_of (take 8 (SHA1 (openpgp_key_packet rsa))) ++ 0 :: drop 17 sig).
Proof.
  intros. pose proof (get_key_sig_ok q sig path passphrase [] rsa) as Hk.
  rewrite app_nil_r in Hk. by apply Hk.
Qed.

Definition toy_key : @RSA toy_ssl := (2 ^ 1023 + 12345, 65537).

Lemma toy_key_opens path : path <> lit "/missing.pem" -> @key_opens toy_ssl path (lit "secret") toy_key.
Proof.
  intros Hp. split_and!; [done| |done]. intros q. cbn. by rewrite bool_decide_eq_false_2.
Qed.

Lemma toy_strings : ssl_strings (lit "/k.pem") (lit "secret").
Proof. apply (bool_decide_unpack _). vm_compute. exact I. Qed.

Lemma openssl_sig_is_fingerprint_prefix_witness :
  @ecryptfs_openssl_get_key_sig plenty toy_ssl [] (zeros 17) (ssl_blob (lit "/k.pem") (lit "secret")) =
  Ok (0, hex_of (take 8 (@SHA1 toy_ssl (@openpgp_key_packet toy_ssl toy_key))) ++ 0 :: drop 17 (zeros 17)).
Proof.
  apply (@openssl_sig_is_fingerprint_prefix plenty toy_ssl toy_ssl_laws [] (zeros 17) (lit "/k.pem") (lit "secret") toy_key).
  - done.
  - exact toy_strings.
  - by apply toy_key_opens.
  - vm_compute. congruence.
Defined.

Section Crypt.
Context `{Heap, Ssl, !SslLaws}.

Lemma encrypt_ok q to m path passphrase tail rsa ty :
  heap_never_fails -> ssl_strings path passphrase -> key_opens path passphrase rsa ->
  exists q', ecryptfs_openssl_encrypt q to m (ssl_blob path passphrase ++ tail) ty =
    Ok (if to then match RSA_public_encrypt rsa RSA_PKCS1_OAEP_PADDING m (ERR_remove_state q') with
                   | (None, q2) => (queued_error q2, RSA_size rsa, [])
                   | (Some c, _) => (0, zlen c, c)
                   end
        else (0, RSA_size rsa, [])).
Proof.
  intros Hh Hs Hk. destruct (read_key_ok 0 q path passphrase tail rsa) as (q' & Hr); [done..|].
  exists q'. unfold ecryptfs_openssl_encrypt. rewrite Hr, bind_Ok. destruct to; [|done].
  by destruct (RSA_public_encrypt rsa RSA_PKCS1_OAEP_PADDING m _) as [[c|] q2].
Qed.

Lemma decrypt_ok q to c path passphrase tail rsa ty :
  heap_never_fails -> ssl_strings path passphrase -> key_opens path passphrase rsa ->
  exists q', ecryptfs_openssl_decrypt q to c (ssl_blob path passphrase ++ tail) ty =
    Ok (if to then match RSA_private_decrypt rsa RSA_PKCS1_OAEP_PADDING c (ERR_remove_state q') with
                   | (None, q2) => (queued_error q2, RSA_size rsa, [])
                   | (Some m, _) => (0, zlen m, m)
                   end
        else (0, RSA_size rsa, [])).
Proof.
  intros Hh Hs Hk. destruct (read_key_ok 0 q path passphrase tail rsa) as (q' & Hr); [done..|].
  exists q'. unfold ecryptfs_openssl_decrypt. rewrite Hr, bind_Ok. destruct to; [|done].
  by destruct (RSA_private_decrypt rsa RSA_PKCS1_OAEP_PADDING c _) as [[m|] q2].
Qed.

(** What was encrypted is as long as the first call said, and decrypts. *)
Lemma crypt_roundtrip q q' to m path passphrase tail tail' rsa ty n c :
  heap_never_fails -> ssl_strings path passphrase -> key_opens path passphrase rsa ->
  ecryptfs_openssl_encrypt q true m (ssl_blob path passphrase ++ tail) ty = Ok (0, n, c) ->
  c <> [] ->
  n = zlen c /\ n = RSA_size rsa /\ zlen m < RSA_size rsa /\
  ecryptfs_openssl_decrypt q' to c (ssl_blob path passphrase ++ tail') ty =
    Ok (if to then (0, zlen m, m) else (0, RSA_size rsa, [])).
Proof.
  intros Hh Hs Hk He Hc. destruct (encrypt_ok q true m path passphrase tail rsa ty) as (q1 & He'); [done..|].
  rewrite He in He'. destruct (RSA_public_encrypt rsa RSA_PKCS1_OAEP_PADDING m _) as [[c'|] q2] eqn:Henc;
    injection He'; intros; subst; [|done].
  split; [done|]. split; [by eapply encrypt_length|]. split; [by eapply encrypt_room|].
  destruct (decrypt_ok q' to c' path passphrase tail' rsa ty) as (q3 & ->); [done..|].
  destruct to; [|done]. destruct (decrypt_encrypt _ _ _ _ _ _ Henc (ERR_remove_state q3)) as (p' & ->).
  done.
Qed.
End Crypt.

(** What the module encrypts it decrypts: if encrypting gives bytes, they
    are as many as the call with a null buffer announced, and decrypting them
    with the same blob gives the message again, also announced to fit. *)
Theorem openssl_decrypts_what_it_encrypts `{Heap, Ssl, !SslLaws} q q' m path passphrase rsa ty n c :
  heap_never_fails -> ssl_strings path passphrase -> key_opens path passphrase rsa ->
  let blob := ssl_blob path passphrase in
  ecryptfs_openssl_encrypt q true m blob ty = Ok (0, n, c) -> c <> [] ->
  ecryptfs_openssl_encrypt q false m blob ty = Ok (0, n, []) /\ zlen c = n /\
  exists room, ecryptfs_openssl_decrypt q' false c blob ty = Ok (0, room, []) /\ zlen m < room /\
    ecryptfs_openssl_decrypt q' true c blob ty = Ok (0, zlen m, m).
Proof.
  intros Hh Hs Hk blob He Hc. unfold blob in *. rewrite <- (app_nil_r (ssl_blob path passphrase)) in *.
  destruct (crypt_roundtrip q q' false m path passphrase [] [] rsa ty n c) as (Hn & Hr & Hm & Hd); [done..|].
  destruct (crypt_roundtrip q q' true m path passphrase [] [] rsa ty n c) as (_ & _ & _ & Hd'); [done..|].
  destruct (encrypt_ok q false m path passphrase [] rsa ty) as (q1 & He'); [done..|].
  split; [by rewrite He', Hr|]. split; [done|]. by exists (RSA_size rsa).
Qed.

Lemma openssl_decrypts_what_it_encrypts_witness :
  let blob := ssl_blob (lit "/k.pem") (lit "secret") in
  let c := 4 :: 3 :: [7; 8; 9] ++ zeros 123 in
  @ecryptfs_openssl_encrypt plenty toy_ssl [] false [7; 8; 9] blob 0 = Ok (0, 128, []) /\
  zlen c = 128 /\
  exists room, @ecryptfs_openssl_decrypt plenty toy_ssl [] false c blob 0 = Ok (0, room, []) /\ 3 < room /\
    @ecryptfs_openssl_decrypt plenty toy_ssl [] true c blob 0 = Ok (0, 3, [7; 8; 9]).
Proof.
  apply (@openssl_decrypts_what_it_encrypts plenty toy_ssl toy_ssl_laws [] [] [7; 8; 9]
    (lit "/k.pem") (lit "secret") toy_key 0 128 (4 :: 3 :: [7; 8; 9] ++ zeros 123)).
  - done.
  - exact toy_strings.
  - by apply toy_key_opens.
  - vm_compute. reflexivity.
  - done.
Defined.

(** A key that cannot be read. *)
Definition key_unreadable `{Ssl} (path passphrase : cstring) : Prop :=
  (forall q, (BIO_new q).1 = false) \/
  (forall q, (BIO_read_filename path q).1 = false) \/
  (forall q, (PEM_read_bio_RSAPrivateKey path passphrase q).1 = None).

Lemma read_key_unreadable `{Heap, Ssl} k q path passphrase tail :
  heap_never_fails -> ssl_strings path passphrase -> key_unreadable path passphrase ->
  exists rc q', ecryptfs_openssl_read_key k q (ssl_blob path passphrase ++ tail) =
    Ok (inl rc, ERR_remove_state q') /\ rc < 0.
Proof.
  intros Hh (Hp & Hs & Hl & _) Hbad. unfold ecryptfs_openssl_read_key. rewrite Hh. cbn [negb].
  rewrite deserialize_ok, bind_Ok by done. destruct (BIO_new q) as [[] q1] eqn:Hq1; cbn [negb];
    [|by eexists _, _].
  rewrite string_at_path, bind_Ok by done. destruct (BIO_read_filename path q1) as [[] q2] eqn:Hq2; cbn [negb];
    [|by eexists _, _].
  rewrite string_at_passphrase, bind_Ok by done.
  destruct (PEM_read_bio_RSAPrivateKey path passphrase q2) as [[r|] q3] eqn:Hq3; [|by eexists _, _].
  exfalso. destruct Hbad as [Hb|[Hb|Hb]].
  - by specialize (Hb q); rewrite Hq1 in Hb.
  - by specialize (Hb q1); rewrite Hq2 in Hb.
  - by specialize (Hb q2); rewrite Hq3 in Hb.
Qed.

(** C31. When the key cannot be read - no file, or the wrong passphrase - the
    operations report success and no bytes: the code of the failure is replaced by
    one from the error queue, which reading the key has emptied. *)
Theorem openssl_unreadable_key_reports_success `{Heap, Ssl, !SslLaws} q to text path passphrase ty :
  heap_never_fails -> ssl_strings path passphrase -> key_unreadable path passphrase ->
  ecryptfs_openssl_encrypt q to text (ssl_blob path passphrase) ty = Ok (0, 0, []) /\
  ecryptfs_openssl_decrypt q to text (ssl_blob path passphrase) ty = Ok (0, 0, []) /\
  exists rc, ecryptfs_openssl_get_key_sig q [] (ssl_blob path passphrase) = Ok (rc, []) /\ rc < 0.
Proof.
  intros Hh Hs Hbad.
  destruct (read_key_unreadable 0 q path passphrase [] Hh Hs Hbad) as (rc & q' & Hr & Hrc).
  rewrite app_nil_r in Hr. unfold ecryptfs_openssl_encrypt, ecryptfs_openssl_decrypt, ecryptfs_openssl_get_key_sig.
  rewrite Hr, !bind_Ok. unfold queued_error. rewrite get_error_empty. split_and!; [done..|by exists rc].
Qed.

Lemma openssl_unreadable_key_reports_success_witness :
  @ecryptfs_openssl_encrypt plenty toy_ssl [] true [1; 2] (ssl_blob (lit "/missing.pem") (lit "secret")) 0 = Ok (0, 0, []) /\
  @ecryptfs_openssl_decrypt plenty toy_ssl [] true [1; 2] (ssl_blob (lit "/missing.pem") (lit "secret")) 0 = Ok (0, 0, []) /\
  exists rc, @ecryptfs_openssl_get_key_sig plenty toy_ssl [] [] (ssl_blob (lit "/missing.pem") (lit "secret")) = Ok (rc, []) /\ rc < 0.
Proof.
  apply (@openssl_unreadable_key_reports_success plenty toy_ssl toy_ssl_laws [] true [1; 2]
    (lit "/missing.pem") (lit "secret") 0).
  - done.
  - apply (bool_decide_unpack _). vm_compute. exact I.
  - right. left. intros q. reflexivity.
Defined.

(** ** The graph: lemmas *)
Section GraphLemmas.
Context `{Heap, Nss, Sys, Ssl, !SslLaws} (be : bool) (queue : err_queue).

(** The module can be used: it is loaded with the operations of this file. *)
Definition openssl_loaded (s : gstate) (i : nat) (alias : cstring) : Prop :=
  exists m, g_mods s !! i = Some m /\ km_alias m = Some alias /\
    ecryptfs_openssl_ops queue (km_ops m).

(** The state after a key has been added. *)
Definition ssl_key_added (i : nat) (alias path passphrase : cstring) (rsa : RSA) (s : gstate) : gstate :=
  let blob := ssl_blob path passphrase in
  set_foo FooNull
    (set_mnt (Some (lit "max_key_bytes=" ++ show_int (RSA_size rsa - 44)) ::
              Some (lit "ecryptfs_sig=" ++ rsa_sig_hex rsa) :: g_mnt s)
       (set_keyring (ensure_module_token (g_keyring s) (rsa_sig_hex rsa)
                       (module_token alias (rsa_sig_hex rsa) blob)).2
          (set_mod_blob i (Some blob) (zlen blob) s))).

Lemma set_mod_blob_lookup i blob n s m :
  g_mods s !! i = Some m -> g_mods (set_mod_blob i blob n s) !! i = Some (set_blob blob n m).
Proof.
  intros Hm. change (alter (set_blob blob n) i (g_mods s) !! i = Some (set_blob blob n m)).
  etrans; [apply list_lookup_alter_eq|]. exact (f_equal (fmap (set_blob blob n)) Hm).
Qed.

Lemma process_key_ok i alias path passphrase rsa s :
  heap_never_fails -> sys_works -> ssl_strings path passphrase -> key_opens path passphrase rsa ->
  openssl_loaded s i alias ->
  ecryptfs_openssl_process_key be i (OpensslData (Some path) (Some passphrase)) s =
  go (0, set_mnt (Some (lit "ecryptfs_sig=" ++ rsa_sig_hex rsa) :: g_mnt s)
           (set_keyring (ensure_module_token (g_keyring s) (rsa_sig_hex rsa)
                           (module_token alias (rsa_sig_hex rsa) (ssl_blob path passphrase))).2
              (set_mod_blob i (Some (ssl_blob path passphrase)) (zlen (ssl_blob path passphrase)) s))).
Proof.
  intros Hh Hs Hstr Hk (m & Hm & Ha & Hops). unfold ecryptfs_openssl_process_key.
  assert (ecryptfs_openssl_serialize None (OpensslData (Some path) (Some passphrase)) = Ok (0, zlen (ssl_blob path passphrase), None)) as Hnone
    by (cbn [ecryptfs_openssl_serialize od_path od_passphrase]; by rewrite zlen_ssl_blob).
  set (blob := ssl_blob path passphrase) in *.
  assert (0 < zlen blob) as Hpos by (unfold blob; rewrite zlen_ssl_blob;
    pose proof (zlen_nonneg path); pose proof (zlen_nonneg passphrase); lia).
  rewrite Hnone. cbn [stays rbind Z.eqb negb]. replace (zlen blob =? 0) with false by lia.
  rewrite Hm, !Hh. cbn [negb].
  rewrite (serialize_ok (malloc_block heap_junk (zlen blob))) by (rewrite zlen_malloc_block; [done|lia]).
  fold blob. rewrite zlen_malloc_block by lia. cbn [stays rbind Z.eqb negb]. rewrite Z.eqb_refl. cbn [negb].
  destruct Hops as [(f & Hf & Hspec) _ _ (g & Hg & ->) _].
  pose proof (get_key_sig_ok queue (zeros 17) path passphrase (zeros data_room) rsa Hh Hstr Hk ltac:(done)) as Hsig.
  change (drop 17 (zeros 17)) with (@nil Z) in Hsig. apply Hspec in Hsig. cbn [Z.eqb] in Hsig.
  rewrite (add_module_key_ok be _ _ (set_blob (Some blob) (zlen blob) m) alias blob (rsa_sig_hex rsa) f);
    [|done|done|by apply zlen_malloc_block|done..|exact Hg|exact Hf|exact Hsig|apply rsa_sig_hex_cstring|
     unfold zlen; by rewrite length_rsa_sig_hex].
  change (g_keyring (set_mod_blob i (Some blob) (zlen blob) s)) with (g_keyring s).
  assert (cstr_of (rsa_sig_hex rsa ++ [0]) = Ok (rsa_sig_hex rsa)) as Hcs
    by (apply cstr_of_app, is_char_nonzero, rsa_sig_hex_cstring).
  unfold ensure_module_token. destruct (g_keyring s !! rsa_sig_hex rsa); cbn [rbind]; rewrite Hh;
    cbn [negb Z.ltb Z.compare]; rewrite Hcs; cbn [stays rbind]; by rewrite stack_push_ok.
Qed.

Lemma finish_key_ok i alias path passphrase rsa s :
  heap_never_fails -> sys_works -> ssl_strings path passphrase -> key_opens path passphrase rsa ->
  openssl_loaded s i alias ->
  finish_key be queue i (OpensslData (Some path) (Some passphrase)) s =
  go (DEFAULT_TOK, ssl_key_added i alias path passphrase rsa s).
Proof.
  intros Hh Hs Hstr Hk Hl. unfold finish_key.
  rewrite (process_key_ok i alias path passphrase rsa) by done. cbn [go rbind Z.eqb negb].
  destruct Hl as (m & Hm & _). unfold limit_key_size.
  cbn [g_mods set_mnt set_keyring]. rewrite (set_mod_blob_lookup _ _ _ _ m) by done.
  cbn [mbind option_bind km_blob set_blob].
  match goal with |- context [ecryptfs_openssl_read_key ?k _ _] =>
    destruct (read_key_ok k queue path passphrase [] rsa) as (q' & Hr); [done..|] end.
  rewrite app_nil_r in Hr. rewrite Hr, bind_Ok, Hh. cbn [negb]. rewrite stack_push_ok by done.
  cbn [stays rbind mret outcome_ret]. unfold ssl_key_added.
  replace (RSA_size rsa - 41 - 3) with (RSA_size rsa - 44) by lia. reflexivity.
Qed.

Lemma tf_ssl_passwd_ok node p i alias path passphrase rsa s :
  heap_never_fails -> sys_works -> ssl_strings path passphrase -> key_opens path passphrase rsa ->
  openssl_loaded s i alias ->
  g_foo s = FooModule i [Some path; None] -> g_nodes s !! node = Some p -> pn_val p = Some passphrase ->
  exists s', tf_ssl_passwd be queue node s =
    go (DEFAULT_TOK, ssl_key_added i alias path passphrase rsa s') /\
    s' = upd_node node (set_val None) (set_ssl_ctx i (OpensslData (Some path) (Some passphrase)) s).
Proof.
  intros Hh Hs Hstr Hk Hl Hf Hn Hv. eexists. split; [|done].
  unfold tf_ssl_passwd, ssl_ctx, get_node. rewrite Hf, Hn. cbn [stays rbind mret outcome_ret].
  rewrite Hh. cbn [negb]. rewrite Hv. cbn [show_str default od_path].
  apply finish_key_ok; done.
Qed.
End GraphLemmas.

(** The last step of adding an OpenSSL key on a mount: with the passphrase
    that opens the file, the token of the key is in the keyring (an existing one is
    kept) with path and passphrase in its blob, the kernel gets the signature of
    the key, and the sizes of file keys are limited to what one RSA operation with
    padding holds. *)
Theorem openssl_passwd_adds_key `{Heap, Nss, Sys, Ssl, !SslLaws} be queue node p i alias path passphrase rsa s :
  heap_never_fails -> sys_works -> ssl_strings path passphrase -> key_opens path passphrase rsa ->
  openssl_loaded queue s i alias ->
  g_foo s = FooModule i [Some path; None] -> g_nodes s !! node = Some p -> pn_val p = Some passphrase ->
  exists s', tf_ssl_passwd be queue node s = go (DEFAULT_TOK, s') /\ g_foo s' = FooNull /\
    g_mnt s' = Some (lit "max_key_bytes=" ++ show_int (RSA_size rsa - 44)) ::
               Some (lit "ecryptfs_sig=" ++ rsa_sig_hex rsa) :: g_mnt s /\
    (g_keyring s !! rsa_sig_hex rsa = None ->
     g_keyring s' !! rsa_sig_hex rsa = Some (module_token alias (rsa_sig_hex rsa) (ssl_blob path passphrase))) /\
    (forall sig, sig <> rsa_sig_hex rsa \/ is_Some (g_keyring s !! sig) -> g_keyring s' !! sig = g_keyring s !! sig).
Proof.
  intros Hh Hs Hstr Hk Hl Hf Hn Hv.
  destruct (tf_ssl_passwd_ok be queue node p i alias path passphrase rsa s) as (s' & -> & ->); [done..|].
  eexists. split; [done|]. split; [done|]. split; [done|].
  cbn [ssl_key_added g_keyring set_foo set_mnt set_keyring set_mod_blob set_mods upd_node set_nodes set_ssl_ctx].
  apply ensure_module_token_lookup.
Qed.

(** *** An instance of the operations *)
Definition of_outcome {A} (d : A) (m : outcome A) : A := match m with Ok a => a | UB _ => d end.

Definition sample_openssl_ops `{Heap, Ssl} (queue : err_queue) : ecryptfs_key_mod_ops :=
  (ecryptfs_fill_in_dummy_ops
    (KeyModOps (Some (0, Some (lit "openssl"))) None
       (Some ecryptfs_openssl_get_gen_key_param_subgraph_trans_node) None
       (Some ecryptfs_openssl_get_param_subgraph_trans_node) None None
       (Some (fun blob => let '(rc, out) := of_outcome (- EFAULT, [])
                            (ecryptfs_openssl_get_key_sig queue (zeros 17) blob) in
                          (rc, if rc =? 0 then out else [])))
       None
       (Some (fun to from blob ty => of_outcome (- EFAULT, 0, []) (ecryptfs_openssl_encrypt queue to from blob ty)))
       (Some (fun to from blob ty => of_outcome (- EFAULT, 0, []) (ecryptfs_openssl_decrypt queue to from blob ty)))
       None (Some ecryptfs_openssl_finalize))).2.

Lemma sample_openssl_ops_ok `{Heap, Ssl} queue : ecryptfs_openssl_ops queue (sample_openssl_ops queue).
Proof.
  split.
  - eexists. split; [done|]. intros blob rc out Ho. cbn beta. by rewrite Ho.
  - eexists. split; [done|]. intros to from blob ty r Ho. cbn beta. by rewrite Ho.
  - eexists. split; [done|]. intros to from blob ty r Ho. cbn beta. by rewrite Ho.
  - by eexists.
  - done.
Qed.

Definition sample_openssl_mod : ecryptfs_key_mod :=
  KeyModEntry (Some 1) (Some (lit "openssl")) None (@sample_openssl_ops plenty toy_ssl []) [] None 0.
Definition sample_openssl_state : gstate :=
  set_foo (FooModule 0 [Some (lit "/k.pem"); None])
    (set_nodes (<[SSL_USER_PROVIDED_PASSWD_TOK := set_val (Some (lit "secret")) ssl_passwd_node]> ssl_param_nodes)
      (set_mods [sample_openssl_mod] (fresh_state ∅ []))).

Lemma openssl_passwd_adds_key_witness :
  let sig := @rsa_sig_hex toy_ssl toy_key in
  exists s', @tf_ssl_passwd plenty calm_sys toy_ssl false [] SSL_USER_PROVIDED_PASSWD_TOK sample_openssl_state =
      go (DEFAULT_TOK, s') /\ g_foo s' = FooNull /\
    g_mnt s' = Some (lit "max_key_bytes=84") :: Some (lit "ecryptfs_sig=" ++ sig) :: [None] /\
    (g_keyring sample_openssl_state !! sig = None ->
     g_keyring s' !! sig = Some (module_token (lit "openssl") sig (ssl_blob (lit "/k.pem") (lit "secret")))) /\
    (forall sig', sig' <> sig \/ is_Some (g_keyring sample_openssl_state !! sig') ->
     g_keyring s' !! sig' = g_keyring sample_openssl_state !! sig').
Proof.
  apply (@openssl_passwd_adds_key plenty toy_nss calm_sys toy_ssl toy_ssl_laws false [] SSL_USER_PROVIDED_PASSWD_TOK
    (set_val (Some (lit "secret")) ssl_passwd_node) 0 (lit "openssl") (lit "/k.pem") (lit "secret") toy_key
    sample_openssl_state).
  - done.
  - exact calm_sys_works.
  - exact toy_strings.
  - by apply toy_key_opens.
  - exists sample_openssl_mod. split; [done|]. split; [done|]. apply (@sample_openssl_ops_ok plenty toy_ssl).
  - done.
  - done.
  - done.
Defined.

(** ** Making directories *)
Lemma skip_slashes_suffix s : skip_slashes s `suffix_of` s.
Proof.
  induction s as [|c s IH]; [done|]. cbn [skip_slashes]. destruct (Z.eqb_spec c 47) as [_|_]; [|done].
  by apply suffix_cons_r.
Qed.

Lemma rstrip_prefix s : rstrip_slashes s `prefix_of` s.
Proof.
  unfold rstrip_slashes. destruct (skip_slashes_suffix (reverse s)) as [k Hk].
  exists (reverse k). rewrite <- reverse_app, <- Hk. by rewrite reverse_involutive.
Qed.

Lemma skip_slashes_nil s : skip_slashes s = [] -> Forall (fun c => c = 47) s.
Proof. induction s as [|c s IH]; [done|]. cbn [skip_slashes]. case_match; [|done]. constructor; [lia|auto]. Qed.

Lemma rstrip_nil s : rstrip_slashes s = [] -> Forall (fun c => c = 47) s.
Proof.
  unfold rstrip_slashes. intros Hs. apply (f_equal reverse) in Hs.
  rewrite reverse_involutive, reverse_nil in Hs. apply skip_slashes_nil in Hs.
  exact (proj1 (Forall_reverse _ _) Hs).
Qed.

Lemma strchr_spec s c : match strchr s c with Some i => s !! i = Some c | None => True end.
Proof.
  induction s as [|x s IH]; [done|]. cbn [strchr]. destruct (Z.eqb_spec x c) as [->|]; [done|].
  by destruct (strchr s c).
Qed.

(** A path that does not begin with two slashes. *)
Definition single_root (dir : cstring) : Prop := ~ lit "//" `prefix_of` dir.

Lemma dirname_smaller dir :
  single_root dir -> dir <> lit "." -> dir <> lit "/" ->
  dirname dir = lit "." \/ dirname dir = lit "/" \/
  (length (dirname dir) < length dir)%nat /\ single_root (dirname dir).
Proof.
  intros Hr Hd Hs. unfold dirname.
  destruct (rstrip_slashes dir) as [|b body] eqn:Hb.
  { apply rstrip_nil in Hb. destruct dir as [|x [|y dir]]; [by left| |].
    - apply Forall_cons in Hb as [-> _]. done.
    - apply Forall_cons in Hb as [-> Hb]. apply Forall_cons in Hb as [-> _].
      destruct Hr. by exists dir. }
  assert (b :: body `prefix_of` dir) as Hp by (rewrite <- Hb; apply rstrip_prefix).
  pose proof (strchr_spec (reverse (b :: body)) 47) as Hc.
  destruct (strchr (reverse (b :: body)) 47) as [k|]; [|by left].
  pose proof (lookup_lt_Some _ _ _ Hc) as Hlt. rewrite length_reverse in Hlt.
  rewrite reverse_lookup in Hc by done.
  set (slash := (length (b :: body) - S k)%nat) in *.
  pose proof (rstrip_prefix (take slash (b :: body))) as Hq.
  destruct (rstrip_slashes (take slash (b :: body))) as [|q parent] eqn:Hpar.
  - right. left. rewrite bool_decide_eq_false_2; [done|]. intros H1.
    apply rstrip_nil in Hpar. rewrite H1 in *. cbn in Hpar. apply Forall_cons in Hpar as [-> _].
    destruct Hr. destruct body as [|y body]; [done|]. cbn in Hc. injection Hc as ->.
    etrans; [|exact Hp]. by exists body.
  - right. right. apply prefix_length in Hq as Hql. rewrite length_take in Hql.
    apply prefix_length in Hp as Hpl. split; [lia|]. intros Ht. apply Hr.
    etrans; [exact Ht|]. etrans; [exact Hq|]. etrans; [apply prefix_take|done].
Qed.

(** Every directory of the list comes after the one it is in; the last one is
    the directory asked for. *)
Fixpoint ancestors (dir : cstring) (made : list cstring) : Prop :=
  match made with
  | [] => dir = lit "." \/ dir = lit "/"
  | d :: made' => d = dir /\ ancestors (dirname dir) made'
  end.

Lemma mkdir_recursive_ok `{Heap} mkdir fuel dir :
  heap_never_fails -> (forall d, mkdir d = None \/ mkdir d = Some EEXIST) -> single_root dir ->
  (length dir + 2 <= fuel)%nat ->
  exists made, ecryptfs_openssl_mkdir_recursive mkdir fuel dir = Some (0, made) /\
    ancestors dir (reverse made).
Proof.
  intros Hh Hm. revert dir. induction fuel as [|fuel IH]; intros dir Hr Hf; [lia|].
  cbn [ecryptfs_openssl_mkdir_recursive].
  destruct (streq dir (lit ".")) eqn:Hd1; [apply streq_spec in Hd1; exists []; split; [done|by left]|].
  destruct (streq dir (lit "/")) eqn:Hd2; [apply streq_spec in Hd2; exists []; split; [done|by right]|].
  cbn [orb]. rewrite Hh. cbn [negb].
  assert (exists made, ecryptfs_openssl_mkdir_recursive mkdir fuel (dirname dir) = Some (0, made) /\
    ancestors (dirname dir) (reverse made)) as (made & -> & Ha).
  { destruct (dirname_smaller dir) as [Hn|[Hn|[Hlt Hsr]]]; try done.
    - intros ->. by rewrite streq_refl in Hd1.
    - intros ->. by rewrite streq_refl in Hd2.
    - rewrite Hn. exists []. split; [|by left]. destruct fuel; [lia|]. done.
    - rewrite Hn. exists []. split; [|by right]. destruct fuel; [lia|]. done.
    - apply IH; [done|lia]. }
  cbn [Z.eqb negb]. exists (made ++ [dir]). rewrite reverse_app. split; [|done].
  by destruct (Hm dir) as [-> | ->].
Qed.

(** Making a directory with its ancestors ends for every path that does not
    begin with two slashes, and asks for the ancestors from the outermost inwards,
    each once, and the directory last; directories that exist are no error.  For
    the path of two slashes, which the C library keeps as the directory of what is
    below it, the recursion never ends. *)
Theorem mkdir_recursive_ancestors `{Heap} mkdir dir :
  heap_never_fails -> (forall d, mkdir d = None \/ mkdir d = Some EEXIST) -> single_root dir ->
  (exists made, ecryptfs_openssl_mkdir_recursive mkdir (length dir + 2) dir = Some (0, made) /\
     ancestors dir (reverse made)) /\
  (forall fuel, ecryptfs_openssl_mkdir_recursive mkdir fuel (lit "//") = None).
Proof.
  intros Hh Hm Hr. split; [by apply mkdir_recursive_ok|].
  induction fuel as [|fuel IH]; [done|]. cbn [ecryptfs_openssl_mkdir_recursive].
  change (streq (lit "//") (lit ".") || streq (lit "//") (lit "/")) with false. cbn match.
  rewrite Hh. cbn [negb]. change (dirname (lit "//")) with (lit "//"). by rewrite IH.
Qed.

Lemma mkdir_recursive_ancestors_witness :
  (exists made, @ecryptfs_openssl_mkdir_recursive plenty (fun _ => None) (length (lit "/a/b") + 2) (lit "/a/b") =
     Some (0, made) /\ ancestors (lit "/a/b") (reverse made)) /\
  (forall fuel, @ecryptfs_openssl_mkdir_recursive plenty (fun _ => None) fuel (lit "//") = None).
Proof.
  apply (@mkdir_recursive_ancestors plenty (fun _ => None) (lit "/a/b")).
  - done.
  - by left.
  - intros [k Hk]. done.
Defined.
