(* ===== verification/OpensslPackets.v ===== *)
(** * The daemon and the OpenSSL key module together

    The kernel has the session key of a file encrypted when the file is created,
    and decrypted when the file is opened: two requests of the daemon, which finds
    the token in the keyring and has the module of the token do the work. *)

From S2P Require Import Prelude CLib Ecryptfs KeyMod KeyPayload PacketLength Packets Ssl Openssl.

(** The module that tokens name [alias] is the OpenSSL module. *)
Definition openssl_module `{Heap, Ssl} (queue : err_queue) (mods : key_mod_list) (alias : bytes) : Prop :=
  exists m, ecryptfs_find_key_mod mods alias = Ok (Some m) /\ ecryptfs_openssl_ops queue (km_ops m).

(** The keyring holds the token that a mount with the key in the file adds. *)
Definition ssl_token_in_keyring `{Keyring} (be : bool) (sig alias : bytes) (path passphrase : cstring) : Prop :=
  is_cstring sig /\ zlen sig <= 8383 /\ 0 <= request_key sig /\
  exists payload tail, keyctl_read (request_key sig) = Some payload /\
    token_block be (payload ++ [0]) alias (ssl_blob path passphrase ++ tail).

Section Daemon.
Context `{Heap, Keyring, Ssl, !SslLaws} (be : bool).

Lemma ssl_encrypts queue mods sig alias path passphrase :
  ssl_token_in_keyring be sig alias path passphrase -> openssl_module queue mods alias ->
  exists tail f, token_known be mods sig op_encrypt (ssl_blob path passphrase ++ tail) f /\
    forall to from blob ty r, ecryptfs_openssl_encrypt queue to from blob ty = Ok r -> f to from blob ty = r.
Proof.
  intros (Hs & Hl & Hser & payload & tail & Hr & Hb) (m & Hm & [_ (f & Hf & Hspec) _ _ _]).
  exists tail, f. split; [|done]. split; [done..|]. by exists payload, alias, m.
Qed.

Lemma ssl_decrypts queue mods sig alias path passphrase :
  ssl_token_in_keyring be sig alias path passphrase -> openssl_module queue mods alias ->
  exists tail f, token_known be mods sig op_decrypt (ssl_blob path passphrase ++ tail) f /\
    forall to from blob ty r, ecryptfs_openssl_decrypt queue to from blob ty = Ok r -> f to from blob ty = r.
Proof.
  intros (Hs & Hl & Hser & payload & tail & Hr & Hb) (m & Hm & [_ _ (f & Hf & Hspec) _ _]).
  exists tail, f. split; [|done]. split; [done..|]. by exists payload, alias, m.
Qed.
End Daemon.

(** C12. The session key of a file comes back: when the token of a key in a file is
    in the keyring and the key opens, the request to encrypt a session key of at
    most 64 bytes is answered with bytes [c] as long as the modulus - followed,
    for a modulus of less than 192 bytes, by one byte the daemon never wrote -, and
    the request to decrypt [c] is answered with the session key, also by another
    process with its own list of modules. *)
Theorem openssl_session_key_roundtrip `{Heap, Keyring, Ssl, !SslLaws} be queue queue' mods mods'
    sig alias path passphrase rsa m k k' h h' rest rest' :
  heap_never_fails -> ssl_strings path passphrase -> key_opens path passphrase rsa ->
  RSA_size rsa <= ECRYPTFS_MAX_ENCRYPTED_KEY_BYTES ->
  (forall q, exists c q', RSA_public_encrypt rsa RSA_PKCS1_OAEP_PADDING m q = (Some c, q')) ->
  zlen m <= ECRYPTFS_MAX_KEY_BYTES -> zlen h = 8 -> zlen h' = 8 ->
  ssl_token_in_keyring be sig alias path passphrase ->
  openssl_module queue mods alias -> openssl_module queue' mods' alias ->
  exists c r66 r64, zlen c = RSA_size rsa /\
    parse_packet be k mods (PLive (h ++ request_packet ECRYPTFS_TAG_66_PACKET sig m ++ rest)) = Ok (0, PLive r66) /\
    msg_data (message_of be r66) = key_packet ECRYPTFS_TAG_67_PACKET c ++
      (if zlen c <? 192 then [heap_junk (Z.to_nat (sizeof_ecryptfs_message + 3 + zlen c))] else []) /\
    parse_packet be k' mods' (PLive (h' ++ request_packet ECRYPTFS_TAG_64_PACKET sig c ++ rest')) = Ok (0, PLive r64) /\
    msg_data (message_of be r64) = key_packet ECRYPTFS_TAG_65_PACKET m.
Proof.
  intros Hh Hs Hk Hsize Henc Hm H8 H8' Htok Hmod Hmod'.
  destruct (ssl_encrypts be _ _ _ _ _ _ Htok Hmod) as (tail & f & Hf & Hfs).
  destruct (ssl_decrypts be _ _ _ _ _ _ Htok Hmod') as (tail' & g & Hg & Hgs).
  destruct (encrypt_ok queue true m path passphrase tail rsa ECRYPTFS_BLOB_TYPE_BLOB) as (q1 & He); [done..|].
  destruct (Henc (ERR_remove_state q1)) as (c & q2 & Hc). rewrite Hc in He.
  assert (zlen c = RSA_size rsa) as Hlen by (by eapply encrypt_length).
  assert (zlen m < RSA_size rsa) as Hroom by (by eapply encrypt_room).
  pose proof (zlen_nonneg m) as Hm0.
  change ECRYPTFS_MAX_ENCRYPTED_KEY_BYTES with 512 in *. change ECRYPTFS_MAX_KEY_BYTES with 64 in *.
  assert (c <> []) as Hne by (intros ->; change (zlen []) with 0 in Hlen; lia).
  destruct (encrypt_ok queue false m path passphrase tail rsa ECRYPTFS_BLOB_TYPE_BLOB) as (q3 & He'); [done..|].
  destruct (crypt_roundtrip queue queue' false m path passphrase tail tail' rsa _ _ _ Hh Hs Hk He Hne) as (_ & _ & _ & Hd').
  destruct (crypt_roundtrip queue queue' true m path passphrase tail tail' rsa _ _ _ Hh Hs Hk He Hne) as (_ & _ & _ & Hd).
  eexists c, _, _. split; [done|]. split.
  { eapply (serve_tag_66 be); [done|done|lia|exact Hf|by apply Hfs|lia|by apply Hfs|lia|].
    by rewrite Hlen. }
  split; [by apply tag_67_message; rewrite Hlen|]. split.
  { eapply (serve_tag_64 be); [done|done|lia|exact Hg|by apply Hgs|lia|by apply Hgs|lia|done]. }
  rewrite message_of_reply_block by (rewrite zlen_key_packet; case_match; lia).
  apply take_app_length'. unfold zlen. lia.
Qed.

Definition sample_payload : bytes :=
  zeros 653 ++ lit "openssl" ++ zeros 10 ++ ssl_blob (lit "/k.pem") (lit "secret") ++ zeros 84.
Definition sample_keyring : Keyring := {|
  request_key := fun d => if bool_decide (d = lit "cafe") then 5 else -1;
  keyctl_read := fun serial => if serial =? 5 then Some sample_payload else None
|}.

Lemma sample_token : @ssl_token_in_keyring sample_keyring false (lit "cafe") (lit "openssl") (lit "/k.pem") (lit "secret").
Proof.
  split; [apply (bool_decide_unpack _); vm_compute; exact I|]. split; [vm_compute; congruence|].
  split; [vm_compute; congruence|]. exists sample_payload, (zeros 85). split; [done|]. split.
  - vm_compute. reflexivity.
  - vm_compute. reflexivity.
  - vm_compute. congruence.
  - apply (bool_decide_unpack _). vm_compute. exact I.
Qed.

Lemma sample_module : @openssl_module plenty toy_ssl [] [sample_openssl_mod] (lit "openssl").
Proof. exists sample_openssl_mod. split; [done|]. apply (@sample_openssl_ops_ok plenty toy_ssl). Qed.

Lemma openssl_session_key_roundtrip_witness :
  exists c r66 r64, zlen c = 128 /\
    @parse_packet plenty sample_keyring false 0 [sample_openssl_mod]
      (PLive (zeros 8 ++ request_packet ECRYPTFS_TAG_66_PACKET (lit "cafe") [7; 8; 9] ++ [])) = Ok (0, PLive r66) /\
    msg_data (message_of false r66) = key_packet ECRYPTFS_TAG_67_PACKET c ++ (if zlen c <? 192 then [0] else []) /\
    @parse_packet plenty sample_keyring false 1 [sample_openssl_mod]
      (PLive (zeros 8 ++ request_packet ECRYPTFS_TAG_64_PACKET (lit "cafe") c ++ [])) = Ok (0, PLive r64) /\
    msg_data (message_of false r64) = key_packet ECRYPTFS_TAG_65_PACKET [7; 8; 9].
Proof.
  apply (@openssl_session_key_roundtrip plenty sample_keyring toy_ssl toy_ssl_laws false [] []
    [sample_openssl_mod] [sample_openssl_mod] (lit "cafe") (lit "openssl") (lit "/k.pem") (lit "secret")
    toy_key [7; 8; 9] 0 1 (zeros 8) (zeros 8) [] []).
  - done.
  - exact toy_strings.
  - by apply toy_key_opens.
  - vm_compute. congruence.
  - intros q. by eexists _, _.
  - vm_compute. congruence.
  - done.
  - done.
  - exact sample_token.
  - exact sample_module.
  - exact sample_module.
Defined.
