(* ===== verification/TspiPool.v ===== *)
(** * The connection tickets of the TPM key module: [src/key_mod/ecryptfs_key_mod_tspi.c]

    The module keeps ten tickets, each with a connection to the TPM daemon that
    is opened when the ticket is first used, in two linked lists: tickets that
    are free and tickets in use.  A critical section - under the lock of the lists
    or of one ticket - is one step; the lock [wait] of a ticket, which its user
    holds, is a bit of the ticket, and a user that finds it taken blocks.  A call
    that never comes back is [None]. *)

From S2P Require Import Prelude Ecryptfs.

Definition EBUSY : Z := 16.
Definition ECRYPTFS_TSPI_DEFAULT_MAX_NUM_CONNECTIONS : nat := 10.

(** [CTX_INITIALIZED] is the only flag. *)
Record ecryptfs_tspi_connect_ticket := Ticket {
  tk_next : option nat;
  tk_initialized : bool;
  tk_wait : bool;
  tk_tspi_ctx : Z;
  tk_num_pending : Z
}.

(** The tickets by their address, the heads of the lists and the counters. *)
Record pool := Pool {
  pl_tickets : gmap nat ecryptfs_tspi_connect_ticket;
  pl_free : option nat;
  pl_used : option nat;
  pl_num_free : Z;
  pl_num_used : Z;
  pl_num_connected : Z
}.

Definition set_next (n : option nat) (t : ecryptfs_tspi_connect_ticket) :=
  Ticket n (tk_initialized t) (tk_wait t) (tk_tspi_ctx t) (tk_num_pending t).
Definition set_initialized (b : bool) (t : ecryptfs_tspi_connect_ticket) :=
  Ticket (tk_next t) b (tk_wait t) (tk_tspi_ctx t) (tk_num_pending t).
Definition set_wait (b : bool) (t : ecryptfs_tspi_connect_ticket) :=
  Ticket (tk_next t) (tk_initialized t) b (tk_tspi_ctx t) (tk_num_pending t).
Definition set_ctx (c : Z) (t : ecryptfs_tspi_connect_ticket) :=
  Ticket (tk_next t) (tk_initialized t) (tk_wait t) c (tk_num_pending t).
Definition add_pending (d : Z) (t : ecryptfs_tspi_connect_ticket) :=
  Ticket (tk_next t) (tk_initialized t) (tk_wait t) (tk_tspi_ctx t) (u32 (tk_num_pending t + d)).

Definition set_tickets (h : gmap nat ecryptfs_tspi_connect_ticket) (s : pool) : pool :=
  Pool h (pl_free s) (pl_used s) (pl_num_free s) (pl_num_used s) (pl_num_connected s).
Definition put_ticket (t : nat) (tk : ecryptfs_tspi_connect_ticket) (s : pool) : pool :=
  set_tickets (<[t := tk]> (pl_tickets s)) s.
Definition get_ticket (s : pool) (t : nat) : outcome ecryptfs_tspi_connect_ticket :=
  match pl_tickets s !! t with Some tk => Ok tk | None => UB UseAfterFree end.

(** ** Grabbing and releasing *)

(** [Tspi_Context_Create(3)] and [Tspi_Context_Connect(3)], by the number of the
    call: the handle, and whether the connection is made. *)
Class TssContext := {
  Tspi_Context_Create : nat -> option Z;
  Tspi_Context_Connect : nat -> Z -> bool
}.

(** The ticket in use that the fewest wait for; the search locks a ticket while
    it holds the lock of another, so it blocks when it meets the same one. *)
Fixpoint least_pending (fuel : nat) (s : pool) (ticket : nat) (tmp : option nat) : outcome (option nat) :=
  match fuel, tmp with
  | _, None => mret (Some ticket)
  | O, Some _ => mret None
  | S fuel', Some t =>
      if bool_decide (t = ticket) then mret None
      else
        best ← get_ticket s ticket;
        tk ← get_ticket s t;
        least_pending fuel' s (if tk_num_pending tk <? tk_num_pending best then t else ticket) (tk_next tk)
  end.

(** The first free ticket with a connection. *)
Fixpoint first_initialized (fuel : nat) (s : pool) (ticket : option nat) : outcome (option (option nat)) :=
  match fuel, ticket with
  | _, None => mret (Some None)
  | O, Some _ => mret None
  | S fuel', Some t =>
      tk ← get_ticket s t;
      if tk_initialized tk then mret (Some (Some t)) else first_initialized fuel' s (tk_next tk)
  end.

(** Both lists have at most ten tickets as long as they are lists. *)
Definition list_fuel : nat := S ECRYPTFS_TSPI_DEFAULT_MAX_NUM_CONNECTIONS.

(** The ticket goes to the front of the list of used ones, and what came after
    it becomes the list of free ones. *)
Definition take_ticket (t : nat) (s : pool) : outcome pool :=
  tk ← get_ticket s t;
  mret (Pool (<[t := add_pending 1 (set_next (pl_used s) tk)]> (pl_tickets s))
          (tk_next tk) (Some t) (u32 (pl_num_free s - 1)) (u32 (pl_num_used s + 1))
          (pl_num_connected s)).

Section Grab.
Context `{TssContext}.

(** Opening the connection of the first free ticket. *)
Definition connect_ticket (k : nat) (t : nat) (s : pool) : outcome (bool * pool) :=
  tk ← get_ticket s t;
  match Tspi_Context_Create k with
  | None => mret (false, s)
  | Some ctx =>
      let tk := set_ctx ctx tk in
      if Tspi_Context_Connect k ctx then
        let s := put_ticket t (set_initialized true tk) s in
        mret (true, Pool (pl_tickets s) (pl_free s) (pl_used s) (pl_num_free s) (pl_num_used s)
                      (u32 (pl_num_connected s + 1)))
      else mret (false, put_ticket t tk s)
  end.

(** What happens under the lock of the lists: the code, the ticket and the
    pool. *)
Definition choose_ticket (k : nat) (s : pool) : outcome (option (Z * option nat * pool)) :=
  match pl_free s with
  | None =>
      match pl_used s with
      | None => UB NullDeref
      | Some u =>
          tk ← get_ticket s u;
          r ← least_pending list_fuel s u (tk_next tk);
          match r with
          | None => mret None
          | Some t =>
              tk ← get_ticket s t;
              mret (Some (0, Some t, put_ticket t (add_pending 1 tk) s))
          end
      end
  | Some head =>
      r ← first_initialized list_fuel s (Some head);
      match r with
      | None => mret None
      | Some (Some t) => s ← take_ticket t s; mret (Some (0, Some t, s))
      | Some None =>
          '(ok, s) ← connect_ticket k head s;
          if negb ok then mret (Some (- EIO, None, s))
          else s ← take_ticket head s; mret (Some (0, Some head, s))
      end
  end.

(** Waiting for the ticket that was chosen; [None] while another user has it. *)
Definition wait_ticket (t : nat) (s : pool) : outcome (option pool) :=
  tk ← get_ticket s t;
  if tk_wait tk then mret None
  else mret (Some (put_ticket t (add_pending (-1) (set_wait true tk)) s)).

Definition ecryptfs_tspi_grab_ticket (k : nat) (s : pool) : outcome (option (Z * option nat * pool)) :=
  r ← choose_ticket k s;
  match r with
  | None => mret None
  | Some (rc, None, s) => mret (Some (rc, None, s))
  | Some (rc, Some t, s) =>
      r ← wait_ticket t s;
      mret (match r with None => None | Some s => Some (rc, Some t, s) end)
  end.
End Grab.

(** The list of used tickets is cut before what comes after the ticket. *)
Definition ecryptfs_tspi_release_ticket (t : nat) (s : pool) : outcome pool :=
  tk ← get_ticket s t;
  mret (Pool (<[t := set_next (pl_free s) (set_wait false tk)]> (pl_tickets s))
          (Some t) (tk_next tk) (u32 (pl_num_free s + 1)) (u32 (pl_num_used s - 1))
          (pl_num_connected s)).

(** ** Making the tickets *)
Section Init.
Context `{Heap} (wait_junk : nat -> bool).

(** The lock [wait] is never initialised: it is what the heap holds. *)
Definition fresh_ticket (i : nat) (next : option nat) : ecryptfs_tspi_connect_ticket :=
  Ticket next false (wait_junk i) 0 0.

Definition push_free (t : nat) (s : pool) : pool :=
  Pool (<[t := fresh_ticket t (pl_free s)]> (pl_tickets s)) (Some t) (pl_used s)
    (u32 (pl_num_free s + 1)) (pl_num_used s) (pl_num_connected s).

Fixpoint init_tickets (i n : nat) (s : pool) : Z * pool :=
  match n with
  | O => (0, s)
  | S n' => if negb (alloc_ok 60588 i) then (- ENOMEM, s) else init_tickets (S i) n' (push_free i s)
  end.

(** The code, the alias and the pool. *)
Definition ecryptfs_tspi_init (s : pool) : Z * option cstring * pool :=
  if negb (alloc_ok 60577 0) then (- ENOMEM, None, s)
  else
    let s := Pool (pl_tickets s) (pl_free s) (pl_used s) 0 0 0 in
    let '(rc, s) := init_tickets 0 ECRYPTFS_TSPI_DEFAULT_MAX_NUM_CONNECTIONS s in
    (rc, Some (lit "tspi"), s).
End Init.

(** The pool when the module is loaded. *)
Definition empty_pool : pool := Pool ∅ None None 0 0 0.

(** ** Shutting down *)
Definition ECRYPTFS_TSPI_MAX_WAIT_FOR_END : nat := 5.

(** [pool_at i] is the pool after [i] seconds; the result is how long the loop
    sleeps. *)
Fixpoint wait_for_end (pool_at : nat -> pool) (fuel retries : nat) : nat :=
  match fuel with
  | O => retries
  | S fuel' =>
      match pl_used (pool_at retries) with
      | None => retries
      | Some _ => wait_for_end pool_at fuel' (S retries)
      end
  end.

(** The pool and the connections closed. *)
Fixpoint close_tickets (fuel : nat) (ticket : option nat) (s : pool) : outcome (option (pool * list Z)) :=
  match fuel, ticket with
  | _, None => mret (Some (s, []))
  | O, Some _ => mret None
  | S fuel', Some t =>
      tk ← get_ticket s t;
      let '(s, closed) :=
        if tk_initialized tk then (put_ticket t (set_initialized false tk) s, [tk_tspi_ctx tk])
        else (s, []) in
      r ← close_tickets fuel' (tk_next tk) s;
      mret (match r with None => None | Some (s, l) => Some (s, closed ++ l) end)
  end.

Definition ecryptfs_tspi_finalize (pool_at : nat -> pool) : outcome (option (Z * pool * list Z)) :=
  let retries := wait_for_end pool_at ECRYPTFS_TSPI_MAX_WAIT_FOR_END 0 in
  let s := pool_at retries in
  if bool_decide (retries = ECRYPTFS_TSPI_MAX_WAIT_FOR_END) then mret (Some (- EBUSY, s, []))
  else
    r ← close_tickets list_fuel (pl_free s) s;
    mret (match r with None => None | Some (s, l) => Some (0, s, l) end).

(** ** Lists in the heap *)
Fixpoint chain (h : gmap nat ecryptfs_tspi_connect_ticket) (p : option nat) (l : list nat) : Prop :=
  match l with
  | [] => p = None
  | t :: l' => p = Some t /\ exists tk, h !! t = Some tk /\ chain h (tk_next tk) l'
  end.

Lemma chain_insert h p l t tk : t ∉ l -> chain h p l -> chain (<[t := tk]> h) p l.
Proof.
  revert p. induction l as [|u l IH]; intros p; [done|]. intros [Hne Hl]%not_elem_of_cons [-> (tku & Hu & Hc)].
  split; [done|]. exists tku. rewrite lookup_insert_ne by done. auto.
Qed.

(** A ticket that changes in place. *)
Lemma chain_update h p l t tk tk' :
  h !! t = Some tk -> tk_next tk' = tk_next tk -> chain h p l -> chain (<[t := tk']> h) p l.
Proof.
  intros Ht Hn. revert p. induction l as [|u l IH]; intros p; [done|]. intros [-> (tku & Hu & Hc)].
  split; [done|]. destruct (decide (u = t)) as [->|Hne].
  - exists tk'. rewrite lookup_insert_eq. split; [done|]. rewrite Hn. simplify_eq. auto.
  - exists tku. rewrite lookup_insert_ne by done. auto.
Qed.

(** A new ticket in front. *)
Lemma chain_push h p l t tk : t ∉ l -> tk_next tk = p -> chain h p l -> chain (<[t := tk]> h) (Some t) (t :: l).
Proof.
  intros Hn <- Hc. split; [done|]. exists tk. rewrite lookup_insert_eq. split; [done|]. by apply chain_insert.
Qed.

(** ** Well-formed pools
    [ready] and [fresh] are the free tickets, with and without a connection, in
    this order; [held] are the tickets in use, the last one grabbed in front. *)
Definition pool_size : nat := ECRYPTFS_TSPI_DEFAULT_MAX_NUM_CONNECTIONS.

Record pool_ok (ready fresh held : list nat) (s : pool) : Prop := PoolOk {
  po_free : chain (pl_tickets s) (pl_free s) (ready ++ fresh);
  po_used : chain (pl_tickets s) (pl_used s) held;
  po_all : ready ++ fresh ++ held ≡ₚ seq 0 pool_size;
  po_tickets : forall t tk, pl_tickets s !! t = Some tk ->
    tk_num_pending tk = 0 /\ tk_wait tk = bool_decide (t ∈ held) /\
    tk_initialized tk = bool_decide (t ∉ fresh);
  po_dom : forall t, is_Some (pl_tickets s !! t) <-> (t < pool_size)%nat;
  po_counters : pl_num_free s = zlen (ready ++ fresh) /\ pl_num_used s = zlen held /\
    pl_num_connected s = zlen (ready ++ held)
}.

Section Pool.
Context (ready fresh held : list nat) (s : pool) (Hs : pool_ok ready fresh held s).

Lemma pool_nodup : NoDup (ready ++ fresh ++ held).
Proof. rewrite (po_all _ _ _ _ Hs). apply NoDup_seq. Qed.

Lemma pool_length : (length ready + length fresh + length held = pool_size)%nat.
Proof.
  pose proof (Permutation_length (po_all _ _ _ _ Hs)) as Hl. rewrite !length_app, length_seq in Hl. lia.
Qed.

Lemma pool_lookup t : t ∈ ready ++ fresh ++ held -> exists tk, pl_tickets s !! t = Some tk.
Proof.
  rewrite (po_all _ _ _ _ Hs). intros Ht%elem_of_seq. apply (po_dom _ _ _ _ Hs). lia.
Qed.
End Pool.

Lemma pending_stays x : x = 0 -> u32 (u32 (x + 1) + -1) = 0.
Proof. by intros ->. Qed.

Section Steps.
Context `{TssContext}.

Lemma first_initialized_ready fuel s t l :
  (0 < fuel)%nat -> chain (pl_tickets s) (Some t) (t :: l) ->
  (forall tk, pl_tickets s !! t = Some tk -> tk_initialized tk = true) ->
  first_initialized fuel s (Some t) = Ok (Some (Some t)).
Proof.
  intros Hf [_ (tk & Ht & _)] Hi. destruct fuel; [lia|]. cbn [first_initialized].
  unfold get_ticket. rewrite Ht, bind_Ok. by rewrite (Hi tk).
Qed.

Lemma first_initialized_none fuel s p l :
  chain (pl_tickets s) p l -> (length l <= fuel)%nat ->
  (forall t tk, t ∈ l -> pl_tickets s !! t = Some tk -> tk_initialized tk = false) ->
  first_initialized fuel s p = Ok (Some None).
Proof.
  revert p fuel. induction l as [|t l IH]; intros p fuel.
  - intros -> _ _. by destruct fuel.
  - intros [-> (tk & Ht & Hc)] Hf Hi. destruct fuel; cbn [length] in Hf; [lia|].
    cbn [first_initialized]. unfold get_ticket. rewrite Ht, bind_Ok.
    rewrite (Hi t tk) by (done || left). apply IH; [done|lia|]. intros u tku Hu. apply Hi. by right.
Qed.

(** Taking the first free ticket, when it has a connection. *)
Lemma take_first t ready fresh held s :
  pool_ok (t :: ready) fresh held s ->
  exists s1 s2, take_ticket t s = Ok s1 /\ wait_ticket t s1 = Ok (Some s2) /\
    pool_ok ready fresh (t :: held) s2.
Proof.
  intros Hs. pose proof (pool_nodup _ _ _ _ Hs) as Hnd. pose proof (pool_length _ _ _ _ Hs) as Hlen.
  destruct Hs as [Hf Hu Hall Htk Hdom (Hc1 & Hc2 & Hc3)].
  cbn [app] in Hnd. apply NoDup_cons in Hnd as [Ht _]. rewrite !not_elem_of_app in Ht. destruct Ht as (Ht1 & Ht2 & Ht3).
  destruct Hf as [Hfree (tk & Hlk & Hf)]. destruct (Htk t tk Hlk) as (Hp & Hw & Hi).
  unfold take_ticket, get_ticket. rewrite Hlk, bind_Ok. cbn [mret outcome_ret].
  eexists _, _. split; [reflexivity|]. unfold wait_ticket, get_ticket. cbn [pl_tickets].
  rewrite lookup_insert_eq, bind_Ok. cbn [tk_wait add_pending set_next].
  rewrite Hw, bool_decide_eq_false_2 by done. split; [reflexivity|].
  unfold put_ticket, set_tickets. cbn [pl_tickets pl_free pl_used pl_num_free pl_num_used pl_num_connected].
  rewrite insert_insert_eq. split; cbn [pl_tickets pl_free pl_used pl_num_free pl_num_used pl_num_connected].
  - apply chain_insert; [|done]. rewrite not_elem_of_app. done.
  - by apply (chain_push _ (pl_used s)).
  - rewrite <- Hall. cbn [app]. rewrite <- !Permutation_middle. done.
  - intros u tku. destruct (decide (u = t)) as [->|Hne].
    + rewrite lookup_insert_eq. intros [= <-]. cbn. rewrite Hp. split; [done|].
      rewrite bool_decide_eq_true_2 by left. by rewrite Hi.
    + rewrite lookup_insert_ne by done. intros Hl. destruct (Htk u tku Hl) as (-> & -> & ->).
      split; [done|]. split; [|done]. apply bool_decide_ext. rewrite elem_of_cons. tauto.
  - intros u. rewrite <- Hdom. destruct (decide (u = t)) as [->|Hne].
    + rewrite lookup_insert_eq, Hlk. done.
    + by rewrite lookup_insert_ne.
  - rewrite Hc1, Hc2, Hc3. unfold wrap, zlen in *. unfold pool_size in Hlen. cbn in *.
    rewrite ?length_app in *. cbn [length] in *. rewrite ?length_app in *.
    change ECRYPTFS_TSPI_DEFAULT_MAX_NUM_CONNECTIONS with 10%nat in *. change (2 ^ 32) with 4294967296. lia.
Qed.

(** Opening a connection does not move the ticket. *)
Lemma connect_first k t fresh held s :
  pool_ok [] (t :: fresh) held s ->
  exists ok s', connect_ticket k t s = Ok (ok, s') /\
    if ok : bool then pool_ok [t] fresh held s' else pool_ok [] (t :: fresh) held s'.
Proof.
  intros Hs. pose proof (pool_nodup _ _ _ _ Hs) as Hnd. pose proof (pool_length _ _ _ _ Hs) as Hlen.
  pose proof Hs as [Hf Hu Hall Htk Hdom (Hc1 & Hc2 & Hc3)].
  cbn [app] in Hnd. apply NoDup_cons in Hnd as [Ht _]. rewrite !not_elem_of_app in Ht. destruct Ht as (Ht2 & Ht3).
  cbn [app] in Hf. destruct Hf as [Hfree (tk & Hlk & Hf)]. destruct (Htk t tk Hlk) as (Hp & Hw & Hi).
  assert (chain (pl_tickets s) (pl_free s) (t :: fresh)) as Hchain by (split; [done|by exists tk]).
  unfold connect_ticket, get_ticket. rewrite Hlk, bind_Ok.
  destruct (Tspi_Context_Create k) as [ctx|]; [|by exists false, s].
  assert (forall b, is_Some (<[t := b]> (pl_tickets s) !! t)) as Hsome by (intros b; by rewrite lookup_insert_eq).
  assert (forall u b, is_Some (<[t := b]> (pl_tickets s) !! u) <-> (u < pool_size)%nat) as Hdom'.
  { intros u b. rewrite <- Hdom. destruct (decide (u = t)) as [->|Hne].
    - rewrite lookup_insert_eq, Hlk. done.
    - by rewrite lookup_insert_ne. }
  destruct (Tspi_Context_Connect k ctx).
  - eexists true, _. split; [reflexivity|]. unfold put_ticket, set_tickets.
    split; cbn [pl_tickets pl_free pl_used pl_num_free pl_num_used pl_num_connected]; try done.
    + by apply (chain_update _ _ _ t tk).
    + by apply chain_insert.
    + intros u tku. destruct (decide (u = t)) as [->|Hne].
      * rewrite lookup_insert_eq. intros [= <-]. cbn. by rewrite Hp, Hw, (bool_decide_eq_true_2 (t ∉ fresh)).
      * rewrite lookup_insert_ne by done. intros Hl. destruct (Htk u tku Hl) as (-> & -> & ->).
        split; [done|]. split; [done|]. apply bool_decide_ext. rewrite elem_of_cons. tauto.
    + split; [done|]. split; [done|]. rewrite Hc3. unfold wrap, zlen in *. unfold pool_size in Hlen. cbn in *.
      change ECRYPTFS_TSPI_DEFAULT_MAX_NUM_CONNECTIONS with 10%nat in *. change (2 ^ 32) with 4294967296. lia.
  - eexists false, _. split; [reflexivity|]. unfold put_ticket, set_tickets.
    split; cbn [pl_tickets pl_free pl_used pl_num_free pl_num_used pl_num_connected]; try done.
    + by apply (chain_update _ _ _ t tk).
    + by apply chain_insert.
    + intros u tku. destruct (decide (u = t)) as [->|Hne].
      * rewrite lookup_insert_eq. intros [= <-]. cbn. by rewrite Hp, Hw, Hi.
      * rewrite lookup_insert_ne by done. apply Htk.
Qed.
End Steps.

Section Use.
Context `{TssContext}.

Lemma grab_ok k ready fresh held s :
  pool_ok ready fresh held s -> ready ++ fresh <> [] ->
  exists rc t s', ecryptfs_tspi_grab_ticket k s = Ok (Some (rc, t, s')) /\
    match t with
    | Some t => rc = 0 /\ exists ready' fresh', pool_ok ready' fresh' (t :: held) s' /\
        ready ++ fresh = t :: ready' ++ fresh' /\
        (ready = t :: ready' /\ fresh' = fresh \/ ready = [] /\ ready' = [] /\ fresh = t :: fresh')
    | None => rc = - EIO /\ ready = [] /\ pool_ok ready fresh held s'
    end.
Proof.
  intros Hs Hne. pose proof (pool_nodup _ _ _ _ Hs) as Hnd. pose proof (pool_length _ _ _ _ Hs) as Hlen.
  pose proof Hs as [Hf _ _ Htk _ _]. unfold ecryptfs_tspi_grab_ticket, choose_ticket.
  destruct ready as [|t ready].
  - destruct fresh as [|t fresh]; [done|]. cbn [app] in Hf. pose proof Hf as [-> _].
    rewrite (first_initialized_none _ _ _ (t :: fresh)), bind_Ok.
    2: { split; [done|]. by destruct Hf as [_ Hf]. }
    2: { unfold list_fuel. unfold pool_size in Hlen. cbn [length] in *. lia. }
    2: { intros u tk Hu Hl. destruct (Htk _ _ Hl) as (_ & _ & ->). by rewrite bool_decide_eq_false_2 by tauto. }
    destruct (connect_first k _ _ _ _ Hs) as (ok & s1 & -> & Hok). rewrite bind_Ok. destruct ok; cbn [negb].
    + destruct (take_first _ _ _ _ _ Hok) as (s2 & s3 & -> & Hw & Hs3). cbn [mret outcome_ret obind].
      rewrite Hw. cbn [mret outcome_ret obind]. eexists _, (Some t), s3. split; [reflexivity|]. split; [done|].
      exists [], fresh. split; [done|]. split; [done|]. by right.
    + cbn [mret outcome_ret]. rewrite bind_Ok. by eexists _, None, s1.
  - cbn [app] in Hf. pose proof Hf as [-> (tk & Htk0 & _)].
    rewrite (first_initialized_ready _ _ _ (ready ++ fresh)), bind_Ok.
    2: unfold list_fuel; lia.
    2: { split; [done|]. destruct Hf as [_ Hf]. done. }
    2: { intros tk' Hl. destruct (Htk _ _ Hl) as (_ & _ & ->). rewrite bool_decide_eq_true_2; [done|].
         apply NoDup_cons in Hnd as [Hn _]. rewrite !not_elem_of_app in Hn. tauto. }
    destruct (take_first _ _ _ _ _ Hs) as (s2 & s3 & -> & Hw & Hs3). cbn [mret outcome_ret obind].
    rewrite Hw. cbn [mret outcome_ret obind]. eexists _, (Some t), s3. split; [reflexivity|]. split; [done|].
    exists ready, fresh. split; [done|]. split; [done|]. by left.
Qed.

Lemma least_pending_same fuel s ticket p l :
  chain (pl_tickets s) p l -> (length l <= fuel)%nat -> ticket ∉ l -> is_Some (pl_tickets s !! ticket) ->
  (forall t tk, pl_tickets s !! t = Some tk -> tk_num_pending tk = 0) ->
  least_pending fuel s ticket p = Ok (Some ticket).
Proof.
  intros Hc Hf Hn [tk0 Hk] Hp. revert p fuel Hc Hf Hn. induction l as [|t l IH]; intros p fuel.
  - intros -> _ _. by destruct fuel.
  - intros [-> (tk & Ht & Hc)] Hf [Hne Hn]%not_elem_of_cons. destruct fuel; cbn [length] in Hf; [lia|].
    cbn [least_pending]. rewrite bool_decide_eq_false_2 by done. unfold get_ticket.
    rewrite Hk, Ht, !bind_Ok, (Hp _ _ Hk), (Hp _ _ Ht). cbn [Z.ltb Z.compare]. apply IH; [done|lia|done].
Qed.

(** When all tickets are in use, a user waits. *)
Lemma grab_full k held s : pool_ok [] [] held s -> ecryptfs_tspi_grab_ticket k s = Ok None.
Proof.
  intros Hs. pose proof (pool_nodup _ _ _ _ Hs) as Hnd. pose proof (pool_length _ _ _ _ Hs) as Hlen.
  destruct Hs as [Hf Hu Hall Htk Hdom _]. cbn [app chain] in Hf. cbn [app] in Hnd.
  unfold ecryptfs_tspi_grab_ticket, choose_ticket. rewrite Hf.
  destruct held as [|t held]; [discriminate Hlen|].
  destruct Hu as [-> (tk & Hl & Hu)]. unfold get_ticket. rewrite Hl, bind_Ok.
  apply NoDup_cons in Hnd as [Ht _]. destruct (Htk _ _ Hl) as (_ & Hw & _).
  rewrite (least_pending_same _ _ _ _ held), bind_Ok; [|done| |done|by exists tk|by intros u tku Hx; apply Htk in Hx as [? _]].
  2: unfold list_fuel, pool_size in *; cbn [length] in *; lia.
  rewrite Hl, !bind_Ok. cbn [mret outcome_ret obind]. unfold wait_ticket, get_ticket, put_ticket, set_tickets.
  cbn [pl_tickets]. rewrite lookup_insert_eq, bind_Ok. cbn [tk_wait add_pending].
  rewrite Hw, bool_decide_eq_true_2 by left. done.
Qed.

(** Giving back the ticket grabbed last. *)
Lemma release_ok t ready fresh held s :
  pool_ok ready fresh (t :: held) s ->
  exists s', ecryptfs_tspi_release_ticket t s = Ok s' /\ pool_ok (t :: ready) fresh held s'.
Proof.
  intros Hs. pose proof (pool_nodup _ _ _ _ Hs) as Hnd. pose proof (pool_length _ _ _ _ Hs) as Hlen.
  destruct Hs as [Hf Hu Hall Htk Hdom (Hc1 & Hc2 & Hc3)].
  assert ((t ∉ ready ++ fresh) /\ (t ∉ held) /\ (t ∉ fresh)) as (Ht1 & Ht2 & Ht3).
  { rewrite app_assoc in Hnd. apply NoDup_app in Hnd as (_ & Hd & Hn). apply NoDup_cons in Hn as [Hn _].
    assert (t ∉ ready ++ fresh) as Hx by (intros Hin; eapply Hd; [exact Hin|left]).
    split; [done|]. split; [done|]. rewrite not_elem_of_app in Hx. tauto. }
  destruct Hu as [Hused (tk & Hlk & Hu)]. destruct (Htk t tk Hlk) as (Hp & Hw & Hi).
  unfold ecryptfs_tspi_release_ticket, get_ticket. rewrite Hlk, bind_Ok. eexists. split; [reflexivity|].
  split; cbn [pl_tickets pl_free pl_used pl_num_free pl_num_used pl_num_connected].
  - by apply (chain_push _ (pl_free s)).
  - by apply chain_insert.
  - rewrite <- Hall. cbn [app]. rewrite <- !Permutation_middle. done.
  - intros u tku. destruct (decide (u = t)) as [->|Hne].
    + rewrite lookup_insert_eq. intros [= <-]. cbn. rewrite Hp, Hi. split; [done|].
      by rewrite (bool_decide_eq_false_2 (t ∈ held)).
    + rewrite lookup_insert_ne by done. intros Hl. destruct (Htk u tku Hl) as (-> & -> & ->).
      split; [done|]. split; [|done]. apply bool_decide_ext. rewrite elem_of_cons. tauto.
  - intros u. rewrite <- Hdom. destruct (decide (u = t)) as [->|Hne].
    + rewrite lookup_insert_eq, Hlk. done.
    + by rewrite lookup_insert_ne.
  - rewrite Hc1, Hc2, Hc3. unfold wrap, zlen in *. unfold pool_size in Hlen. cbn in *.
    rewrite ?length_app in *. cbn [length] in *. rewrite ?length_app in *.
    change ECRYPTFS_TSPI_DEFAULT_MAX_NUM_CONNECTIONS with 10%nat in *. change (2 ^ 32) with 4294967296. lia.
Qed.
End Use.

(** ** Connections of tickets *)
Definition ctx_of (s : pool) (t : nat) : Z :=
  match pl_tickets s !! t with Some tk => tk_tspi_ctx tk | None => 0 end.

Lemma insert_ctx s s' t tk tk' :
  pl_tickets s !! t = Some tk -> tk_tspi_ctx tk' = tk_tspi_ctx tk ->
  pl_tickets s' = <[t := tk']> (pl_tickets s) -> forall u, ctx_of s' u = ctx_of s u.
Proof.
  intros Ht Hc Hs u. unfold ctx_of. rewrite Hs. destruct (decide (u = t)) as [->|Hne].
  - by rewrite lookup_insert_eq, Ht.
  - by rewrite lookup_insert_ne.
Qed.

Lemma take_ctx t s s' : take_ticket t s = Ok s' -> forall u, ctx_of s' u = ctx_of s u.
Proof.
  unfold take_ticket, get_ticket. destruct (pl_tickets s !! t) as [tk|] eqn:Ht; [|done].
  intros [= <-]. eapply insert_ctx; [exact Ht| |reflexivity]. done.
Qed.

Lemma release_ctx t s s' : ecryptfs_tspi_release_ticket t s = Ok s' -> forall u, ctx_of s' u = ctx_of s u.
Proof.
  unfold ecryptfs_tspi_release_ticket, get_ticket. destruct (pl_tickets s !! t) as [tk|] eqn:Ht; [|done].
  intros [= <-]. eapply insert_ctx; [exact Ht| |reflexivity]. done.
Qed.

Lemma wait_ctx t s s' : wait_ticket t s = Ok (Some s') -> forall u, ctx_of s' u = ctx_of s u.
Proof.
  unfold wait_ticket, get_ticket. destruct (pl_tickets s !! t) as [tk|] eqn:Ht; [|done]. cbn [obind].
  destruct (tk_wait tk); [done|]. intros [= <-].
  eapply insert_ctx; [exact Ht| |reflexivity]. done.
Qed.

(** A ticket that is ready keeps its connection. *)
Lemma grab_ctx `{TssContext} k t ready fresh held s r :
  pool_ok (t :: ready) fresh held s -> ecryptfs_tspi_grab_ticket k s = Ok (Some r) ->
  forall u, ctx_of r.2 u = ctx_of s u.
Proof.
  intros Hs. pose proof (pool_nodup _ _ _ _ Hs) as Hnd. destruct Hs as [Hf _ _ Htk _ _].
  cbn [app] in Hf, Hnd. pose proof Hf as [Hfree _].
  unfold ecryptfs_tspi_grab_ticket, choose_ticket. rewrite Hfree in *.
  rewrite (first_initialized_ready _ _ _ (ready ++ fresh)), bind_Ok; [|unfold list_fuel; lia|done|].
  2: { intros tk Hl. destruct (Htk _ _ Hl) as (_ & _ & ->). rewrite bool_decide_eq_true_2; [done|].
       apply NoDup_cons in Hnd as [Hn _]. rewrite !not_elem_of_app in Hn. tauto. }
  destruct (take_ticket t s) as [s1|] eqn:H1; [|done]. cbn [obind mret outcome_ret].
  destruct (wait_ticket t s1) as [[s2|]|] eqn:H2; [|done..]. intros [= <-] u. cbn [snd].
  by rewrite (wait_ctx _ _ _ H2), (take_ctx _ _ _ H1).
Qed.

(** ** Initialisation *)
Lemma seq_snoc n : seq 0 (S n) = seq 0 n ++ [n].
Proof. rewrite seq_S. done. Qed.

Lemma init_tickets_ok `{Heap} wait_junk i n s :
  heap_never_fails -> (forall j, wait_junk j = false) -> (i + n = pool_size)%nat ->
  chain (pl_tickets s) (pl_free s) (reverse (seq 0 i)) -> pl_used s = None ->
  (forall t tk, pl_tickets s !! t = Some tk -> tk_num_pending tk = 0 /\ tk_wait tk = false /\ tk_initialized tk = false) ->
  (forall t, is_Some (pl_tickets s !! t) <-> (t < i)%nat) ->
  pl_num_free s = Z.of_nat i -> pl_num_used s = 0 -> pl_num_connected s = 0 ->
  exists s', init_tickets wait_junk i n s = (0, s') /\ pool_ok [] (reverse (seq 0 pool_size)) [] s'.
Proof.
  intros Hh Hj. revert i s. induction n as [|n IH]; intros i s Hi Hf Hu Htk Hdom Hc1 Hc2 Hc3.
  - exists s. split; [done|]. rewrite Nat.add_0_r in Hi. subst i. split; cbn [app]; try done.
    + rewrite app_nil_r. apply reverse_Permutation.
    + intros t tk Hl. destruct (Htk t tk Hl) as (-> & -> & ->). split; [done|]. split; [done|].
      rewrite bool_decide_eq_false_2; [done|]. intros Hn. apply Hn. rewrite elem_of_reverse, elem_of_seq.
      split; [lia|]. apply Hdom. by exists tk.
  - cbn [init_tickets]. rewrite Hh. cbn [negb]. apply IH; unfold push_free;
      cbn [pl_tickets pl_free pl_used pl_num_free pl_num_used pl_num_connected]; try done; try lia.
    + rewrite seq_snoc, reverse_app. apply (chain_push _ (pl_free s)); [|done|done].
      rewrite elem_of_reverse, elem_of_seq. lia.
    + intros t tk. destruct (decide (t = i)) as [->|Hne].
      * rewrite lookup_insert_eq. intros [= <-]. cbn. by rewrite Hj.
      * rewrite lookup_insert_ne by done. apply Htk.
    + intros t. destruct (decide (t = i)) as [->|Hne].
      * rewrite lookup_insert_eq. split; [lia|done].
      * rewrite lookup_insert_ne, Hdom by done. lia.
    + rewrite Hc1. unfold wrap, pool_size in *. change ECRYPTFS_TSPI_DEFAULT_MAX_NUM_CONNECTIONS with 10%nat in *.
      change (2 ^ 32) with 4294967296. lia.
Qed.

Lemma tspi_init_ok `{Heap} wait_junk :
  heap_never_fails -> (forall j, wait_junk j = false) ->
  exists s, ecryptfs_tspi_init wait_junk empty_pool = (0, Some (lit "tspi"), s) /\
    pool_ok [] (reverse (seq 0 pool_size)) [] s.
Proof.
  intros Hh Hj. unfold ecryptfs_tspi_init. rewrite Hh. cbn [negb pl_tickets pl_free pl_used empty_pool].
  destruct (init_tickets_ok wait_junk 0 pool_size (Pool ∅ None None 0 0 0)) as (s & Hr & Hs); try done.
  - intros t. split; [by intros []|lia].
  - exists s. split; [|done]. unfold pool_size in Hr. by rewrite Hr.
Qed.

(** ** Properties of the pool *)
Section Theorems.
Context `{TssContext}.

(** Use of the tickets in the order of a stack: [held] are the tickets in use,
    [most] is the largest number of them at any time so far.  A call may find
    the TPM daemon out of order. *)
Inductive nested_use (start : pool) : pool -> list nat -> nat -> Prop :=
  | nested_start : nested_use start start [] 0
  | nested_grab k s held most t s' :
      nested_use start s held most ->
      ecryptfs_tspi_grab_ticket k s = Ok (Some (0, Some t, s')) ->
      nested_use start s' (t :: held) (most `max` S (length held))
  | nested_no_connection k s held most rc s' :
      nested_use start s held most ->
      ecryptfs_tspi_grab_ticket k s = Ok (Some (rc, None, s')) ->
      nested_use start s' held most
  | nested_release s t held most s' :
      nested_use start s (t :: held) most -> ecryptfs_tspi_release_ticket t s = Ok s' ->
      nested_use start s' held most.

Lemma some_free ready fresh held s :
  pool_ok ready fresh held s -> (length held < pool_size)%nat -> ready ++ fresh <> [].
Proof.
  intros Hs Hl Hn. pose proof (pool_length _ _ _ _ Hs) as Hlen. apply (f_equal length) in Hn.
  rewrite length_app in Hn. cbn [length] in Hn. lia.
Qed.

(** A call that comes back found a free ticket. *)
Lemma grab_some k ready fresh held s r :
  pool_ok ready fresh held s -> ecryptfs_tspi_grab_ticket k s = Ok (Some r) -> ready ++ fresh <> [].
Proof.
  intros Hs Hg [-> ->]%app_eq_nil. by rewrite (grab_full k _ _ Hs) in Hg.
Qed.

Lemma nested_use_ok start s held most fresh0 :
  pool_ok [] fresh0 [] start -> nested_use start s held most ->
  exists ready fresh, pool_ok ready fresh held s /\ (length ready + length held = most)%nat.
Proof.
  intros Hst. induction 1 as [|k s held most t s' _ (ready & fresh & Hs & Hm) Hg
    |k s held most rc s' _ (ready & fresh & Hs & Hm) Hg|s t held most s' _ (ready & fresh & Hs & Hm) Hr].
  - by exists [], fresh0.
  - destruct (grab_ok k _ _ _ _ Hs (grab_some _ _ _ _ _ _ Hs Hg)) as (rc & t' & s1 & Hg' & Ht).
    rewrite Hg in Hg'. injection Hg' as <- <- <-. destruct Ht as (_ & ready' & fresh' & Hs' & _ & Hcase).
    exists ready', fresh'. split; [done|].
    destruct Hcase as [[-> _]|(-> & -> & _)]; cbn [length] in *; lia.
  - destruct (grab_ok k _ _ _ _ Hs (grab_some _ _ _ _ _ _ Hs Hg)) as (rc' & t' & s1 & Hg' & Ht).
    rewrite Hg in Hg'. injection Hg' as <- <- <-. destruct Ht as (_ & _ & Hs'). by exists ready, fresh.
  - destruct (release_ok _ _ _ _ _ Hs) as (s1 & Hr' & Hs'). rewrite Hr in Hr'. injection Hr' as <-.
    exists (t :: ready), fresh. split; [done|]. cbn [length] in *. lia.
Qed.
End Theorems.

(** C16. As long as the tickets are given back in the order of a stack, the pool
    stays sound: the free list and the used list share the ten tickets out, the
    used list is the stack, every ticket in use is locked by one user and nobody
    waits, the counters count, and there are as many connections as there were
    tickets in use at the worst time - one, when a call ends before the next
    begins.  A user who comes while fewer than ten tickets are in use is not kept
    waiting: he gets a free ticket, or the code of a connection that failed. *)
Theorem nested_use_keeps_pool `{Heap, TssContext} wait_junk start s held most :
  heap_never_fails -> (forall i, wait_junk i = false) ->
  ecryptfs_tspi_init wait_junk empty_pool = (0, Some (lit "tspi"), start) ->
  nested_use start s held most ->
  exists ready fresh, pool_ok ready fresh held s /\
    pl_num_connected s = Z.of_nat most /\
    forall k, (length held < pool_size)%nat ->
      exists rc t s', ecryptfs_tspi_grab_ticket k s = Ok (Some (rc, t, s')) /\
        match t with Some t => rc = 0 /\ (t ∈ ready ++ fresh) | None => rc = - EIO end.
Proof.
  intros Hh Hj Hi Hu. destruct (tspi_init_ok wait_junk Hh Hj) as (s0 & Hi' & Hpool).
  rewrite Hi in Hi'. injection Hi' as <-.
  destruct (nested_use_ok _ _ _ _ _ Hpool Hu) as (ready & fresh & Hs & Hm).
  exists ready, fresh. split; [done|]. split.
  - destruct (po_counters _ _ _ _ Hs) as (_ & _ & ->). unfold zlen. rewrite length_app. lia.
  - intros k Hl. destruct (grab_ok k _ _ _ _ Hs) as (rc & t & s' & Hg & Ht); [by eapply some_free|].
    exists rc, t, s'. split; [done|]. destruct t as [t|]; [|by destruct Ht].
    destruct Ht as (-> & ready' & fresh' & _ & -> & _). split; [done|]. left.
Qed.

(** ** Other orders *)

(** Giving back a ticket that is not the last one grabbed, then the last one. *)
Lemma out_of_order_ok b a ready fresh held s :
  pool_ok ready fresh (b :: a :: held) s ->
  exists s1 s2, ecryptfs_tspi_release_ticket a s = Ok s1 /\ ecryptfs_tspi_release_ticket b s1 = Ok s2 /\
    chain (pl_tickets s1) (pl_free s1) (a :: ready ++ fresh) /\ chain (pl_tickets s1) (pl_used s1) held /\
    chain (pl_tickets s2) (pl_free s2) (b :: a :: ready ++ fresh) /\
    chain (pl_tickets s2) (pl_used s2) (a :: ready ++ fresh) /\
    pl_num_used s2 = zlen held.
Proof.
  intros Hs. pose proof (pool_nodup _ _ _ _ Hs) as Hnd. pose proof (pool_length _ _ _ _ Hs) as Hlen.
  destruct Hs as [Hf Hu Hall Htk Hdom (Hc1 & Hc2 & Hc3)].
  rewrite app_assoc in Hnd. apply NoDup_app in Hnd as (_ & Hd & Hn).
  apply NoDup_cons in Hn as [Hb Hn]. apply NoDup_cons in Hn as [Ha _].
  apply not_elem_of_cons in Hb as [Hba Hb].
  assert (a ∉ ready ++ fresh) as Hax by (intros Hin; eapply Hd; [exact Hin|right; left]).
  assert (b ∉ ready ++ fresh) as Hbx by (intros Hin; eapply Hd; [exact Hin|left]).
  destruct Hu as [_ (tkb & Hlb & Hnb & tka & Hla & Hu)].
  unfold ecryptfs_tspi_release_ticket, get_ticket. rewrite Hla, bind_Ok.
  eexists _, _. split; [reflexivity|]. cbn [pl_tickets pl_free pl_used pl_num_used].
  rewrite lookup_insert_ne, Hlb, bind_Ok by done. split; [reflexivity|].
  cbn [pl_tickets pl_free pl_used pl_num_used].
  assert (chain (<[a := set_next (pl_free s) (set_wait false tka)]> (pl_tickets s)) (Some a) (a :: ready ++ fresh))
    as Hfree by (by apply (chain_push _ (pl_free s))).
  assert (b ∉ a :: ready ++ fresh) as Hbfree by (by apply not_elem_of_cons).
  split; [done|]. split; [by apply chain_insert|]. split; [by apply (chain_push _ (Some a))|].
  split; [rewrite Hnb; by apply chain_insert|].
  rewrite Hc2. unfold wrap, zlen in *. unfold pool_size in Hlen. cbn [length] in *.
  change ECRYPTFS_TSPI_DEFAULT_MAX_NUM_CONNECTIONS with 10%nat in *. change (2 ^ 32) with 4294967296. lia.
Qed.

(** Any use of the pool from then on: any number of users choose tickets, wait for
    them and give them back, in any order, and every choice leaves a free ticket.
    [w] are the tickets that are waited for and [u] those in use. *)
Inductive later_use `{TssContext} (start : pool) : pool -> list nat -> list nat -> Prop :=
  | later_start : later_use start start [] []
  | later_choose k s w u t s' :
      later_use start s w u -> choose_ticket k s = Ok (Some (0, Some t, s')) -> pl_free s' <> None ->
      later_use start s' (t :: w) u
  | later_no_ticket k s w u rc s' :
      later_use start s w u -> choose_ticket k s = Ok (Some (rc, None, s')) -> later_use start s' w u
  | later_wait s w1 w2 u t s' :
      later_use start s (w1 ++ t :: w2) u -> wait_ticket t s = Ok (Some s') ->
      later_use start s' (w1 ++ w2) (t :: u)
  | later_release s w u1 u2 t s' :
      later_use start s w (u1 ++ t :: u2) -> ecryptfs_tspi_release_ticket t s = Ok s' ->
      later_use start s' w (u1 ++ u2).

(** The list of used tickets has a head and every ticket in use has a successor,
    so that giving one back leaves a head. *)
Definition never_idle (s : pool) (out : list nat) : Prop :=
  pl_used s <> None /\ pl_free s <> None /\
  forall t, t ∈ out -> exists tk, pl_tickets s !! t = Some tk /\ tk_next tk <> None.

Lemma never_idle_put s out t tk tk' :
  pl_tickets s !! t = Some tk -> tk_next tk' = tk_next tk -> never_idle s out -> never_idle (put_ticket t tk' s) out.
Proof.
  intros Ht Hn (Hu & Hf & Ho). split_and!; [done..|]. intros x Hx. destruct (Ho x Hx) as (tkx & Hlx & Hnx).
  unfold put_ticket, set_tickets. cbn [pl_tickets]. destruct (decide (x = t)) as [->|Hne].
  - exists tk'. rewrite lookup_insert_eq. split; [done|]. rewrite Hn. by simplify_eq.
  - exists tkx. by rewrite lookup_insert_ne.
Qed.

Lemma never_idle_incl s out out' : (forall t, t ∈ out' -> t ∈ out) -> never_idle s out -> never_idle s out'.
Proof. intros Hi (Hu & Hf & Ho). split_and!; [done..|]. auto. Qed.

Lemma never_idle_take s out t s' :
  take_ticket t s = Ok s' -> pl_free s' <> None -> never_idle s out -> never_idle s' (t :: out).
Proof.
  unfold take_ticket, get_ticket. destruct (pl_tickets s !! t) as [tk|] eqn:Ht; [|done].
  rewrite bind_Ok. intros [= <-] Hf (Hu & _ & Ho). split_and!; [done..|].
  cbn [pl_tickets]. intros x Hx. destruct (decide (x = t)) as [->|Hne].
  - rewrite lookup_insert_eq. by eexists.
  - rewrite lookup_insert_ne by done. apply Ho. by apply elem_of_cons in Hx as [|].
Qed.

Lemma never_idle_connect `{TssContext} k t s out ok s' :
  connect_ticket k t s = Ok (ok, s') -> never_idle s out -> never_idle s' out.
Proof.
  unfold connect_ticket, get_ticket. destruct (pl_tickets s !! t) as [tk|] eqn:Ht; [|done]. rewrite bind_Ok.
  destruct (Tspi_Context_Create k) as [ctx|]; [|by intros [= _ <-]].
  destruct (Tspi_Context_Connect k ctx); intros [= _ <-] Hi.
  - exact (never_idle_put s out t tk (set_initialized true (set_ctx ctx tk)) Ht eq_refl Hi).
  - exact (never_idle_put s out t tk (set_ctx ctx tk) Ht eq_refl Hi).
Qed.

Lemma never_idle_choose `{TssContext} k s out rc r s' :
  choose_ticket k s = Ok (Some (rc, r, s')) -> (r <> None -> pl_free s' <> None) -> never_idle s out ->
  never_idle s' (match r with Some t => t :: out | None => out end).
Proof.
  unfold choose_ticket. intros Hc Hf Hi. destruct (pl_free s) as [head|] eqn:Hh; [|by destruct Hi as (_ & ? & _)].
  destruct (first_initialized list_fuel s (Some head)) as [[[t|]|]|]; cbn [obind] in Hc; try done.
  - destruct (take_ticket t s) as [s1|] eqn:Ht; [|done]. cbn [obind] in Hc. injection Hc as _ <- <-.
    eapply never_idle_take; [exact Ht| |done]. by apply Hf.
  - destruct (connect_ticket k head s) as [[ok s1]|] eqn:Hco; [|done]. cbn [obind] in Hc.
    apply (never_idle_connect k head s out) in Hco; [|done]. destruct ok; cbn [negb] in Hc.
    + destruct (take_ticket head s1) as [s2|] eqn:Ht; [|done]. cbn [obind] in Hc.
      injection Hc as _ <- <-. eapply never_idle_take; [exact Ht| |done]. by apply Hf.
    + by injection Hc as _ <- <-.
Qed.

Lemma later_use_never_idle `{TssContext} start s w u :
  never_idle start [] -> later_use start s w u -> never_idle s (w ++ u).
Proof.
  intros Hi0. induction 1 as [|k s w u t s' _ IH Hc Hf|k s w u rc s' _ IH Hc|s w1 w2 u t s' _ IH Hw|s w u1 u2 t s' _ IH Hr].
  - done.
  - by apply (never_idle_choose k s (w ++ u) 0 (Some t) s').
  - by apply (never_idle_choose k s (w ++ u) rc None s').
  - unfold wait_ticket, get_ticket in Hw. destruct (pl_tickets s !! t) as [tk|] eqn:Ht; [|done].
    rewrite bind_Ok in Hw. destruct (tk_wait tk); [done|]. injection Hw as <-.
    eapply never_idle_put; [exact Ht|done|]. eapply never_idle_incl; [|exact IH].
    intros x. rewrite !elem_of_app, !elem_of_cons. tauto.
  - unfold ecryptfs_tspi_release_ticket, get_ticket in Hr. destruct IH as (Hu & Hf & Ho).
    destruct (Ho t) as (tk & Ht & Hn); [rewrite !elem_of_app, elem_of_cons; tauto|].
    rewrite Ht, bind_Ok in Hr. injection Hr as <-. split_and!; [done..|]. cbn [pl_tickets].
    intros x Hx. destruct (decide (x = t)) as [->|Hne].
    + rewrite lookup_insert_eq. by eexists.
    + rewrite lookup_insert_ne by done. apply Ho. rewrite !elem_of_app, elem_of_cons in *. tauto.
Qed.

Lemma wait_for_end_busy pool_at fuel i :
  (forall j, pl_used (pool_at j) <> None) -> wait_for_end pool_at fuel i = (i + fuel)%nat.
Proof.
  intros Hb. revert i. induction fuel as [|fuel IH]; intros i; cbn [wait_for_end]; [lia|].
  destruct (pl_used (pool_at i)) eqn:Hu; [rewrite IH; lia|by destruct (Hb i)].
Qed.

(** C24. Giving back a ticket that is not the last one grabbed spoils the pool, from
    any sound state: after the first release the ticket on top of the stack is in
    neither list; after both releases the two lists share all their tickets but
    one, the tickets still in use are in neither, and the counter of used tickets
    no longer says how many the list has.  When the two users were the only ones,
    the module can never be shut down any more: however the tickets are grabbed
    and given back afterwards, in any order and by any number of users, as long as
    every grab leaves a free ticket, the list of used tickets is never empty again,
    and shutting down waits its five seconds in vain and fails with [EBUSY]. *)
Theorem out_of_order_release_spoils `{TssContext} b a ready fresh held s :
  pool_ok ready fresh (b :: a :: held) s ->
  exists s1 s2, ecryptfs_tspi_release_ticket a s = Ok s1 /\ ecryptfs_tspi_release_ticket b s1 = Ok s2 /\
    chain (pl_tickets s1) (pl_free s1) (a :: ready ++ fresh) /\ chain (pl_tickets s1) (pl_used s1) held /\
    (b ∉ (a :: ready ++ fresh) ++ held) /\
    chain (pl_tickets s2) (pl_free s2) (b :: a :: ready ++ fresh) /\
    chain (pl_tickets s2) (pl_used s2) (a :: ready ++ fresh) /\
    pl_num_used s2 = zlen held /\
    (held = [] -> forall pool_at, (forall i, exists w u, later_use s2 (pool_at i) w u) ->
      (forall i, pl_used (pool_at i) <> None) /\
      ecryptfs_tspi_finalize pool_at = Ok (Some (- EBUSY, pool_at ECRYPTFS_TSPI_MAX_WAIT_FOR_END, []))).
Proof.
  intros Hs. pose proof (pool_nodup _ _ _ _ Hs) as Hnd.
  destruct (out_of_order_ok _ _ _ _ _ _ Hs) as (s1 & s2 & H1 & H2 & Hf1 & Hu1 & Hf2 & Hu2 & Hn).
  exists s1, s2. split_and!; try done.
  - rewrite app_assoc in Hnd. apply NoDup_app in Hnd as (_ & Hd & Hnd).
    apply NoDup_cons in Hnd as [Hb _]. apply not_elem_of_cons in Hb as [Hba Hb].
    cbn [app]. rewrite not_elem_of_cons, !not_elem_of_app. split; [done|]. split; [|done].
    split; intros Hin; (eapply Hd; [|left]); rewrite elem_of_app; tauto.
  - intros _ pool_at Hlater.
    assert (never_idle s2 []) as Hi0.
    { destruct Hu2 as [Hu2 _], Hf2 as [Hf2 _]. split_and!; [by rewrite Hu2|by rewrite Hf2|].
      intros t Ht. by apply not_elem_of_nil in Ht. }
    assert (forall i, pl_used (pool_at i) <> None) as Hbusy.
    { intros i. destruct (Hlater i) as (w & u & Hl). by apply later_use_never_idle in Hl as (? & _ & _). }
    split; [done|]. unfold ecryptfs_tspi_finalize. by rewrite (wait_for_end_busy pool_at _ 0 Hbusy).
Qed.

(** ** Shutting down *)
Lemma close_fresh fuel s p fresh :
  chain (pl_tickets s) p fresh -> (length fresh <= fuel)%nat ->
  (forall t tk, t ∈ fresh -> pl_tickets s !! t = Some tk -> tk_initialized tk = false) ->
  close_tickets fuel p s = Ok (Some (s, [])).
Proof.
  revert p fuel. induction fresh as [|t l IH]; intros p fuel.
  - intros -> _ _. by destruct fuel.
  - intros [-> (tk & Ht & Hc)] Hf Hi. destruct fuel; cbn [length] in Hf; [lia|].
    cbn [close_tickets]. unfold get_ticket. rewrite Ht, bind_Ok, (Hi t tk) by (done || left).
    rewrite IH; [done|done|lia|]. intros u tku Hu. apply Hi. by right.
Qed.

Lemma close_ready fuel s p ready fresh :
  chain (pl_tickets s) p (ready ++ fresh) -> NoDup (ready ++ fresh) -> (length (ready ++ fresh) <= fuel)%nat ->
  (forall t tk, t ∈ ready -> pl_tickets s !! t = Some tk -> tk_initialized tk = true) ->
  (forall t tk, t ∈ fresh -> pl_tickets s !! t = Some tk -> tk_initialized tk = false) ->
  exists s', close_tickets fuel p s = Ok (Some (s', ctx_of s <$> ready)) /\
    (forall t, pl_tickets s' !! t = if bool_decide (t ∈ ready) then set_initialized false <$> pl_tickets s !! t
                                   else pl_tickets s !! t) /\
    pl_free s' = pl_free s /\ pl_used s' = pl_used s.
Proof.
  revert s p fuel. induction ready as [|t l IH]; intros s p fuel.
  - intros Hc _ Hf _ Hi. exists s. split; [by eapply close_fresh|]. by split.
  - intros [-> (tk & Ht & Hc)] [Hn Hnd]%NoDup_cons Hf Hr Hi. destruct fuel; cbn [length app] in Hf; [lia|].
    cbn [close_tickets]. unfold get_ticket. rewrite Ht, bind_Ok, (Hr t tk) by (done || left).
    destruct (IH (put_ticket t (set_initialized false tk) s) (tk_next tk) fuel) as (s' & Hcl & Hl & Hfr & Hus).
    + unfold put_ticket, set_tickets. cbn [pl_tickets]. by apply chain_insert.
    + done.
    + unfold zlen in *. rewrite length_app in *. lia.
    + intros u tku Hu. unfold put_ticket, set_tickets. cbn [pl_tickets].
      rewrite lookup_insert_ne by (intros ->; apply Hn, elem_of_app; by left). apply Hr. by right.
    + intros u tku Hu. unfold put_ticket, set_tickets. cbn [pl_tickets].
      rewrite lookup_insert_ne by (intros ->; apply Hn, elem_of_app; by right). by apply Hi.
    + rewrite Hcl, bind_Ok. exists s'. split; [|split; [|done]].
      * cbn [mret outcome_ret fmap list_fmap app]. do 3 f_equal. f_equal; [unfold ctx_of; by rewrite Ht|].
        apply list_fmap_ext. intros i u Hu. unfold ctx_of, put_ticket, set_tickets. cbn [pl_tickets].
        rewrite lookup_insert_ne; [done|]. intros ->. apply Hn, elem_of_app. left. by eapply list_elem_of_lookup_2.
      * intros u. rewrite Hl. unfold put_ticket, set_tickets. cbn [pl_tickets].
        destruct (decide (u = t)) as [->|Hne].
        -- rewrite lookup_insert_eq, (bool_decide_eq_true_2 (t ∈ t :: l)) by left.
           rewrite bool_decide_eq_false_2, Ht; [done|]. intros Hin. apply Hn, elem_of_app. by left.
        -- rewrite lookup_insert_ne by done.
           replace (bool_decide (u ∈ t :: l)) with (bool_decide (u ∈ l)); [done|].
           apply bool_decide_ext. rewrite elem_of_cons. tauto.
Qed.

Lemma wait_for_end_at pool_at fuel i n :
  pl_used (pool_at (i + n)%nat) = None -> (forall j, (j < n)%nat -> pl_used (pool_at (i + j)%nat) <> None) ->
  (n < fuel)%nat -> wait_for_end pool_at fuel i = (i + n)%nat.
Proof.
  revert fuel i. induction n as [|n IH]; intros fuel i He Hb Hf; (destruct fuel; [lia|]); cbn [wait_for_end].
  - rewrite Nat.add_0_r in *. by rewrite He.
  - destruct (pl_used (pool_at i)) eqn:Hu.
    + rewrite IH; [lia| | |lia].
      * by replace (S i + n)%nat with (i + S n)%nat by lia.
      * intros j Hj. replace (S i + j)%nat with (i + S j)%nat by lia. apply Hb. lia.
    + exfalso. apply (Hb O); [lia|]. by rewrite Nat.add_0_r.
Qed.

(** Shutting down waits for the users, looking once a second: when the last
    ticket is back within five seconds and the pool is sound, exactly the
    connections that were opened are closed, each once, and no ticket counts as
    connected any more. *)
Theorem tspi_finalize_closes pool_at n ready fresh :
  (n < ECRYPTFS_TSPI_MAX_WAIT_FOR_END)%nat ->
  (forall j, (j < n)%nat -> pl_used (pool_at j) <> None) -> pool_ok ready fresh [] (pool_at n) ->
  exists s', ecryptfs_tspi_finalize pool_at = Ok (Some (0, s', ctx_of (pool_at n) <$> ready)) /\
    forall t tk, pl_tickets s' !! t = Some tk -> tk_initialized tk = false.
Proof.
  intros Hn Hb Hs. pose proof (pool_nodup _ _ _ _ Hs) as Hnd. pose proof (pool_length _ _ _ _ Hs) as Hlen.
  destruct Hs as [Hf Hu Hall Htk Hdom _]. cbn [chain] in Hu. rewrite app_nil_r in Hnd.
  unfold ecryptfs_tspi_finalize. rewrite (wait_for_end_at pool_at _ 0 n) by done.
  cbn [Nat.add]. rewrite bool_decide_eq_false_2 by lia.
  destruct (close_ready list_fuel (pool_at n) (pl_free (pool_at n)) ready fresh) as (s' & -> & Hl & _ & _); try done.
  - rewrite length_app. unfold list_fuel, pool_size in *. cbn [length] in Hlen. lia.
  - intros t tk Ht Hlk. destruct (Htk _ _ Hlk) as (_ & _ & ->). rewrite bool_decide_eq_true_2; [done|].
    apply NoDup_app in Hnd as (_ & Hd & _). by apply Hd.
  - intros t tk Ht Hlk. destruct (Htk _ _ Hlk) as (_ & _ & ->). rewrite bool_decide_eq_false_2; [done|]. tauto.
  - exists s'. split; [done|]. intros t tk. rewrite Hl. case_bool_decide as Hin.
    + intros (tk0 & _ & ->)%fmap_Some. done.
    + intros Hlk. destruct (Htk _ _ Hlk) as (_ & _ & ->). rewrite bool_decide_eq_false_2; [done|].
      intros Hnf. assert (t ∈ ready ++ fresh ++ []) as Hx.
      { rewrite Hall. apply elem_of_seq. pose proof (proj1 (Hdom t) (ex_intro _ tk Hlk)). lia. }
      rewrite app_nil_r, elem_of_app in Hx. tauto.
Qed.

(** ** Witnesses *)
Definition sample_context : TssContext := {|
  Tspi_Context_Create := fun k => Some (100 + Z.of_nat k);
  Tspi_Context_Connect := fun _ _ => true
|}.

Definition sample_start : pool := (@ecryptfs_tspi_init plenty (fun _ => false) empty_pool).2.
Definition after_grab (k : nat) (s : pool) : pool :=
  match @ecryptfs_tspi_grab_ticket sample_context k s with Ok (Some (_, _, s')) => s' | _ => s end.

Lemma nested_use_keeps_pool_witness :
  exists ready fresh, pool_ok ready fresh [9%nat] (after_grab 0 sample_start) /\
    pl_num_connected (after_grab 0 sample_start) = 1 /\
    forall k, (length [9%nat] < pool_size)%nat ->
      exists rc t s', @ecryptfs_tspi_grab_ticket sample_context k (after_grab 0 sample_start) = Ok (Some (rc, t, s')) /\
        match t with Some t => rc = 0 /\ (t ∈ ready ++ fresh) | None => rc = - EIO end.
Proof.
  apply (@nested_use_keeps_pool plenty sample_context (fun _ => false) sample_start (after_grab 0 sample_start) [9%nat] 1).
  - done.
  - done.
  - vm_compute. reflexivity.
  - apply (nested_grab _ 0 sample_start [] 0); [apply nested_start|]. vm_compute. reflexivity.
Defined.

(** Two users at once. *)
Lemma sample_overlap_ok :
  exists ready fresh, pool_ok ready fresh [8%nat; 9%nat] (after_grab 1 (after_grab 0 sample_start)).
Proof.
  destruct (@tspi_init_ok plenty (fun _ => false)) as (s0 & Hi & Hs); [done..|].
  destruct (@nested_use_ok sample_context s0 (after_grab 1 (after_grab 0 sample_start)) [8%nat; 9%nat] 2
    (reverse (seq 0 pool_size)) Hs) as (ready & fresh & Hok & _); [|by exists ready, fresh].
  replace s0 with sample_start by (unfold sample_start; by rewrite Hi).
  apply (nested_grab _ 1 (after_grab 0 sample_start) [9%nat] 1); [|vm_compute; reflexivity].
  apply (nested_grab _ 0 sample_start [] 0); [apply nested_start|]. vm_compute. reflexivity.
Qed.

Lemma out_of_order_release_spoils_witness :
  exists ready fresh s s1 s2, pool_ok ready fresh [8%nat; 9%nat] s /\
    ecryptfs_tspi_release_ticket 9 s = Ok s1 /\ ecryptfs_tspi_release_ticket 8 s1 = Ok s2 /\
    ecryptfs_tspi_finalize (fun i => if (i =? 0)%nat then after_grab 2 s2 else s2) = Ok (Some (- EBUSY, s2, [])).
Proof.
  destruct sample_overlap_ok as (ready & fresh & Hs).
  exists ready, fresh, (after_grab 1 (after_grab 0 sample_start)).
  destruct (@out_of_order_release_spoils sample_context 8 9 ready fresh [] _ Hs)
    as (s1 & s2 & H1 & H2 & _ & _ & _ & _ & _ & _ & Hf).
  exists s1, s2. split; [exact Hs|]. split; [exact H1|]. split; [exact H2|].
  apply (Hf eq_refl (fun i => if (i =? 0)%nat then after_grab 2 s2 else s2)).
  vm_compute in H1. injection H1 as <-. vm_compute in H2. injection H2 as <-.
  intros [|i]; [|exists [], []; constructor]. exists [], [8%nat]. cbn [Nat.eqb].
  eapply (later_wait _ _ [] [] [] 8); [eapply (later_choose _ 2 _ [] []); [constructor|..]|].
  - vm_compute. reflexivity.
  - discriminate.
  - vm_compute. reflexivity.
Defined.

Lemma sample_idle_ok :
  exists s', ecryptfs_tspi_release_ticket 9 (after_grab 0 sample_start) = Ok s' /\
    exists ready fresh, pool_ok ready fresh [] s'.
Proof.
  destruct (@tspi_init_ok plenty (fun _ => false)) as (s0 & Hi & Hs); [done..|].
  destruct (@nested_use_ok sample_context s0 (after_grab 0 sample_start) [9%nat] 1
    (reverse (seq 0 pool_size)) Hs) as (ready & fresh & Hok & _).
  - replace s0 with sample_start by (unfold sample_start; by rewrite Hi).
    apply (nested_grab _ 0 sample_start [] 0); [apply nested_start|]. vm_compute. reflexivity.
  - destruct (release_ok _ _ _ _ _ Hok) as (s' & Hr & Hs'). exists s'. split; [done|]. by eexists _, _.
Qed.

Lemma tspi_finalize_closes_witness :
  exists idle ready s', ecryptfs_tspi_release_ticket 9 (after_grab 0 sample_start) = Ok idle /\
    ecryptfs_tspi_finalize (fun i => if (i <? 2)%nat then after_grab 0 sample_start else idle) =
    Ok (Some (0, s', ctx_of idle <$> ready)) /\
    forall t tk, pl_tickets s' !! t = Some tk -> tk_initialized tk = false.
Proof.
  destruct sample_idle_ok as (idle & Hr & ready & fresh & Hs). exists idle, ready.
  destruct (tspi_finalize_closes (fun i => if (i <? 2)%nat then after_grab 0 sample_start else idle) 2 ready fresh)
    as (s' & Hf & Ht).
  - unfold ECRYPTFS_TSPI_MAX_WAIT_FOR_END. lia.
  - intros [|[|j]] Hj; [vm_compute; discriminate..|lia].
  - exact Hs.
  - exists s'. split; [exact Hr|]. by split.
Defined.
