(* ===== verification/Tspi.v ===== *)
(** * The TPM key module: [src/key_mod/ecryptfs_key_mod_tspi.c]

    A key of this module is the UUID of a key of the TPM.  Session keys are sealed
    and unsealed over a connection of the pool of [TspiPool]; handles of keys that
    were used to unseal are kept.  The TPM software stack is a class of parameters
    with the law that unsealing undoes sealing.  Allocations of this file are asked
    for by line number plus 60000. *)

From S2P Require Import Prelude CLib Ecryptfs PassphraseSig Ssl TspiPool.

Definition sizeof_TSS_UUID : Z := 16.

(** ** The TPM software stack
    [sealed] are the contents of an object of encrypted data; [k] is the number
    of the call of the module, which may go one way or another. *)
Inductive ps_type := TSS_PS_TYPE_SYSTEM | TSS_PS_TYPE_USER.

Class Tss := {
  tss_context :: TssContext;
  TSS_UUID_SRK : bytes;
  sealed : Type;
  Tspi_Context_LoadKeyByUUID : nat -> Z -> ps_type -> bytes -> option Z;
  Tspi_Context_GetKeyByUUID : nat -> Z -> ps_type -> bytes -> option Z;
  Tspi_GetPolicyObject : nat -> Z -> option Z;
  Tspi_Policy_SetSecret : nat -> Z -> bool;
  Tspi_Context_CreateObject : nat -> Z -> option Z;
  Tspi_Data_Seal : nat -> Z -> Z -> bytes -> option sealed;
  Tspi_GetAttribData_blob : nat -> sealed -> option bytes;
  Tspi_SetAttribData_blob : nat -> Z -> bytes -> option sealed;
  Tspi_Data_Unseal : nat -> sealed -> Z -> option bytes;
  Tspi_GetAttribData_modulus : nat -> Z -> option bytes
}.

(** [Tspi_Data_Unseal(3)]: with the same key, in one context, the data that was
    sealed - also by another context - or a failure. *)
Class TssLaws `{Tss} := {
  unseal_sealed k c u h e m o b k' k'' c' h' e' o' m' :
    Tspi_Context_LoadKeyByUUID k c TSS_PS_TYPE_USER u = Some h ->
    Tspi_Data_Seal k e h m = Some o -> Tspi_GetAttribData_blob k o = Some b ->
    Tspi_Context_LoadKeyByUUID k' c' TSS_PS_TYPE_USER u = Some h' ->
    Tspi_Context_CreateObject k'' c' = Some e' -> Tspi_SetAttribData_blob k'' e' b = Some o' ->
    Tspi_Data_Unseal k'' o' h' = Some m' -> m' = m
}.

(** ** UUIDs *)

(** The iterations of the loop for [i] of the list; [uuid] is filled in order. *)
Fixpoint uuid_words (big_endian : bool) (str : bytes) (offsets : list Z) : outcome bytes :=
  match offsets with
  | [] => mret []
  | i :: offsets' =>
      w ← rd str i 8;
      tmp ← cstr_of (w ++ [0]);
      let l := u32 (strtoul 16 tmp) in
      rest ← uuid_words big_endian str offsets';
      mret (host_bytes big_endian 4 (ntoh big_endian 4 l) ++ rest)
  end.

Definition string_to_uuid (big_endian : bool) (str : bytes) : outcome bytes :=
  uuid_words big_endian str [0; 8; 16; 24].

(** ** Blobs *)

(** [struct tspi_data] is its UUID. *)
Definition ecryptfs_tspi_deserialize (blob : bytes) : outcome bytes := rd blob 0 sizeof_TSS_UUID.

(** The code, [*blob_size] and the blob. *)
Definition ecryptfs_tspi_serialize (blob : option bytes) (uuid : bytes) : outcome (Z * Z * option bytes) :=
  match blob with
  | None => mret (0, sizeof_TSS_UUID, None)
  | Some blob => blob ← wr blob 0 uuid; mret (0, sizeof_TSS_UUID, Some blob)
  end.

Definition tspi_num_params : Z := 1.

Definition ecryptfs_tspi_init_from_param_vals (big_endian : bool) (param_vals : list (option cstring))
    : outcome (Z * bytes) :=
  match param_vals with
  | [None] => UB NullDeref
  | [Some v] => uuid ← string_to_uuid big_endian (v ++ [0]); mret (0, uuid)
  | _ => mret (- EINVAL, [])
  end.

Definition ecryptfs_tspi_get_blob (big_endian : bool) (blob : option bytes) (blob_size : Z)
    (param_vals : list (option cstring)) : outcome (Z * Z * option bytes) :=
  '(rc, uuid) ← ecryptfs_tspi_init_from_param_vals big_endian param_vals;
  if negb (rc =? 0) then mret (rc, blob_size, blob) else ecryptfs_tspi_serialize blob uuid.

(** ** Signatures *)
Section Signature.
Context `{Heap, Ssl}.

Definition ecryptfs_tspi_to_hex (dst src : bytes) (src_size : Z) : outcome bytes := to_hex dst src src_size.

(** The exponent of every key of a TPM. *)
Definition tpm_exponent : bytes := [1; 0; 1].

Definition ecryptfs_tspi_generate_signature (sig n : bytes) : outcome (Z * bytes) :=
  let nbytes := zlen n in
  let len := 10 + nbytes + zlen tpm_exponent in
  if negb (alloc_ok 60106 0) then mret (- ENOMEM, sig)
  else
    let data := malloc_block heap_junk (3 + len) in
    data ← wr data 0 [0x99; u8 (Z.shiftr len 8); u8 len; 4; 0; 0; 0; 0; 2;
                      u8 (Z.shiftr (nbytes * 8) 8); u8 (nbytes * 8)];
    data ← wr data 11 n;
    let i := 11 + nbytes in
    data ← wr data i [u8 (Z.shiftr (zlen tpm_exponent * 8) 8); u8 (zlen tpm_exponent * 8)];
    data ← wr data (i + 2) tpm_exponent;
    input ← rd data 0 (len + 3);
    sig ← ecryptfs_tspi_to_hex sig (SHA1 input) ECRYPTFS_SIG_SIZE;
    sig ← wr sig ECRYPTFS_SIG_SIZE_HEX [0];
    mret (0, sig).

Definition ecryptfs_tspi_get_key_sig `{Tss} (k : nat) (sig blob : bytes) : outcome (Z * bytes) :=
  uuid ← ecryptfs_tspi_deserialize blob;
  match Tspi_Context_Create k with
  | None => mret (- EIO, sig)
  | Some ctx =>
      match Tspi_Context_GetKeyByUUID k ctx TSS_PS_TYPE_USER uuid with
      | None => mret (- EIO, sig)
      | Some key =>
          match Tspi_GetAttribData_modulus k key with
          | None => mret (- EIO, sig)
          | Some n => ecryptfs_tspi_generate_signature sig n
          end
      end
  end.
End Signature.

(** ** Sealing and unsealing *)
Section Crypt.
Context `{Heap, Tss}.

(** The handles of keys that have been loaded to unseal, newest first. *)
Definition key_mapper : Type := list (bytes * Z).
Fixpoint find_mapper (mapper : key_mapper) (uuid : bytes) : option Z :=
  match mapper with
  | [] => None
  | (u, h) :: mapper' => if bool_decide (u = uuid) then Some h else find_mapper mapper' uuid
  end.

(** The steps up to the object for encrypted data, which both directions begin
    with. *)
Definition new_encdata (k : nat) (ctx : Z) : option Z :=
  Tspi_Context_LoadKeyByUUID k ctx TSS_PS_TYPE_SYSTEM TSS_UUID_SRK ≫= fun h_srk =>
  Tspi_GetPolicyObject k h_srk ≫= fun h_srk_policy =>
  if Tspi_Policy_SetSecret k h_srk_policy then Tspi_Context_CreateObject k ctx else None.

Definition seal (k : nat) (ctx : Z) (uuid from : bytes) : option bytes :=
  new_encdata k ctx ≫= fun h_encdata =>
  Tspi_Context_LoadKeyByUUID k ctx TSS_PS_TYPE_USER uuid ≫= fun hKey =>
  Tspi_Data_Seal k h_encdata hKey from ≫= fun o => Tspi_GetAttribData_blob k o.

(** The handle and the list of handles; the handle is looked up before it is
    loaded. *)
Definition map_key (k : nat) (ctx : Z) (uuid : bytes) (mapper : key_mapper) : option Z * key_mapper :=
  match find_mapper mapper uuid with
  | Some h => (Some h, mapper)
  | None =>
      if negb (alloc_ok 60482 k) then (None, mapper)
      else match Tspi_Context_LoadKeyByUUID k ctx TSS_PS_TYPE_USER uuid with
      | None => (None, mapper)
      | Some h => (Some h, (uuid, h) :: mapper)
      end
  end.

Definition unseal (k : nat) (ctx : Z) (uuid from : bytes) (mapper : key_mapper) : option bytes * key_mapper :=
  match new_encdata k ctx with
  | None => (None, mapper)
  | Some h_encdata =>
      let '(hKey, mapper) := map_key k ctx uuid mapper in
      (hKey ≫= fun hKey => Tspi_SetAttribData_blob k h_encdata from ≫= fun o => Tspi_Data_Unseal k o hKey,
       mapper)
  end.

(** The code, [*to_size], what is written to [to], which may be null, and the
    pool.  The ticket is given back after the lock is. *)
Definition ecryptfs_tspi_encrypt (k : nat) (to : bool) (from blob : bytes) (s : pool)
    : outcome (option (Z * Z * bytes * pool)) :=
  uuid ← ecryptfs_tspi_deserialize blob;
  r ← ecryptfs_tspi_grab_ticket k s;
  match r with
  | None => mret None
  | Some (rc, None, s) => mret (Some (rc, 0, [], s))
  | Some (rc, Some ticket, s) =>
      tk ← get_ticket s ticket;
      let '(rc, size, data) :=
        match seal k (tk_tspi_ctx tk) uuid from with
        | None => (- EIO, 0, [])
        | Some encdata => (0, zlen encdata, if to then encdata else [])
        end in
      s ← ecryptfs_tspi_release_ticket ticket s;
      mret (Some (rc, size, data, s))
  end.

(** [to_size] is what [*to_size] holds before the call. *)
Definition ecryptfs_tspi_decrypt (k : nat) (to : bool) (to_size : Z) (from blob : bytes) (s : pool)
    (mapper : key_mapper) : outcome (option (Z * Z * bytes * pool * key_mapper)) :=
  uuid ← ecryptfs_tspi_deserialize blob;
  r ← ecryptfs_tspi_grab_ticket k s;
  match r with
  | None => mret None
  | Some (rc, None, s) => mret (Some (rc, to_size, [], s, mapper))
  | Some (rc, Some ticket, s) =>
      tk ← get_ticket s ticket;
      let '(r, mapper) := unseal k (tk_tspi_ctx tk) uuid from mapper in
      let '(rc, size, data) :=
        match r with
        | None => (- EIO, to_size, [])
        | Some encdata => (0, zlen encdata, if to then encdata else [])
        end in
      s ← ecryptfs_tspi_release_ticket ticket s;
      mret (Some (rc, size, data, s, mapper))
  end.
End Crypt.

Definition ecryptfs_tspi_destroy (blob : bytes) : Z := 0.

(** ** UUIDs: lemmas *)
Lemma be_val_app l k : be_val (l ++ k) = be_val l * 256 ^ zlen k + be_val k.
Proof.
  unfold be_val. rewrite reverse_app.
  assert (forall a b, le_val (a ++ b) = le_val a + 256 ^ zlen a * le_val b) as Happ.
  { induction a as [|x a IH]; intros b; [cbn [app le_val]; change (zlen []) with 0; lia|].
    cbn [app le_val]. rewrite IH, zlen_cons, Z.pow_add_r by (pose proof (zlen_nonneg a); lia). lia. }
  rewrite Happ. unfold zlen. rewrite length_reverse. lia.
Qed.

Lemma strtol_digits_hex l acc tail :
  Forall is_byte l -> match tail with c :: _ => (digit_of c <? 16) = false | [] => True end ->
  strtol_digits 16 acc (hex_of l ++ tail) = acc * 256 ^ zlen l + be_val l.
Proof.
  intros Hl Ht. revert acc. induction Hl as [|b l Hb _ IH]; intros acc.
  - cbn [hex_of fmap list_fmap mjoin list_join app]. change (zlen []) with 0. change (be_val []) with 0.
    destruct tail as [|c tail]; cbn [strtol_digits]; [lia|]. rewrite Ht. lia.
  - rewrite hex_of_cons, <- app_assoc. cbn [app show_hex2 strtol_digits]. unfold is_byte in Hb.
    rewrite !digit_of_hex by lia. decide_test (b / 16 <? 16). decide_test (b mod 16 <? 16).
    rewrite IH. change (b :: l) with ([b] ++ l). rewrite be_val_app, zlen_app, Z.pow_add_r by
      (pose proof (zlen_nonneg l); pose proof (zlen_nonneg [b]); lia).
    change (be_val [b]) with (b + 256 * 0). change (zlen [b]) with 1. lia.
Qed.

(** Eight hexadecimal digits. *)
Lemma strtoul_hex l : Forall is_byte l -> zlen l = 4 -> strtoul 16 (hex_of l) = be_val l.
Proof.
  intros Hl H4. pose proof (be_val_bound _ Hl) as Hb. rewrite H4 in Hb.
  pose proof (strtol_digits_hex l 0 [] Hl I) as Hd. rewrite app_nil_r in Hd.
  destruct l as [|b l]; [done|]. apply Forall_cons in Hl as [Hb0 _]. unfold is_byte in Hb0.
  assert (0 <= b / 16 < 16) as H1 by lia. assert (0 <= b mod 16 < 16) as H2 by lia.
  pose proof (hex_digit_range _ H1). pose proof (hex_digit_range _ H2).
  unfold strtoul. rewrite hex_of_cons in *. cbn [app show_hex2 skip_spaces] in *. unfold isspace.
  decide_test (((9 <=? hex_digit (b / 16)) && (hex_digit (b / 16) <=? 13)) || (hex_digit (b / 16) =? 32)).
  cbn [split_sign]. decide_test (hex_digit (b / 16) =? 45). decide_test (hex_digit (b / 16) =? 43).
  assert (skip_0x 16 (hex_digit (b / 16) :: hex_digit (b mod 16) :: hex_of l) =
          hex_digit (b / 16) :: hex_digit (b mod 16) :: hex_of l) as ->.
  { unfold skip_0x. destruct (hex_of l); [done|].
    decide_test ((hex_digit (b mod 16) =? 120) || (hex_digit (b mod 16) =? 88)).
    by rewrite andb_false_r. }
  rewrite Hd. unfold ULONG_MAX. lia.
Qed.

Lemma uuid_word be pre l post off offsets :
  Forall is_byte l -> zlen l = 4 -> off = zlen pre ->
  uuid_words be (pre ++ hex_of l ++ post) (off :: offsets) =
  (rest ← uuid_words be (pre ++ hex_of l ++ post) offsets; Ok (l ++ rest)).
Proof.
  intros Hl H4 ->. cbn [uuid_words].
  rewrite rd_app3 by (try done; unfold zlen in *; rewrite length_hex_of; lia). rewrite bind_Ok.
  rewrite cstr_of_app, bind_Ok by (by apply is_char_nonzero, hex_of_cstring).
  rewrite strtoul_hex by done. pose proof (be_val_bound _ Hl) as Hb. rewrite H4 in Hb.
  assert (u32 (be_val l) = be_val l) as -> by (unfold wrap; rewrite Z.mod_small; [done|exact Hb]).
  rewrite host_bytes_hton by exact Hb.
  replace (be_bytes 4 (be_val l)) with l; [done|].
  unfold be_bytes, be_val. rewrite <- (reverse_involutive l) at 1. f_equal.
  rewrite <- (le_bytes_le_val (reverse l)) at 1 by (by apply Forall_reverse).
  rewrite length_reverse. f_equal. unfold zlen in H4. lia.
Qed.

Lemma cstr_of_total w : exists s, cstr_of (w ++ [0]) = Ok s.
Proof.
  induction w as [|c w [s IH]]; [by exists []|]. cbn. destruct (c =? 0); [by eexists|]. rewrite IH. by eexists.
Qed.

(** The last word needs 32 characters. *)
Lemma uuid_words_short be str offsets :
  zlen str < 32 -> Forall (fun i => 0 <= i) offsets -> 24 ∈ offsets ->
  uuid_words be str offsets = UB OutOfBoundsRead.
Proof.
  intros Hs Hpos. induction Hpos as [|i l Hi _ IH]; intros Hin; [by apply elem_of_nil in Hin|].
  cbn [uuid_words]. destruct (decide (i + 8 <= zlen str)) as [Hle|Hgt]; [|by rewrite rd_oob by lia].
  rewrite rd_ok, bind_Ok by lia. edestruct cstr_of_total as [t ->]. rewrite bind_Ok.
  apply elem_of_cons in Hin as [<-|Hin]; [lia|]. by rewrite IH.
Qed.

Lemma string_to_uuid_hex be uuid tail :
  Forall is_byte uuid -> zlen uuid = 16 -> string_to_uuid be (hex_of uuid ++ tail) = Ok uuid.
Proof.
  intros Hb H16. unfold zlen in H16.
  rewrite <- (take_drop 4 uuid) in *. set (a := take 4 uuid) in *. set (r1 := drop 4 uuid) in *.
  rewrite <- (take_drop 4 r1) in *. set (b := take 4 r1) in *. set (r2 := drop 4 r1) in *.
  rewrite <- (take_drop 4 r2) in *. set (c := take 4 r2) in *. set (d := drop 4 r2) in *.
  assert (length a = 4 /\ length b = 4 /\ length c = 4 /\ length d = 4)%nat as (Ha & Hlb & Hc & Hd).
  { subst a b c d r1 r2. rewrite !length_app in H16. rewrite !length_take, !length_drop in *. lia. }
  apply Forall_app in Hb as [Hba Hb]. apply Forall_app in Hb as [Hbb Hb]. apply Forall_app in Hb as [Hbc Hbd].
  unfold string_to_uuid. rewrite !hex_of_app, <- !app_assoc.
  pose proof (uuid_word be [] a (hex_of b ++ hex_of c ++ hex_of d ++ tail) 0 [8; 16; 24]) as Hw.
  cbn [app] in Hw. rewrite Hw by (done || unfold zlen; lia). clear Hw.
  rewrite (uuid_word be (hex_of a) b) by (done || unfold zlen; rewrite ?length_hex_of; lia).
  pose proof (uuid_word be (hex_of a ++ hex_of b) c (hex_of d ++ tail) 16 [24]) as Hw.
  rewrite <- !app_assoc in Hw. rewrite Hw by (done || unfold zlen; rewrite ?length_app, ?length_hex_of; lia). clear Hw.
  pose proof (uuid_word be (hex_of a ++ hex_of b ++ hex_of c) d tail 24 []) as Hw.
  rewrite <- !app_assoc in Hw. rewrite Hw by (done || unfold zlen; rewrite ?length_app, ?length_hex_of; lia).
  cbn [uuid_words obind mret outcome_ret]. by rewrite app_nil_r.
Qed.

(** ** Properties of UUIDs and blobs *)

(** The parameter of the module is read right when it is 32 hexadecimal digits:
    the blob of the token is then the UUID, from which the other operations get it
    back, on hosts of either byte order.  A string of fewer than 31 characters is
    read past its end; the usual notation, with dashes, is accepted and means
    another UUID. *)
Theorem tspi_uuid_roundtrip be uuid block size0 :
  Forall is_byte uuid -> zlen uuid = 16 -> zlen block = 16 ->
  ecryptfs_tspi_get_blob be None size0 [Some (hex_of uuid)] = Ok (0, 16, None) /\
  (exists blob, ecryptfs_tspi_get_blob be (Some block) size0 [Some (hex_of uuid)] = Ok (0, 16, Some blob) /\
     ecryptfs_tspi_deserialize blob = Ok uuid) /\
  (forall v blob, zlen v < 31 -> ecryptfs_tspi_get_blob be blob size0 [Some v] = UB OutOfBoundsRead) /\
  string_to_uuid be (lit "00112233-4455-6677-8899-aabbccddeeff" ++ [0]) =
    Ok [0x00; 0x11; 0x22; 0x33; 0xff; 0xff; 0xbb; 0xab; 0x00; 0x00; 0x00; 0x77; 0xaa; 0xbb; 0xcc; 0xdd].
Proof.
  intros Hb H16 Hblock. unfold ecryptfs_tspi_get_blob, ecryptfs_tspi_init_from_param_vals.
  rewrite (string_to_uuid_hex be uuid [0]) by done. cbn [obind mret outcome_ret Z.eqb negb].
  split; [done|]. split; [|split].
  - exists uuid. cbn [ecryptfs_tspi_serialize]. rewrite wr_ok by lia. cbn [obind mret outcome_ret].
    change (Z.to_nat 0) with 0%nat. rewrite take_0, drop_ge, app_nil_r by (unfold zlen in *; lia).
    split; [done|]. unfold ecryptfs_tspi_deserialize.
    rewrite <- (app_nil_r uuid) at 1. apply rd_prefix. by rewrite H16.
  - intros v blob Hv. unfold string_to_uuid. rewrite uuid_words_short; [done| | |].
    + rewrite zlen_app. change (zlen [0]) with 1. lia.
    + repeat constructor; lia.
    + set_solver.
  - by destruct be; vm_compute.
Qed.

Lemma tspi_uuid_roundtrip_witness :
  let uuid := Z.of_nat <$> seq 200 16 in
  ecryptfs_tspi_get_blob false None 0 [Some (hex_of uuid)] = Ok (0, 16, None) /\
  (exists blob, ecryptfs_tspi_get_blob false (Some (zeros 16)) 0 [Some (hex_of uuid)] = Ok (0, 16, Some blob) /\
     ecryptfs_tspi_deserialize blob = Ok uuid) /\
  (forall v blob, zlen v < 31 -> ecryptfs_tspi_get_blob false blob 0 [Some v] = UB OutOfBoundsRead) /\
  string_to_uuid false (lit "00112233-4455-6677-8899-aabbccddeeff" ++ [0]) =
    Ok [0x00; 0x11; 0x22; 0x33; 0xff; 0xff; 0xbb; 0xab; 0x00; 0x00; 0x00; 0x77; 0xaa; 0xbb; 0xcc; 0xdd].
Proof.
  apply (tspi_uuid_roundtrip false (Z.of_nat <$> seq 200 16) (zeros 16) 0).
  - apply (bool_decide_unpack _). vm_compute. exact I.
  - reflexivity.
  - reflexivity.
Defined.

(** ** Signatures: lemmas *)

(** The packet of a key with this modulus, as the module hashes it. *)
Definition tpm_key_packet (n : bytes) : bytes :=
  let body := [4; 0; 0; 0; 0; 2] ++ be_bytes 2 (zlen n * 8) ++ n ++ be_bytes 2 24 ++ tpm_exponent in
  0x99 :: be_bytes 2 (zlen body) ++ body.

Lemma tspi_generate_signature_ok `{Heap, Ssl, !SslLaws} sig n :
  heap_never_fails -> 17 <= zlen sig ->
  ecryptfs_tspi_generate_signature sig n =
  Ok (0, hex_of (take 8 (SHA1 (tpm_key_packet n))) ++ 0 :: drop 17 sig).
Proof.
  intros Hh Hsig. unfold ecryptfs_tspi_generate_signature. rewrite Hh. cbn [negb].
  pose proof (zlen_nonneg n) as Hn. change (zlen tpm_exponent) with 3. set (nbytes := zlen n) in *.
  set (len := 10 + nbytes + 3).
  set (h1 := [0x99; u8 (Z.shiftr len 8); u8 len; 4; 0; 0; 0; 0; 2; u8 (Z.shiftr (nbytes * 8) 8); u8 (nbytes * 8)]).
  set (h2 := [u8 (Z.shiftr (3 * 8) 8); u8 (3 * 8)]).
  assert (zlen h1 = 11) as Hh1 by reflexivity. assert (zlen h2 = 2) as Hh2 by reflexivity.
  assert (((h1 ++ n) ++ h2) ++ tpm_exponent = tpm_key_packet n) as Hp.
  { unfold tpm_key_packet. rewrite !be_bytes_2.
    replace (zlen _) with len; [unfold h1, h2; by rewrite <- !app_assoc|].
    rewrite !zlen_app. subst len nbytes. change (zlen tpm_exponent) with 3. unfold zlen. cbn [length]. lia. }
  set (block := malloc_block heap_junk (3 + len)).
  assert (zlen block = 3 + len) as Hblock by (apply zlen_malloc_block; lia).
  pose proof (wr_after [] block h1 ltac:(lia)) as Hw. cbn [app] in Hw. change (zlen []) with 0 in Hw.
  rewrite Hw, bind_Ok. clear Hw.
  rewrite (wr_after h1 _ n), bind_Ok by (rewrite zlen_drop; unfold zlen in *; lia).
  replace (11 + nbytes) with (zlen (h1 ++ n)) by (rewrite zlen_app; lia).
  rewrite wr_after, bind_Ok by (rewrite !zlen_drop; unfold zlen in *; lia).
  replace (zlen (h1 ++ n) + 2) with (zlen ((h1 ++ n) ++ h2)) by (rewrite (zlen_app _ h2); lia).
  rewrite wr_after, bind_Ok by (rewrite !zlen_drop; change (zlen tpm_exponent) with 3; unfold zlen in *; lia).
  rewrite Hp. rewrite drop_ge by (rewrite !length_drop; unfold zlen in *; cbn [length tpm_exponent]; lia).
  rewrite rd_prefix, bind_Ok by (rewrite <- Hp, !zlen_app; change (zlen tpm_exponent) with 3; lia).
  pose proof (SHA1_length (tpm_key_packet n)) as Hs. unfold ecryptfs_tspi_to_hex.
  rewrite to_hex_ok, bind_Ok by (unfold ECRYPTFS_SIG_SIZE, SHA_DIGEST_LENGTH in *; lia).
  change (Z.to_nat ECRYPTFS_SIG_SIZE) with 8%nat. change (2 * 8 + 1)%nat with 17%nat.
  rewrite (wr_app3 _ [0] (drop 17 sig)); [done| |done].
  unfold zlen, SHA_DIGEST_LENGTH in *. rewrite length_hex_of, length_take. unfold ECRYPTFS_SIG_SIZE_HEX, ECRYPTFS_SIG_SIZE. lia.
Qed.

(** The signature of a TPM key is eight bytes of the digest of a packet, in
    hexadecimal.  For a modulus that fills its bytes, and the exponent of every TPM
    key, the packet is that of OpenPGP except for one byte: the exponent is given
    24 bits, those of its three bytes, where it has 17.  So the signature is not
    the one the OpenSSL module computes of the same key. *)
Theorem tspi_sig_of_key `{Heap, Ssl, !SslLaws, Tss} k sig uuid tail ctx h n :
  heap_never_fails -> 17 <= zlen sig -> zlen uuid = 16 ->
  Tspi_Context_Create k = Some ctx ->
  Tspi_Context_GetKeyByUUID k ctx TSS_PS_TYPE_USER uuid = Some h ->
  Tspi_GetAttribData_modulus k h = Some n ->
  ecryptfs_tspi_get_key_sig k sig (uuid ++ tail) =
    Ok (0, hex_of (take 8 (SHA1 (tpm_key_packet n))) ++ 0 :: drop 17 sig) /\
  forall key, rsa_e key = 65537 -> BN_bn2bin (rsa_n key) = n -> BN_num_bits (rsa_n key) = zlen n * 8 ->
    exists front, openpgp_key_packet key = front ++ 17 :: tpm_exponent /\
      tpm_key_packet n = front ++ 24 :: tpm_exponent.
Proof.
  intros Hh Hsig Huuid Hc Hk Hn. split.
  - unfold ecryptfs_tspi_get_key_sig, ecryptfs_tspi_deserialize.
    rewrite rd_prefix, bind_Ok by done. rewrite Hc, Hk, Hn. by apply tspi_generate_signature_ok.
  - intros key He Hbn Hbits.
    exists (0x99 :: be_bytes 2 (13 + zlen n) ++ [4; 0; 0; 0; 0; 2] ++ be_bytes 2 (zlen n * 8) ++ n ++ [0]).
    assert (BN_num_bits 65537 = 17) as H17 by (by rewrite num_bits_pos).
    assert (mpi (rsa_e key) = [0] ++ 17 :: tpm_exponent) as Hmpi.
    { unfold mpi. rewrite He, H17, bn2bin_be, H17 by lia. reflexivity. }
    assert (mpi (rsa_n key) = be_bytes 2 (zlen n * 8) ++ n) as Hmpn by (unfold mpi; by rewrite Hbits, Hbn).
    assert (forall x, zlen (be_bytes 2 x) = 2) as Hbe by (intros x; unfold zlen; by rewrite length_be_bytes).
    split.
    + unfold openpgp_key_packet, openpgp_key_body. rewrite Hmpi, Hmpn.
      replace (zlen _) with (13 + zlen n); [cbn [app]; repeat (rewrite <- app_assoc; cbn [app]); reflexivity|].
      rewrite !zlen_app, Hbe. change (zlen [4; 0; 0; 0; 0; 2]) with 6. change (zlen [0]) with 1.
      change (zlen (17 :: tpm_exponent)) with 4. lia.
    + unfold tpm_key_packet. change (be_bytes 2 24) with ([0] ++ [24]).
      replace (zlen _) with (13 + zlen n); [cbn [app]; repeat (rewrite <- app_assoc; cbn [app]); reflexivity|].
      rewrite !zlen_app, Hbe. change (zlen [4; 0; 0; 0; 0; 2]) with 6. change (zlen [0]) with 1.
      change (zlen tpm_exponent) with 3. change (zlen [24]) with 1. lia.
Qed.

(** ** Calls one after the other *)
Section Calls.
Context `{Heap, Tss}.

(** Between two calls: no ticket is in use, at most one has ever been used, and
    the handles kept are those of its connection. *)
Definition tspi_idle (s : pool) (mapper : key_mapper) : Prop :=
  exists ready fresh, pool_ok ready fresh [] s /\ (length ready <= 1)%nat /\ (ready = [] -> mapper = []) /\
    forall t u h, t ∈ ready -> (u, h) ∈ mapper ->
      exists k, Tspi_Context_LoadKeyByUUID k (ctx_of s t) TSS_PS_TYPE_USER u = Some h.

Definition handles_of (ctx : Z) (mapper : key_mapper) : Prop :=
  forall u h, (u, h) ∈ mapper -> exists k, Tspi_Context_LoadKeyByUUID k ctx TSS_PS_TYPE_USER u = Some h.

(** A call gets a ticket with a connection, and gives it back; or there is no
    connection. *)
Lemma grab_idle k s mapper :
  tspi_idle s mapper ->
  exists rc t s', ecryptfs_tspi_grab_ticket k s = Ok (Some (rc, t, s')) /\
    match t with
    | None => rc = - EIO /\ tspi_idle s' mapper
    | Some t => rc = 0 /\ exists tk s'', get_ticket s' t = Ok tk /\ handles_of (tk_tspi_ctx tk) mapper /\
        ecryptfs_tspi_release_ticket t s' = Ok s'' /\
        forall mapper', handles_of (tk_tspi_ctx tk) mapper' -> tspi_idle s'' mapper'
    end.
Proof.
  intros (ready & fresh & Hs & Hr & Hnil & Hmap).
  destruct (grab_ok k _ _ _ _ Hs) as (rc & t & s' & Hg & Ht).
  { apply (some_free _ _ _ _ Hs). unfold pool_size, ECRYPTFS_TSPI_DEFAULT_MAX_NUM_CONNECTIONS. cbn [length]. lia. }
  exists rc, t, s'. split; [done|]. destruct t as [t|].
  - destruct Ht as (-> & ready' & fresh' & Hs' & _ & Hcase). split; [done|].
    destruct (release_ok _ _ _ _ _ Hs') as (s'' & Hrel & Hs'').
    destruct (po_used _ _ _ _ Hs') as [_ (tk & Hl & _)].
    exists tk, s''. unfold get_ticket at 1. rewrite Hl. split; [done|].
    assert (ready' = []) as ->.
    { destruct Hcase as [[-> _]|(_ & -> & _)]; [|done]. destruct ready'; [done|]. cbn [length] in Hr. lia. }
    assert (ctx_of s' t = tk_tspi_ctx tk) as Hctx by (unfold ctx_of; by rewrite Hl).
    split; [|split; [done|]].
    + destruct Hcase as [[-> _]|(-> & _ & _)].
      * intros u h Hin. rewrite <- Hctx, (grab_ctx _ _ _ _ _ _ _ Hs Hg). apply Hmap; [left|done].
      * rewrite Hnil by done. intros u h Hin. by apply elem_of_nil in Hin.
    + intros mapper' Hm. exists [t], fresh'. split; [done|]. split; [done|]. split; [done|].
      intros t' u h ->%list_elem_of_singleton Hin. rewrite (release_ctx _ _ _ Hrel), Hctx. by apply Hm.
  - destruct Ht as (-> & -> & Hs'). split; [done|]. exists [], fresh. split; [done|]. split; [done|].
    split; [auto|]. intros t u h Hin. by apply elem_of_nil in Hin.
Qed.

Lemma find_mapper_in mapper u h : find_mapper mapper u = Some h -> (u, h) ∈ mapper.
Proof.
  induction mapper as [|[v g] mapper IH]; [done|]. cbn [find_mapper]. case_bool_decide as Hv.
  - intros [= ->]. subst v. left.
  - intros Hf. right. auto.
Qed.

(** The handle is of the key in this context, and the list stays one of handles
    of the context. *)
Lemma map_key_ok k ctx u mapper :
  handles_of ctx mapper ->
  handles_of ctx (map_key k ctx u mapper).2 /\
  match (map_key k ctx u mapper).1 with
  | Some h => exists k', Tspi_Context_LoadKeyByUUID k' ctx TSS_PS_TYPE_USER u = Some h
  | None => True
  end.
Proof.
  intros Hm. unfold map_key. destruct (find_mapper mapper u) as [h|] eqn:Hf; cbn [fst snd].
  - split; [done|]. apply Hm. by apply find_mapper_in.
  - destruct (negb (alloc_ok 60482 k)); [done|].
    destruct (Tspi_Context_LoadKeyByUUID k ctx TSS_PS_TYPE_USER u) as [h|] eqn:Hl; cbn [fst snd]; [|done].
    split; [|by exists k]. intros v g [[= -> ->]|Hin]%elem_of_cons; [by exists k|auto].
Qed.
End Calls.

Section CallLemmas.
Context `{Heap, Tss}.

Lemma tspi_encrypt_ok k to from uuid tail s mapper :
  zlen uuid = 16 -> tspi_idle s mapper ->
  exists rc n out s', ecryptfs_tspi_encrypt k to from (uuid ++ tail) s = Ok (Some (rc, n, out, s')) /\
    tspi_idle s' mapper /\
    (rc = - EIO /\ n = 0 /\ out = [] \/
     rc = 0 /\ exists ctx c, seal k ctx uuid from = Some c /\ n = zlen c /\ out = if to then c else []).
Proof.
  intros Hu Hidle. unfold ecryptfs_tspi_encrypt, ecryptfs_tspi_deserialize.
  rewrite rd_prefix, bind_Ok by done.
  destruct (grab_idle k s mapper Hidle) as (rc & t & s' & -> & Ht). rewrite bind_Ok. destruct t as [t|].
  - destruct Ht as (-> & tk & s'' & Hget & Hm & Hrel & Hidle'). rewrite Hget, bind_Ok.
    destruct (seal k (tk_tspi_ctx tk) uuid from) as [c|] eqn:Hc; rewrite Hrel, bind_Ok.
    + eexists _, _, _, s''. split; [reflexivity|]. split; [auto|]. right. split; [done|]. by exists (tk_tspi_ctx tk), c.
    + eexists _, _, _, s''. split; [reflexivity|]. split; [auto|]. by left.
  - destruct Ht as [-> Hidle']. eexists _, _, _, s'. split; [reflexivity|]. split; [done|]. by left.
Qed.

Lemma tspi_decrypt_ok k to size0 from uuid tail s mapper :
  zlen uuid = 16 -> tspi_idle s mapper ->
  exists rc n out s' mapper',
    ecryptfs_tspi_decrypt k to size0 from (uuid ++ tail) s mapper = Ok (Some (rc, n, out, s', mapper')) /\
    tspi_idle s' mapper' /\
    (rc = - EIO /\ n = size0 /\ out = [] \/
     rc = 0 /\ exists ctx k0 h e o m,
       new_encdata k ctx = Some e /\ Tspi_Context_LoadKeyByUUID k0 ctx TSS_PS_TYPE_USER uuid = Some h /\
       Tspi_SetAttribData_blob k e from = Some o /\ Tspi_Data_Unseal k o h = Some m /\
       n = zlen m /\ out = if to then m else []).
Proof.
  intros Hu Hidle. unfold ecryptfs_tspi_decrypt, ecryptfs_tspi_deserialize.
  rewrite rd_prefix, bind_Ok by done.
  destruct (grab_idle k s mapper Hidle) as (rc & t & s' & -> & Ht). rewrite bind_Ok. destruct t as [t|].
  2: { destruct Ht as [-> Hidle']. eexists _, _, _, s', mapper. split; [reflexivity|]. split; [done|]. by left. }
  destruct Ht as (-> & tk & s'' & Hget & Hm & Hrel & Hidle'). rewrite Hget, bind_Ok.
  set (ctx := tk_tspi_ctx tk) in *. unfold unseal.
  destruct (new_encdata k ctx) as [e|] eqn:He.
  2: { rewrite Hrel, bind_Ok. eexists _, _, _, s'', mapper. split; [reflexivity|]. split; [auto|]. by left. }
  destruct (map_key_ok k ctx uuid mapper Hm) as [Hm' Hkey].
  destruct (map_key k ctx uuid mapper) as [[h|] mapper']; cbn [fst snd mbind option_bind] in *.
  2: { rewrite Hrel, bind_Ok. eexists _, _, _, s'', mapper'. split; [reflexivity|]. split; [auto|]. by left. }
  destruct Hkey as [k0 Hkey].
  destruct (Tspi_SetAttribData_blob k e from) as [o|] eqn:Ho; cbn [mbind option_bind].
  2: { rewrite Hrel, bind_Ok. eexists _, _, _, s'', mapper'. split; [reflexivity|]. split; [auto|]. by left. }
  destruct (Tspi_Data_Unseal k o h) as [m|] eqn:Hun; rewrite Hrel, bind_Ok;
    eexists _, _, _, s'', mapper'; (split; [reflexivity|]; split; [auto|]).
  - right. split; [done|]. by exists ctx, k0, h, e, o, m.
  - by left.
Qed.

(** The object for encrypted data is one of the context. *)
Lemma new_encdata_object k ctx e : new_encdata k ctx = Some e -> Tspi_Context_CreateObject k ctx = Some e.
Proof.
  unfold new_encdata. intros (h & _ & (p & _ & Hp)%bind_Some)%bind_Some. by destruct (Tspi_Policy_SetSecret k p).
Qed.

Lemma seal_steps k ctx uuid m c :
  seal k ctx uuid m = Some c -> exists e h o,
    Tspi_Context_LoadKeyByUUID k ctx TSS_PS_TYPE_USER uuid = Some h /\
    Tspi_Data_Seal k e h m = Some o /\ Tspi_GetAttribData_blob k o = Some c.
Proof.
  unfold seal. intros (e & _ & (h & Hh & (o & Ho & Hc)%bind_Some)%bind_Some)%bind_Some. by exists e, h, o.
Qed.
End CallLemmas.

(** ** Properties of calls *)

(** A call that seals comes back whatever the TPM does, when calls follow one
    another: with the sealed bytes and their number, or with [-EIO] and nothing;
    and the next call finds the pool as good. *)
Theorem tspi_encrypt_returns `{Heap, Tss} k to from uuid tail s mapper :
  zlen uuid = 16 -> tspi_idle s mapper ->
  exists rc n out s', ecryptfs_tspi_encrypt k to from (uuid ++ tail) s = Ok (Some (rc, n, out, s')) /\
    tspi_idle s' mapper /\
    (rc = - EIO /\ n = 0 /\ out = [] \/
     rc = 0 /\ exists ctx c, seal k ctx uuid from = Some c /\ n = zlen c /\ out = if to then c else []).
Proof. apply tspi_encrypt_ok. Qed.

(** Sealed session keys come back: if a call sealed [m], a later call that
    unseals the bytes with the same UUID comes back with [m], or with [-EIO] and
    nothing written, also when handles of other keys or of this one were kept in
    between; and the next call finds the pool and the handles as good. *)
Theorem tspi_session_key_roundtrip `{Heap, Tss, !TssLaws} k k' m c n size0 uuid tail tail' s0 s0' mapper0 s mapper :
  zlen uuid = 16 -> tspi_idle s0 mapper0 -> tspi_idle s mapper ->
  ecryptfs_tspi_encrypt k true m (uuid ++ tail) s0 = Ok (Some (0, n, c, s0')) ->
  n = zlen c /\ tspi_idle s0' mapper0 /\
  exists rc n' out s' mapper',
    ecryptfs_tspi_decrypt k' true size0 c (uuid ++ tail') s mapper = Ok (Some (rc, n', out, s', mapper')) /\
    tspi_idle s' mapper' /\
    (rc = 0 /\ out = m /\ n' = zlen m \/ rc = - EIO /\ n' = size0 /\ out = []).
Proof.
  intros Hu Hidle0 Hidle Henc.
  destruct (tspi_encrypt_ok k true m uuid tail s0 mapper0 Hu Hidle0) as (rc & n1 & out & s1 & He & Hidle1 & Hr).
  rewrite Henc in He. injection He as <- <- <- <-.
  destruct Hr as [[? _]|(_ & ctx & c' & Hseal & -> & ->)]; [done|]. split; [done|]. split; [done|].
  destruct (tspi_decrypt_ok k' true size0 c' uuid tail' s mapper Hu Hidle)
    as (rc & n' & out & s' & mapper' & -> & Hidle' & Hr).
  exists rc, n', out, s', mapper'. split; [done|]. split; [done|]. destruct Hr as [Hr|Hr]; [by right|]. left.
  destruct Hr as (-> & ctx' & k0 & h' & e' & o' & m' & He & Hl & Ho & Hun & -> & ->).
  destruct (seal_steps _ _ _ _ _ Hseal) as (e & h & o & Hh & Hs & Hb).
  by rewrite (unseal_sealed _ _ _ _ _ _ _ _ _ _ _ _ _ _ _ Hh Hs Hb Hl (new_encdata_object _ _ _ He) Ho Hun).
Qed.

(** ** Witnesses
    A TPM whose keys are numbers: sealing prepends the number of the key. *)
Definition toy_tss : Tss := {|
  tss_context := sample_context;
  TSS_UUID_SRK := zeros 16;
  sealed := bytes;
  Tspi_Context_LoadKeyByUUID := fun _ _ _ u => head u;
  Tspi_Context_GetKeyByUUID := fun _ _ _ u => head u;
  Tspi_GetPolicyObject := fun _ h => Some h;
  Tspi_Policy_SetSecret := fun _ _ => true;
  Tspi_Context_CreateObject := fun _ c => Some c;
  Tspi_Data_Seal := fun _ _ h m => Some (h :: m);
  Tspi_GetAttribData_blob := fun _ o => Some o;
  Tspi_SetAttribData_blob := fun _ _ b => Some b;
  Tspi_Data_Unseal := fun _ o h =>
    match o with x :: m => if x =? h then Some m else None | [] => None end;
  Tspi_GetAttribData_modulus := fun _ h => Some (replicate 128 255)
|}.

#[export] Instance toy_tss_laws : @TssLaws toy_tss.
Proof.
  split. cbn. intros k c u h e m o b k' k'' c' h' e' o' m' -> [= <-] [= <-] [= ->] _ [= <-].
  rewrite Z.eqb_refl. by intros [= ->].
Qed.

Lemma sample_idle : @tspi_idle toy_tss sample_start [].
Proof.
  destruct (@tspi_init_ok plenty (fun _ => false)) as (s0 & Hi & Hs); [done..|].
  exists [], (reverse (seq 0 pool_size)). unfold sample_start. rewrite Hi. split; [done|]. split; [cbn; lia|].
  split; [done|]. intros t u h Hin. by apply elem_of_nil in Hin.
Qed.

Lemma tspi_sig_of_key_witness :
  @ecryptfs_tspi_get_key_sig plenty toy_ssl toy_tss 0 (zeros 17) (replicate 16 7 ++ []) =
    Ok (0, hex_of (take 8 (@SHA1 toy_ssl (tpm_key_packet (replicate 128 255)))) ++ 0 :: drop 17 (zeros 17)) /\
  forall key, @rsa_e toy_ssl key = 65537 -> @BN_bn2bin toy_ssl (@rsa_n toy_ssl key) = replicate 128 255 ->
    @BN_num_bits toy_ssl (@rsa_n toy_ssl key) = 128 * 8 ->
    exists front, @openpgp_key_packet toy_ssl key = front ++ 17 :: tpm_exponent /\
      tpm_key_packet (replicate 128 255) = front ++ 24 :: tpm_exponent.
Proof.
  apply (@tspi_sig_of_key plenty toy_ssl toy_ssl_laws toy_tss 0 (zeros 17) (replicate 16 7) [] 100 7 (replicate 128 255)).
  - done.
  - vm_compute. congruence.
  - done.
  - done.
  - done.
  - done.
Defined.

Lemma tspi_encrypt_returns_witness :
  exists rc n out s', @ecryptfs_tspi_encrypt toy_tss 0 true [1; 2; 3] (replicate 16 7 ++ []) sample_start =
      Ok (Some (rc, n, out, s')) /\ @tspi_idle toy_tss s' [] /\
    (rc = - EIO /\ n = 0 /\ out = [] \/
     rc = 0 /\ exists ctx c, @seal toy_tss 0 ctx (replicate 16 7) [1; 2; 3] = Some c /\ n = zlen c /\ out = c).
Proof.
  apply (@tspi_encrypt_returns plenty toy_tss 0 true [1; 2; 3] (replicate 16 7) [] sample_start []).
  - done.
  - exact sample_idle.
Defined.

Definition after_seal : pool :=
  match @ecryptfs_tspi_encrypt toy_tss 0 true [1; 2; 3] (replicate 16 7 ++ []) sample_start with
  | Ok (Some (_, _, _, s)) => s | _ => sample_start
  end.

Lemma tspi_session_key_roundtrip_witness :
  4 = zlen [7; 1; 2; 3] /\ @tspi_idle toy_tss after_seal [] /\
  exists rc n' out s' mapper',
    @ecryptfs_tspi_decrypt plenty toy_tss 1 true 99 [7; 1; 2; 3] (replicate 16 7 ++ []) sample_start [] =
      Ok (Some (rc, n', out, s', mapper')) /\ @tspi_idle toy_tss s' mapper' /\
    (rc = 0 /\ out = [1; 2; 3] /\ n' = 3 \/ rc = - EIO /\ n' = 99 /\ out = []).
Proof.
  apply (@tspi_session_key_roundtrip plenty toy_tss toy_tss_laws 0 1 [1; 2; 3] [7; 1; 2; 3] 4 99
    (replicate 16 7) [] [] sample_start after_seal [] sample_start []).
  - done.
  - exact sample_idle.
  - exact sample_idle.
  - vm_compute. reflexivity.
Defined.
