(* ===== verification/TpmKey.v ===== *)
(** * Making a key in the TPM: [src/utils/ecryptfs_generate_tpm_key.c]

    A storage key is made under the root key, bound to the present values of the
    chosen registers, and registered under a random UUID, which is printed for the
    parameter [tspi_uuid] of the key module of [Tspi].  The calls of the TPM
    software stack are parameters, asked by the lines of the source. *)

From S2P Require Import Prelude CLib Ecryptfs PassphraseSig Ssl TspiPool Tspi.

(** The result of the call at a line, by how often it was made before; the number
    of registers, their values and the random bytes. *)
Record tpm_world := TpmWorld {
  tw_result : Z -> nat -> Z;
  tw_num_pcrs : Z;
  tw_pcr : Z -> bytes;
  tw_random : bytes
}.

(** What the run has done: whether the context is open, the registers of the
    composite object, the key and what it was registered under, and the output. *)
Record tpm_state := TpmState {
  tp_context : bool;
  tp_composite : list (Z * bytes);
  tp_key : option (list (Z * bytes));
  tp_registered : option (bytes * list (Z * bytes));
  tp_out : list cstring
}.
Definition tpm_start : tpm_state := TpmState false [] None None [].
Definition set_context (b : bool) (s : tpm_state) : tpm_state :=
  TpmState b (tp_composite s) (tp_key s) (tp_registered s) (tp_out s).
Definition set_composite (l : list (Z * bytes)) (s : tpm_state) : tpm_state :=
  TpmState (tp_context s) l (tp_key s) (tp_registered s) (tp_out s).
Definition create_key (s : tpm_state) : tpm_state :=
  TpmState (tp_context s) (tp_composite s) (Some (tp_composite s)) (tp_registered s) (tp_out s).
Definition register_key (uuid : bytes) (s : tpm_state) : tpm_state :=
  TpmState (tp_context s) (tp_composite s) (tp_key s) ((uuid,.) <$> tp_key s) (tp_out s).
Definition print (line : cstring) (s : tpm_state) : tpm_state :=
  TpmState (tp_context s) (tp_composite s) (tp_key s) (tp_registered s) (tp_out s ++ [line]).

Section TpmKey.
Context `{Heap} (w : tpm_world).

(** ** Bytes as text *)
Fixpoint string_words (n : nat) (i : Z) (data ret : bytes) : outcome bytes :=
  match n with
  | O => mret ret
  | S n' =>
      b ← rd data i 4;
      ret ← wr ret (i * 2) (hex_of b ++ [0]);
      string_words n' (i + 4) data ret
  end.

(** The [k]-th call; the number of turns is that of the multiples of 4 below
    [chars]. *)
Definition util_bytes_to_string (k : nat) (data : bytes) (chars : Z) : outcome (option cstring) :=
  let len := chars * 2 in
  if negb (alloc_ok 110065 k) then mret None
  else
    ret ← string_words (Z.to_nat ((chars + 3) / 4)) 0 data (malloc_block heap_junk (len + 1));
    ret ← wr ret len [0];
    text ← cstr_of ret;
    mret (Some text).

(** ** The program *)

(** The registers that the options name, [None] when the allocation fails; other
    options print the usage text. *)
Fixpoint selected_pcrs (opts : list (Z * cstring)) (pcrs : list Z) : option (list Z) :=
  match opts with
  | [] => Some pcrs
  | (c, optarg) :: opts' =>
      if c =? 112 then
        if negb (alloc_ok 110101 (length pcrs)) then None
        else selected_pcrs opts' (pcrs ++ [atoi optarg])
      else selected_pcrs opts' pcrs
  end.

(** A call, and the way out when it fails. *)
Definition tss_call (line : Z) (k : nat) (close : bool) (s : tpm_state)
    (next : outcome (Z * tpm_state)) : outcome (Z * tpm_state) :=
  let result := tw_result w line k in
  if negb (result =? 0) then mret (result, if close then set_context false s else s) else next.

(** The loop that reads the registers into the composite object; then [next], with
    the values. *)
Fixpoint read_pcrs (i : nat) (pcrs : list Z) (values : list bytes) (s : tpm_state)
    (next : list bytes -> tpm_state -> outcome (Z * tpm_state)) : outcome (Z * tpm_state) :=
  match pcrs with
  | [] => next values s
  | p :: pcrs' =>
      tss_call 166 i true s (
        let value := tw_pcr w (u32 p) in
        tss_call 173 i true s (
          read_pcrs (S i) pcrs' (values ++ [value])
            (set_composite (tp_composite s ++ [(u32 p, value)]) s) next))
  end.

(** The loop that prints them; false when an allocation fails. *)
Fixpoint print_pcrs (i : nat) (pcrs : list Z) (values : list bytes) (s : tpm_state)
    : outcome (bool * tpm_state) :=
  match pcrs, values with
  | p :: pcrs', v :: values' =>
      text ← util_bytes_to_string i v 20;
      match text with
      | None => mret (false, s)
      | Some text =>
          print_pcrs (S i) pcrs' values' (print (lit "PCR " ++ show_int p ++ lit ": " ++ text) s)
      end
  | _, _ => mret (true, s)
  end.

Definition NO_PCRS_TEXT : cstring := lit "Warning: Key will not be bound to any PCR's!".
Definition SUCCESS_TEXT : cstring := lit "Success: Key created bound to:".
Definition UUID_TEXT : cstring :=
  lit "And registered in persistent storage with UUID (tspi_uuid parameter): ".

(** From the success of [Tspi_Context_RegisterKey] on: [result] is 0. *)
Definition report_made (pcrs : list Z) (values : list bytes) (s : tpm_state) : outcome (Z * tpm_state) :=
  '(ok, s) ← print_pcrs 0 pcrs values (print SUCCESS_TEXT s);
  if negb ok then mret (0, set_context false s)
  else
    text ← util_bytes_to_string (length pcrs) (tw_random w) 16;
    match text with
    | None => mret (0, set_context false s)
    | Some text => mret (0, set_context false (print (UUID_TEXT ++ text) s))
    end.

(** From the root key on. *)
Definition make_key (pcrs : list Z) (values : list bytes) (s : tpm_state) : outcome (Z * tpm_state) :=
  tss_call 184 0 true s (tss_call 191 0 true s (tss_call 198 0 true s (
  tss_call 205 0 true s (tss_call 216 0 true s (
    let s := create_key s in
    tss_call 222 0 true s (tss_call 228 0 true s (report_made pcrs values (register_key (tw_random w) s)))))))).

Definition generate_tpm_key_main (opts : list (Z * cstring)) : outcome (Z * tpm_state) :=
  match selected_pcrs opts [] with
  | None => mret (-1, tpm_start)
  | Some pcrs =>
      let s := if bool_decide (pcrs = [])
               then print NO_PCRS_TEXT tpm_start else tpm_start in
      if 24 <? Z.of_nat (length pcrs) then mret (- EINVAL, s)
      else
        tss_call 124 0 false s (
          let s := set_context true s in
          tss_call 129 0 true s (tss_call 135 0 true s (tss_call 143 0 true s (
            if existsb (fun p => i32 (tw_num_pcrs w) <? p) pcrs then mret (-1, s)
            else tss_call 159 0 false s (read_pcrs 0 pcrs [] s (make_key pcrs))))))
  end.
End TpmKey.

(** ** Lemmas *)
Section TpmLemmas.
Context `{Heap} (w : tpm_world).

Lemma string_words_ok n pre mid post junk :
  zlen mid = 4 * Z.of_nat n -> 8 * Z.of_nat n < zlen junk ->
  exists junk', string_words n (zlen pre) (pre ++ mid ++ post) (hex_of pre ++ junk) =
      Ok (hex_of (pre ++ mid) ++ junk') /\ zlen junk' = zlen junk - 8 * Z.of_nat n.
Proof.
  revert pre mid junk. induction n as [|n IH]; intros pre mid junk Hm Hj; cbn [string_words].
  { destruct mid; [|rewrite zlen_cons in Hm; pose proof (zlen_nonneg mid); lia].
    exists junk. rewrite app_nil_r. split; [done|lia]. }
  pose proof (take_drop 4 mid) as E. set (a := take 4 mid) in *. set (r := drop 4 mid) in *.
  assert (zlen a = 4 /\ zlen r = 4 * Z.of_nat n) as [Ha Hr].
  { subst a r. rewrite zlen_drop. unfold zlen in *. rewrite length_take. lia. }
  rewrite <- E, <- !app_assoc. rewrite rd_app3, bind_Ok by (done || lia).
  assert (zlen (hex_of a ++ [0]) = 9) as H9
    by (rewrite zlen_app; unfold zlen in *; rewrite length_hex_of; cbn [length]; lia).
  assert (zlen (hex_of pre) = zlen pre * 2) as Hp by (unfold zlen; rewrite length_hex_of; lia).
  rewrite <- (take_drop 9 junk).
  rewrite (wr_app3 _ (take 9 junk) (drop 9 junk) (zlen pre * 2) (hex_of a ++ [0])), bind_Ok;
    [|by rewrite Hp|rewrite H9; unfold zlen in *; rewrite length_take; lia].
  replace (zlen pre + 4) with (zlen (pre ++ a)) by (rewrite zlen_app; lia).
  destruct (IH (pre ++ a) r ([0] ++ drop 9 junk)) as (junk' & E' & Hl); [done|..].
  { rewrite zlen_app, zlen_drop. change (zlen [0]) with 1. lia. }
  exists junk'. rewrite (hex_of_app pre a), <- !app_assoc in E'.
  rewrite <- !app_assoc. rewrite E'. split; [done|].
  rewrite Hl, zlen_app, zlen_drop. change (zlen [0]) with 1.
  rewrite take_drop. lia.
Qed.

Lemma bytes_to_string_ok k data chars n :
  heap_never_fails -> chars = 4 * Z.of_nat n -> chars <= zlen data -> Forall is_byte data ->
  util_bytes_to_string k data chars = Ok (Some (hex_of (take (Z.to_nat chars) data))).
Proof.
  intros Hh Hc Hd Hb. unfold util_bytes_to_string. rewrite (Hh 110065). cbn [negb].
  replace (Z.to_nat ((chars + 3) / 4)) with n by lia.
  set (mid := take (Z.to_nat chars) data).
  assert (zlen mid = chars) as Hm by (subst mid; unfold zlen in *; rewrite length_take; lia).
  destruct (string_words_ok n [] mid (drop (Z.to_nat chars) data) (malloc_block heap_junk (chars * 2 + 1)))
    as (junk & E & Hj); [lia|rewrite zlen_malloc_block; lia|].
  cbn [app] in E. unfold mid in E at 1. rewrite take_drop in E. change (zlen []) with 0 in E.
  change (hex_of []) with (@nil Z) in E. cbn [app] in E. rewrite E, bind_Ok.
  rewrite zlen_malloc_block in Hj by lia.
  assert (zlen (hex_of mid) = chars * 2) as Hx by (unfold zlen in *; rewrite length_hex_of; lia).
  destruct junk as [|j [|]]; [unfold zlen in Hj; cbn in Hj; lia| |unfold zlen in Hj; cbn in Hj; lia].
  pose proof (wr_app3 (hex_of mid) [j] [] (chars * 2) [0] (eq_sym Hx) eq_refl) as Ew. cbn [app] in Ew.
  rewrite Ew, bind_Ok.
  rewrite cstr_of_app, bind_Ok; [done|]. apply is_char_nonzero, hex_of_cstring.
  subst mid. by apply Forall_take.
Qed.

Lemma selected_pcrs_ok pcrs acc :
  heap_never_fails -> Forall (fun p => -2 ^ 31 <= p < 2 ^ 31) pcrs ->
  selected_pcrs ((fun p => (112, show_int p)) <$> pcrs) acc = Some (acc ++ pcrs).
Proof.
  intros Hh Hp. revert acc. induction Hp as [|p pcrs Hp _ IH]; intros acc; [by rewrite app_nil_r|].
  cbn [fmap list_fmap selected_pcrs Z.eqb Pos.eqb]. rewrite (Hh 110101). cbn [negb].
  rewrite IH, <- app_assoc. do 3 f_equal. unfold atoi.
  rewrite <- (app_nil_r (show_int p)), strtol_show_int by (unfold LONG_MAX; done || lia).
  assert (i32 p = p) as -> by (apply swrap_small; lia). done.
Qed.

(** What is read of the registers. *)
Definition pcr_values (pcrs : list Z) : list (Z * bytes) := (fun p => (u32 p, tw_pcr w (u32 p))) <$> pcrs.

Lemma read_pcrs_ok i pcrs values s next :
  (forall line k, tw_result w line k = 0) ->
  read_pcrs w i pcrs values s next =
  next (values ++ (pcr_values pcrs).*2) (set_composite (tp_composite s ++ pcr_values pcrs) s).
Proof.
  intros Hr. revert i values s. induction pcrs as [|p pcrs IH]; intros i values s; cbn [read_pcrs].
  { rewrite !app_nil_r. by destruct s. }
  unfold tss_call. rewrite !Hr. cbn [Z.eqb negb]. rewrite IH. cbn [pcr_values fmap list_fmap tp_composite set_composite].
  by rewrite <- !app_assoc.
Qed.

(** The lines that are printed for the registers. *)
Definition pcr_lines (pcrs : list Z) : list cstring :=
  (fun p => lit "PCR " ++ show_int p ++ lit ": " ++ hex_of (take 20 (tw_pcr w (u32 p)))) <$> pcrs.

Lemma print_pcrs_ok i pcrs s :
  heap_never_fails -> (forall p, 20 <= zlen (tw_pcr w p)) -> (forall p, Forall is_byte (tw_pcr w p)) ->
  print_pcrs i pcrs (pcr_values pcrs).*2 s =
  Ok (true, TpmState (tp_context s) (tp_composite s) (tp_key s) (tp_registered s) (tp_out s ++ pcr_lines pcrs)).
Proof.
  intros Hh Hl Hb. revert i s. induction pcrs as [|p pcrs IH]; intros i s; cbn [print_pcrs pcr_values fmap list_fmap snd].
  { rewrite app_nil_r. by destruct s. }
  rewrite (bytes_to_string_ok i _ 20 5), bind_Ok by done. fold (pcr_values pcrs).
  unfold pcr_values in IH. rewrite IH. cbn [print tp_out pcr_lines fmap list_fmap].
  by rewrite <- app_assoc.
Qed.





End TpmLemmas.

(** ** Properties *)

(** C17. What is made when every call succeeds: a key bound to the present values of
    the chosen registers, in the order of the options, registered under the random
    UUID, with the context closed.  The output ends with the UUID in the form that
    the key module takes for its parameter [tspi_uuid]: the blob it makes of that
    text is the UUID again, on hosts of either byte order.  The check of the
    numbers lets through one more than there are registers, and negative ones. *)
Theorem generate_tpm_key_registers `{Heap} w pcrs :
  heap_never_fails -> (forall line k, tw_result w line k = 0) ->
  Forall (fun p => -2 ^ 31 <= p <= i32 (tw_num_pcrs w)) pcrs -> (length pcrs <= 24)%nat ->
  (forall p, 20 <= zlen (tw_pcr w p)) -> (forall p, Forall is_byte (tw_pcr w p)) ->
  zlen (tw_random w) = 16 -> Forall is_byte (tw_random w) ->
  exists out,
    generate_tpm_key_main w ((fun p => (112, show_int p)) <$> pcrs) =
      Ok (0, TpmState false (pcr_values w pcrs) (Some (pcr_values w pcrs))
               (Some (tw_random w, pcr_values w pcrs))
               (out ++ pcr_lines w pcrs ++ [UUID_TEXT ++ hex_of (tw_random w)])) /\
    forall be block size, zlen block = 16 ->
      ecryptfs_tspi_get_blob be (Some block) size [Some (hex_of (tw_random w))] =
      Ok (0, 16, Some (tw_random w)).
Proof.
  intros Hh Hr Hp Hlen Hl Hb Hu Hub.
  exists ((if bool_decide (pcrs = []) then [NO_PCRS_TEXT] else []) ++ [SUCCESS_TEXT]). split.
  - unfold generate_tpm_key_main. rewrite selected_pcrs_ok; [|done|].
    2:{ eapply Forall_impl; [exact Hp|]. cbn. intros p Hr'.
        unfold swrap in *.
        pose proof (Z.mod_pos_bound (tw_num_pcrs w + 2 ^ (32 - 1)) (2 ^ 32)). lia. }
    cbn [app]. replace (24 <? Z.of_nat (length pcrs)) with false by lia.
    set (s0 := if bool_decide (pcrs = []) then print NO_PCRS_TEXT tpm_start else tpm_start).
    assert (s0 = TpmState false [] None None (if bool_decide (pcrs = []) then [NO_PCRS_TEXT] else [])) as ->
      by (subst s0; by case_bool_decide).
    generalize (if bool_decide (pcrs = []) then [NO_PCRS_TEXT] else []). intros o.
    unfold tss_call at 1 2 3 4 5. rewrite !Hr. cbn [Z.eqb negb].
    assert (existsb (fun p => i32 (tw_num_pcrs w) <? p) pcrs = false) as ->.
    { apply not_true_is_false. intros (p & Hin & Hlt)%existsb_exists.
      rewrite Forall_forall in Hp. apply list_elem_of_In in Hin. specialize (Hp p Hin). lia. }
    rewrite read_pcrs_ok by done. unfold make_key, tss_call. rewrite !Hr. cbn [Z.eqb negb].
    unfold report_made. cbn [app]. rewrite print_pcrs_ok, bind_Ok by done. cbn [negb].
    rewrite (bytes_to_string_ok _ _ 16 4), bind_Ok by (done || lia).
    rewrite take_ge by (unfold zlen in Hu; lia).
    unfold set_context, print, create_key, register_key, set_composite.
    cbn [tp_context tp_composite tp_key tp_registered tp_out fmap option_fmap option_map app].
    by rewrite <- !app_assoc.
  - intros be block size Hbl. unfold ecryptfs_tspi_get_blob, ecryptfs_tspi_init_from_param_vals.
    rewrite (string_to_uuid_hex be (tw_random w) [0]), !bind_Ok by done. cbn [Z.eqb negb ecryptfs_tspi_serialize].
    rewrite wr_ok, bind_Ok by lia. change (Z.to_nat 0) with 0%nat.
    by rewrite take_0, drop_ge, app_nil_r by (unfold zlen in *; lia).
Qed.


(** ** Witnesses *)

(** A TPM of 24 registers that works. *)
Definition sample_tpm : tpm_world :=
  TpmWorld (fun _ _ => 0) 24 (fun p => replicate 20 (p mod 256)) (Z.of_nat <$> seq 200 16).

Lemma generate_tpm_key_registers_witness :
  exists out,
    @generate_tpm_key_main plenty sample_tpm [(112, lit "1"); (112, lit "24"); (112, lit "-3")] =
      Ok (0, TpmState false (pcr_values sample_tpm [1; 24; -3]) (Some (pcr_values sample_tpm [1; 24; -3]))
               (Some (tw_random sample_tpm, pcr_values sample_tpm [1; 24; -3]))
               (out ++ pcr_lines sample_tpm [1; 24; -3] ++ [UUID_TEXT ++ hex_of (tw_random sample_tpm)])) /\
    forall be block size, zlen block = 16 ->
      ecryptfs_tspi_get_blob be (Some block) size [Some (hex_of (tw_random sample_tpm))] =
      Ok (0, 16, Some (tw_random sample_tpm)).
Proof.
  apply (@generate_tpm_key_registers plenty sample_tpm [1; 24; -3]).
  - intros line k. reflexivity.
  - intros line k. reflexivity.
  - apply (bool_decide_unpack _). vm_compute. exact I.
  - cbn. lia.
  - intros p. vm_compute. discriminate.
  - intros p. repeat constructor; unfold is_byte; apply Z.mod_pos_bound; lia.
  - reflexivity.
  - apply (bool_decide_unpack _). vm_compute. exact I.
Defined.

