(* ===== verification/Pkcs11.v ===== *)
(** * The PKCS#11 key module: [src/key_mod/ecryptfs_key_mod_pkcs11_helper.c]

    A key of this module lives on a token: its blob names the certificate on the
    token, holds a copy of the certificate and the PIN.  The certificate is enough
    to sign and encrypt; decrypting asks the token, through the library
    pkcs11-helper.  Allocations of this file are asked for by line number plus
    70000; the providers of the library are configured in [Pkcs11Providers]. *)

From S2P Require Import Prelude CLib Ecryptfs PassphraseSig KeyMod KeyPayload KeyManagement CmdLnParser DecisionGraph PassphraseGraph ModuleMgr Ssl Openssl.

(** ** The libraries
    Certificates of OpenSSL, and pkcs11-helper, whose tokens have a state:
    [decryptAny] without a buffer leaves the operation in progress. *)
Class Pkcs11 `{Ssl} := {
  X509 : Type;
  X509_new : nat -> bool;
  d2i_X509 : option bytes -> option X509;
  EVP_PKEY : Type;
  X509_get_pubkey : X509 -> option EVP_PKEY;
  pkey_is_rsa : EVP_PKEY -> bool;
  EVP_PKEY_get1_RSA : EVP_PKEY -> option RSA;
  X509_subject_oneline : X509 -> cstring;
  X509_serial_text : X509 -> option cstring;
  PEM_read_X509 : cstring -> Z + option X509;
  i2d_X509 : X509 -> option bytes;
  certificate_id : Type;
  certificate : Type;
  token : Type;
  deserializeCertificateId : option cstring -> option certificate_id;
  serializeCertificateId : certificate_id -> option cstring;
  setCertificateIdCertificateBlob : certificate_id -> bytes -> option certificate_id;
  certificate_create : certificate_id -> option cstring -> option certificate;
  getCertificateBlob : certificate -> option bytes;
  enumCertificateIds : option (list certificate_id);
  decryptAny : token -> certificate -> Z -> bytes -> option Z -> option (Z * bytes) * token
}.

(** The mechanism of PKCS#11 whose padding is [RSA_PKCS1_PADDING]. *)
Definition CKM_RSA_PKCS : Z := 1.

(** ** The blob *)

(** [struct pkcs11h_data] as the walk fills it; the certificate has its size. *)
Record pkcs11h_data := Pkcs11hData {
  pk_serialized_id : option cstring;
  pk_certificate_blob : option bytes;
  pk_certificate_blob_size : Z;
  pk_passphrase : option cstring
}.

(** The same after [ecryptfs_pkcs11h_deserialize]: its pointers are offsets in
    the blob. *)
Record pkcs11h_view := Pkcs11hView {
  pv_serialized_id : option Z;
  pv_certificate_blob : option Z;
  pv_certificate_blob_size : Z;
  pv_passphrase : option Z
}.

(** A field: two bytes of length, and where its bytes start, if there are any;
    the index after it. *)
Definition read_field (blob : bytes) (i : Z) : outcome (option Z * Z * Z) :=
  b0 ← rd1 blob i;
  b1 ← rd1 blob (i + 1);
  let length := b0 mod 256 + Z.shiftl b1 8 in
  if length =? 0 then mret (None, 0, i + 2) else mret (Some (i + 2), length, i + 2 + length).

Definition ecryptfs_pkcs11h_deserialize (blob : bytes) : outcome pkcs11h_view :=
  '(serialized_id, _, i) ← read_field blob 0;
  '(certificate_blob, certificate_blob_size, i) ← read_field blob i;
  '(passphrase, _, _) ← read_field blob i;
  mret (Pkcs11hView serialized_id certificate_blob certificate_blob_size passphrase).

(** [PUSHSER1] twice, then [PUSHSERN]; nothing is written without a blob, whose
    source may be null then. *)
Definition push_field (blob : option bytes) (i : Z) (src : outcome bytes) (size : Z)
    : outcome (option bytes * Z) :=
  match blob with
  | None => mret (None, i + 2 + size)
  | Some blob =>
      blob ← wr blob i [u8 (size mod 256); u8 (Z.shiftr size 8)];
      src ← src;
      data ← rd src 0 size;
      blob ← wr blob (i + 2) data;
      mret (Some blob, i + 2 + size)
  end.

(** [memcpy] of [size] bytes from a pointer; of none, from anywhere. *)
Definition memcpy_src (p : option bytes) (size : Z) : outcome bytes :=
  if size =? 0 then mret [] else deref_str p.

(** The code, [*blob_size] and the blob. *)
Definition ecryptfs_pkcs11h_serialize (blob : option bytes) (d : pkcs11h_data)
    : outcome (Z * Z * option bytes) :=
  match pk_serialized_id d with
  | None => mret (- EINVAL, 0, blob)
  | Some id =>
      '(blob, i) ← push_field blob 0 (mret (id ++ [0])) (zlen id + 1);
      '(blob, i) ← push_field blob i (memcpy_src (pk_certificate_blob d) (pk_certificate_blob_size d))
                     (pk_certificate_blob_size d);
      passphrase ← deref_str (pk_passphrase d);
      '(blob, i) ← push_field blob i (mret (passphrase ++ [0])) (zlen passphrase + 1);
      mret (0, i, blob)
  end.

(** What a pointer of the view points to. *)
Definition view_bytes (blob : bytes) (p : option Z) (size : Z) : outcome (option bytes) :=
  match p with None => mret None | Some off => b ← rd blob off size; mret (Some b) end.
Definition view_string (blob : bytes) (p : option Z) : outcome (option cstring) :=
  match p with None => mret None | Some off => s ← string_at blob off; mret (Some s) end.

(** ** The PIN *)
Section Pin.
Context `{Heap}.

(** No token is waited for. *)
Definition pkcs11h_token_prompt (retry : Z) : bool := false.

(** [cryptfs_get_ctx_opts()->prompt]: kind, text, buffer and its size; a call
    that does not come back is [None]. *)
Definition prompt_fn : Type := cstring -> cstring -> bytes -> Z -> outcome (option (Z * bytes)).

(** What happens without an answer: the password that came with the key, at the
    first try. *)
Definition use_static_password (user_data : option cstring) (retry : Z) (pin : bytes) (pin_max : Z)
    : outcome (bool * bytes) :=
  match user_data with
  | Some password =>
      if negb (retry =? 0) then mret (false, pin)
      else
        pin ← wr pin 0 (strncpy password (Z.to_nat (pin_max - 1)));
        pin ← wr pin (pin_max - 1) [0];
        mret (true, pin)
  | None => mret (false, pin)
  end.

(** Whether there is a PIN, and the buffer. *)
Definition pkcs11h_pin_prompt (prompt_callback : option prompt_fn) (display : cstring)
    (user_data : option cstring) (retry : Z) (pin : bytes) (pin_max : Z) : outcome (option (bool * bytes)) :=
  if negb (alloc_ok 70208 0) then mret (Some (false, pin))
  else
    let prompt := lit "Please enter PIN for token '" ++ display ++ lit "'" in
    match prompt_callback with
    | Some f =>
        r ← f (lit "password") prompt pin pin_max;
        match r with
        | None => mret None
        | Some (rc, pin) =>
            if rc =? - EINVAL then r ← use_static_password user_data retry pin pin_max; mret (Some r)
            else mret (Some (rc =? 0, pin))
        end
    | None => r ← use_static_password user_data retry pin pin_max; mret (Some r)
    end.
End Pin.

(** ** Operations *)
Section Operations.
Context `{Heap, Pkcs11}.

(** The code or the key; [k] counts the calls. *)
Definition ecryptfs_pkcs11h_get_public_key (k : nat) (blob : bytes) : outcome (Z + RSA) :=
  pkcs11h_data ← ecryptfs_pkcs11h_deserialize blob;
  if negb (X509_new k) then mret (inl (- ENOMEM))
  else
    d2i1 ← view_bytes blob (pv_certificate_blob pkcs11h_data) (pv_certificate_blob_size pkcs11h_data);
    mret (match d2i_X509 d2i1 with
          | None => inl (- EIO)
          | Some x509 =>
              match X509_get_pubkey x509 with
              | None => inl (- EIO)
              | Some pubkey =>
                  if negb (pkey_is_rsa pubkey) then inl (- EIO)
                  else match EVP_PKEY_get1_RSA pubkey with
                  | None => inl (- EIO)
                  | Some rsa => inr rsa
                  end
              end
          end).

(** The byte that a [char] is stored in. *)
Definition char_byte (x : Z) : Z := u8 (swrap 8 x).

(** The code and the signature buffer.  The module has its own copy of the code of
    [ecryptfs_openssl_generate_signature], on buffers of [char]. *)
Definition ecryptfs_pkcs11h_get_key_sig (sig blob : bytes) : outcome (Z * bytes) :=
  r ← ecryptfs_pkcs11h_get_public_key 0 blob;
  match r with
  | inl rc => mret (rc, sig)
  | inr rsa =>
      if negb (alloc_ok 70329 0) then mret (- ENOMEM, sig)
      else
        let hash := malloc_block heap_junk SHA_DIGEST_LENGTH in
        let nbits := BN_num_bits (rsa_n rsa) in
        let nbytes := if negb (nbits mod 8 =? 0) then nbits / 8 + 1 else nbits / 8 in
        let ebits := BN_num_bits (rsa_e rsa) in
        let ebytes := if negb (ebits mod 8 =? 0) then ebits / 8 + 1 else ebits / 8 in
        let len := 10 + nbytes + ebytes in
        if negb (alloc_ok 70344 0) then mret (- ENOMEM, sig)
        else
          let data := malloc_block heap_junk (3 + len) in
          data ← wr data 0 [0x99; char_byte (Z.shiftr len 8); char_byte len; 4; 0; 0; 0; 0; 2;
                            char_byte (Z.shiftr nbits 8); char_byte nbits];
          data ← wr data 11 (BN_bn2bin (rsa_n rsa));
          let i := 11 + nbytes in
          data ← wr data i [char_byte (Z.shiftr ebits 8); char_byte ebits];
          data ← wr data (i + 2) (BN_bn2bin (rsa_e rsa));
          input ← rd data 0 (len + 3);
          hash ← wr hash 0 (SHA1 input);
          sig ← to_hex sig hash ECRYPTFS_SIG_SIZE;
          sig ← wr sig ECRYPTFS_SIG_SIZE_HEX [0];
          mret (0, sig)
  end.

(** The code, [*to_size] and what is written to [to], which may be null; [to_size]
    is what [*to_size] holds before the call. *)
Definition ecryptfs_pkcs11h_encrypt (queue : err_queue) (to : bool) (to_size : Z) (from blob : bytes)
    (blob_type : Z) : outcome (Z * Z * bytes) :=
  let to_size := if to then to_size else 0 in
  r ← ecryptfs_pkcs11h_get_public_key 0 blob;
  match r with
  | inl rc => mret (rc, to_size, [])
  | inr rsa =>
      if to then
        match RSA_public_encrypt rsa RSA_PKCS1_PADDING from queue with
        | (None, queue) => mret (queued_error queue, RSA_size rsa, [])
        | (Some data, _) => mret (0, zlen data, data)
        end
      else mret (0, RSA_size rsa, [])
  end.

(** The certificate that a blob names. *)
Definition open_certificate (pkcs11h_data : pkcs11h_view) (blob : bytes) : outcome (option certificate) :=
  serialized_id ← view_string blob (pv_serialized_id pkcs11h_data);
  match deserializeCertificateId serialized_id with
  | None => mret None
  | Some id =>
      certificate_blob ← view_bytes blob (pv_certificate_blob pkcs11h_data)
                           (pv_certificate_blob_size pkcs11h_data);
      match match certificate_blob with
            | Some b => setCertificateIdCertificateBlob id b
            | None => Some id
            end with
      | None => mret None
      | Some id =>
          passphrase ← view_string blob (pv_passphrase pkcs11h_data);
          mret (certificate_create id passphrase)
      end
  end.

(** Also the token.  Without a buffer the operation is ended with a buffer of the
    size that was announced, which sets [*to_size] again. *)
Definition ecryptfs_pkcs11h_decrypt (t : token) (to : bool) (to_size : Z) (from blob : bytes)
    (blob_type : Z) : outcome (Z * Z * bytes * token) :=
  let to_size := if to then to_size else 0 in
  pkcs11h_data ← ecryptfs_pkcs11h_deserialize blob;
  c ← open_certificate pkcs11h_data blob;
  match c with
  | None => mret (- EIO, to_size, [], t)
  | Some c =>
      match decryptAny t c CKM_RSA_PKCS from (if to then Some to_size else None) with
      | (None, t) => mret (- EIO, to_size, [], t)
      | (Some (n, data), t) =>
          if to then mret (0, n, data, t)
          else if negb (alloc_ok 70541 0) then mret (- ENOMEM, n, [], t)
          else match decryptAny t c CKM_RSA_PKCS from (Some n) with
          | (None, t) => mret (0, n, [], t)
          | (Some (n, _), t) => mret (0, n, [], t)
          end
      end
  end.
End Operations.

(** ** The certificates on the tokens *)
Section IdList.
Context `{Heap, Pkcs11}.

(** What the loop adds for one certificate, if it gets to the end: the name, the
    serial number and the id, each name and number at most 1023 characters. *)
Definition certificate_entry (k : nat) (id : certificate_id) : option cstring :=
  serializeCertificateId id ≫= fun ser =>
  if negb (alloc_ok 70624 k) then None
  else
    certificate_create id None ≫= fun certificate =>
    getCertificateBlob certificate ≫= fun certificate_blob =>
    if negb (alloc_ok 70669 k && X509_new k) then None
    else
      d2i_X509 (Some certificate_blob) ≫= fun x509 =>
      let dn := take 1023 (X509_subject_oneline x509) in
      if negb (alloc_ok 70707 k) then None
      else
        let serial := take 1023 (default [] (X509_serial_text x509)) in
        if negb (alloc_ok 70725 k) then None
        else Some (dn ++ lit " (" ++ serial ++ lit ") [" ++ ser ++ lit "]" ++ [10]).

(** The string so far is null until a certificate is listed. *)
Fixpoint id_list_loop (k : nat) (ids : list certificate_id) (s : option cstring) : option cstring :=
  match ids with
  | [] => s
  | id :: ids' =>
      id_list_loop (S k) ids'
        (match certificate_entry k id with Some e => Some (default [] s ++ e) | None => s end)
  end.

(** The code and the list. *)
Definition pkcs11h_get_id_list : Z * option cstring :=
  match enumCertificateIds with
  | None => (- EIO, None)
  | Some ids => (0, id_list_loop 0 ids None)
  end.
End IdList.

(** ** The graph of a key *)
Definition PKCS11H_KEY_TOK_TOK : Z := 300.
Definition PKCS11H_KEY_TOK_ID : Z := 301.
Definition PKCS11H_KEY_TOK_PASSWD : Z := 302.
Definition PKCS11H_KEY_TOK_PASS_ENV : Z := 303.
Definition PKCS11H_KEY_TOK_PASS_STDIN : Z := 304.
Definition PKCS11H_KEY_TOK_DEFAULT_PASS : Z := 305.
Definition PKCS11H_KEY_TOK_DEFAULT_X509_FILE : Z := 306.

(** The tags of the functions. *)
Definition TF_PKCS11H_KEY_ENTER : Z := 30.
Definition TF_PKCS11H_KEY_ID : Z := 31.
Definition TF_PKCS11H_KEY_PASSWD : Z := 32.
Definition TF_PKCS11H_KEY_X509FILE : Z := 33.

Definition pk_key_tok_node : param_node :=
  ParamNode [lit "keyformat"] (Some (lit "Key format")) None (Some (lit "id")) None
    ECRYPTFS_PARAM_FLAG_NO_VALUE
    [TransNode (Some (lit "default")) (Some (lit "PKCS#11 ID")) (Some PKCS11H_KEY_TOK_ID) None].
Definition pk_key_id_node : param_node :=
  let tf := Some (TfModule TF_PKCS11H_KEY_ID) in
  ParamNode [lit "id"] (Some (lit "PKCS#11 Serialized ID")) None None None
    ECRYPTFS_PARAM_FLAG_ECHO_INPUT
    [TransNode (Some (lit "passwd")) (Some []) (Some PKCS11H_KEY_TOK_PASSWD) tf;
     TransNode (Some (lit "passenv")) (Some (lit "Passphrase ENV")) (Some PKCS11H_KEY_TOK_PASS_ENV) tf;
     TransNode (Some (lit "passstdin")) (Some (lit "Passphrase STDIN")) (Some PKCS11H_KEY_TOK_PASS_STDIN) tf;
     TransNode (Some (lit "default")) (Some (lit "Passphrase (empty for interactive)"))
       (Some PKCS11H_KEY_TOK_DEFAULT_PASS) tf].
(** The four nodes for a passphrase differ in name, flags and transition. *)
Definition pk_pass_node (name : cstring) (flags : Z) (tn : transition_node) : param_node :=
  ParamNode [name] (Some (lit "Passphrase (empty for interactive)")) None None None flags [tn].
Definition pk_pass_last : transition_node := TransNode None None None (Some (TfModule TF_PKCS11H_KEY_PASSWD)).
Definition pk_passwd_node : param_node :=
  pk_pass_node (lit "passwd") ECRYPTFS_PARAM_FLAG_MASK_OUTPUT pk_pass_last.
Definition pk_passenv_node : param_node :=
  pk_pass_node (lit "passenv") ECRYPTFS_PARAM_FLAG_MASK_OUTPUT pk_pass_last.
Definition pk_passstdin_node : param_node :=
  pk_pass_node (lit "passstdin") (Z.lor VERIFY_VALUE STDIN_REQUIRED) pk_pass_last.
Definition pk_defaultpass_node : param_node :=
  pk_pass_node (lit "defaultpass") STDIN_REQUIRED
    (TransNode (Some (lit "default")) (Some (lit "Optional X.509 Certificate PEM file"))
       (Some PKCS11H_KEY_TOK_DEFAULT_X509_FILE) (Some (TfModule TF_PKCS11H_KEY_PASSWD))).
Definition pk_x509file_node : param_node :=
  ParamNode [lit "x509file"] (Some (lit "Optional X.509 Certificate PEM file")) None None None
    ECRYPTFS_PARAM_FLAG_ECHO_INPUT [TransNode None None None (Some (TfModule TF_PKCS11H_KEY_X509FILE))].

Definition pkcs11h_key_param_nodes : gmap Z param_node :=
  <[PKCS11H_KEY_TOK_TOK := pk_key_tok_node]>
  (<[PKCS11H_KEY_TOK_ID := pk_key_id_node]>
  (<[PKCS11H_KEY_TOK_PASSWD := pk_passwd_node]>
  (<[PKCS11H_KEY_TOK_PASS_ENV := pk_passenv_node]>
  (<[PKCS11H_KEY_TOK_PASS_STDIN := pk_passstdin_node]>
  (<[PKCS11H_KEY_TOK_DEFAULT_PASS := pk_defaultpass_node]>
  (<[PKCS11H_KEY_TOK_DEFAULT_X509_FILE := pk_x509file_node]> ∅)))))).

Definition pkcs11h_key_transition : transition_node :=
  TransNode (Some (lit "pkcs11-helper")) (Some (lit "PKCS#11 module using pkcs11-helper"))
    (Some PKCS11H_KEY_TOK_TOK) (Some (TfModule TF_PKCS11H_KEY_ENTER)).
Definition pkcs11h_key_transition_id : trans_node_id := 30.
Definition ecryptfs_pkcs11h_get_param_subgraph_trans_node (version : Z) : Z * option trans_node_id :=
  if negb (has_flag version ECRYPTFS_VERSIONING_PUBKEY) then (-1, None)
  else (0, Some pkcs11h_key_transition_id).

(** ** The functions of the graph *)
Section Transitions.
Context `{Heap, Nss, Sys, Pkcs11} (big_endian : bool).

(** [*foo] as [struct pkcs11h_subgraph_key_ctx]; a certificate that is there is
    as long as its size says. *)
Definition pkcs11h_key_ctx (s : gstate) : outcome (nat * pkcs11h_data) :=
  match g_foo s with
  | FooNull => UB NullDeref
  | FooFreed => UB UseAfterFree
  | FooModule i [id; cert; passphrase] =>
      mret (i, Pkcs11hData id cert (zlen (default [] cert)) passphrase)
  | _ => UB TypeConfusion
  end.
Definition set_pkcs11h_key_ctx (i : nat) (d : pkcs11h_data) : gstate -> gstate :=
  set_foo (FooModule i [pk_serialized_id d; pk_certificate_blob d; pk_passphrase d]).

(** The certificate of the token, asked for its size and then for its bytes. *)
Definition load_certificate (k : nat) (c : certificate) (d : pkcs11h_data) : Z + pkcs11h_data :=
  match pk_certificate_blob d with
  | Some _ => inr d
  | None =>
      match getCertificateBlob c with
      | None => inl (- EIO)
      | Some b =>
          if negb (alloc_ok 70831 k) then inl (- ENOMEM)
          else inr (Pkcs11hData (pk_serialized_id d) (Some b) (zlen b) (pk_passphrase d))
      end
  end.

(** From the serialization on.  The process ends when its two passes disagree. *)
Definition add_token_key (i : nat) (d : pkcs11h_data) (s : gstate) : running (Z * gstate) :=
  '(rc, blob_size, _) ⇐ stays (ecryptfs_pkcs11h_serialize None d);
  if negb (rc =? 0) then go (MOUNT_ERROR, s)
  else if blob_size =? 0 then go (MOUNT_ERROR, s)
  else match g_mods s !! i with
  | None => UB NullDeref
  | Some key_mod =>
      if negb (alloc_ok 70862 (g_steps s))
      then go (MOUNT_ERROR, set_mod_blob i None (km_blob_size key_mod) s)
      else
        '(rc, size, blob) ⇐ stays (ecryptfs_pkcs11h_serialize
                                     (Some (malloc_block heap_junk blob_size)) d);
        let key_mod := set_blob blob size key_mod in
        let s := set_mod_blob i blob size s in
        if negb (rc =? 0) then go (MOUNT_ERROR, s)
        else if negb (size =? blob_size) then exited
        else
          r ⇐ ecryptfs_add_key_module_key_to_keyring big_endian (g_keyring s)
                (malloc_block heap_junk (ECRYPTFS_SIG_SIZE_HEX + 1)) key_mod;
          let '(rc, sig, kr) := r in
          let s := set_keyring kr s in
          if rc <? 0 then go (MOUNT_ERROR, s)
          else if negb (alloc_ok 70888 (g_steps s)) then go (- ENOMEM, s)
          else
            sig ⇐ stays (cstr_of sig);
            go (0, (stack_push (Some (lit "ecryptfs_sig=" ++ sig)) s).2)
  end.

(** The code, what is now known of the key, and the state. *)
Definition ecryptfs_pkcs11h_process_key (i : nat) (d : pkcs11h_data) (s : gstate)
    : running (Z * pkcs11h_data * gstate) :=
  match deserializeCertificateId (pk_serialized_id d) with
  | None => go (- EIO, d, s)
  | Some id =>
      match certificate_create id (pk_passphrase d) with
      | None => go (- EIO, d, s)
      | Some c =>
          match load_certificate (g_steps s) c d with
          | inl rc => go (rc, d, s)
          | inr d => '(rc, s) ⇐ add_token_key i d s; go (rc, d, s)
          end
      end
  end.

Definition tf_pkcs11h_key_id (node : Z) (s : gstate) : outcome (Z * gstate) :=
  '(i, d) ← pkcs11h_key_ctx s;
  p ← get_node s node;
  if negb (alloc_ok 71100 (g_steps s)) then mret (- ENOMEM, s)
  else
    let d := Pkcs11hData (Some (show_str (pn_val p))) (pk_certificate_blob d)
               (pk_certificate_blob_size d) (pk_passphrase d) in
    mret (DEFAULT_TOK, upd_node node (set_val None) (set_pkcs11h_key_ctx i d s)).

Definition tf_pkcs11h_key_passwd (node : Z) (s : gstate) : outcome (Z * gstate) :=
  '(i, d) ← pkcs11h_key_ctx s;
  p ← get_node s node;
  if negb (alloc_ok 71118 (g_steps s)) then mret (- ENOMEM, s)
  else
    let d := Pkcs11hData (pk_serialized_id d) (pk_certificate_blob d)
               (pk_certificate_blob_size d) (Some (show_str (pn_val p))) in
    mret (DEFAULT_TOK, upd_node node (set_val None) (set_pkcs11h_key_ctx i d s)).

(** The certificate in the file, if one is named.  A size that [i2d_X509] does not
    find is stored unsigned, so it is not negative, and no such block exists. *)
Definition read_x509_file (k : nat) (val : option cstring) (d : pkcs11h_data) : Z + pkcs11h_data :=
  match val with
  | None | Some [] => inr d
  | Some file =>
      match PEM_read_X509 file with
      | inl errno => inl (- errno)
      | inr None => inl (- EIO)
      | inr (Some x509) =>
          match i2d_X509 x509 with
          | None => inl (- ENOMEM)
          | Some b =>
              if negb (alloc_ok 71168 k) then inl (- ENOMEM)
              else inr (Pkcs11hData (pk_serialized_id d) (Some b) (zlen b) (pk_passphrase d))
          end
      end
  end.

Definition tf_pkcs11h_key_x509file (node : Z) (s : gstate) : running (Z * gstate) :=
  '(i, d) ⇐ stays (pkcs11h_key_ctx s);
  p ⇐ stays (get_node s node);
  match read_x509_file (g_steps s) (pn_val p) d with
  | inl rc => go (rc, s)
  | inr d =>
      let s := upd_node node (set_val None) (set_pkcs11h_key_ctx i d s) in
      '(rc, d, s) ⇐ ecryptfs_pkcs11h_process_key i d s;
      let s := set_pkcs11h_key_ctx i d s in
      if negb (rc =? 0) then go (rc, s) else go (DEFAULT_TOK, set_foo FooNull s)
  end.

(** The list of certificates becomes the suggestion for the id when the module
    was chosen by the option [key]. *)
Definition tf_pkcs11h_key_enter (node : Z) (s : gstate) : outcome (Z * gstate) :=
  if negb (alloc_ok 71503 (g_steps s)) then mret (- ENOMEM, s)
  else
    p ← get_node s node;
    match g_mods s with
    | [] => mret (1, s)
    | mods =>
        alias ← deref_str (pn_val p);
        key_mod ← ecryptfs_find_key_mod mods alias;
        match key_mod, key_mod_index mods alias with
        | Some _, Some i =>
            let s := upd_node PKCS11H_KEY_TOK_ID (set_suggested_val None) s in
            name ← deref_str (head (pn_mnt_opt_names p));
            let enter s := set_pkcs11h_key_ctx i (Pkcs11hData None None 0 None) s in
            if streq name (lit "key") then
              let '(rc, list) := pkcs11h_get_id_list in
              let s := upd_node PKCS11H_KEY_TOK_ID (set_suggested_val list) s in
              mret (rc, if rc =? 0 then enter s else s)
            else mret (0, enter s)
        | _, _ => mret (1, s)
        end
    end.

Definition pkcs11h_tf (f node : Z) (s : gstate) : running (Z * gstate) :=
  if f =? TF_PKCS11H_KEY_ENTER then stays (tf_pkcs11h_key_enter node s)
  else if f =? TF_PKCS11H_KEY_ID then stays (tf_pkcs11h_key_id node s)
  else if f =? TF_PKCS11H_KEY_PASSWD then stays (tf_pkcs11h_key_passwd node s)
  else if f =? TF_PKCS11H_KEY_X509FILE then tf_pkcs11h_key_x509file node s
  else UB NullDeref.
End Transitions.

(** ** The module *)

(** [ops] are the operations of the module: what they answer is what the
    functions above return, where these do not fault.  The others of the table
    are null, and registration fills in the defaults. *)
Record ecryptfs_pkcs11h_ops `{Heap, Pkcs11} (ops : ecryptfs_key_mod_ops) : Prop := Pkcs11hOps {
  pk_get_key_sig : exists f, op_get_key_sig ops = Some f /\
    forall blob rc out, ecryptfs_pkcs11h_get_key_sig (zeros 17) blob = Ok (rc, out) ->
      f blob = (rc, if rc =? 0 then out else []);
  pk_get_key_data : op_get_key_data ops = Some ecryptfs_dummy_get_key_data;
  pk_destroy : op_destroy ops = Some ecryptfs_dummy_destroy
}.

(** ** The blob: lemmas *)

(** A field, and the blob of three. *)
Definition field (x : bytes) : bytes := length_field (zlen x) ++ x.
Definition pkcs11_blob (id : cstring) (cert : bytes) (passphrase : cstring) : bytes :=
  field (id ++ [0]) ++ field cert ++ field (passphrase ++ [0]).

Lemma zlen_field x : zlen (field x) = 2 + zlen x.
Proof. unfold field. by rewrite zlen_app. Qed.

Lemma zlen_str0 (s : cstring) : zlen (s ++ [0]) = zlen s + 1.
Proof. by rewrite zlen_app. Qed.

Lemma push_field_ok acc tail x :
  2 + zlen x <= zlen tail ->
  push_field (Some (acc ++ tail)) (zlen acc) (mret x) (zlen x) =
  Ok (Some ((acc ++ field x) ++ drop (length (field x)) tail), zlen (acc ++ field x)).
Proof.
  intros Hroom. unfold push_field. fold (length_field (zlen x)).
  assert (zlen (length_field (zlen x)) = 2) as H2 by done. pose proof (zlen_nonneg x).
  rewrite wr_after, bind_Ok by lia. cbn [mret outcome_ret obind].
  pose proof (rd_prefix x [] (zlen x) eq_refl) as Hrd. rewrite app_nil_r in Hrd. rewrite Hrd, bind_Ok.
  replace (zlen acc + 2) with (zlen (acc ++ length_field (zlen x))) by (rewrite zlen_app; lia).
  rewrite wr_after, bind_Ok by (rewrite zlen_drop; unfold zlen in *; lia).
  rewrite drop_drop, <- app_assoc. unfold field. rewrite length_app. cbn [mret outcome_ret].
  f_equal. f_equal; [by rewrite <- !app_assoc|]. rewrite !zlen_app. lia.
Qed.

Lemma read_field_ok pre x post :
  zlen x < 65536 ->
  read_field (pre ++ field x ++ post) (zlen pre) =
  Ok (if zlen x =? 0 then (None, 0, zlen (pre ++ field x))
      else (Some (zlen pre + 2), zlen x, zlen (pre ++ field x))).
Proof.
  intros Hx. pose proof (zlen_nonneg x).
  destruct (length_field_value (zlen x)) as (b0 & b1 & Hf & Hv); [lia|].
  rewrite zlen_app, zlen_field. unfold read_field, field. rewrite Hf. cbn [app].
  rewrite rd1_app, bind_Ok by done.
  replace (pre ++ b0 :: b1 :: x ++ post) with ((pre ++ [b0]) ++ b1 :: x ++ post) by (by rewrite <- app_assoc).
  rewrite rd1_app, bind_Ok by (by rewrite zlen_app). rewrite Hv.
  destruct (zlen x =? 0) eqn:E; cbn [mret outcome_ret]; f_equal; f_equal; lia.
Qed.

(** What a pointer to the bytes of a field gives. *)
Lemma view_bytes_field pre x post :
  x <> [] -> view_bytes (pre ++ field x ++ post) (Some (zlen pre + 2)) (zlen x) = Ok (Some x).
Proof.
  intros Hx. unfold view_bytes, field.
  replace (pre ++ (length_field (zlen x) ++ x) ++ post)
    with ((pre ++ length_field (zlen x)) ++ x ++ post) by (by rewrite <- !app_assoc).
  rewrite rd_app3; [done| |done]. by rewrite zlen_app.
Qed.

Lemma view_string_field pre s post :
  is_cstring s -> view_string (pre ++ field (s ++ [0]) ++ post) (Some (zlen pre + 2)) = Ok (Some s).
Proof.
  intros Hs. unfold view_string, field.
  replace (pre ++ (length_field (zlen (s ++ [0])) ++ s ++ [0]) ++ post)
    with ((pre ++ length_field (zlen (s ++ [0]))) ++ (s ++ [0]) ++ post) by (by rewrite <- !app_assoc).
  replace (zlen pre + 2) with (zlen (pre ++ length_field (zlen (s ++ [0])))) by (by rewrite zlen_app).
  rewrite string_at_app; [done|]. by apply is_char_nonzero.
Qed.

(** The fields fit their lengths. *)
Definition pkcs11_fits (id : cstring) (cert : bytes) (passphrase : cstring) : Prop :=
  is_cstring id /\ is_cstring passphrase /\ zlen id < 65535 /\ zlen cert < 65536 /\ zlen passphrase < 65535.

(** Where the parts are. *)
Definition pkcs11_blob_view (id : cstring) (cert : bytes) : pkcs11h_view :=
  let i := zlen (field (id ++ [0])) in
  Pkcs11hView (Some 2) (if zlen cert =? 0 then None else Some (i + 2)) (zlen cert)
    (Some (i + zlen (field cert) + 2)).

Lemma pkcs11_deserialize_ok id cert passphrase tail :
  pkcs11_fits id cert passphrase ->
  ecryptfs_pkcs11h_deserialize (pkcs11_blob id cert passphrase ++ tail) = Ok (pkcs11_blob_view id cert).
Proof.
  intros (_ & _ & Hid & Hcert & Hpass). unfold ecryptfs_pkcs11h_deserialize, pkcs11_blob, pkcs11_blob_view.
  rewrite <- !app_assoc. pose proof (zlen_nonneg id). pose proof (zlen_nonneg passphrase).
  pose proof (read_field_ok [] (id ++ [0]) (field cert ++ field (passphrase ++ [0]) ++ tail)) as H1.
  cbn [app] in H1. change (zlen []) with 0 in H1. rewrite H1 by (rewrite zlen_str0; lia). clear H1.
  replace (zlen (id ++ [0]) =? 0) with false by (rewrite zlen_str0; lia). rewrite bind_Ok.
  rewrite read_field_ok by lia.
  assert (Ok (if zlen cert =? 0 then (None, 0, zlen (field (id ++ [0]) ++ field cert))
             else (Some (zlen (field (id ++ [0])) + 2), zlen cert, zlen (field (id ++ [0]) ++ field cert))) =
          Ok (if zlen cert =? 0 then None else Some (zlen (field (id ++ [0])) + 2), zlen cert,
              zlen (field (id ++ [0]) ++ field cert))) as ->
    by (destruct (Z.eqb_spec (zlen cert) 0) as [->|]; done).
  rewrite bind_Ok, (app_assoc (field (id ++ [0])) (field cert)).
  rewrite read_field_ok by (rewrite zlen_str0; lia).
  replace (zlen (passphrase ++ [0]) =? 0) with false by (rewrite zlen_str0; lia). rewrite bind_Ok.
  cbn [mret outcome_ret]. by rewrite (zlen_app (field (id ++ [0]))).
Qed.

(** The three pointers of the view. *)
Lemma pkcs11_view_ok id cert passphrase tail :
  pkcs11_fits id cert passphrase ->
  let blob := pkcs11_blob id cert passphrase ++ tail in
  let v := pkcs11_blob_view id cert in
  view_string blob (pv_serialized_id v) = Ok (Some id) /\
  view_bytes blob (pv_certificate_blob v) (pv_certificate_blob_size v) =
    Ok (if zlen cert =? 0 then None else Some cert) /\
  view_string blob (pv_passphrase v) = Ok (Some passphrase).
Proof.
  intros (Hid & Hpass & _). unfold pkcs11_blob, pkcs11_blob_view.
  cbn [pv_serialized_id pv_certificate_blob pv_certificate_blob_size pv_passphrase]. cbn zeta.
  rewrite <- !app_assoc. split_and!.
  - by apply (view_string_field []).
  - destruct (Z.eqb_spec (zlen cert) 0); [done|]. apply view_bytes_field. by intros ->.
  - rewrite app_assoc, <- zlen_app. by apply view_string_field.
Qed.

Definition cert_of (d : pkcs11h_data) : bytes := default [] (pk_certificate_blob d).

(** A certificate that is there has its size. *)
Definition pkcs11_data (id : cstring) (cert : option bytes) (passphrase : cstring) : pkcs11h_data :=
  Pkcs11hData (Some id) cert (zlen (default [] cert)) (Some passphrase).

Lemma memcpy_src_ok cert : memcpy_src cert (zlen (default [] cert)) = Ok (default [] cert).
Proof.
  unfold memcpy_src. destruct cert as [[|c cert]|]; [done| |done].
  change (default [] (Some (c :: cert))) with (c :: cert). pose proof (zlen_nonneg cert).
  by replace (zlen (c :: cert) =? 0) with false by (rewrite zlen_cons; lia).
Qed.

Lemma zlen_pkcs11_blob id cert passphrase :
  zlen (pkcs11_blob id cert passphrase) = 2 + (zlen id + 1) + (2 + zlen cert) + (2 + (zlen passphrase + 1)).
Proof. unfold pkcs11_blob. rewrite !zlen_app, !zlen_field, !zlen_str0. lia. Qed.

Lemma pkcs11_serialize_none id cert passphrase :
  ecryptfs_pkcs11h_serialize None (pkcs11_data id cert passphrase) =
  Ok (0, zlen (pkcs11_blob id (default [] cert) passphrase), None).
Proof.
  rewrite zlen_pkcs11_blob. unfold ecryptfs_pkcs11h_serialize, pkcs11_data.
  cbn [pk_serialized_id pk_certificate_blob pk_certificate_blob_size pk_passphrase push_field
       obind mret outcome_ret deref_str]. do 3 f_equal. lia.
Qed.

Lemma pkcs11_serialize_ok block id cert passphrase :
  let blob := pkcs11_blob id (default [] cert) passphrase in
  zlen block = zlen blob ->
  ecryptfs_pkcs11h_serialize (Some block) (pkcs11_data id cert passphrase) = Ok (0, zlen blob, Some blob).
Proof.
  intros blob Hz. unfold blob in *. rewrite zlen_pkcs11_blob in Hz.
  pose proof (zlen_nonneg id). pose proof (zlen_nonneg (default [] cert)). pose proof (zlen_nonneg passphrase).
  unfold ecryptfs_pkcs11h_serialize, pkcs11_data.
  cbn [pk_serialized_id pk_certificate_blob pk_certificate_blob_size pk_passphrase].
  rewrite <- !zlen_str0, memcpy_src_ok. rewrite <- zlen_str0 in Hz.
  pose proof (push_field_ok [] block (id ++ [0])) as Hp1. cbn [app] in Hp1. change (zlen []) with 0 in Hp1.
  rewrite Hp1, bind_Ok by lia. clear Hp1.
  assert (forall x (tail : bytes), 2 + zlen x <= zlen tail ->
            zlen (drop (length (field x)) tail) = zlen tail - (2 + zlen x)) as Hdrop.
  { intros x tail Hx. rewrite zlen_drop. pose proof (zlen_field x). unfold zlen in *. lia. }
  assert (zlen (passphrase ++ [0]) = zlen passphrase + 1) as Hp by apply zlen_str0.
  pose proof (Hdrop (id ++ [0]) block ltac:(lia)) as Hd1.
  rewrite (push_field_ok (field (id ++ [0]))), bind_Ok by lia. cbn [deref_str mret outcome_ret obind].
  pose proof (Hdrop (default [] cert) (drop (length (field (id ++ [0]))) block) ltac:(lia)) as Hd2.
  rewrite <- zlen_str0. rewrite (push_field_ok (field (id ++ [0]) ++ field (default [] cert))), bind_Ok by lia.
  rewrite drop_ge.
  - rewrite app_nil_r. unfold pkcs11_blob. by rewrite <- app_assoc.
  - pose proof (zlen_field (passphrase ++ [0])). unfold zlen in *. lia.
Qed.

(** What the walk knows of a key survives the blob: both passes of the
    serialization agree on the size, fill the block exactly, and the pointers
    found in it lead to the id, the certificate - to none if there was none - and
    the passphrase again. *)
Theorem pkcs11_blob_roundtrip id cert passphrase block :
  pkcs11_fits id (default [] cert) passphrase ->
  let d := pkcs11_data id cert passphrase in
  exists size, ecryptfs_pkcs11h_serialize None d = Ok (0, size, None) /\
  (zlen block = size ->
   exists blob v, ecryptfs_pkcs11h_serialize (Some block) d = Ok (0, size, Some blob) /\
     zlen blob = size /\ ecryptfs_pkcs11h_deserialize blob = Ok v /\
     view_string blob (pv_serialized_id v) = Ok (Some id) /\
     view_bytes blob (pv_certificate_blob v) (pv_certificate_blob_size v) =
       Ok (match cert_of d with [] => None | _ => cert end) /\
     view_string blob (pv_passphrase v) = Ok (Some passphrase)).
Proof.
  intros Hf d. set (b := pkcs11_blob id (default [] cert) passphrase). exists (zlen b).
  split; [apply pkcs11_serialize_none|]. intros Hz.
  pose proof (pkcs11_deserialize_ok _ _ _ [] Hf) as Hd. destruct (pkcs11_view_ok _ _ _ [] Hf) as (H1 & H2 & H3).
  rewrite app_nil_r in *. exists b, (pkcs11_blob_view id (default [] cert)).
  split_and!; try done; [by apply pkcs11_serialize_ok|]. unfold b. rewrite H2. unfold d, cert_of, pkcs11_data.
  cbn [pk_certificate_blob]. destruct cert as [[|c cert]|]; [done| |done].
  change (default [] (Some (c :: cert))) with (c :: cert). pose proof (zlen_nonneg cert).
  by replace (zlen (c :: cert) =? 0) with false by (rewrite zlen_cons; lia).
Qed.

Lemma pkcs11_blob_roundtrip_witness :
  let d := pkcs11_data (lit "slot0/cert1") (Some [48; 1; 2]) (lit "1234") in
  exists size, ecryptfs_pkcs11h_serialize None d = Ok (0, size, None) /\
  (zlen (zeros 26) = size ->
   exists blob v, ecryptfs_pkcs11h_serialize (Some (zeros 26)) d = Ok (0, size, Some blob) /\
     zlen blob = size /\ ecryptfs_pkcs11h_deserialize blob = Ok v /\
     view_string blob (pv_serialized_id v) = Ok (Some (lit "slot0/cert1")) /\
     view_bytes blob (pv_certificate_blob v) (pv_certificate_blob_size v) = Ok (Some [48; 1; 2]) /\
     view_string blob (pv_passphrase v) = Ok (Some (lit "1234"))).
Proof.
  apply (pkcs11_blob_roundtrip (lit "slot0/cert1") (Some [48; 1; 2]) (lit "1234") (zeros 26)).
  apply (bool_decide_unpack _). vm_compute. exact I.
Defined.

(** ** Operations: lemmas *)
Section OperationLemmas.
Context `{Heap, Pkcs11}.

(** A certificate with an RSA key. *)
Definition certifies (cert : bytes) (rsa : RSA) : Prop :=
  cert <> [] /\ (forall k, X509_new k = true) /\
  exists x509 pubkey, d2i_X509 (Some cert) = Some x509 /\ X509_get_pubkey x509 = Some pubkey /\
    pkey_is_rsa pubkey = true /\ EVP_PKEY_get1_RSA pubkey = Some rsa.

(** A certificate handle that id, certificate and PIN open. *)
Definition opens (id : cstring) (cert : option bytes) (passphrase : cstring) (c : certificate) : Prop :=
  exists cid cid', deserializeCertificateId (Some id) = Some cid /\
    match cert with Some b => setCertificateIdCertificateBlob cid b | None => Some cid end = Some cid' /\
    certificate_create cid' (Some passphrase) = Some c.

(** A token that decrypts for the key what was encrypted with the padding of the
    mechanism: with room for the message; without a
    buffer it announces room, and the operation goes on until it is ended.
    [idle] tokens have no operation in progress. *)
Definition token_decrypts (idle : token -> Prop) (c : certificate) (rsa : RSA) : Prop :=
  forall t m q e q', idle t -> RSA_public_encrypt rsa RSA_PKCS1_PADDING m q = (Some e, q') ->
    let ends t := forall room, zlen m <= room ->
      exists t', decryptAny t c CKM_RSA_PKCS e (Some room) = (Some (zlen m, m), t') /\ idle t' in
    ends t /\ exists room t', decryptAny t c CKM_RSA_PKCS e None = (Some (room, []), t') /\ zlen m <= room /\ ends t'.

Lemma pkcs11_public_key_ok k id cert passphrase tail rsa :
  pkcs11_fits id cert passphrase -> certifies cert rsa ->
  ecryptfs_pkcs11h_get_public_key k (pkcs11_blob id cert passphrase ++ tail) = Ok (inr rsa).
Proof.
  intros Hf (Hne & Hnew & x & pk & Hx & Hpk & Hrsa & Hget). unfold ecryptfs_pkcs11h_get_public_key.
  rewrite pkcs11_deserialize_ok, bind_Ok, Hnew by done. cbn [negb].
  destruct (pkcs11_view_ok id cert passphrase tail Hf) as (_ & -> & _). rewrite bind_Ok.
  assert ((zlen cert =? 0) = false) as ->.
  { destruct cert; [done|]. rewrite zlen_cons. pose proof (zlen_nonneg cert). lia. }
  by rewrite Hx, Hpk, Hrsa, Hget.
Qed.

Lemma char_byte_u8 x : char_byte x = u8 x.
Proof.
  unfold char_byte, swrap, wrap. rewrite Zminus_mod_idemp_l. f_equal. lia.
Qed.

Lemma pkcs11_key_sig_ok `{!SslLaws} sig id cert passphrase tail rsa :
  heap_never_fails -> pkcs11_fits id cert passphrase -> certifies cert rsa -> 17 <= zlen sig ->
  ecryptfs_pkcs11h_get_key_sig sig (pkcs11_blob id cert passphrase ++ tail) =
  Ok (0, rsa_sig_hex rsa ++ 0 :: drop 17 sig).
Proof.
  intros Hh Hf Hc Hs. unfold ecryptfs_pkcs11h_get_key_sig.
  rewrite (pkcs11_public_key_ok _ _ _ _ _ rsa), bind_Ok, !Hh by done. cbn [negb].
  pose proof (zlen_packet rsa) as Hlen. pose proof (rsa_n_pos rsa) as Hn. pose proof (rsa_e_pos rsa) as He.
  rewrite !num_bytes_ceil, !char_byte_u8 by (apply num_bits_nonneg; lia).
  pose proof (num_bytes_nonneg (BN_num_bits (rsa_n rsa)) (num_bits_nonneg (rsa_n rsa) ltac:(lia))).
  pose proof (num_bytes_nonneg (BN_num_bits (rsa_e rsa)) (num_bits_nonneg (rsa_e rsa) ltac:(lia))).
  rewrite collect_packet by (apply zlen_malloc_block; lia).
  rewrite rd_all, bind_Ok by lia. by apply digest_to_sig.
Qed.

Lemma pkcs11_encrypt_ok q to n m id cert passphrase tail rsa ty :
  pkcs11_fits id cert passphrase -> certifies cert rsa ->
  ecryptfs_pkcs11h_encrypt q to n m (pkcs11_blob id cert passphrase ++ tail) ty =
  Ok (if to then match RSA_public_encrypt rsa RSA_PKCS1_PADDING m q with
                 | (None, q2) => (queued_error q2, RSA_size rsa, [])
                 | (Some e, _) => (0, zlen e, e)
                 end
      else (0, RSA_size rsa, [])).
Proof.
  intros Hf Hc. unfold ecryptfs_pkcs11h_encrypt. rewrite (pkcs11_public_key_ok _ _ _ _ _ rsa), bind_Ok by done.
  destruct to; [|done]. by destruct (RSA_public_encrypt rsa RSA_PKCS1_PADDING m q) as [[e|] q2].
Qed.

Lemma open_certificate_ok id cert passphrase tail c :
  pkcs11_fits id cert passphrase -> cert <> [] -> opens id (Some cert) passphrase c ->
  open_certificate (pkcs11_blob_view id cert) (pkcs11_blob id cert passphrase ++ tail) = Ok (Some c).
Proof.
  intros Hf Hne (cid & cid' & Hid & Hset & Hcr). unfold open_certificate.
  destruct (pkcs11_view_ok id cert passphrase tail Hf) as (-> & -> & ->). rewrite bind_Ok, Hid, bind_Ok.
  assert ((zlen cert =? 0) = false) as ->.
  { destruct cert; [done|]. rewrite zlen_cons. pose proof (zlen_nonneg cert). lia. }
  by rewrite Hset, bind_Ok, Hcr.
Qed.

Lemma pkcs11_decrypt_ok idle t to n m q e q' id cert passphrase tail rsa c ty :
  heap_never_fails -> pkcs11_fits id cert passphrase -> cert <> [] ->
  opens id (Some cert) passphrase c -> token_decrypts idle c rsa -> idle t ->
  RSA_public_encrypt rsa RSA_PKCS1_PADDING m q = (Some e, q') -> (to = true -> zlen m <= n) ->
  exists t', idle t' /\
    ecryptfs_pkcs11h_decrypt t to n e (pkcs11_blob id cert passphrase ++ tail) ty =
    Ok (0, zlen m, (if to then m else []), t').
Proof.
  intros Hh Hf Hne Ho Htok Hidle He Hn. unfold ecryptfs_pkcs11h_decrypt.
  rewrite pkcs11_deserialize_ok, bind_Ok, (open_certificate_ok _ _ _ _ c), bind_Ok by done.
  destruct (Htok t m q e q' Hidle He) as (Hends & room & t1 & Hd & Hroom & Hends1). destruct to.
  - destruct (Hends n (Hn eq_refl)) as (t' & Hd' & Ht'). exists t'. split; [done|]. by rewrite Hd'.
  - destruct (Hends1 room Hroom) as (t' & Hd' & Ht'). exists t'. split; [done|].
    rewrite Hd, Hh. cbn [negb]. by rewrite Hd'.
Qed.
End OperationLemmas.

(** ** An instance
    A certificate is any block that begins with a sequence tag, with the key of
    [Ssl]'s instance; a token is busy or not. *)
Definition toy_decrypt_any (busy : bool) (mechanism : Z) (e : bytes) (room : option Z) : option (Z * bytes) * bool :=
  match toy_decrypt mechanism e, room with
  | Some m, None => (Some (128, []), true)
  | Some m, Some n => if zlen m <=? n then (Some (zlen m, m), false) else (None, busy)
  | None, _ => (None, busy)
  end.
Definition toy_pkcs11 : @Pkcs11 toy_ssl := {|
  X509 := bytes;
  X509_new := fun _ => true;
  d2i_X509 := fun b => match b with Some (48 :: x) => Some x | _ => None end;
  EVP_PKEY := bytes;
  X509_get_pubkey := Some;
  pkey_is_rsa := fun _ => true;
  EVP_PKEY_get1_RSA := fun _ => Some toy_key;
  X509_subject_oneline := fun _ => lit "/CN=user";
  X509_serial_text := fun _ => Some (lit "0A");
  PEM_read_X509 := fun f => if bool_decide (f = lit "/user.pem") then inr (Some [1; 2]) else inl ENOENT;
  i2d_X509 := fun x => Some (48 :: x);
  certificate_id := cstring;
  certificate := cstring;
  token := bool;
  deserializeCertificateId := fun s => s;
  serializeCertificateId := Some;
  setCertificateIdCertificateBlob := fun id _ => Some id;
  certificate_create := fun id _ => Some id;
  getCertificateBlob := fun _ => Some [48; 1; 2];
  enumCertificateIds := Some [lit "slot0/cert1"; lit "slot0/cert2"];
  decryptAny := fun t _ mechanism e room => toy_decrypt_any t mechanism e room
|}.

Lemma toy_certifies : @certifies toy_ssl toy_pkcs11 [48; 1; 2] toy_key.
Proof. split_and!; [done..|]. by eexists _, _. Qed.

Lemma toy_opens : @opens toy_ssl toy_pkcs11 (lit "slot0/cert1") (Some [48; 1; 2]) (lit "1234") (lit "slot0/cert1").
Proof. by eexists _, _. Qed.

Lemma toy_token_decrypts c : @token_decrypts toy_ssl toy_pkcs11 (fun busy => busy = false) c toy_key.
Proof.
  intros t m q e q' Hidle He ends.
  assert (toy_encrypt toy_key 1 m = Some e) as Henc by (cbn in He; unfold RSA_PKCS1_PADDING in He; congruence).
  assert (toy_decrypt 1 e = Some m /\ zlen m <= 128) as [Hd Hm].
  { unfold toy_encrypt in Henc. case_match eqn:E; [|done]. injection Henc as <-. split.
    - unfold toy_decrypt, zlen. cbn [Z.eqb Pos.eqb]. by rewrite Nat2Z.id, take_app_length.
    - apply Z.leb_le in E. assert (toy_rsa_size toy_key = 128) as Hsz by (by vm_compute). lia. }
  assert (forall busy room, zlen m <= room -> toy_decrypt_any busy 1 e (Some room) = (Some (zlen m, m), false)) as Hany.
  { intros busy room Hr. unfold toy_decrypt_any. rewrite Hd. by replace (zlen m <=? room) with true by lia. }
  unfold ends. cbn [decryptAny toy_pkcs11]. change CKM_RSA_PKCS with 1. split.
  - intros room Hr. exists false. by rewrite Hany.
  - exists 128, true. unfold toy_decrypt_any at 1. rewrite Hd. split_and!; [done..|].
    intros room Hr. exists false. by rewrite Hany.
Qed.

Lemma toy_fits : pkcs11_fits (lit "slot0/cert1") [48; 1; 2] (lit "1234").
Proof. apply (bool_decide_unpack _). vm_compute. exact I. Qed.

(** C22. Two modules name a key alike: each has its own copy of the code that computes
    the signature, and for the same RSA key the one of a certificate on a token
    gives what the one of a PEM file gives, whatever id, file and passphrases are -
    so a file can be opened with either. *)
Theorem pkcs11_sig_is_openssl_sig `{Heap, Ssl, !SslLaws, !Pkcs11} q sig id cert pin path passphrase rsa :
  heap_never_fails -> pkcs11_fits id cert pin -> certifies cert rsa ->
  ssl_strings path passphrase -> key_opens path passphrase rsa -> 17 <= zlen sig ->
  ecryptfs_pkcs11h_get_key_sig sig (pkcs11_blob id cert pin) =
  ecryptfs_openssl_get_key_sig q sig (ssl_blob path passphrase).
Proof.
  intros Hh Hf Hc Hs Hk Hl. rewrite <- (app_nil_r (pkcs11_blob _ _ _)), <- (app_nil_r (ssl_blob _ _)).
  rewrite (pkcs11_key_sig_ok _ _ _ _ _ rsa) by done. symmetry. by apply get_key_sig_ok.
Qed.

Lemma pkcs11_sig_is_openssl_sig_witness :
  @ecryptfs_pkcs11h_get_key_sig plenty toy_ssl toy_pkcs11 (zeros 17)
    (pkcs11_blob (lit "slot0/cert1") [48; 1; 2] (lit "1234")) =
  @ecryptfs_openssl_get_key_sig plenty toy_ssl [] (zeros 17) (ssl_blob (lit "/k.pem") (lit "secret")).
Proof.
  apply (@pkcs11_sig_is_openssl_sig plenty toy_ssl toy_ssl_laws toy_pkcs11 [] (zeros 17)
    (lit "slot0/cert1") [48; 1; 2] (lit "1234") (lit "/k.pem") (lit "secret") toy_key).
  - done.
  - exact toy_fits.
  - exact toy_certifies.
  - exact toy_strings.
  - by apply toy_key_opens.
  - vm_compute. congruence.
Defined.

(** C21. A session key makes the round trip through certificate and token: what
    encrypting with the certificate gives is as long as announced; decrypting
    without a buffer announces the length of the session key and leaves the token
    idle, and decrypting into a buffer of that length gives the session key.  The
    token stays usable. *)
Theorem pkcs11_session_key_roundtrip `{Heap, Ssl, !SslLaws, !Pkcs11} idle t q m n id cert pin rsa c ty size e :
  heap_never_fails -> pkcs11_fits id cert pin -> certifies cert rsa ->
  opens id (Some cert) pin c -> token_decrypts idle c rsa -> idle t ->
  let blob := pkcs11_blob id cert pin in
  ecryptfs_pkcs11h_encrypt q true n m blob ty = Ok (0, size, e) -> e <> [] ->
  ecryptfs_pkcs11h_encrypt q false n m blob ty = Ok (0, size, []) /\ zlen e = size /\
  exists t1, ecryptfs_pkcs11h_decrypt t false n e blob ty = Ok (0, zlen m, [], t1) /\
  exists t2, ecryptfs_pkcs11h_decrypt t1 true (zlen m) e blob ty = Ok (0, zlen m, m, t2) /\ idle t2.
Proof.
  intros Hh Hf Hc Ho Htok Hidle blob He Hne. unfold blob in *. rewrite <- (app_nil_r (pkcs11_blob _ _ _)) in *.
  assert (cert <> []) as Hcert by apply Hc.
  rewrite (pkcs11_encrypt_ok _ _ _ _ _ _ _ _ rsa) in He by done.
  destruct (RSA_public_encrypt rsa RSA_PKCS1_PADDING m q) as [[e'|] q'] eqn:Henc; injection He; intros; subst; [|done].
  split; [|split; [done|]].
  - rewrite (pkcs11_encrypt_ok _ _ _ _ _ _ _ _ rsa) by done. by rewrite (encrypt_length _ _ _ _ _ _ Henc).
  - destruct (pkcs11_decrypt_ok idle t false n m q e q' id cert pin [] rsa c ty) as (t1 & Ht1 & Hd); [done..|].
    exists t1. split; [done|].
    destruct (pkcs11_decrypt_ok idle t1 true (zlen m) m q e q' id cert pin [] rsa c ty) as (t2 & Ht2 & Hd2);
      [done..|]. by exists t2.
Qed.

Lemma pkcs11_session_key_roundtrip_witness :
  let blob := pkcs11_blob (lit "slot0/cert1") [48; 1; 2] (lit "1234") in
  let e := 1 :: 3 :: [7; 8; 9] ++ zeros 123 in
  @ecryptfs_pkcs11h_encrypt toy_ssl toy_pkcs11 [] false 0 [7; 8; 9] blob 0 = Ok (0, 128, []) /\
  zlen e = 128 /\
  exists t1, @ecryptfs_pkcs11h_decrypt plenty toy_ssl toy_pkcs11 false false 0 e blob 0 = Ok (0, 3, [], t1) /\
  exists t2, @ecryptfs_pkcs11h_decrypt plenty toy_ssl toy_pkcs11 t1 true 3 e blob 0 = Ok (0, 3, [7; 8; 9], t2) /\
    t2 = false.
Proof.
  apply (@pkcs11_session_key_roundtrip plenty toy_ssl toy_ssl_laws toy_pkcs11 (fun busy => busy = false) false []
    [7; 8; 9] 0 (lit "slot0/cert1") [48; 1; 2] (lit "1234") toy_key (lit "slot0/cert1") 0 128
    (1 :: 3 :: [7; 8; 9] ++ zeros 123)).
  - done.
  - exact toy_fits.
  - exact toy_certifies.
  - exact toy_opens.
  - apply toy_token_decrypts.
  - done.
  - vm_compute. reflexivity.
  - done.
Defined.

Lemma length_strncpy s n : length (strncpy s n) = n.
Proof. unfold strncpy. rewrite length_app, length_take, length_replicate. lia. Qed.

Lemma static_password_ok passphrase retry pin pin_max :
  is_cstring passphrase -> 0 < pin_max -> zlen pin = pin_max ->
  exists ok pin', use_static_password (Some passphrase) retry pin pin_max = Ok (ok, pin') /\
    zlen pin' = pin_max /\ (ok = true <-> retry = 0) /\
    (ok = true -> cstr_of pin' = Ok (take (Z.to_nat (pin_max - 1)) passphrase)).
Proof.
  intros Hp Hmax Hz. unfold use_static_password.
  destruct (Z.eqb_spec retry 0) as [->|Hr]; cbn [negb]; [|by exists false, pin].
  set (w := strncpy passphrase (Z.to_nat (pin_max - 1))).
  assert (zlen w = pin_max - 1) as Hw by (unfold zlen, w; rewrite length_strncpy; lia).
  destruct pin as [|x pin _] using rev_ind; [rewrite zlen_nil in Hz; lia|].
  rewrite zlen_app in Hz. change (zlen [x]) with 1 in Hz.
  pose proof (wr_app3 [] pin [x] 0 w eq_refl ltac:(lia)) as Hw1. cbn [app] in Hw1. rewrite Hw1, bind_Ok.
  pose proof (wr_app3 w [x] [] (pin_max - 1) [0] ltac:(lia) eq_refl) as Hw2.
  rewrite !app_nil_r in Hw2. rewrite Hw2, bind_Ok. eexists true, _. split; [done|].
  split; [rewrite zlen_app; change (zlen [0]) with 1; lia|]. split; [done|]. intros _.
  by apply cstr_of_strncpy.
Qed.

(** Without a program that asks, or when that has none to run, the PIN is the
    passphrase of the key, cut to the buffer: it ends inside the buffer whatever
    its length.  A second try is refused, so a wrong PIN does not lock the token. *)
Theorem static_pin_fits `{Heap} prompt display passphrase retry pin pin_max :
  heap_never_fails -> is_cstring passphrase -> 0 < pin_max -> zlen pin = pin_max ->
  match prompt with
  | None => True
  | Some f => exists pin', f (lit "password") (lit "Please enter PIN for token '" ++ display ++ lit "'") pin pin_max =
                Ok (Some (- EINVAL, pin')) /\ zlen pin' = pin_max
  end ->
  exists ok pin', pkcs11h_pin_prompt prompt display (Some passphrase) retry pin pin_max = Ok (Some (ok, pin')) /\
    zlen pin' = pin_max /\ (ok = true <-> retry = 0) /\
    (ok = true -> cstr_of pin' = Ok (take (Z.to_nat (pin_max - 1)) passphrase)).
Proof.
  intros Hh Hp Hmax Hpin Hprompt. unfold pkcs11h_pin_prompt. rewrite Hh. cbn [negb].
  destruct prompt as [f|].
  - destruct Hprompt as (pin' & -> & Hz). rewrite bind_Ok, Z.eqb_refl.
    destruct (static_password_ok passphrase retry pin' pin_max) as (ok & pin2 & -> & Hrest); [done..|].
    by exists ok, pin2.
  - destruct (static_password_ok passphrase retry pin pin_max) as (ok & pin2 & -> & Hrest); [done..|].
    by exists ok, pin2.
Qed.

Lemma static_pin_fits_witness :
  exists ok pin', @pkcs11h_pin_prompt plenty
    (Some (fun _ _ pin n => mret (Some (- EINVAL, zeros n)))) (lit "card") (Some (lit "123456")) 0 (zeros 5) 5 =
      Ok (Some (ok, pin')) /\
    zlen pin' = 5 /\ (ok = true <-> 0 = 0) /\ (ok = true -> cstr_of pin' = Ok (take (Z.to_nat (5 - 1)) (lit "123456"))).
Proof.
  apply (@static_pin_fits plenty (Some (fun _ _ pin n => mret (Some (- EINVAL, zeros n)))) (lit "card")
    (lit "123456") 0 (zeros 5) 5).
  - done.
  - apply (bool_decide_unpack _). vm_compute. exact I.
  - lia.
  - done.
  - by exists (zeros 5).
Defined.

(** ** Adding a key *)
Section KeyLemmas.
Context `{Heap, Nss, Sys, Ssl, !SslLaws, !Pkcs11} (be : bool).

(** The module can be used: it is loaded with the operations of this file. *)
Definition pkcs11_loaded (s : gstate) (i : nat) (alias : cstring) : Prop :=
  exists m, g_mods s !! i = Some m /\ km_alias m = Some alias /\ ecryptfs_pkcs11h_ops (km_ops m).

(** The state after a key has been added. *)
Definition token_key_added (i : nat) (alias id : cstring) (cert : bytes) (pin : cstring) (rsa : RSA)
    (s : gstate) : gstate :=
  let blob := pkcs11_blob id cert pin in
  set_mnt (Some (lit "ecryptfs_sig=" ++ rsa_sig_hex rsa) :: g_mnt s)
    (set_keyring (ensure_module_token (g_keyring s) (rsa_sig_hex rsa)
                    (module_token alias (rsa_sig_hex rsa) blob)).2
       (set_mod_blob i (Some blob) (zlen blob) s)).

Lemma add_token_key_ok i alias id cert pin rsa s :
  heap_never_fails -> sys_works -> pkcs11_fits id cert pin -> certifies cert rsa ->
  pkcs11_loaded s i alias ->
  add_token_key be i (pkcs11_data id (Some cert) pin) s =
  go (0, token_key_added i alias id cert pin rsa s).
Proof.
  intros Hh Hs Hf Hc (m & Hm & Ha & Hops). unfold add_token_key. rewrite pkcs11_serialize_none.
  change (default [] (Some cert)) with cert. set (blob := pkcs11_blob id cert pin).
  assert (0 < zlen blob) as Hpos by (unfold blob; rewrite zlen_pkcs11_blob; pose proof (zlen_nonneg id);
    pose proof (zlen_nonneg cert); pose proof (zlen_nonneg pin); lia).
  cbn [stays rbind Z.eqb negb]. replace (zlen blob =? 0) with false by lia. rewrite Hm, !Hh. cbn [negb].
  rewrite (pkcs11_serialize_ok _ id (Some cert) pin) by (rewrite zlen_malloc_block; [done|lia]).
  change (default [] (Some cert)) with cert. fold blob. cbn [stays rbind Z.eqb negb].
  rewrite Z.eqb_refl. cbn [negb]. destruct Hops as [(f & Hf1 & Hspec) Hg _].
  pose proof (pkcs11_key_sig_ok (zeros 17) id cert pin (zeros data_room) rsa Hh Hf Hc ltac:(done)) as Hsig.
  change (drop 17 (zeros 17)) with (@nil Z) in Hsig. apply Hspec in Hsig. cbn [Z.eqb] in Hsig.
  rewrite (add_module_key_ok be _ _ (set_blob (Some blob) (zlen blob) m) alias blob (rsa_sig_hex rsa) f);
    [|done|done|by apply zlen_malloc_block|done..|exact Hg|exact Hf1|exact Hsig|apply rsa_sig_hex_cstring|
     unfold zlen; by rewrite length_rsa_sig_hex].
  change (g_keyring (set_mod_blob i (Some blob) (zlen blob) s)) with (g_keyring s).
  assert (cstr_of (rsa_sig_hex rsa ++ [0]) = Ok (rsa_sig_hex rsa)) as Hcs
    by (apply cstr_of_app, is_char_nonzero, rsa_sig_hex_cstring).
  unfold token_key_added. fold blob. unfold ensure_module_token.
  destruct (g_keyring s !! rsa_sig_hex rsa); cbn [rbind]; rewrite Hh;
    cbn [negb Z.ltb Z.compare]; rewrite Hcs; cbn [stays rbind]; by rewrite stack_push_ok.
Qed.

(** Where the certificate comes from: the file that is named, or the token. *)
Definition certificate_found (val : option cstring) (c : certificate) (cert : bytes) : Prop :=
  match val with
  | None | Some [] => getCertificateBlob c = Some cert
  | Some file => exists x509, PEM_read_X509 file = inr (Some x509) /\ i2d_X509 x509 = Some cert
  end.

Lemma certificate_found_ok k k' val c cert id pin :
  heap_never_fails -> certificate_found val c cert ->
  exists d, read_x509_file k val (pkcs11_data id None pin) = inr d /\
    pk_serialized_id d = Some id /\ pk_passphrase d = Some pin /\
    load_certificate k' c d = inr (pkcs11_data id (Some cert) pin).
Proof.
  intros Hh Hc. unfold certificate_found in Hc. destruct val as [[|x file]|]; cbn [read_x509_file].
  - eexists. split; [done|]. unfold load_certificate. cbn [pk_certificate_blob pkcs11_data].
    by rewrite Hc, Hh.
  - destruct Hc as (x509 & -> & ->). rewrite Hh. cbn [negb]. eexists. by split.
  - eexists. split; [done|]. unfold load_certificate. cbn [pk_certificate_blob pkcs11_data].
    by rewrite Hc, Hh.
Qed.

Lemma tf_x509file_ok node p i alias id cert pin rsa c s :
  heap_never_fails -> sys_works -> pkcs11_fits id cert pin -> certifies cert rsa ->
  opens id None pin c -> certificate_found (pn_val p) c cert -> pkcs11_loaded s i alias ->
  g_foo s = FooModule i [Some id; None; Some pin] -> g_nodes s !! node = Some p ->
  exists d, tf_pkcs11h_key_x509file be node s =
    go (DEFAULT_TOK, set_foo FooNull (set_pkcs11h_key_ctx i (pkcs11_data id (Some cert) pin)
          (token_key_added i alias id cert pin rsa
             (upd_node node (set_val None) (set_pkcs11h_key_ctx i d s))))).
Proof.
  intros Hh Hs Hf Hc (cid & _ & Hid & [= <-] & Hcr) Hfound Hl Hfoo Hn.
  destruct (certificate_found_ok (g_steps s) (g_steps s) (pn_val p) c cert id pin Hh Hfound)
    as (d & Hd & Hdi & Hdp & Hload).
  exists d. unfold tf_pkcs11h_key_x509file, pkcs11h_key_ctx, get_node. rewrite Hfoo, Hn.
  cbn [stays rbind mret outcome_ret default].
  change (Pkcs11hData (Some id) None (zlen []) (Some pin)) with (pkcs11_data id None pin).
  rewrite Hd. unfold ecryptfs_pkcs11h_process_key. rewrite Hdi, Hid, Hdp, Hcr.
  change (g_steps (upd_node node (set_val None) (set_pkcs11h_key_ctx i d s))) with (g_steps s).
  rewrite Hload, (add_token_key_ok i alias id cert pin rsa) by done. done.
Qed.
End KeyLemmas.

(** Cn. The last step of adding a key on a token: with the certificate of the file
    that was named, or that of the token, the token of the key is in the keyring
    (an existing one is kept) with id, certificate and PIN in its blob, and the
    kernel gets the signature of the key in the certificate. *)
Theorem pkcs11_x509file_adds_key `{Heap, Nss, Sys, Ssl, !SslLaws, !Pkcs11} be node p i alias id cert pin rsa c s :
  heap_never_fails -> sys_works -> pkcs11_fits id cert pin -> certifies cert rsa ->
  opens id None pin c -> certificate_found (pn_val p) c cert -> pkcs11_loaded s i alias ->
  g_foo s = FooModule i [Some id; None; Some pin] -> g_nodes s !! node = Some p ->
  exists s', tf_pkcs11h_key_x509file be node s = go (DEFAULT_TOK, s') /\ g_foo s' = FooNull /\
    g_mnt s' = Some (lit "ecryptfs_sig=" ++ rsa_sig_hex rsa) :: g_mnt s /\
    (g_keyring s !! rsa_sig_hex rsa = None ->
     g_keyring s' !! rsa_sig_hex rsa = Some (module_token alias (rsa_sig_hex rsa) (pkcs11_blob id cert pin))) /\
    (forall sig, sig <> rsa_sig_hex rsa \/ is_Some (g_keyring s !! sig) -> g_keyring s' !! sig = g_keyring s !! sig).
Proof.
  intros Hh Hs Hf Hc Ho Hfound Hl Hfoo Hn.
  destruct (tf_x509file_ok be node p i alias id cert pin rsa c s) as (d & ->); [done..|].
  eexists. split; [done|]. split; [done|]. split; [done|]. apply ensure_module_token_lookup.
Qed.
