(* ===== verification/Visits.v ===== *)
(** * Visits of nodes

    What the walk of [DecisionGraph] does at one node, from the options that are
    not used yet: the node takes its value, and the transition that the option
    list or the default chooses is followed.  The graphs of the modules that are
    loaded at run time are walked with these lemmas. *)

From S2P Require Import Prelude CLib Ecryptfs PassphraseSig KeyMod KeyPayload KeyManagement CmdLnParser DecisionGraph.

(** The names of the options, and the values of those of one name that are not
    used yet, in order. *)
Definition option_names (l : list ecryptfs_name_val_pair) : list (option cstring) := nv_name <$> l.
Definition unused (name : cstring) (l : list ecryptfs_name_val_pair) : list (option cstring) :=
  nv_value <$> filter (fun a => available name a = true) l.

(** The first unused option of a name has been used. *)
Record uses (name : cstring) (l l' : list ecryptfs_name_val_pair) : Prop := Uses {
  uses_names : option_names l' = option_names l;
  uses_first : unused name l' = tail (unused name l);
  uses_others t : t <> name -> unused t l' = unused t l
}.

Lemma named_names l : named l <-> None ∉ option_names l.
Proof.
  unfold named, option_names. rewrite Forall_forall, list_elem_of_fmap. split.
  - intros Hn (a & Ha & Hin). destruct (Hn a Hin) as [n Hx]. congruence.
  - intros Hn a Hin. destruct (nv_name a) eqn:E; [by eexists|]. exfalso. apply Hn. by exists a.
Qed.

Lemma unused_cons name a l :
  unused name (a :: l) = (if available name a then [nv_value a] else []) ++ unused name l.
Proof. unfold unused. rewrite filter_cons. by destruct (available name a). Qed.

Lemma available_marked name a : available name (mark_processed a) = false.
Proof.
  unfold available. change (nv_name (mark_processed a)) with (nv_name a).
  destruct (nv_name a); [|done]. by rewrite mark_processed_flag, andb_false_r.
Qed.

Lemma streq_true a b : streq a b = true -> a = b.
Proof. intros Hs. destruct (decide (a = b)) as [|Hne]; [done|]. by rewrite streq_ne in Hs. Qed.

Lemma available_other name t a : available name a = true -> t <> name -> available t a = false.
Proof.
  unfold available. destruct (nv_name a) as [n|]; [|done]. intros [->%streq_true _]%andb_true_iff Ht.
  by rewrite streq_ne.
Qed.

(** The search finds the first unused option. *)
Lemma find_nvp_unused name i l :
  named l ->
  match unused name l with
  | [] => find_nvp name i l = Ok None
  | v :: _ => exists k a, find_nvp name i l = Ok (Some (i + k)%nat) /\ l !! k = Some a /\ nv_value a = v /\
      uses name l (alter mark_processed k l)
  end.
Proof.
  intros Hn. revert i. induction Hn as [|a l [n Ha] Hn IH]; intros i; [done|].
  rewrite unused_cons. cbn [find_nvp]. rewrite Ha.
  assert (available name a = streq n name && negb (has_flag (nv_flags a) ECRYPTFS_PROCESSED)) as Hav
    by (unfold available; by rewrite Ha).
  destruct (available name a) eqn:E; cbn [app].
  - exists 0%nat, a. rewrite <- Hav, Nat.add_0_r. split_and!; [done..|]. cbn [alter list_alter]. split.
    + done.
    + by rewrite !unused_cons, available_marked, E.
    + intros t Ht. by rewrite !unused_cons, available_marked, (available_other name t).
  - rewrite <- Hav. specialize (IH (S i)). destruct (unused name l) as [|v vs] eqn:Eu; [exact IH|].
    destruct IH as (k & b & Hf & Hk & Hv & [Hnm Hfst Hoth]). exists (S k), b.
    rewrite Hf. split_and!; [do 2 f_equal; lia|done..|]. cbn [alter list_alter]. split.
    + unfold option_names in *. rewrite !fmap_cons. by rewrite Hnm.
    + rewrite !unused_cons, E. cbn [app]. by rewrite Hfst.
    + intros t Ht. by rewrite !unused_cons, Hoth.
Qed.

Lemma unused_in_names name v l : v ∈ unused name l -> Some name ∈ option_names l.
Proof.
  unfold unused. intros (a & _ & [Ha Hin]%list_elem_of_filter)%list_elem_of_fmap.
  apply list_elem_of_fmap. exists a. split; [|done]. unfold available in Ha.
  destruct (nv_name a); [|done]. by apply andb_true_iff in Ha as [->%streq_true _].
Qed.

(** Using options of names. *)
Lemma uses_none name l l' : uses name l l' -> named l -> named l'.
Proof. rewrite !named_names. by intros [-> _ _]. Qed.

(** An option that nobody named selects nothing. *)
Lemma quiet_names v l tn t :
  named l -> tn_val tn = Some t -> v <> Some t -> Some t ∉ option_names l -> quiet_tn v l tn.
Proof.
  intros Hn Ht Hv Hno. exists t. split_and!; [done..|]. apply Forall_forall. intros a Hin.
  unfold named in Hn. rewrite Forall_forall in Hn. destruct (Hn a Hin) as [n Ha]. exists n. split; [done|].
  intros ->. apply Hno. apply list_elem_of_fmap. by exists a.
Qed.

Lemma entered_foo node s : g_foo (entered node s) = g_foo s.
Proof. unfold entered. by case_match. Qed.
Lemma entered_calls node s : g_calls (entered node s) = g_calls s.
Proof. unfold entered. by case_match. Qed.
Lemma entered_verbosity node s : g_verbosity (entered node s) = g_verbosity s.
Proof. unfold entered. by case_match. Qed.

Section Visits.
Context `{Heap} (run_tf : trans_fn -> Z -> gstate -> running (Z * gstate)) (has_get_string : bool).

(** [node->val] from the option of its only name. *)
Lemma retrieve_unused node s p name v vs :
  heap_never_fails -> g_nodes s !! node = Some p -> pn_mnt_opt_names p = [name] -> named (g_nvp s) ->
  unused name (g_nvp s) = Some v :: vs -> v <> lit "(null)" ->
  exists l, uses name (g_nvp s) l /\
    retrieve_val node s = Ok (0, true, upd_node node (set_val (Some v)) (set_nvp l s)).
Proof.
  intros Hh Hp Hname Hn Hu Hv. pose proof (find_nvp_unused name 0 (g_nvp s) Hn) as Hf. rewrite Hu in Hf.
  destruct Hf as (k & a & Hf & Hk & Ha & Huses). exists (alter mark_processed k (g_nvp s)). split; [done|].
  unfold retrieve_val. rewrite (get_node_ok _ _ p), bind_Ok, Hname by done. cbn [reverse rev_append find_by_names].
  change (find_by_names (reverse [name]) (g_nvp s)) with (find_by_names [name] (g_nvp s)).
  cbn [find_by_names]. rewrite Hf, bind_Ok. cbn [Nat.add mret outcome_ret]. rewrite bind_Ok, Hk.
  cbn [mbind option_bind]. by rewrite Ha, streq_ne, Hh.
Qed.

(** No option of the name is left: the default, or nothing. *)
Lemma retrieve_spent node s p name :
  heap_never_fails -> g_nodes s !! node = Some p -> pn_mnt_opt_names p = [name] -> named (g_nvp s) ->
  unused name (g_nvp s) = [] -> pn_default_val p <> Some (lit "NULL") ->
  retrieve_val node s =
  Ok (match pn_default_val p with
      | Some d => (0, true, upd_node node (set_val (Some d)) s)
      | None => (0, false, s)
      end).
Proof.
  intros Hh Hp Hname Hn Hu Hd. pose proof (find_nvp_unused name 0 (g_nvp s) Hn) as Hf. rewrite Hu in Hf.
  unfold retrieve_val. rewrite (get_node_ok _ _ p), bind_Ok, Hname by done.
  change (find_by_names (reverse [name]) (g_nvp s)) with (find_by_names [name] (g_nvp s)).
  cbn [find_by_names]. rewrite Hf, bind_Ok. cbn [mret outcome_ret]. rewrite bind_Ok.
  destruct (pn_default_val p) as [d|]; [|done]. rewrite streq_ne by congruence. by rewrite Hh.
Qed.

(** A value that was retrieved stays, unless the node gives way to its
    successors. *)
Lemma get_val_retrieved node s s1 p q :
  g_nodes s !! node = Some p -> pn_val p = None -> retrieve_val node s = Ok (0, true, s1) ->
  g_nodes s1 !! node = Some q ->
  has_flag (pn_flags q) ECRYPTFS_ALLOW_IMPLICIT_TRANSITION &&
    has_flag (pn_flags q) ECRYPTFS_IMPLICIT_OVERRIDE_DEFAULT = false ->
  alloc_and_get_val has_get_string node s = Ok (0, s1).
Proof.
  intros Hp Hv Hr Hq Hfl. unfold alloc_and_get_val.
  rewrite (get_node_ok _ _ p), bind_Ok, Hv, Hr, bind_Ok by done. cbn [Z.eqb negb].
  by rewrite (get_node_ok _ _ q), bind_Ok, Hfl.
Qed.

(** The state in which the functions of a node are called, after it took a
    value. *)
Definition at_node (node : Z) (v : cstring) (l : list ecryptfs_name_val_pair) (s : gstate) : gstate :=
  entered node (upd_node node (set_val (Some v)) (set_nvp l (set_steps (S (g_steps s)) s))).

Lemma at_node_nodes node v l s m :
  g_nodes (at_node node v l s) !! m = (if decide (m = node) then set_val (Some v) <$> g_nodes s !! m
                                       else g_nodes s !! m).
Proof.
  unfold at_node. rewrite entered_nodes. cbn. destruct (decide (m = node)) as [->|Hne].
  - by rewrite lookup_alter_eq.
  - by rewrite lookup_alter_ne.
Qed.
Lemma at_node_other node v l s :
  g_nvp (at_node node v l s) = l /\ g_mnt (at_node node v l s) = g_mnt s /\
  g_foo (at_node node v l s) = g_foo s /\ g_mods (at_node node v l s) = g_mods s /\
  g_keyring (at_node node v l s) = g_keyring s /\ g_calls (at_node node v l s) = g_calls s /\
  g_verbosity (at_node node v l s) = g_verbosity s /\ g_input (at_node node v l s) = g_input s.
Proof. unfold at_node, entered. by case_match. Qed.

(** How a node gets a value: from the option of its name, which is used, or from
    its default. *)
Definition takes_value (p : param_node) (name : cstring) (l : list ecryptfs_name_val_pair) (v : cstring)
    (l' : list ecryptfs_name_val_pair) : Prop :=
  (exists vs, unused name l = Some v :: vs /\ v <> lit "(null)" /\ uses name l l') \/
  (unused name l = [] /\ pn_default_val p = Some v /\ v <> lit "NULL" /\ l' = l).

Definition simple_node (p : param_node) : bool :=
  negb (has_flag (pn_flags p) ECRYPTFS_ALLOW_IMPLICIT_TRANSITION &&
        has_flag (pn_flags p) ECRYPTFS_IMPLICIT_OVERRIDE_DEFAULT).

Lemma take_value node s p name :
  heap_never_fails -> g_nodes s !! node = Some p -> pn_val p = None -> pn_mnt_opt_names p = [name] ->
  simple_node p = true -> named (g_nvp s) ->
  match unused name (g_nvp s) with
  | Some v :: _ => v <> lit "(null)"
  | None :: _ => False
  | [] => is_Some (pn_default_val p) /\ pn_default_val p <> Some (lit "NULL")
  end ->
  exists v l, takes_value p name (g_nvp s) v l /\
    alloc_and_get_val has_get_string node s =
    Ok (0, upd_node node (set_val (Some v)) (set_nvp l s)).
Proof.
  intros Hh Hp Hv Hname Hs%negb_true_iff Hn Hu.
  assert (forall v l, g_nodes (upd_node node (set_val (Some v)) (set_nvp l s)) !! node = Some (set_val (Some v) p))
    as Hq by (intros; by apply upd_node_lookup).
  destruct (unused name (g_nvp s)) as [|[v|] vs] eqn:Eu; [|..|done].
  - destruct Hu as [[d Hd] Hnull]. exists d, (g_nvp s).
    split; [right; split_and!; [done..|congruence|done]|].
    pose proof (retrieve_spent node s p name Hh Hp Hname Hn Eu Hnull) as Hr. rewrite Hd in Hr.
    eapply get_val_retrieved; [done|done| |apply Hq|done]. rewrite Hr. by destruct s.
  - destruct (retrieve_unused node s p name v vs) as (l & Huses & Hr); [done..|].
    exists v, l. split; [left; by exists vs|]. by eapply get_val_retrieved.
Qed.

(** A visit that follows the transition "default" of the node. *)
Lemma visit_default node s p name i tn :
  heap_never_fails -> g_nodes s !! node = Some p -> pn_val p = None -> pn_mnt_opt_names p = [name] ->
  simple_node p = true -> named (g_nvp s) ->
  match unused name (g_nvp s) with
  | Some v :: _ => v <> lit "(null)"
  | None :: _ => False
  | [] => is_Some (pn_default_val p) /\ pn_default_val p <> Some (lit "NULL")
  end ->
  (forall v l t, takes_value p name (g_nvp s) v l -> t ∈ pn_tl p ->
     exists x, tn_val t = Some x /\ v <> x /\ Some x ∉ option_names (g_nvp s)) ->
  pn_tl p !! i = Some tn -> tn_val tn = Some (lit "default") ->
  (forall j t, (j < i)%nat -> pn_tl p !! j = Some t -> tn_val t <> Some (lit "default")) ->
  exists v l, takes_value p name (g_nvp s) v l /\
    forall tok s' next,
      call_tf run_tf (tn_trans_func tn) NULL_TOK node (at_node node v l s) = go (tok, s') ->
      0 <= tok -> tok <> WRONG_VALUE -> tok <> MOUNT_ERROR ->
      (exists tn', get_tn s' node i = Ok tn' /\ tn_next_token tn' = Some next) ->
      eval_step run_tf has_get_string node s = go (0, Some next, s').
Proof.
  intros Hh Hp Hv Hname Hs Hn Hu Hq Hi Hdef Hmin.
  destruct (take_value node (set_steps (S (g_steps s)) s) p name) as (v & l & Ht & Ha); [done..|].
  exists v, l. split; [done|]. intros tok s' next Hcall Htok Hw Hm Hnext. unfold eval_step. rewrite Ha.
  cbn [stays rbind Z.eqb negb].
  assert (option_names l = option_names (g_nvp s)) as Hnames
    by (destruct Ht as [(vs & _ & _ & [Hnm _ _])|(_ & _ & _ & ->)]; done).
  eapply (do_transition_default run_tf _ _ (set_val (Some v) p) i tn tok); try done.
  - by apply upd_node_lookup.
  - intros j t Ht'. destruct (Hq v l t Ht) as (x & Hx & Hvx & Hno); [by eapply list_elem_of_lookup_2|].
    apply (quiet_names _ _ _ x); [|done|cbn; congruence|].
    + change (named l). apply named_names. rewrite Hnames. by apply named_names.
    + change (Some x ∉ option_names l). by rewrite Hnames.
Qed.

(** An option selects the transition by its name, used or not. *)
Lemma try_nvps_named current i nvps s p tn t s' next :
  g_nodes s !! current = Some p -> pn_tl p !! i = Some tn -> tn_val tn = Some t ->
  named nvps -> Some t ∈ option_names nvps ->
  call_tf run_tf (tn_trans_func tn) NULL_TOK current s = go (DEFAULT_TOK, s') ->
  (exists tn', get_tn s' current i = Ok tn' /\ tn_next_token tn' = Some next) ->
  try_nvps run_tf current i nvps s = go (Some (0, Some next), s').
Proof.
  intros Hp Hi Ht Hn Hin Hcall (tn' & Htn' & Hnext). induction Hn as [|a nvps [n Ha] Hn IH].
  { by apply elem_of_nil in Hin. }
  cbn [try_nvps]. rewrite (get_tn_ok s current p i tn) by done. cbn [stays rbind].
  rewrite Ht, Ha. cbn [deref_str mret outcome_ret obind stays rbind].
  destruct (decide (n = t)) as [->|Hne].
  - rewrite streq_refl, Hcall. cbn [negb rbind go Z.eqb orb]. unfold follow. rewrite Htn', bind_Ok, Hnext. done.
  - rewrite streq_ne by done. cbn [negb]. apply IH. unfold option_names in Hin. rewrite fmap_cons in Hin.
    apply elem_of_cons in Hin as [Heq|Hin]; [congruence|done].
Qed.

Lemma do_transition_named current s p i tn t s' next :
  g_nodes s !! current = Some p ->
  (forall j t', (j < i)%nat -> pn_tl p !! j = Some t' -> quiet_tn (pn_val p) (g_nvp s) t') ->
  pn_tl p !! i = Some tn -> tn_val tn = Some t -> pn_val p <> Some t ->
  named (g_nvp s) -> Some t ∈ option_names (g_nvp s) ->
  call_tf run_tf (tn_trans_func tn) NULL_TOK current (entered current s) = go (DEFAULT_TOK, s') ->
  (exists tn', get_tn s' current i = Ok tn' /\ tn_next_token tn' = Some next) ->
  do_transition run_tf current s = go (0, Some next, s').
Proof.
  intros Hp Hq Hi Ht Hv Hn Hin Hcall Hnext. unfold do_transition. fold (entered current s).
  assert (g_nodes (entered current s) !! current = Some p) as Hp1 by (by rewrite entered_nodes).
  rewrite (get_node_ok _ _ p) by done. cbn [stays rbind].
  assert (seq 0 (length (pn_tl p)) = seq 0 i ++ i :: seq (S i) (length (pn_tl p) - S i)) as ->.
  { apply lookup_lt_Some in Hi.
    replace (length (pn_tl p)) with (i + S (length (pn_tl p) - S i))%nat at 1 by lia.
    by rewrite seq_app. }
  rewrite (try_transitions_quiet run_tf _ _ _ p); [|done|].
  2:{ intros j [_ Hj]%elem_of_seq. apply lookup_lt_Some in Hi.
      destruct (lookup_lt_is_Some_2 (pn_tl p) j) as [t' Htj]; [lia|].
      exists t'. rewrite entered_nvp. split; [done|by eapply Hq]. }
  cbn [try_transitions]. rewrite (get_node_ok _ _ p), (get_tn_ok _ _ p _ tn) by done.
  cbn [stays rbind]. rewrite Ht.
  assert (match pn_val p with Some v => streq v t | None => false end = false) as ->
    by (destruct (pn_val p); [apply streq_ne; congruence|done]).
  rewrite entered_nvp, (try_nvps_named _ _ (g_nvp s) _ p tn t s' next) by done. done.
Qed.

(** A visit that follows the first transition, which an option names. *)
Lemma visit_named node s p name tn t :
  heap_never_fails -> g_nodes s !! node = Some p -> pn_val p = None -> pn_mnt_opt_names p = [name] ->
  simple_node p = true -> named (g_nvp s) ->
  match unused name (g_nvp s) with
  | Some v :: _ => v <> lit "(null)"
  | None :: _ => False
  | [] => is_Some (pn_default_val p) /\ pn_default_val p <> Some (lit "NULL")
  end ->
  pn_tl p !! 0%nat = Some tn -> tn_val tn = Some t -> Some t ∈ option_names (g_nvp s) ->
  (forall v l, takes_value p name (g_nvp s) v l -> v <> t) ->
  exists v l, takes_value p name (g_nvp s) v l /\
    forall s' next,
      call_tf run_tf (tn_trans_func tn) NULL_TOK node (at_node node v l s) = go (DEFAULT_TOK, s') ->
      (exists tn', get_tn s' node 0 = Ok tn' /\ tn_next_token tn' = Some next) ->
      eval_step run_tf has_get_string node s = go (0, Some next, s').
Proof.
  intros Hh Hp Hv Hname Hs Hn Hu Hi Ht Hin Hq.
  destruct (take_value node (set_steps (S (g_steps s)) s) p name) as (v & l & Htake & Ha); [done..|].
  exists v, l. split; [done|]. intros s' next Hcall Hnext. unfold eval_step. rewrite Ha.
  cbn [stays rbind Z.eqb negb].
  assert (option_names l = option_names (g_nvp s)) as Hnames
    by (destruct Htake as [(vs & _ & _ & [Hnm _ _])|(_ & _ & _ & ->)]; done).
  eapply (do_transition_named _ _ (set_val (Some v) p) 0 tn t); try done.
  - by apply upd_node_lookup.
  - intros; lia.
  - cbn [pn_val set_val]. intros [= Heq]. by eapply Hq.
  - change (named l). apply named_names. rewrite Hnames. by apply named_names.
  - change (Some t ∈ option_names l). by rewrite Hnames.
Qed.

Lemma loop_next fuel node s next s' :
  eval_step run_tf has_get_string node s = go (0, Some next, s') ->
  eval_loop run_tf has_get_string (S fuel) node s = eval_loop run_tf has_get_string fuel next s'.
Proof. intros Hs. cbn [eval_loop]. by rewrite Hs. Qed.

(** A walk that always goes on never ends. *)
Lemma loop_forever (inv : Z -> gstate -> Prop) fuel node s :
  (forall node s, inv node s -> exists next s', eval_step run_tf has_get_string node s = go (0, Some next, s') /\ inv next s') ->
  inv node s -> eval_loop run_tf has_get_string fuel node s = Ok OutOfFuel.
Proof.
  intros Hstep. revert node s. induction fuel as [|fuel IH]; intros node s Hi; [done|].
  destruct (Hstep node s Hi) as (next & s' & Hs & Hi'). rewrite (loop_next _ _ _ _ _ Hs). by apply IH.
Qed.

Lemma tn_after s node p q i tn :
  g_nodes s !! node = Some p -> pn_tl p = pn_tl q -> pn_tl q !! i = Some tn -> get_tn s node i = Ok tn.
Proof. intros Hp Htl Hi. eapply get_tn_ok; [done|congruence]. Qed.

Lemma set_val_twice v p : pn_val p = None -> set_val None (set_val v p) = p.
Proof. by destruct p; cbn; intros ->. Qed.

(** What the functions that store a value keep. *)
Definition kept (s s' : gstate) : Prop :=
  g_mnt s' = g_mnt s /\ g_mods s' = g_mods s /\ g_keyring s' = g_keyring s /\ g_calls s' = g_calls s /\
  g_verbosity s' = g_verbosity s.

(** Storing the value of a node leaves the node as it was. *)
Definition stored (node : Z) (foo : subgraph) (v : cstring) (l : list ecryptfs_name_val_pair) (s : gstate) : gstate :=
  upd_node node (set_val None) (set_foo foo (at_node node v l s)).

Lemma stored_nodes node foo v l s p m :
  g_nodes s !! node = Some p -> pn_val p = None -> g_nodes (stored node foo v l s) !! m = g_nodes s !! m.
Proof.
  intros Hp Hv. unfold stored. cbn [g_nodes upd_node set_nodes set_foo].
  destruct (decide (m = node)) as [->|Hne].
  - rewrite lookup_alter_eq, at_node_nodes, decide_True, Hp by done. cbn. by rewrite set_val_twice.
  - by rewrite lookup_alter_ne, at_node_nodes, decide_False.
Qed.

Lemma stored_rest node foo v l s :
  kept s (stored node foo v l s) /\ g_foo (stored node foo v l s) = foo /\ g_nvp (stored node foo v l s) = l.
Proof.
  destruct (at_node_other node v l s) as (Hl & Hm & _ & Hmods & Hk & Hc & Hv & _).
  unfold kept, stored. by split_and!.
Qed.
End Visits.
