(* ===== verification/Pkcs11Walks.v ===== *)
(** * Walks over the graph of the PKCS#11 module

    What a mount with a key on a token does, from the options to the key in the
    keyring, and two ways in which the graph loses what the user gives. *)

From S2P Require Import Prelude CLib Ecryptfs PassphraseSig KeyMod KeyPayload KeyManagement CmdLnParser DecisionGraph PassphraseGraph ModuleMgr Ssl Openssl Pkcs11 Visits.

Section Walks.
Context `{Heap, Nss, Sys, Ssl, !SslLaws, !Pkcs11} (be : bool).
Context (open_file : nat -> cstring -> Z + descriptor) (open_fd : nat -> Z -> descriptor)
        (has_get_string : bool).

(** The functions of this module in a mount. *)
Definition pkcs11_run : trans_fn -> Z -> gstate -> running (Z * gstate) :=
  run_tf be (pkcs11h_tf be) open_file open_fd.

(** The graph after it was linked to the node [exit], on entry. *)
Record pkcs11_entered (exit : Z) (i : nat) (s : gstate) : Prop := Pkcs11Entered {
  pe_tok : g_nodes s !! PKCS11H_KEY_TOK_TOK = Some pk_key_tok_node;
  pe_id : exists list, g_nodes s !! PKCS11H_KEY_TOK_ID = Some (set_suggested_val list pk_key_id_node);
  pe_pass : g_nodes s !! PKCS11H_KEY_TOK_DEFAULT_PASS = Some pk_defaultpass_node;
  pe_x509 : g_nodes s !! PKCS11H_KEY_TOK_DEFAULT_X509_FILE = Some (seal exit pk_x509file_node);
  pe_foo : g_foo s = FooModule i [None; None; None]
}.

(** The options that give a key, and none that is named like a transition. *)
Definition pkcs11_words : list cstring := [lit "default"; lit "passwd"; lit "passenv"; lit "passstdin"].
Record pkcs11_options (id pin file : cstring) (l : list ecryptfs_name_val_pair) : Prop := Pkcs11Options {
  po_named : named l;
  po_words t : t ∈ pkcs11_words -> Some t ∉ option_names l;
  po_keyformat : unused (lit "keyformat") l = [];
  po_id : exists vs, unused (lit "id") l = Some id :: vs;
  po_pin : exists vs, unused (lit "defaultpass") l = Some pin :: vs;
  po_file : exists vs, unused (lit "x509file") l = Some file :: vs;
  po_id_word : id ∉ lit "(null)" :: pkcs11_words;
  po_pin_word : pin ∉ lit "(null)" :: pkcs11_words;
  po_file_word : file ∉ lit "(null)" :: pkcs11_words
}.

Lemma words_quiet l id pin file v t :
  pkcs11_options id pin file l -> v ∉ lit "(null)" :: pkcs11_words -> t ∈ pkcs11_words ->
  v <> t /\ Some t ∉ option_names l.
Proof. intros Ho Hv Ht. split; [|by eapply po_words]. intros ->. apply Hv. by right. Qed.

(** Using an option keeps the others. *)
Lemma pkcs11_options_uses id pin file name l l' :
  pkcs11_options id pin file l -> uses name l l' ->
  named l' /\ (forall t, t ∈ pkcs11_words -> Some t ∉ option_names l') /\
  forall t, t <> name -> unused t l' = unused t l.
Proof.
  intros [Hn Hw _ _ _ _ _ _ _] Hu. split; [by eapply uses_none|]. split; [|by apply uses_others].
  intros t Ht. rewrite (uses_names _ _ _ Hu). by apply Hw.
Qed.

Lemma call_module n node s : call_tf pkcs11_run (Some (TfModule n)) NULL_TOK node s = pkcs11h_tf be n node s.
Proof. done. Qed.

(** The visits, one after the other. *)
Lemma visit_key_tok exit i s id pin file :
  heap_never_fails -> pkcs11_entered exit i s -> pkcs11_options id pin file (g_nvp s) ->
  eval_step pkcs11_run has_get_string PKCS11H_KEY_TOK_TOK s =
  go (0, Some PKCS11H_KEY_TOK_ID, at_node PKCS11H_KEY_TOK_TOK (lit "id") (g_nvp s) s).
Proof.
  intros Hh [Hp _ _ _ _] Ho. pose proof (po_keyformat _ _ _ _ Ho) as Hk.
  set (tn := TransNode (Some (lit "default")) (Some (lit "PKCS#11 ID")) (Some PKCS11H_KEY_TOK_ID) None).
  assert (forall v l, takes_value pk_key_tok_node (lit "keyformat") (g_nvp s) v l ->
            v = lit "id" /\ l = g_nvp s) as Htake.
  { intros v l [(vs & Hu & _)|(_ & Hd & _ & ->)]; [congruence|]. cbn [pn_default_val pk_key_tok_node] in Hd.
    split; [congruence|done]. }
  destruct (visit_default pkcs11_run has_get_string PKCS11H_KEY_TOK_TOK s pk_key_tok_node (lit "keyformat") 0 tn)
    as (v & l & [-> ->]%Htake & Hstep); try done; [apply Ho|by rewrite Hk| |intros; lia|].
  - intros v l t [-> ->]%Htake ->%list_elem_of_singleton. eexists. split; [reflexivity|]. split; [done|].
    apply (po_words _ _ _ _ Ho). by left.
  - eapply Hstep; [reflexivity|done..|]. exists tn. split; [|reflexivity].
    eapply tn_after; [rewrite at_node_nodes, decide_True, Hp by done; reflexivity|reflexivity|reflexivity].
Qed.

(** The three other nodes take the option of their name, and their function
    stores it. *)
Lemma visit_given node s p name k tn v vs :
  heap_never_fails -> g_nodes s !! node = Some p -> pn_val p = None -> pn_mnt_opt_names p = [name] ->
  simple_node p = true -> named (g_nvp s) -> unused name (g_nvp s) = Some v :: vs -> v <> lit "(null)" ->
  (forall t, t ∈ pn_tl p -> exists x, tn_val t = Some x /\ v <> x /\ Some x ∉ option_names (g_nvp s)) ->
  pn_tl p !! k = Some tn -> tn_val tn = Some (lit "default") ->
  (forall j t, (j < k)%nat -> pn_tl p !! j = Some t -> tn_val t <> Some (lit "default")) ->
  exists l, uses name (g_nvp s) l /\
    forall s' next, call_tf pkcs11_run (tn_trans_func tn) NULL_TOK node (at_node node v l s) = go (DEFAULT_TOK, s') ->
      g_nodes s' !! node = Some (set_val None p) -> tn_next_token tn = Some next ->
      eval_step pkcs11_run has_get_string node s = go (0, Some next, s').
Proof.
  intros Hh Hp Hv Hname Hsim Hn Hu Hnull Hq Hk Hdef Hmin.
  destruct (visit_default pkcs11_run has_get_string node s p name k tn) as (v' & l & Ht & Hstep); try done.
  - by rewrite Hu.
  - intros v' l t Ht Hin. destruct Ht as [(vs' & Hu' & _)|(Hu' & _)]; [|congruence].
    replace v' with v by congruence. by apply Hq.
  - destruct Ht as [(vs' & Hu' & _ & Huses)|(Hu' & _)]; [|congruence]. replace v' with v in * by congruence.
    exists l. split; [done|]. intros s' next Hc Hp' Hnext. eapply Hstep; [exact Hc|done..|].
    exists tn. split; [|done]. by eapply tn_after.
Qed.

(** The context after id and PIN were given. *)
Lemma tf_key_id_ok node s i cert pin v p :
  heap_never_fails -> g_foo s = FooModule i [None; cert; pin] -> g_nodes s !! node = Some p -> pn_val p = Some v ->
  tf_pkcs11h_key_id node s =
  Ok (DEFAULT_TOK, upd_node node (set_val None) (set_foo (FooModule i [Some v; cert; pin]) s)).
Proof.
  intros Hh Hf Hp Hv. unfold tf_pkcs11h_key_id, pkcs11h_key_ctx. rewrite Hf. cbn [mret outcome_ret obind].
  by rewrite (get_node_ok _ _ p), bind_Ok, Hh, Hv.
Qed.

Lemma tf_key_passwd_ok node s i id cert pin p :
  heap_never_fails -> g_foo s = FooModule i [id; cert; pin] -> g_nodes s !! node = Some p ->
  tf_pkcs11h_key_passwd node s =
  Ok (DEFAULT_TOK, upd_node node (set_val None)
        (set_foo (FooModule i [id; cert; Some (show_str (pn_val p))]) s)).
Proof.
  intros Hh Hf Hp. unfold tf_pkcs11h_key_passwd, pkcs11h_key_ctx. rewrite Hf. cbn [mret outcome_ret obind].
  by rewrite (get_node_ok _ _ p), bind_Ok, Hh.
Qed.

Lemma visit_key_id i s id list vs :
  heap_never_fails -> g_nodes s !! PKCS11H_KEY_TOK_ID = Some (set_suggested_val list pk_key_id_node) ->
  g_foo s = FooModule i [None; None; None] -> named (g_nvp s) ->
  (forall t, t ∈ pkcs11_words -> Some t ∉ option_names (g_nvp s)) ->
  unused (lit "id") (g_nvp s) = Some id :: vs -> id ∉ lit "(null)" :: pkcs11_words ->
  exists l, uses (lit "id") (g_nvp s) l /\
    eval_step pkcs11_run has_get_string PKCS11H_KEY_TOK_ID s =
    go (0, Some PKCS11H_KEY_TOK_DEFAULT_PASS,
        stored PKCS11H_KEY_TOK_ID (FooModule i [Some id; None; None]) id l s).
Proof.
  intros Hh Hp Hf Hn Hw Hu Hid.
  destruct (visit_given PKCS11H_KEY_TOK_ID s (set_suggested_val list pk_key_id_node) (lit "id") 3
    (TransNode (Some (lit "default")) (Some (lit "Passphrase (empty for interactive)"))
       (Some PKCS11H_KEY_TOK_DEFAULT_PASS) (Some (TfModule TF_PKCS11H_KEY_ID))) id vs)
    as (l & Huses & Hstep); try done.
  - intros ->. apply Hid. by left.
  - intros t Hin.
    assert (exists x, tn_val t = Some x /\ x ∈ pkcs11_words) as (x & Hx & Hxw).
    { cbn [pn_tl set_suggested_val pk_key_id_node] in Hin.
      repeat (apply elem_of_cons in Hin as [->|Hin]; [eexists; split; [reflexivity|apply (bool_decide_unpack _); by vm_compute]|]).
      by apply elem_of_nil in Hin. }
    exists x. split_and!; [done| |by apply Hw]. intros ->. apply Hid. by right.
  - intros [|[|[|j]]] t Hj Ht; [injection Ht as <-; done..|lia].
  - exists l. split; [done|]. apply Hstep; [|by rewrite (stored_nodes _ _ _ _ _ _ _ Hp)|reflexivity].
    cbn [tn_trans_func]. rewrite call_module. change (pkcs11h_tf be TF_PKCS11H_KEY_ID) with
      (fun node s => stays (tf_pkcs11h_key_id node s)). cbn beta.
    destruct (at_node_other PKCS11H_KEY_TOK_ID id l s) as (_ & _ & Hfoo & _).
    rewrite (tf_key_id_ok _ _ i None None id (set_val (Some id) (set_suggested_val list pk_key_id_node)));
      [done|done|by rewrite Hfoo| |done].
    by rewrite at_node_nodes, decide_True, Hp.
Qed.

Lemma visit_key_pass i s id pin vs :
  heap_never_fails -> g_nodes s !! PKCS11H_KEY_TOK_DEFAULT_PASS = Some pk_defaultpass_node ->
  g_foo s = FooModule i [Some id; None; None] -> named (g_nvp s) -> Some (lit "default") ∉ option_names (g_nvp s) ->
  unused (lit "defaultpass") (g_nvp s) = Some pin :: vs -> pin ∉ lit "(null)" :: pkcs11_words ->
  exists l, uses (lit "defaultpass") (g_nvp s) l /\
    eval_step pkcs11_run has_get_string PKCS11H_KEY_TOK_DEFAULT_PASS s =
    go (0, Some PKCS11H_KEY_TOK_DEFAULT_X509_FILE,
        stored PKCS11H_KEY_TOK_DEFAULT_PASS (FooModule i [Some id; None; Some pin]) pin l s).
Proof.
  intros Hh Hp Hf Hn Hw Hu Hpin.
  destruct (visit_given PKCS11H_KEY_TOK_DEFAULT_PASS s pk_defaultpass_node (lit "defaultpass") 0
    (TransNode (Some (lit "default")) (Some (lit "Optional X.509 Certificate PEM file"))
       (Some PKCS11H_KEY_TOK_DEFAULT_X509_FILE) (Some (TfModule TF_PKCS11H_KEY_PASSWD))) pin vs)
    as (l & Huses & Hstep); try done.
  - intros ->. apply Hpin. by left.
  - intros t ->%list_elem_of_singleton. eexists. split_and!; [reflexivity| |done].
    intros ->. apply Hpin. right. by left.
  - intros; lia.
  - exists l. split; [done|]. apply Hstep; [|by rewrite (stored_nodes _ _ _ _ _ _ _ Hp)|reflexivity].
    cbn [tn_trans_func]. rewrite call_module. change (pkcs11h_tf be TF_PKCS11H_KEY_PASSWD) with
      (fun node s => stays (tf_pkcs11h_key_passwd node s)). cbn beta.
    destruct (at_node_other PKCS11H_KEY_TOK_DEFAULT_PASS pin l s) as (_ & _ & Hfoo & _).
    rewrite (tf_key_passwd_ok _ _ i (Some id) None None (set_val (Some pin) pk_defaultpass_node));
      [done|done|by rewrite Hfoo|].
    by rewrite at_node_nodes, decide_True, Hp.
Qed.

Lemma visit_key_x509 exit i s alias id pin file vs cert rsa c :
  heap_never_fails -> sys_works -> pkcs11_fits id cert pin -> certifies cert rsa ->
  opens id None pin c -> certificate_found (Some file) c cert -> pkcs11_loaded s i alias ->
  g_nodes s !! PKCS11H_KEY_TOK_DEFAULT_X509_FILE = Some (seal exit pk_x509file_node) ->
  g_foo s = FooModule i [Some id; None; Some pin] -> named (g_nvp s) -> Some (lit "default") ∉ option_names (g_nvp s) ->
  unused (lit "x509file") (g_nvp s) = Some file :: vs -> file ∉ lit "(null)" :: pkcs11_words ->
  exists s', eval_step pkcs11_run has_get_string PKCS11H_KEY_TOK_DEFAULT_X509_FILE s = go (0, Some exit, s') /\
    g_foo s' = FooNull /\ g_mnt s' = Some (lit "ecryptfs_sig=" ++ rsa_sig_hex rsa) :: g_mnt s /\
    g_keyring s' = (ensure_module_token (g_keyring s) (rsa_sig_hex rsa)
                      (module_token alias (rsa_sig_hex rsa) (pkcs11_blob id cert pin))).2.
Proof.
  intros Hh Hs Hfit Hc Ho Hfound Hl Hp Hf Hn Hw Hu Hfile.
  destruct (visit_given PKCS11H_KEY_TOK_DEFAULT_X509_FILE s (seal exit pk_x509file_node) (lit "x509file") 0
    (seal_tn exit (TransNode None None None (Some (TfModule TF_PKCS11H_KEY_X509FILE)))) file vs)
    as (l & Huses & Hstep); try done.
  - intros ->. apply Hfile. by left.
  - intros t ->%list_elem_of_singleton. eexists. split_and!; [reflexivity| |done].
    intros ->. apply Hfile. right. by left.
  - intros; lia.
  - set (s1 := at_node PKCS11H_KEY_TOK_DEFAULT_X509_FILE file l s) in *.
    destruct (at_node_other PKCS11H_KEY_TOK_DEFAULT_X509_FILE file l s) as (_ & Hm & Hfoo & Hmods & Hk & _).
    fold s1 in Hm, Hfoo, Hmods, Hk.
    assert (g_nodes s1 !! PKCS11H_KEY_TOK_DEFAULT_X509_FILE = Some (set_val (Some file) (seal exit pk_x509file_node))) as Hp1
      by (unfold s1; by rewrite at_node_nodes, decide_True, Hp).
    destruct (tf_x509file_ok be PKCS11H_KEY_TOK_DEFAULT_X509_FILE (set_val (Some file) (seal exit pk_x509file_node))
                i alias id cert pin rsa c s1) as (d & Htf); [done..| |by rewrite Hfoo|done|].
    { unfold pkcs11_loaded. by rewrite Hmods. }
    eexists. split; [apply Hstep; [exact Htf| |reflexivity]|].
    + cbn [g_nodes set_foo set_pkcs11h_key_ctx token_key_added set_mnt set_keyring set_mod_blob set_mods upd_node set_nodes].
      by rewrite lookup_alter_eq, Hp1.
    + split; [done|]. rewrite <- Hm, <- Hk. by split.
Qed.
End Walks.

(** C13. A mount with a key on a token, from the options to the key: with id, PIN
    and certificate file given, and no option named like a transition, the graph
    of the module is walked to its exit, wherever that is; the token of the key
    has id, certificate and PIN in its blob, the kernel gets the signature of the
    certificate's key, and the rest of the keyring is as before. *)
Theorem pkcs11_walk_adds_key `{Heap, Nss, Sys, Ssl, !SslLaws, !Pkcs11} be open_file open_fd has_get_string
    exit i s id pin file alias cert rsa c fuel :
  heap_never_fails -> sys_works -> pkcs11_entered exit i s -> pkcs11_options id pin file (g_nvp s) ->
  pkcs11_fits id cert pin -> certifies cert rsa -> opens id None pin c ->
  certificate_found (Some file) c cert -> pkcs11_loaded s i alias ->
  exists s', eval_loop (pkcs11_run be open_file open_fd) has_get_string (4 + fuel) PKCS11H_KEY_TOK_TOK s =
             eval_loop (pkcs11_run be open_file open_fd) has_get_string fuel exit s' /\
    g_foo s' = FooNull /\ g_mnt s' = Some (lit "ecryptfs_sig=" ++ rsa_sig_hex rsa) :: g_mnt s /\
    (g_keyring s !! rsa_sig_hex rsa = None ->
     g_keyring s' !! rsa_sig_hex rsa = Some (module_token alias (rsa_sig_hex rsa) (pkcs11_blob id cert pin))) /\
    (forall sig, sig <> rsa_sig_hex rsa \/ is_Some (g_keyring s !! sig) -> g_keyring s' !! sig = g_keyring s !! sig).
Proof.
  intros Hh Hs He Ho Hfit Hc Hop Hfound Hl.
  pose proof (visit_key_tok be open_file open_fd has_get_string exit i s id pin file Hh He Ho) as Hv1.
  destruct He as [_ [list Hid] Hpass Hx509 Hfoo]. destruct Ho as [Hn Hw _ [v1 Hu1] [v2 Hu2] [v3 Hu3] Hw1 Hw2 Hw3].
  set (s1 := at_node PKCS11H_KEY_TOK_TOK (lit "id") (g_nvp s) s) in *.
  destruct (at_node_other PKCS11H_KEY_TOK_TOK (lit "id") (g_nvp s) s) as (Hl1 & Hm1 & Hf1 & Hmods1 & Hk1 & _).
  fold s1 in Hl1, Hm1, Hf1, Hmods1, Hk1.
  assert (forall m, m <> PKCS11H_KEY_TOK_TOK -> g_nodes s1 !! m = g_nodes s !! m) as Hn1
    by (intros m Hm; unfold s1; by rewrite at_node_nodes, decide_False).
  destruct (visit_key_id be open_file open_fd has_get_string i s1 id list v1) as (l2 & Hus2 & Hv2);
    [done|by rewrite Hn1|by rewrite Hf1|by rewrite Hl1..|done|].
  rewrite Hl1 in Hus2. pose proof (uses_names _ _ _ Hus2) as Hnm2.
  set (s2 := stored PKCS11H_KEY_TOK_ID _ id l2 s1) in *.
  destruct (stored_rest PKCS11H_KEY_TOK_ID (FooModule i [Some id; None; None]) id l2 s1) as ((Hm2 & Hmods2 & Hk2 & _) & Hf2 & Hl2).
  fold s2 in Hm2, Hmods2, Hk2, Hf2, Hl2.
  assert (forall m, g_nodes s2 !! m = g_nodes s1 !! m) as Hn2
    by (intros m; apply (stored_nodes _ _ _ _ _ (set_suggested_val list pk_key_id_node)); [by rewrite Hn1|done]).
  destruct (visit_key_pass be open_file open_fd has_get_string i s2 id pin v2) as (l3 & Hus3 & Hv3);
    [done|by rewrite Hn2, Hn1|by rewrite Hf2|rewrite Hl2; by eapply uses_none
    |rewrite Hl2, Hnm2; apply Hw; by left|rewrite Hl2, (uses_others _ _ _ Hus2); done|done|].
  rewrite Hl2 in Hus3. pose proof (uses_names _ _ _ Hus3) as Hnm3.
  set (s3 := stored PKCS11H_KEY_TOK_DEFAULT_PASS _ pin l3 s2) in *.
  destruct (stored_rest PKCS11H_KEY_TOK_DEFAULT_PASS (FooModule i [Some id; None; Some pin]) pin l3 s2)
    as ((Hm3 & Hmods3 & Hk3 & _) & Hf3 & Hl3). fold s3 in Hm3, Hmods3, Hk3, Hf3, Hl3.
  assert (forall m, g_nodes s3 !! m = g_nodes s2 !! m) as Hn3
    by (intros m; apply (stored_nodes _ _ _ _ _ pk_defaultpass_node); [by rewrite Hn2, Hn1|done]).
  destruct (visit_key_x509 be open_file open_fd has_get_string exit i s3 alias id pin file v3 cert rsa c)
    as (s' & Hv4 & Hf4 & Hm4 & Hk4); [done..| |by rewrite Hn3, Hn2, Hn1|by rewrite Hf3
    |rewrite Hl3; by eapply uses_none, uses_none|rewrite Hl3, Hnm3, Hnm2; apply Hw; by left
    |by rewrite Hl3, (uses_others _ _ _ Hus3), (uses_others _ _ _ Hus2)|done|].
  { unfold pkcs11_loaded. by rewrite Hmods3, Hmods2, Hmods1. }
  exists s'. split.
  - cbn [Nat.add]. by rewrite (loop_next _ _ _ _ _ _ _ Hv1), (loop_next _ _ _ _ _ _ _ Hv2),
      (loop_next _ _ _ _ _ _ _ Hv3), (loop_next _ _ _ _ _ _ _ Hv4).
  - split; [done|]. rewrite Hm4, Hm3, Hm2, Hm1. split; [done|]. rewrite Hk4, Hk3, Hk2, Hk1.
    apply ensure_module_token_lookup.
Qed.

(** *** An instance *)
Definition sample_pkcs11_ops : ecryptfs_key_mod_ops :=
  (@ecryptfs_fill_in_dummy_ops
    (KeyModOps (Some (0, Some (lit "pkcs11-helper"))) None None None
       (Some ecryptfs_pkcs11h_get_param_subgraph_trans_node) None None
       (Some (fun blob => let '(rc, out) := of_outcome (- EFAULT, [])
                            (@ecryptfs_pkcs11h_get_key_sig plenty toy_ssl toy_pkcs11 (zeros 17) blob) in
                          (rc, if rc =? 0 then out else [])))
       None
       (Some (fun to from blob ty => of_outcome (- EFAULT, 0, [])
                (@ecryptfs_pkcs11h_encrypt toy_ssl toy_pkcs11 [] to 256 from blob ty)))
       (Some (fun to from blob ty => (of_outcome (- EFAULT, 0, [], false)
                (@ecryptfs_pkcs11h_decrypt plenty toy_ssl toy_pkcs11 false to 256 from blob ty)).1))
       None (Some 0))).2.
Definition sample_pkcs11_mod : ecryptfs_key_mod :=
  KeyModEntry (Some 1) (Some (lit "pkcs11-helper")) None sample_pkcs11_ops [] None 0.
Definition sample_pkcs11_state (opts : list (cstring * cstring)) : gstate :=
  set_nvp ((fun o => NVPair 0 (Some o.1) (Some o.2)) <$> opts)
    (set_foo (FooModule 0 [None; None; None])
      (set_nodes (<[PKCS11H_KEY_TOK_DEFAULT_X509_FILE := seal 999 pk_x509file_node]>
                  (<[PKCS11H_KEY_TOK_PASSWD := seal 999 pk_passwd_node]> pkcs11h_key_param_nodes))
        (set_mods [sample_pkcs11_mod] (fresh_state ∅ [])))).
Definition sample_pkcs11_options : list (cstring * cstring) :=
  [(lit "key", lit "pkcs11-helper"); (lit "id", lit "slot0/cert1"); (lit "defaultpass", lit "1234");
   (lit "x509file", lit "/user.pem")].

Lemma pkcs11_walk_adds_key_witness :
  let s := sample_pkcs11_state sample_pkcs11_options in
  let run := @pkcs11_run plenty toy_nss calm_sys toy_ssl toy_pkcs11 false (fun _ _ => inl ENOENT)
               (fun _ _ => (inl (- EIO), fun _ => None, [])) in
  let sig := @rsa_sig_hex toy_ssl toy_key in
  exists s', @eval_loop plenty run false (4 + 3) PKCS11H_KEY_TOK_TOK s = @eval_loop plenty run false 3 999 s' /\
    g_foo s' = FooNull /\ g_mnt s' = Some (lit "ecryptfs_sig=" ++ sig) :: g_mnt s /\
    (g_keyring s !! sig = None ->
     g_keyring s' !! sig = Some (module_token (lit "pkcs11-helper") sig
                                   (pkcs11_blob (lit "slot0/cert1") [48; 1; 2] (lit "1234")))) /\
    (forall sig', sig' <> sig \/ is_Some (g_keyring s !! sig') -> g_keyring s' !! sig' = g_keyring s !! sig').
Proof.
  apply (@pkcs11_walk_adds_key plenty toy_nss calm_sys toy_ssl toy_ssl_laws toy_pkcs11 false
    (fun _ _ => inl ENOENT) (fun _ _ => (inl (- EIO), fun _ => None, [])) false 999 0
    (sample_pkcs11_state sample_pkcs11_options) (lit "slot0/cert1") (lit "1234") (lit "/user.pem")
    (lit "pkcs11-helper") [48; 1; 2] toy_key (lit "slot0/cert1") 3).
  - done.
  - exact calm_sys_works.
  - split; [reflexivity|exists None; reflexivity|reflexivity..].
  - split; try (eexists; vm_compute; reflexivity); try (apply (bool_decide_unpack _); vm_compute; exact I).
    intros t Ht. unfold pkcs11_words in Ht.
    repeat (apply elem_of_cons in Ht as [->|Ht]; [apply (bool_decide_unpack _); vm_compute; exact I|]).
    by apply elem_of_nil in Ht.
  - exact toy_fits.
  - exact toy_certifies.
  - by eexists _, _.
  - by eexists.
  - exists sample_pkcs11_mod. split; [done|]. split; [done|]. split; [|done..].
    eexists. split; [done|]. intros blob rc out Ho. cbn beta. by rewrite Ho.
Defined.

(** A PIN given by the option [passwd] loses the key: the option leads to a
    node of its own, which stores the PIN and goes to the exit of the graph - the
    only node that adds the key is not visited.  The walk goes on without an
    error, without a mount option and without a token. *)
Theorem pkcs11_passwd_option_adds_no_key `{Heap, Nss, Sys, Ssl, !Pkcs11} be open_file open_fd
    has_get_string exit i s list id pin v1 v2 fuel :
  heap_never_fails -> g_nodes s !! PKCS11H_KEY_TOK_ID = Some (set_suggested_val list pk_key_id_node) ->
  g_nodes s !! PKCS11H_KEY_TOK_PASSWD = Some (seal exit pk_passwd_node) ->
  g_foo s = FooModule i [None; None; None] -> named (g_nvp s) -> Some (lit "default") ∉ option_names (g_nvp s) ->
  unused (lit "id") (g_nvp s) = Some id :: v1 -> unused (lit "passwd") (g_nvp s) = Some pin :: v2 ->
  id ∉ lit "(null)" :: pkcs11_words -> pin ∉ lit "(null)" :: pkcs11_words ->
  exists s', eval_loop (pkcs11_run be open_file open_fd) has_get_string (2 + fuel) PKCS11H_KEY_TOK_ID s =
             eval_loop (pkcs11_run be open_file open_fd) has_get_string fuel exit s' /\
    g_mnt s' = g_mnt s /\ g_keyring s' = g_keyring s /\ g_foo s' = FooModule i [Some id; None; Some pin].
Proof.
  intros Hh Hp1 Hp2 Hf Hn Hd Hu1 Hu2 Hid Hpin. set (run := pkcs11_run be open_file open_fd).
  assert (Some (lit "passwd") ∈ option_names (g_nvp s)) as Hin.
  { apply (unused_in_names _ (Some pin)). rewrite Hu2. by left. }
  set (tn := TransNode (Some (lit "passwd")) (Some []) (Some PKCS11H_KEY_TOK_PASSWD) (Some (TfModule TF_PKCS11H_KEY_ID))).
  destruct (visit_named run has_get_string PKCS11H_KEY_TOK_ID s (set_suggested_val list pk_key_id_node) (lit "id") tn
              (lit "passwd")) as (v & l & Htake & Hstep); try done.
  { rewrite Hu1. intros ->. apply Hid. by left. }
  { intros v l [(vs & Hv & _)|(Hv & _)]; [|congruence]. replace v with id by congruence. intros ->.
    apply Hid. right. right. by left. }
  destruct Htake as [(vs & Hv & _ & Huses)|(Hv & _)]; [|congruence]. replace v with id in Hstep by congruence.
  set (s2 := stored PKCS11H_KEY_TOK_ID (FooModule i [Some id; None; None]) id l s).
  destruct (stored_rest PKCS11H_KEY_TOK_ID (FooModule i [Some id; None; None]) id l s) as ((Hm2 & _ & Hk2 & _) & Hf2 & Hl2).
  fold s2 in Hm2, Hk2, Hf2, Hl2.
  assert (forall m, g_nodes s2 !! m = g_nodes s !! m) as Hn2
    by (intros m; by apply (stored_nodes _ _ _ _ _ (set_suggested_val list pk_key_id_node))).
  destruct (at_node_other PKCS11H_KEY_TOK_ID id l s) as (_ & _ & Hfoo & _).
  assert (eval_step run has_get_string PKCS11H_KEY_TOK_ID s = go (0, Some PKCS11H_KEY_TOK_PASSWD, s2)) as Hv1.
  { apply Hstep.
    - unfold tn. cbn [tn_trans_func]. unfold run. rewrite call_module. change (pkcs11h_tf be TF_PKCS11H_KEY_ID) with
        (fun node s => stays (tf_pkcs11h_key_id node s)). cbn beta.
      rewrite (tf_key_id_ok _ _ i None None id (set_val (Some id) (set_suggested_val list pk_key_id_node)));
        [done|done|by rewrite Hfoo| |done]. by rewrite at_node_nodes, decide_True, Hp1.
    - exists tn. split; [|done]. by eapply tn_after; [rewrite Hn2|..]. }
  destruct (visit_given be open_file open_fd has_get_string PKCS11H_KEY_TOK_PASSWD s2 (seal exit pk_passwd_node)
    (lit "passwd") 0 (seal_tn exit pk_pass_last) pin v2) as (l3 & Hus3 & Hstep3); try done.
  { by rewrite Hn2. }
  { rewrite Hl2. by eapply uses_none. }
  { by rewrite Hl2, (uses_others _ _ _ Huses). }
  { intros ->. apply Hpin. by left. }
  { intros t ->%list_elem_of_singleton. eexists. split_and!; [reflexivity| |].
    - intros ->. apply Hpin. right. by left.
    - by rewrite Hl2, (uses_names _ _ _ Huses). }
  { intros; lia. }
  set (s3 := stored PKCS11H_KEY_TOK_PASSWD (FooModule i [Some id; None; Some pin]) pin l3 s2).
  destruct (stored_rest PKCS11H_KEY_TOK_PASSWD (FooModule i [Some id; None; Some pin]) pin l3 s2) as ((Hm3 & _ & Hk3 & _) & Hf3 & _).
  exists s3. split.
  - cbn [Nat.add]. rewrite (loop_next _ _ _ _ _ _ _ Hv1). apply loop_next, Hstep3; [| |reflexivity].
    + change (tn_trans_func (seal_tn exit pk_pass_last)) with (Some (TfModule TF_PKCS11H_KEY_PASSWD)).
      rewrite call_module. change (pkcs11h_tf be TF_PKCS11H_KEY_PASSWD) with
        (fun node s => stays (tf_pkcs11h_key_passwd node s)). cbn beta.
      destruct (at_node_other PKCS11H_KEY_TOK_PASSWD pin l3 s2) as (_ & _ & Hfoo3 & _).
      rewrite (tf_key_passwd_ok _ _ i (Some id) None None (set_val (Some pin) (seal exit pk_passwd_node)));
        [done|done|by rewrite Hfoo3|]. by rewrite at_node_nodes, decide_True, Hn2, Hp2.
    + unfold s3. rewrite (stored_nodes _ _ _ _ _ (seal exit pk_passwd_node)); [by rewrite Hn2..|done].
  - unfold s3. by rewrite Hm3, Hk3, Hm2, Hk2, Hf3.
Qed.

Lemma pkcs11_passwd_option_adds_no_key_witness :
  let s := sample_pkcs11_state [(lit "key", lit "pkcs11-helper"); (lit "id", lit "slot0/cert1"); (lit "passwd", lit "1234")] in
  let run := @pkcs11_run plenty toy_nss calm_sys toy_ssl toy_pkcs11 false (fun _ _ => inl ENOENT)
               (fun _ _ => (inl (- EIO), fun _ => None, [])) in
  exists s', @eval_loop plenty run false (2 + 3) PKCS11H_KEY_TOK_ID s = @eval_loop plenty run false 3 999 s' /\
    g_mnt s' = g_mnt s /\ g_keyring s' = g_keyring s /\
    g_foo s' = FooModule 0 [Some (lit "slot0/cert1"); None; Some (lit "1234")].
Proof.
  apply (@pkcs11_passwd_option_adds_no_key plenty toy_nss calm_sys toy_ssl toy_pkcs11 false
    (fun _ _ => inl ENOENT) (fun _ _ => (inl (- EIO), fun _ => None, [])) false 999 0
    (sample_pkcs11_state [(lit "key", lit "pkcs11-helper"); (lit "id", lit "slot0/cert1"); (lit "passwd", lit "1234")])
    None (lit "slot0/cert1") (lit "1234") [] [] 3);
    first [done|reflexivity|apply (bool_decide_unpack _); vm_compute; exact I].
Defined.

(** An empty PIN, which the prompt offers for being asked by the token, becomes
    the PIN "(null)": the empty answer is replaced by the suggestion of the node,
    which has none, and the missing string is printed. *)
Theorem pkcs11_empty_pin_is_null_text `{Heap, Nss, Sys, Ssl, !Pkcs11} be open_file open_fd i s id input :
  heap_never_fails -> g_nodes s !! PKCS11H_KEY_TOK_DEFAULT_PASS = Some pk_defaultpass_node ->
  g_foo s = FooModule i [Some id; None; None] -> named (g_nvp s) -> Some (lit "default") ∉ option_names (g_nvp s) ->
  unused (lit "defaultpass") (g_nvp s) = [] -> g_input s = (0, Some []) :: input ->
  exists s', eval_step (pkcs11_run be open_file open_fd) true PKCS11H_KEY_TOK_DEFAULT_PASS s =
             go (0, Some PKCS11H_KEY_TOK_DEFAULT_X509_FILE, s') /\
    g_foo s' = FooModule i [Some id; None; Some (lit "(null)")] /\ g_input s' = input.
Proof.
  intros Hh Hp Hf Hn Hd Hu Hin.
  set (s0 := set_steps (S (g_steps s)) s). set (s1 := upd_node PKCS11H_KEY_TOK_DEFAULT_PASS (set_val None)
    (upd_node PKCS11H_KEY_TOK_DEFAULT_PASS (set_val (Some [])) (set_input input s0))).
  assert (alloc_and_get_val true PKCS11H_KEY_TOK_DEFAULT_PASS s0 = Ok (0, s1)) as Ha.
  { unfold alloc_and_get_val. rewrite (get_node_ok _ _ pk_defaultpass_node), bind_Ok by done.
    cbn [pn_val pk_defaultpass_node pk_pass_node].
    rewrite (retrieve_spent _ _ pk_defaultpass_node (lit "defaultpass")), bind_Ok by done.
    cbn [Z.eqb negb pn_default_val pk_defaultpass_node pk_pass_node andb].
    rewrite (get_node_ok _ _ pk_defaultpass_node), bind_Ok by done.
    change (has_flag (pn_flags pk_defaultpass_node) ECRYPTFS_ALLOW_IMPLICIT_TRANSITION) with false.
    cbn [andb mret outcome_ret]. rewrite bind_Ok. unfold ask_user.
    rewrite (get_node_ok _ _ pk_defaultpass_node), bind_Ok by done.
    change (has_flag (pn_flags pk_defaultpass_node) ECRYPTFS_PARAM_FLAG_NO_VALUE) with false.
    change (has_flag (pn_flags pk_defaultpass_node) STDIN_REQUIRED) with true.
    change (has_flag (pn_flags pk_defaultpass_node) DISPLAY_TRANSITION_NODE_VALS) with false.
    rewrite !andb_false_r. cbn [negb obtain_value].
    rewrite (get_node_ok _ _ pk_defaultpass_node), bind_Ok by done.
    unfold get_string. change (g_input s0) with (g_input s). rewrite Hh, Hin. cbn [negb Z.eqb deref_str mret outcome_ret].
    rewrite bind_Ok. reflexivity. }
  assert (g_nodes s1 !! PKCS11H_KEY_TOK_DEFAULT_PASS = Some pk_defaultpass_node) as Hp1
    by (unfold s1; cbn [g_nodes upd_node set_nodes set_input set_steps s0]; by rewrite !lookup_alter_eq, Hp).
  eexists. split.
  - unfold eval_step. fold s0. rewrite Ha. cbn [stays rbind Z.eqb negb].
    eapply (do_transition_default _ _ _ pk_defaultpass_node 0 _ DEFAULT_TOK); [done| |reflexivity|reflexivity|intros; lia| |done..|].
    + intros [|j] t Ht; [|done]. injection Ht as <-. by eapply quiet_names.
    + cbn [tn_trans_func]. rewrite call_module. change (pkcs11h_tf be TF_PKCS11H_KEY_PASSWD) with
        (fun node s => stays (tf_pkcs11h_key_passwd node s)). cbn beta.
      rewrite (tf_key_passwd_ok _ _ i (Some id) None None pk_defaultpass_node); [reflexivity|done| |by rewrite entered_nodes].
      by rewrite entered_foo.
    + exists (TransNode (Some (lit "default")) (Some (lit "Optional X.509 Certificate PEM file"))
        (Some PKCS11H_KEY_TOK_DEFAULT_X509_FILE) (Some (TfModule TF_PKCS11H_KEY_PASSWD))). split; [|reflexivity].
      eapply tn_after; [|exact (eq_refl (pn_tl pk_defaultpass_node))|reflexivity].
      rewrite (upd_node_lookup _ _ _ pk_defaultpass_node); [reflexivity|].
      cbn [g_nodes set_foo]. by rewrite entered_nodes.
  - split; [done|]. unfold entered. by case_match.
Qed.

Lemma pkcs11_empty_pin_is_null_text_witness :
  let s := set_input [(0, Some []); (0, Some (lit "/user.pem"))]
             (set_foo (FooModule 0 [Some (lit "slot0/cert1"); None; None]) (sample_pkcs11_state [])) in
  exists s', @eval_step plenty (@pkcs11_run plenty toy_nss calm_sys toy_ssl toy_pkcs11 false (fun _ _ => inl ENOENT)
               (fun _ _ => (inl (- EIO), fun _ => None, []))) true PKCS11H_KEY_TOK_DEFAULT_PASS s =
             go (0, Some PKCS11H_KEY_TOK_DEFAULT_X509_FILE, s') /\
    g_foo s' = FooModule 0 [Some (lit "slot0/cert1"); None; Some (lit "(null)")] /\ g_input s' = [(0, Some (lit "/user.pem"))].
Proof.
  apply (@pkcs11_empty_pin_is_null_text plenty toy_nss calm_sys toy_ssl toy_pkcs11 false (fun _ _ => inl ENOENT)
    (fun _ _ => (inl (- EIO), fun _ => None, [])) 0
    (set_input [(0, Some []); (0, Some (lit "/user.pem"))]
             (set_foo (FooModule 0 [Some (lit "slot0/cert1"); None; None]) (sample_pkcs11_state [])))
    (lit "slot0/cert1"));
    first [done|reflexivity|apply (bool_decide_unpack _); vm_compute; exact I].
Defined.
