(* ===== verification/Pkcs11Providers.v ===== *)
(** * The configuration of the PKCS#11 module:
    [src/key_mod/ecryptfs_key_mod_pkcs11_helper.c]

    When the module is loaded it walks two graphs over the options of
    [~/.ecryptfsrc.pkcs11]: one for the settings of the library, one that is a
    cycle and registers a provider each time round.  What the functions ask of
    pkcs11-helper is recorded in the calls of the state. *)

From S2P Require Import Prelude CLib Ecryptfs PassphraseSig KeyMod KeyPayload KeyManagement CmdLnParser DecisionGraph PassphraseGraph ModuleMgr Ssl Openssl Pkcs11 Visits.

(** ** The graphs *)
Definition PKCS11H_GLOBAL_TOK_LOGLEVEL : Z := 310.
Definition PKCS11H_GLOBAL_TOK_PINCACHE : Z := 311.
Definition PKCS11H_PROVIER_TOK_PROVIDER : Z := 320.
Definition PKCS11H_PROVIER_TOK_NAME : Z := 321.
Definition PKCS11H_PROVIER_TOK_LIBRARY : Z := 322.
Definition PKCS11H_PROVIER_TOK_PROT_AUTH : Z := 323.
Definition PKCS11H_PROVIER_TOK_CERT_PRIVATE : Z := 324.
Definition PKCS11H_PROVIER_TOK_PRIVATE_MASK : Z := 325.
Definition PKCS11H_PROVIER_TOK_END : Z := 326.

Definition TF_PKCS11H_GLOBAL_LOGLEVEL : Z := 34.
Definition TF_PKCS11H_GLOBAL_PINCACHE : Z := 35.
Definition TF_PKCS11H_PROVIDER : Z := 36.
Definition TF_PKCS11H_PROVIDER_NAME : Z := 37.
Definition TF_PKCS11H_PROVIDER_LIBRARY : Z := 38.
Definition TF_PKCS11H_PROVIDER_PROT_AUTH : Z := 39.
Definition TF_PKCS11H_PROVIDER_CERT_PRIVATE : Z := 40.
Definition TF_PKCS11H_PROVIDER_PRIVATE_MASK : Z := 41.
Definition TF_PKCS11H_PROVIDER_END : Z := 42.

(** A node with one name and one transition. *)
Definition pk_config_node (name prompt : cstring) (default : option cstring) (flags : Z)
    (tn : transition_node) : param_node :=
  ParamNode [name] (Some prompt) None default None flags [tn].
Definition pk_config_tn (val : option cstring) (next : option Z) (tf : Z) : transition_node :=
  TransNode val None next (Some (TfModule tf)).

Definition pk_loglevel_node : param_node :=
  pk_config_node (lit "pkcs11-log-level") (lit "PKCS#11 Log Level") (Some (lit "0"))
    ECRYPTFS_PARAM_FLAG_ECHO_INPUT (pk_config_tn None None TF_PKCS11H_GLOBAL_LOGLEVEL).
Definition pk_pincache_node : param_node :=
  pk_config_node (lit "pkcs11-pin-cache-timeout") (lit "PKCS#11 Log Level") (Some (lit "-1"))
    ECRYPTFS_PARAM_FLAG_ECHO_INPUT (pk_config_tn None None TF_PKCS11H_GLOBAL_PINCACHE).
Definition pkcs11h_global_param_nodes : gmap Z param_node :=
  <[PKCS11H_GLOBAL_TOK_LOGLEVEL := pk_loglevel_node]>
  (<[PKCS11H_GLOBAL_TOK_PINCACHE := pk_pincache_node]> ∅).

Definition pk_provider_node : param_node :=
  pk_config_node (lit "pkcs11-provider") (lit "PKCS#11 Provider") (Some [])
    (Z.lor DISPLAY_TRANSITION_NODE_VALS ECRYPTFS_PARAM_FLAG_ECHO_INPUT)
    (pk_config_tn (Some (lit "name")) (Some PKCS11H_PROVIER_TOK_NAME) TF_PKCS11H_PROVIDER).
Definition pk_name_node : param_node :=
  pk_config_node (lit "name") (lit "PKCS#11 Provider Alias") None ECRYPTFS_PARAM_FLAG_ECHO_INPUT
    (pk_config_tn (Some (lit "library")) (Some PKCS11H_PROVIER_TOK_LIBRARY) TF_PKCS11H_PROVIDER_NAME).
Definition pk_library_node : param_node :=
  pk_config_node (lit "library") (lit "PKCS#11 Library") None ECRYPTFS_PARAM_FLAG_ECHO_INPUT
    (pk_config_tn (Some (lit "default")) (Some PKCS11H_PROVIER_TOK_PROT_AUTH) TF_PKCS11H_PROVIDER_LIBRARY).
Definition pk_prot_auth_node : param_node :=
  pk_config_node (lit "allow-protected-auth") (lit "Allow Protected Authentication") (Some (lit "1"))
    (Z.lor ECRYPTFS_PARAM_FLAG_ECHO_INPUT ECRYPTFS_ALLOW_IMPLICIT_TRANSITION)
    (pk_config_tn (Some (lit "default")) (Some PKCS11H_PROVIER_TOK_CERT_PRIVATE) TF_PKCS11H_PROVIDER_PROT_AUTH).
Definition pk_cert_private_node : param_node :=
  pk_config_node (lit "cert-private") (lit "Certificate is private object") (Some (lit "0"))
    ECRYPTFS_PARAM_FLAG_ECHO_INPUT
    (pk_config_tn (Some (lit "default")) (Some PKCS11H_PROVIER_TOK_PRIVATE_MASK) TF_PKCS11H_PROVIDER_CERT_PRIVATE).
Definition pk_private_mask_node : param_node :=
  pk_config_node (lit "private-mask") (lit "Private Key Mask") (Some (lit "0")) ECRYPTFS_PARAM_FLAG_ECHO_INPUT
    (pk_config_tn (Some (lit "default")) (Some PKCS11H_PROVIER_TOK_END) TF_PKCS11H_PROVIDER_PRIVATE_MASK).
Definition pk_end_node : param_node :=
  pk_config_node (lit "dummy") [] (Some []) ECRYPTFS_PARAM_FLAG_ECHO_INPUT
    (pk_config_tn (Some (lit "default")) (Some PKCS11H_PROVIER_TOK_PROVIDER) TF_PKCS11H_PROVIDER_END).

Definition pkcs11h_provider_param_nodes : gmap Z param_node :=
  <[PKCS11H_PROVIER_TOK_PROVIDER := pk_provider_node]>
  (<[PKCS11H_PROVIER_TOK_NAME := pk_name_node]>
  (<[PKCS11H_PROVIER_TOK_LIBRARY := pk_library_node]>
  (<[PKCS11H_PROVIER_TOK_PROT_AUTH := pk_prot_auth_node]>
  (<[PKCS11H_PROVIER_TOK_CERT_PRIVATE := pk_cert_private_node]>
  (<[PKCS11H_PROVIER_TOK_PRIVATE_MASK := pk_private_mask_node]>
  (<[PKCS11H_PROVIER_TOK_END := pk_end_node]> ∅)))))).

(** ** The functions of the graphs *)

(** [struct pkcs11h_subgraph_provider_ctx]. *)
Record pkcs11h_provider_ctx := ProviderCtx {
  pc_name : option cstring;
  pc_library : option cstring;
  pc_allow_protected_authentication : Z;
  pc_certificate_is_private : Z;
  pc_private_mask : Z
}.

(** [sscanf(s, "%x", &old)]: nothing is stored where no digit is found. *)
Definition sscanf_x (s : cstring) (old : Z) : Z :=
  if strtol_converts 16 s then u32 (strtoul 16 s) else old.

(** What the functions ask of the library. *)
Definition set_log_level (level : Z) : library_call := LibraryCall (lit "pkcs11h_setLogLevel") [] [level].
Definition set_pin_cache_period (period : Z) : library_call :=
  LibraryCall (lit "pkcs11h_setPINCachePeriod") [] [period].
Definition add_provider (c : pkcs11h_provider_ctx) : library_call :=
  LibraryCall (lit "pkcs11h_addProvider") [pc_name c; pc_library c]
    [Z.b2z (negb (pc_allow_protected_authentication c =? 0)); pc_private_mask c;
     Z.b2z (negb (pc_certificate_is_private c =? 0))].

Section Transitions.
Context `{Heap}.

Definition tf_pkcs11h_global_loglevel (node : Z) (s : gstate) : outcome (Z * gstate) :=
  p ← get_node s node;
  v ← deref_str (pn_val p);
  mret (DEFAULT_TOK, upd_node node (set_val None) (add_call (set_log_level (atoi v)) s)).

Definition tf_pkcs11h_global_pincache (node : Z) (s : gstate) : outcome (Z * gstate) :=
  p ← get_node s node;
  v ← deref_str (pn_val p);
  mret (DEFAULT_TOK, upd_node node (set_val None) (add_call (set_pin_cache_period (atoi v)) s)).

(** [*foo] as [struct pkcs11h_subgraph_provider_ctx]. *)
Definition provider_ctx (s : gstate) : outcome pkcs11h_provider_ctx :=
  match g_foo s with
  | FooNull => UB NullDeref
  | FooFreed => UB UseAfterFree
  | FooProvider [name; library] [prot; cert; mask] => mret (ProviderCtx name library prot cert mask)
  | _ => UB TypeConfusion
  end.
Definition set_provider_ctx (c : pkcs11h_provider_ctx) : gstate -> gstate :=
  set_foo (FooProvider [pc_name c; pc_library c]
             [pc_allow_protected_authentication c; pc_certificate_is_private c; pc_private_mask c]).

(** The memory for a context is that of a larger one, cleared. *)
Definition tf_pkcs11h_provider (node : Z) (s : gstate) : outcome (Z * gstate) :=
  if negb (alloc_ok 70969 (g_steps s)) then mret (- ENOMEM, s)
  else mret (DEFAULT_TOK, upd_node node (set_val None) (set_provider_ctx (ProviderCtx None None 0 0 0) s)).

Definition tf_pkcs11h_provider_name (node : Z) (s : gstate) : outcome (Z * gstate) :=
  c ← provider_ctx s;
  p ← get_node s node;
  if negb (alloc_ok 70990 (g_steps s)) then mret (- ENOMEM, s)
  else
    let c := ProviderCtx (Some (show_str (pn_val p))) (pc_library c)
               (pc_allow_protected_authentication c) (pc_certificate_is_private c) (pc_private_mask c) in
    mret (DEFAULT_TOK, upd_node node (set_val None) (set_provider_ctx c s)).

Definition tf_pkcs11h_provider_library (node : Z) (s : gstate) : outcome (Z * gstate) :=
  c ← provider_ctx s;
  p ← get_node s node;
  if negb (alloc_ok 71008 (g_steps s)) then mret (- ENOMEM, s)
  else
    let c := ProviderCtx (pc_name c) (Some (show_str (pn_val p)))
               (pc_allow_protected_authentication c) (pc_certificate_is_private c) (pc_private_mask c) in
    mret (DEFAULT_TOK, upd_node node (set_val None) (set_provider_ctx c s)).

Definition tf_pkcs11h_provider_prot_auth (node : Z) (s : gstate) : outcome (Z * gstate) :=
  c ← provider_ctx s;
  p ← get_node s node;
  v ← deref_str (pn_val p);
  let c := ProviderCtx (pc_name c) (pc_library c)
             (sscanf_x v (pc_allow_protected_authentication c)) (pc_certificate_is_private c) (pc_private_mask c) in
  mret (DEFAULT_TOK, upd_node node (set_val None) (set_provider_ctx c s)).

Definition tf_pkcs11h_provider_cert_private (node : Z) (s : gstate) : outcome (Z * gstate) :=
  c ← provider_ctx s;
  p ← get_node s node;
  v ← deref_str (pn_val p);
  let c := ProviderCtx (pc_name c) (pc_library c) (pc_allow_protected_authentication c)
             (sscanf_x v (pc_certificate_is_private c)) (pc_private_mask c) in
  mret (DEFAULT_TOK, upd_node node (set_val None) (set_provider_ctx c s)).

Definition tf_pkcs11h_provider_private_mask (node : Z) (s : gstate) : outcome (Z * gstate) :=
  c ← provider_ctx s;
  p ← get_node s node;
  v ← deref_str (pn_val p);
  let c := ProviderCtx (pc_name c) (pc_library c) (pc_allow_protected_authentication c)
             (pc_certificate_is_private c) (sscanf_x v (pc_private_mask c)) in
  mret (DEFAULT_TOK, upd_node node (set_val None) (set_provider_ctx c s)).

(** A provider that the library refuses is logged; the value of the node stays. *)
Definition tf_pkcs11h_provider_end (node : Z) (s : gstate) : outcome (Z * gstate) :=
  c ← provider_ctx s;
  mret (DEFAULT_TOK, set_foo FooNull (add_call (add_provider c) s)).

Definition pkcs11h_config_tf (f : trans_fn) (node : Z) (s : gstate) : running (Z * gstate) :=
  match f with
  | TfModule f =>
      if f =? TF_PKCS11H_GLOBAL_LOGLEVEL then stays (tf_pkcs11h_global_loglevel node s)
      else if f =? TF_PKCS11H_GLOBAL_PINCACHE then stays (tf_pkcs11h_global_pincache node s)
      else if f =? TF_PKCS11H_PROVIDER then stays (tf_pkcs11h_provider node s)
      else if f =? TF_PKCS11H_PROVIDER_NAME then stays (tf_pkcs11h_provider_name node s)
      else if f =? TF_PKCS11H_PROVIDER_LIBRARY then stays (tf_pkcs11h_provider_library node s)
      else if f =? TF_PKCS11H_PROVIDER_PROT_AUTH then stays (tf_pkcs11h_provider_prot_auth node s)
      else if f =? TF_PKCS11H_PROVIDER_CERT_PRIVATE then stays (tf_pkcs11h_provider_cert_private node s)
      else if f =? TF_PKCS11H_PROVIDER_PRIVATE_MASK then stays (tf_pkcs11h_provider_private_mask node s)
      else if f =? TF_PKCS11H_PROVIDER_END then stays (tf_pkcs11h_provider_end node s)
      else UB NullDeref
  | _ => UB NullDeref
  end.

(** ** Reading the file *)

(** The context of the walk is local: no user to ask, no key modules; the nodes,
    the static variables and the library stay changed. *)
Definition own_context (l : list ecryptfs_name_val_pair) (s : gstate) : gstate :=
  set_foo FooNull (set_verbosity 0 (set_mods [] (set_mnt [None] (set_nvp l s)))).
Definition leave_context (s s' : gstate) : gstate :=
  set_foo (g_foo s) (set_verbosity (g_verbosity s) (set_mods (g_mods s) (set_mnt (g_mnt s) (set_nvp (g_nvp s) s')))).

(** The code and the state; [None] when the walk does not end.  The code of the
    parser is overwritten. *)
Definition ecryptfs_pkcs11h_parse_file (pw_dir : option cstring)
    (open : cstring -> Z + descriptor) (fuel : nat) (param_nodes : Z) (s : gstate)
    : outcome (option (Z * gstate)) :=
  match pw_dir with
  | None => mret (Some (- EIO, s))
  | Some home =>
      if negb (alloc_ok 71563 (g_steps s)) then mret (Some (- ENOMEM, s))
      else match open (home ++ lit "/.ecryptfsrc.pkcs11") with
      | inl errno => mret (Some (- errno, s))
      | inr (fstat, read_errno, input) =>
          if negb (alloc_ok 71576 (g_steps s)) then mret (Some (- ENOMEM, s))
          else
            '(_, l) ← parse_options_file fstat read_errno input;
            r ← ecryptfs_eval_decision_graph pkcs11h_config_tf false fuel param_nodes (own_context l s);
            match r with
            | OutOfFuel => mret None
            | Exited => mret None
            | Returned _ s' => mret (Some (0, leave_context s s'))
            end
      end
  end.

(** The calls of the library that have a result. *)
Record pkcs11h_setup := Pkcs11hSetup {
  ps_initialize : bool;
  ps_setLogHook : bool;
  ps_setTokenPromptHook : bool;
  ps_setPINPromptHook : bool;
  ps_setProtectedAuthentication : bool
}.

(** The code, the alias and the state; [PKCS11H_LOG_QUIET] is a constant of the
    library. *)
Definition ecryptfs_pkcs11h_init (PKCS11H_LOG_QUIET : Z) (w : pkcs11h_setup) (pw_dir : option cstring)
    (open : cstring -> Z + descriptor) (fuel : nat) (s : gstate)
    : outcome (option (Z * option cstring * gstate)) :=
  let alias := Some (lit "pkcs11-helper") in
  let eio s := mret (Some (- EIO, alias, s)) in
  if negb (alloc_ok 71611 0) then mret (Some (- ENOMEM, None, s))
  else if negb (ps_initialize w) then eio s
  else if negb (ps_setLogHook w) then eio s
  else
    r ← ecryptfs_pkcs11h_parse_file pw_dir open fuel PKCS11H_GLOBAL_TOK_LOGLEVEL
          (add_call (set_log_level PKCS11H_LOG_QUIET) s);
    match r with
    | None => mret None
    | Some (_, s) =>
        if negb (ps_setTokenPromptHook w) then eio s
        else if negb (ps_setPINPromptHook w) then eio s
        else if negb (ps_setProtectedAuthentication w) then eio s
        else
          r ← ecryptfs_pkcs11h_parse_file pw_dir open fuel PKCS11H_PROVIER_TOK_PROVIDER s;
          mret (match r with None => None | Some (_, s) => Some (0, alias, s) end)
    end.

(** Unloading: the suggestion is freed, the pointer stays. *)
Definition ecryptfs_pkcs11h_finalize : Z := 0.
End Transitions.

(** ** Lemmas *)
Section Lemmas.
Context `{Heap}.

(** What a node makes of the unused options of its name. *)
Definition value_of (d : option cstring) (values : list (option cstring)) : option cstring :=
  match values with [] => d | v :: _ => v end.

(** A visit of a node: it takes its value, and its function stores it. *)
Lemma visit_config b s node nm pr d fl t next tf v :
  let p := pk_config_node nm pr d fl (pk_config_tn (Some t) (Some next) tf) in
  heap_never_fails -> g_nodes s !! node = Some p -> simple_node p = true -> named (g_nvp s) ->
  value_of d (unused nm (g_nvp s)) = Some v -> v ∉ [lit "(null)"; lit "NULL"; t] ->
  (if decide (t = lit "default") then Some t ∉ option_names (g_nvp s) else Some t ∈ option_names (g_nvp s)) ->
  exists l, option_names l = option_names (g_nvp s) /\ unused nm l = tail (unused nm (g_nvp s)) /\
    (forall x, x <> nm -> unused x l = unused x (g_nvp s)) /\
    forall s', pkcs11h_config_tf (TfModule tf) node (at_node node v l s) = go (DEFAULT_TOK, s') ->
      (exists q, g_nodes s' !! node = Some q /\ pn_tl q = pn_tl p) ->
      eval_step pkcs11h_config_tf b node s = go (0, Some next, s').
Proof.
  intros p Hh Hp Hs Hn Hval Hv Ht.
  assert (match unused nm (g_nvp s) with
          | Some v :: _ => v <> lit "(null)"
          | None :: _ => False
          | [] => is_Some (pn_default_val p) /\ pn_default_val p <> Some (lit "NULL") end) as Hu.
  { destruct (unused nm (g_nvp s)) as [|[x|] vs]; cbn [value_of] in Hval; [|injection Hval as ->|done].
    - subst d. split; [by eexists|]. intros [= ->]. apply Hv. right. by left.
    - intros ->. apply Hv. by left. }
  assert (forall v' l, takes_value p nm (g_nvp s) v' l -> v' = v /\ option_names l = option_names (g_nvp s) /\
            unused nm l = tail (unused nm (g_nvp s)) /\ forall x, x <> nm -> unused x l = unused x (g_nvp s)) as Htake.
  { intros v' l [(vs & Hus & _ & [Hnm Hf Ho])|(Hus & Hd & _ & ->)]; rewrite Hus in Hval; cbn [value_of] in Hval.
    - by injection Hval as ->.
    - change (d = Some v') in Hd. rewrite Hus. split; [congruence|]. done. }
  assert (v <> t) as Hvt by (intros ->; apply Hv; right; right; by left).
  set (tn := pk_config_tn (Some t) (Some next) tf). destruct (decide (t = lit "default")) as [Hd|Hd].
  - destruct (visit_default pkcs11h_config_tf b node s p nm 0 tn) as (v' & l & (-> & Hnm & Hf & Ho)%Htake & Hstep); try done.
    + intros v' l t' (-> & _)%Htake ->%list_elem_of_singleton. by exists t.
    + by rewrite <- Hd.
    + intros; lia.
    + exists l. split_and!; [done..|]. intros s' Hc (q & Hq & Htl). eapply Hstep; [exact Hc|done..|].
      exists tn. split; [|done]. by eapply tn_after.
  - destruct (visit_named pkcs11h_config_tf b node s p nm tn t) as (v' & l & (-> & Hnm & Hf & Ho)%Htake & Hstep); try done.
    + by intros v' l (-> & _)%Htake.
    + exists l. split_and!; [done..|]. intros s' Hc (q & Hq & Htl). eapply Hstep; [exact Hc|].
      exists tn. split; [|done]. by eapply tn_after.
Qed.

(** The functions, called at their nodes. *)
Lemma provider_start_ok node v l s :
  heap_never_fails ->
  pkcs11h_config_tf (TfModule TF_PKCS11H_PROVIDER) node (at_node node v l s) =
  go (DEFAULT_TOK, stored node (FooProvider [None; None] [0; 0; 0]) v l s).
Proof.
  intros Hh. change (pkcs11h_config_tf (TfModule TF_PKCS11H_PROVIDER))
    with (fun node s => stays (tf_pkcs11h_provider node s)). cbn beta.
  unfold tf_pkcs11h_provider. by rewrite Hh.
Qed.

Definition step_name (c : pkcs11h_provider_ctx) (v : cstring) : pkcs11h_provider_ctx :=
  ProviderCtx (Some v) (pc_library c) (pc_allow_protected_authentication c)
    (pc_certificate_is_private c) (pc_private_mask c).
Definition step_library (c : pkcs11h_provider_ctx) (v : cstring) : pkcs11h_provider_ctx :=
  ProviderCtx (pc_name c) (Some v) (pc_allow_protected_authentication c)
    (pc_certificate_is_private c) (pc_private_mask c).
Definition step_prot_auth (c : pkcs11h_provider_ctx) (v : cstring) : pkcs11h_provider_ctx :=
  ProviderCtx (pc_name c) (pc_library c) (sscanf_x v (pc_allow_protected_authentication c))
    (pc_certificate_is_private c) (pc_private_mask c).
Definition step_cert_private (c : pkcs11h_provider_ctx) (v : cstring) : pkcs11h_provider_ctx :=
  ProviderCtx (pc_name c) (pc_library c) (pc_allow_protected_authentication c)
    (sscanf_x v (pc_certificate_is_private c)) (pc_private_mask c).
Definition step_private_mask (c : pkcs11h_provider_ctx) (v : cstring) : pkcs11h_provider_ctx :=
  ProviderCtx (pc_name c) (pc_library c) (pc_allow_protected_authentication c)
    (pc_certificate_is_private c) (sscanf_x v (pc_private_mask c)).
Definition foo_of (c : pkcs11h_provider_ctx) : subgraph :=
  FooProvider [pc_name c; pc_library c]
    [pc_allow_protected_authentication c; pc_certificate_is_private c; pc_private_mask c].

(** The function and what it does to the context. *)
Definition provider_steps : list (Z * (pkcs11h_provider_ctx -> cstring -> pkcs11h_provider_ctx)) :=
  [(TF_PKCS11H_PROVIDER_NAME, step_name); (TF_PKCS11H_PROVIDER_LIBRARY, step_library);
   (TF_PKCS11H_PROVIDER_PROT_AUTH, step_prot_auth); (TF_PKCS11H_PROVIDER_CERT_PRIVATE, step_cert_private);
   (TF_PKCS11H_PROVIDER_PRIVATE_MASK, step_private_mask)].

Lemma provider_step_ok tf f node v l s c p :
  heap_never_fails -> (tf, f) ∈ provider_steps -> g_foo s = foo_of c -> g_nodes s !! node = Some p ->
  pkcs11h_config_tf (TfModule tf) node (at_node node v l s) =
  go (DEFAULT_TOK, stored node (foo_of (f c v)) v l s).
Proof.
  intros Hh Hin Hf Hp. destruct (at_node_other node v l s) as (_ & _ & Hfoo & _).
  assert (provider_ctx (at_node node v l s) = Ok c) as Hc
    by (unfold provider_ctx; rewrite Hfoo, Hf; by destruct c).
  assert (get_node (at_node node v l s) node = Ok (set_val (Some v) p)) as Hn
    by (apply get_node_ok; by rewrite at_node_nodes, decide_True, Hp).
  unfold provider_steps in Hin. repeat (apply elem_of_cons in Hin as [[= -> ->]|Hin]); [..|by apply elem_of_nil in Hin].
  - change (pkcs11h_config_tf (TfModule TF_PKCS11H_PROVIDER_NAME))
      with (fun node s => stays (tf_pkcs11h_provider_name node s)). cbn beta.
    unfold tf_pkcs11h_provider_name. by rewrite Hc, bind_Ok, Hn, bind_Ok, Hh.
  - change (pkcs11h_config_tf (TfModule TF_PKCS11H_PROVIDER_LIBRARY))
      with (fun node s => stays (tf_pkcs11h_provider_library node s)). cbn beta.
    unfold tf_pkcs11h_provider_library. by rewrite Hc, bind_Ok, Hn, bind_Ok, Hh.
  - change (pkcs11h_config_tf (TfModule TF_PKCS11H_PROVIDER_PROT_AUTH))
      with (fun node s => stays (tf_pkcs11h_provider_prot_auth node s)). cbn beta.
    unfold tf_pkcs11h_provider_prot_auth. by rewrite Hc, bind_Ok, Hn, bind_Ok.
  - change (pkcs11h_config_tf (TfModule TF_PKCS11H_PROVIDER_CERT_PRIVATE))
      with (fun node s => stays (tf_pkcs11h_provider_cert_private node s)). cbn beta.
    unfold tf_pkcs11h_provider_cert_private. by rewrite Hc, bind_Ok, Hn, bind_Ok.
  - change (pkcs11h_config_tf (TfModule TF_PKCS11H_PROVIDER_PRIVATE_MASK))
      with (fun node s => stays (tf_pkcs11h_provider_private_mask node s)). cbn beta.
    unfold tf_pkcs11h_provider_private_mask. by rewrite Hc, bind_Ok, Hn, bind_Ok.
Qed.

(** From one state to the next, over a node that used an option of its name. *)
Record advanced (nm : cstring) (s s' : gstate) : Prop := Advanced {
  ad_nodes m : g_nodes s' !! m = g_nodes s !! m;
  ad_names : option_names (g_nvp s') = option_names (g_nvp s);
  ad_first : unused nm (g_nvp s') = tail (unused nm (g_nvp s));
  ad_others x : x <> nm -> unused x (g_nvp s') = unused x (g_nvp s);
  ad_kept : kept s s'
}.

Lemma config_step b s node nm pr d fl t next tf v foo :
  let p := pk_config_node nm pr d fl (pk_config_tn (Some t) (Some next) tf) in
  heap_never_fails -> g_nodes s !! node = Some p -> simple_node p = true -> named (g_nvp s) ->
  value_of d (unused nm (g_nvp s)) = Some v -> v ∉ [lit "(null)"; lit "NULL"; t] ->
  (if decide (t = lit "default") then Some t ∉ option_names (g_nvp s) else Some t ∈ option_names (g_nvp s)) ->
  (forall l, pkcs11h_config_tf (TfModule tf) node (at_node node v l s) = go (DEFAULT_TOK, stored node foo v l s)) ->
  exists s', eval_step pkcs11h_config_tf b node s = go (0, Some next, s') /\ advanced nm s s' /\ g_foo s' = foo.
Proof.
  intros p Hh Hp Hs Hn Hval Hv Ht Hcall.
  destruct (visit_config b s node nm pr d fl t next tf v Hh Hp Hs Hn Hval Hv Ht) as (l & Hnm & Hf & Ho & Hstep).
  exists (stored node foo v l s). destruct (stored_rest node foo v l s) as (Hk & Hfoo & Hl).
  assert (forall m, g_nodes (stored node foo v l s) !! m = g_nodes s !! m) as Hnodes
    by (intros m; by apply (stored_nodes _ _ _ _ _ p)).
  split; [apply Hstep; [apply Hcall|]|].
  { exists p. by rewrite Hnodes. }
  split; [|done]. by split; rewrite ?Hl.
Qed.

Lemma provider_step b s node nm pr d fl t next tf f c v :
  let p := pk_config_node nm pr d fl (pk_config_tn (Some t) (Some next) tf) in
  heap_never_fails -> g_nodes s !! node = Some p -> simple_node p = true -> named (g_nvp s) ->
  value_of d (unused nm (g_nvp s)) = Some v -> v ∉ [lit "(null)"; lit "NULL"; t] ->
  (if decide (t = lit "default") then Some t ∉ option_names (g_nvp s) else Some t ∈ option_names (g_nvp s)) ->
  (tf, f) ∈ provider_steps -> g_foo s = foo_of c ->
  exists s', eval_step pkcs11h_config_tf b node s = go (0, Some next, s') /\ advanced nm s s' /\
    g_foo s' = foo_of (f c v).
Proof.
  intros p Hh Hp Hs Hn Hval Hv Ht Hin Hf. apply (config_step b s node nm pr d fl t next tf v); try done.
  intros l. by apply (provider_step_ok tf f node v l s c p).
Qed.

(** The last node keeps its value, the empty string. *)
Definition end_node (p : option param_node) : Prop :=
  exists v, p = Some (set_val v pk_end_node) /\ (v = None \/ v = Some []).

Lemma visit_end b s c :
  heap_never_fails -> end_node (g_nodes s !! PKCS11H_PROVIER_TOK_END) -> named (g_nvp s) ->
  unused (lit "dummy") (g_nvp s) = [] -> Some (lit "default") ∉ option_names (g_nvp s) -> g_foo s = foo_of c ->
  exists s', eval_step pkcs11h_config_tf b PKCS11H_PROVIER_TOK_END s = go (0, Some PKCS11H_PROVIER_TOK_PROVIDER, s') /\
    (forall m, m <> PKCS11H_PROVIER_TOK_END -> g_nodes s' !! m = g_nodes s !! m) /\
    end_node (g_nodes s' !! PKCS11H_PROVIER_TOK_END) /\ g_nvp s' = g_nvp s /\
    g_calls s' = g_calls s ++ [add_provider c] /\ g_verbosity s' = g_verbosity s.
Proof.
  intros Hh (v0 & Hp & Hv0) Hn Hu Hd Hf. set (node := PKCS11H_PROVIER_TOK_END).
  set (s0 := set_steps (S (g_steps s)) s). set (s1 := upd_node node (set_val (Some [])) s0).
  assert (g_nodes s1 !! node = Some (set_val (Some []) pk_end_node)) as Hp1
    by (unfold s1; rewrite (upd_node_lookup _ _ _ (set_val v0 pk_end_node)) by done; by destruct v0).
  assert (exists s2, alloc_and_get_val b node s0 = Ok (0, s2) /\ g_nodes s2 !! node = Some (set_val (Some []) pk_end_node) /\
    (forall m, m <> node -> g_nodes s2 !! m = g_nodes s !! m) /\ g_nvp s2 = g_nvp s /\ g_foo s2 = g_foo s /\
    g_calls s2 = g_calls s /\ g_verbosity s2 = g_verbosity s) as (s2 & Ha & Hp2 & Hn2 & Hl2 & Hf2 & Hc2 & Hvb2).
  { destruct Hv0 as [-> | ->].
    - exists s1. split.
      + apply (get_val_retrieved b node s0 s1 pk_end_node (set_val (Some []) pk_end_node)); try done.
        rewrite (retrieve_spent node s0 pk_end_node (lit "dummy")); done.
      + split; [done|]. split; [|done]. intros m Hm. unfold s1. cbn. by rewrite lookup_alter_ne.
    - exists s0. split; [|done]. unfold alloc_and_get_val.
      by rewrite (get_node_ok _ _ (set_val (Some []) pk_end_node)), bind_Ok. }
  exists (set_foo FooNull (add_call (add_provider c) (entered node s2))). split.
  - unfold eval_step. fold s0. rewrite Ha. cbn [stays rbind Z.eqb negb].
    eapply (do_transition_default _ _ _ (set_val (Some []) pk_end_node) 0 _ DEFAULT_TOK); [done| |reflexivity|reflexivity|intros; lia| |done..|].
    + intros [|j] t Ht; [|done]. injection Ht as <-. apply (quiet_names _ _ _ (lit "default")); rewrite ?Hl2; done.
    + change (call_tf pkcs11h_config_tf _ NULL_TOK node (entered node s2))
        with (stays (tf_pkcs11h_provider_end node (entered node s2))).
      unfold tf_pkcs11h_provider_end.
      assert (provider_ctx (entered node s2) = Ok c) as ->; [|done].
      unfold provider_ctx. rewrite entered_foo, Hf2, Hf. by destruct c.
    + exists (pk_config_tn (Some (lit "default")) (Some PKCS11H_PROVIER_TOK_PROVIDER) TF_PKCS11H_PROVIDER_END).
      split; [|done]. apply (tn_after _ _ (set_val (Some []) pk_end_node) pk_end_node); [|done..].
      cbn [g_nodes set_foo add_call]. by rewrite entered_nodes.
  - cbn [g_nodes set_foo add_call g_nvp g_calls g_verbosity]. rewrite entered_nodes. split; [done|].
    split; [rewrite Hp2; exists (Some []); auto|]. rewrite entered_nvp, entered_calls, entered_verbosity.
    by rewrite Hc2.
Qed.

(** ** The cycle *)
Definition provider_defaults : list cstring :=
  [lit "pkcs11-provider"; lit "allow-protected-auth"; lit "cert-private"; lit "private-mask"; lit "dummy"].
Definition cycle_nodes : list (Z * param_node) :=
  [(PKCS11H_PROVIER_TOK_PROVIDER, pk_provider_node); (PKCS11H_PROVIER_TOK_NAME, pk_name_node);
   (PKCS11H_PROVIER_TOK_LIBRARY, pk_library_node); (PKCS11H_PROVIER_TOK_PROT_AUTH, pk_prot_auth_node);
   (PKCS11H_PROVIER_TOK_CERT_PRIVATE, pk_cert_private_node);
   (PKCS11H_PROVIER_TOK_PRIVATE_MASK, pk_private_mask_node)].

(** The graph between two providers: only names and libraries are left. *)
Record config_state (s : gstate) : Prop := ConfigState {
  cs_nodes n p : (n, p) ∈ cycle_nodes -> g_nodes s !! n = Some p;
  cs_end : end_node (g_nodes s !! PKCS11H_PROVIER_TOK_END);
  cs_named : named (g_nvp s);
  cs_default : Some (lit "default") ∉ option_names (g_nvp s);
  cs_unset t : t ∈ provider_defaults -> unused t (g_nvp s) = []
}.

Lemma named_advanced nm s s' : advanced nm s s' -> named (g_nvp s) -> named (g_nvp s').
Proof. intros Ha. rewrite !named_names. by rewrite (ad_names _ _ _ Ha). Qed.

Lemma config_state_advanced nm s s' : advanced nm s s' -> config_state s -> config_state s'.
Proof.
  intros Ha [Hn He Hnm Hd Hu]. split.
  - intros n p Hin. rewrite (ad_nodes _ _ _ Ha). by apply Hn.
  - by rewrite (ad_nodes _ _ _ Ha).
  - by eapply named_advanced.
  - by rewrite (ad_names _ _ _ Ha).
  - intros t Ht. destruct (decide (t = nm)) as [->|Hne].
    + by rewrite (ad_first _ _ _ Ha), Hu.
    + by rewrite (ad_others _ _ _ Ha), Hu.
Qed.

Definition provider_of (name library : cstring) : library_call :=
  add_provider (ProviderCtx (Some name) (Some library) 1 0 0).

(** A node that is left to its default. *)
Lemma unset_step b s node nm pr d fl next tf f c :
  heap_never_fails -> config_state s ->
  (node, pk_config_node nm pr (Some d) fl (pk_config_tn (Some (lit "default")) (Some next) tf)) ∈ cycle_nodes ->
  simple_node (pk_config_node nm pr (Some d) fl (pk_config_tn (Some (lit "default")) (Some next) tf)) = true ->
  nm ∈ provider_defaults -> d ∉ [lit "(null)"; lit "NULL"; lit "default"] -> (tf, f) ∈ provider_steps ->
  g_foo s = foo_of c ->
  exists s', eval_step pkcs11h_config_tf b node s = go (0, Some next, s') /\ advanced nm s s' /\
    config_state s' /\ g_foo s' = foo_of (f c d).
Proof.
  intros Hh Hs Hin Hsim Hnm Hd Hf Hfoo.
  destruct (provider_step b s node nm pr (Some d) fl (lit "default") next tf f c d) as (s' & He & Ha & Hf'); try done.
  - by apply Hs.
  - apply Hs.
  - by rewrite (cs_unset _ Hs).
  - rewrite decide_True by done. apply Hs.
  - exists s'. split_and!; try done. by eapply config_state_advanced.
Qed.

(** From the library on, everything is left to its default. *)
Lemma provider_rest b fuel s c :
  heap_never_fails -> config_state s -> g_foo s = foo_of c ->
  exists s', eval_loop pkcs11h_config_tf b (4 + fuel) PKCS11H_PROVIER_TOK_PROT_AUTH s =
             eval_loop pkcs11h_config_tf b fuel PKCS11H_PROVIER_TOK_PROVIDER s' /\
    config_state s' /\ option_names (g_nvp s') = option_names (g_nvp s) /\
    (forall t, t ∉ provider_defaults -> unused t (g_nvp s') = unused t (g_nvp s)) /\
    g_calls s' = g_calls s ++ [add_provider (ProviderCtx (pc_name c) (pc_library c) 1 0 0)] /\
    g_verbosity s' = g_verbosity s.
Proof.
  intros Hh Hs Hf.
  destruct (unset_step b s PKCS11H_PROVIER_TOK_PROT_AUTH (lit "allow-protected-auth") (lit "Allow Protected Authentication")
    (lit "1") (Z.lor ECRYPTFS_PARAM_FLAG_ECHO_INPUT ECRYPTFS_ALLOW_IMPLICIT_TRANSITION) PKCS11H_PROVIER_TOK_CERT_PRIVATE
    TF_PKCS11H_PROVIDER_PROT_AUTH step_prot_auth c) as (s1 & He1 & Ha1 & Hs1 & Hf1);
    [done|done|do 3 right; by left|done|right; by left|apply (bool_decide_unpack _); by vm_compute
    |do 2 right; by left|done|].
  destruct (unset_step b s1 PKCS11H_PROVIER_TOK_CERT_PRIVATE (lit "cert-private") (lit "Certificate is private object")
    (lit "0") ECRYPTFS_PARAM_FLAG_ECHO_INPUT PKCS11H_PROVIER_TOK_PRIVATE_MASK
    TF_PKCS11H_PROVIDER_CERT_PRIVATE step_cert_private (step_prot_auth c (lit "1"))) as (s2 & He2 & Ha2 & Hs2 & Hf2);
    [done|done|do 4 right; by left|done|do 2 right; by left|apply (bool_decide_unpack _); by vm_compute
    |do 3 right; by left|done|].
  destruct (unset_step b s2 PKCS11H_PROVIER_TOK_PRIVATE_MASK (lit "private-mask") (lit "Private Key Mask")
    (lit "0") ECRYPTFS_PARAM_FLAG_ECHO_INPUT PKCS11H_PROVIER_TOK_END
    TF_PKCS11H_PROVIDER_PRIVATE_MASK step_private_mask (step_cert_private (step_prot_auth c (lit "1")) (lit "0")))
    as (s3 & He3 & Ha3 & Hs3 & Hf3);
    [done|done|do 5 right; by left|done|do 3 right; by left|apply (bool_decide_unpack _); by vm_compute
    |do 4 right; by left|done|].
  destruct (visit_end b s3 _ Hh (cs_end _ Hs3) (cs_named _ Hs3)
    (cs_unset _ Hs3 (lit "dummy") ltac:(do 4 right; by left)) (cs_default _ Hs3) Hf3)
    as (s4 & He4 & Hn4 & Hend4 & Hl4 & Hc4 & Hv4).
  assert (option_names (g_nvp s3) = option_names (g_nvp s)) as Hnames
    by (by rewrite (ad_names _ _ _ Ha3), (ad_names _ _ _ Ha2), (ad_names _ _ _ Ha1)).
  exists s4. split; [|split; [|split; [by rewrite Hl4|split; [|split]]]].
  - cbn [Nat.add]. by rewrite (loop_next _ _ _ _ _ _ _ He1), (loop_next _ _ _ _ _ _ _ He2),
      (loop_next _ _ _ _ _ _ _ He3), (loop_next _ _ _ _ _ _ _ He4).
  - split; rewrite ?Hl4; [|done|apply Hs3..]. intros n p Hin. rewrite Hn4; [by apply Hs3|].
    intros ->. unfold cycle_nodes in Hin. repeat (apply elem_of_cons in Hin as [[=]|Hin]). by apply elem_of_nil in Hin.
  - intros t Ht. rewrite Hl4.
    rewrite (ad_others _ _ _ Ha3), (ad_others _ _ _ Ha2), (ad_others _ _ _ Ha1); [done|..];
      intros ->; apply Ht; apply (bool_decide_unpack _); by vm_compute.
  - rewrite Hc4. destruct (ad_kept _ _ _ Ha1) as (_ & _ & _ & Hc1 & _), (ad_kept _ _ _ Ha2) as (_ & _ & _ & Hc2 & _),
      (ad_kept _ _ _ Ha3) as (_ & _ & _ & Hc3 & _). rewrite Hc3, Hc2, Hc1. do 2 f_equal.
  - rewrite Hv4. destruct (ad_kept _ _ _ Ha1) as (_ & _ & _ & _ & Hv1), (ad_kept _ _ _ Ha2) as (_ & _ & _ & _ & Hv2),
      (ad_kept _ _ _ Ha3) as (_ & _ & _ & _ & Hv3). by rewrite Hv3, Hv2, Hv1.
Qed.

(** The three first nodes, up to where the defaults begin. *)
Lemma provider_first b s :
  heap_never_fails -> config_state s -> Some (lit "name") ∈ option_names (g_nvp s) ->
  exists s', eval_step pkcs11h_config_tf b PKCS11H_PROVIER_TOK_PROVIDER s = go (0, Some PKCS11H_PROVIER_TOK_NAME, s') /\
    advanced (lit "pkcs11-provider") s s' /\ config_state s' /\ g_foo s' = foo_of (ProviderCtx None None 0 0 0).
Proof.
  intros Hh Hs Hin.
  destruct (config_step b s PKCS11H_PROVIER_TOK_PROVIDER (lit "pkcs11-provider") (lit "PKCS#11 Provider") (Some [])
    (Z.lor DISPLAY_TRANSITION_NODE_VALS ECRYPTFS_PARAM_FLAG_ECHO_INPUT) (lit "name") PKCS11H_PROVIER_TOK_NAME
    TF_PKCS11H_PROVIDER [] (foo_of (ProviderCtx None None 0 0 0))) as (s1 & He1 & Ha1 & Hf1);
    [done|apply (cs_nodes _ Hs); by left|done|apply Hs|rewrite (cs_unset _ Hs); [done|by left]
    |apply (bool_decide_unpack _); by vm_compute|done|intros l; by apply provider_start_ok|].
  exists s1. split_and!; try done. by eapply config_state_advanced.
Qed.

Lemma provider_name b s n ns c :
  heap_never_fails -> config_state s -> g_foo s = foo_of c -> Some (lit "library") ∈ option_names (g_nvp s) ->
  unused (lit "name") (g_nvp s) = Some n :: ns -> n ∉ [lit "(null)"; lit "NULL"; lit "library"] ->
  exists s', eval_step pkcs11h_config_tf b PKCS11H_PROVIER_TOK_NAME s = go (0, Some PKCS11H_PROVIER_TOK_LIBRARY, s') /\
    advanced (lit "name") s s' /\ config_state s' /\ g_foo s' = foo_of (step_name c n).
Proof.
  intros Hh Hs Hf Hin Hun Hn.
  destruct (provider_step b s PKCS11H_PROVIER_TOK_NAME (lit "name") (lit "PKCS#11 Provider Alias") None
    ECRYPTFS_PARAM_FLAG_ECHO_INPUT (lit "library") PKCS11H_PROVIER_TOK_LIBRARY TF_PKCS11H_PROVIDER_NAME step_name c n)
    as (s' & He & Ha & Hf'); [done|apply (cs_nodes _ Hs); right; by left|done|apply Hs|by rewrite Hun|done|done|by left|done|].
  exists s'. split_and!; try done. by eapply config_state_advanced.
Qed.

Lemma provider_library b s lb ls c :
  heap_never_fails -> config_state s -> g_foo s = foo_of c ->
  unused (lit "library") (g_nvp s) = Some lb :: ls -> lb ∉ [lit "(null)"; lit "NULL"; lit "default"] ->
  exists s', eval_step pkcs11h_config_tf b PKCS11H_PROVIER_TOK_LIBRARY s = go (0, Some PKCS11H_PROVIER_TOK_PROT_AUTH, s') /\
    advanced (lit "library") s s' /\ config_state s' /\ g_foo s' = foo_of (step_library c lb).
Proof.
  intros Hh Hs Hf Hul Hl.
  destruct (provider_step b s PKCS11H_PROVIER_TOK_LIBRARY (lit "library") (lit "PKCS#11 Library") None
    ECRYPTFS_PARAM_FLAG_ECHO_INPUT (lit "default") PKCS11H_PROVIER_TOK_PROT_AUTH TF_PKCS11H_PROVIDER_LIBRARY step_library c lb)
    as (s' & He & Ha & Hf'); [done|apply (cs_nodes _ Hs); do 2 right; by left|done|apply Hs|by rewrite Hul|done|apply Hs
    |right; by left|done|].
  exists s'. split_and!; try done. by eapply config_state_advanced.
Qed.

(** Once round: one name and one library make a provider. *)
Lemma provider_round b fuel s n lb ns ls :
  heap_never_fails -> config_state s ->
  unused (lit "name") (g_nvp s) = Some n :: ns -> unused (lit "library") (g_nvp s) = Some lb :: ls ->
  n ∉ [lit "(null)"; lit "NULL"; lit "library"] -> lb ∉ [lit "(null)"; lit "NULL"; lit "default"] ->
  exists s', eval_loop pkcs11h_config_tf b (7 + fuel) PKCS11H_PROVIER_TOK_PROVIDER s =
             eval_loop pkcs11h_config_tf b fuel PKCS11H_PROVIER_TOK_PROVIDER s' /\
    config_state s' /\ unused (lit "name") (g_nvp s') = ns /\ unused (lit "library") (g_nvp s') = ls /\
    g_calls s' = g_calls s ++ [provider_of n lb] /\ g_verbosity s' = g_verbosity s.
Proof.
  intros Hh Hs Hun Hul Hn Hl.
  assert (Some (lit "name") ∈ option_names (g_nvp s)) as Hin_n by (apply (unused_in_names _ (Some n)); rewrite Hun; by left).
  assert (Some (lit "library") ∈ option_names (g_nvp s)) as Hin_l by (apply (unused_in_names _ (Some lb)); rewrite Hul; by left).
  destruct (provider_first b s Hh Hs Hin_n) as (s1 & He1 & Ha1 & Hs1 & Hf1).
  destruct (provider_name b s1 n ns _ Hh Hs1 Hf1) as (s2 & He2 & Ha2 & Hs2 & Hf2);
    [by rewrite (ad_names _ _ _ Ha1)|by rewrite (ad_others _ _ _ Ha1)|done|].
  destruct (provider_library b s2 lb ls _ Hh Hs2 Hf2) as (s3 & He3 & Ha3 & Hs3 & Hf3);
    [by rewrite (ad_others _ _ _ Ha2), (ad_others _ _ _ Ha1)|done|].
  destruct (provider_rest b fuel s3 _ Hh Hs3 Hf3) as (s4 & He4 & Hs4 & Hnames & Hu4 & Hc4 & Hv4).
  destruct (ad_kept _ _ _ Ha1) as (_ & _ & _ & Hc1 & Hv1), (ad_kept _ _ _ Ha2) as (_ & _ & _ & Hc2 & Hv2),
    (ad_kept _ _ _ Ha3) as (_ & _ & _ & Hc3 & Hv3).
  exists s4. split_and!; [|done|..].
  - cbn [Nat.add]. by rewrite (loop_next _ _ _ _ _ _ _ He1), (loop_next _ _ _ _ _ _ _ He2), (loop_next _ _ _ _ _ _ _ He3).
  - rewrite Hu4 by (apply (bool_decide_unpack _); by vm_compute).
    by rewrite (ad_others _ _ _ Ha3), (ad_first _ _ _ Ha2), (ad_others _ _ _ Ha1), Hun.
  - rewrite Hu4 by (apply (bool_decide_unpack _); by vm_compute).
    by rewrite (ad_first _ _ _ Ha3), (ad_others _ _ _ Ha2), (ad_others _ _ _ Ha1), Hul.
  - by rewrite Hc4, Hc3, Hc2, Hc1.
  - by rewrite Hv4, Hv3, Hv2, Hv1.
Qed.

(** ** How the cycle ends *)

(** A node whose only transition nothing selects. *)
Lemma stuck_step b s node p nm v t :
  heap_never_fails -> g_nodes s !! node = Some p -> pn_mnt_opt_names p = [nm] -> pn_val p = None ->
  simple_node p = true -> named (g_nvp s) ->
  value_of (pn_default_val p) (unused nm (g_nvp s)) = Some v -> v ∉ [lit "(null)"; lit "NULL"; t] ->
  (exists tn, pn_tl p = [tn] /\ tn_val tn = Some t) -> t <> lit "default" -> Some t ∉ option_names (g_nvp s) ->
  exists s', eval_step pkcs11h_config_tf b node s = go (MOUNT_ERROR, None, s') /\ g_calls s' = g_calls s.
Proof.
  intros Hh Hp Hnm Hpv Hs Hn Hval Hv (tn & Htl & Ht) Hd Hno.
  destruct (take_value b node (set_steps (S (g_steps s)) s) p nm) as (v' & l & Htake & Ha); try done.
  { cbn [g_nvp set_steps]. destruct (unused nm (g_nvp s)) as [|[x|] vs]; cbn [value_of] in Hval; [|injection Hval as ->|done].
    - rewrite Hval. split; [by eexists|]. intros [= ->]. apply Hv. right. by left.
    - intros ->. apply Hv. by left. }
  assert (v' = v /\ option_names l = option_names (g_nvp s)) as [-> Hnames].
  { destruct Htake as [(vs & Hus & _ & [Hnames _ _])|(Hus & Hd' & _ & ->)]; cbn [g_nvp set_steps] in Hus;
      rewrite Hus in Hval; cbn [value_of] in Hval; split; (done || congruence). }
  exists (at_node node v l s). split; [|by destruct (at_node_other node v l s) as (_ & _ & _ & _ & _ & -> & _)].
  unfold eval_step. rewrite Ha. cbn [stays rbind Z.eqb negb]. unfold do_transition.
  fold (entered node (upd_node node (set_val (Some v)) (set_nvp l (set_steps (S (g_steps s)) s)))).
  fold (at_node node v l s).
  assert (g_nodes (at_node node v l s) !! node = Some (set_val (Some v) p)) as Hp1
    by (by rewrite at_node_nodes, decide_True, Hp).
  rewrite (get_node_ok _ _ _ Hp1). cbn [stays rbind pn_tl set_val]. rewrite Htl. cbn [length seq].
  pose proof (try_transitions_quiet pkcs11h_config_tf [0%nat] node (at_node node v l s) (set_val (Some v) p) Hp1) as Hq.
  specialize (Hq ltac:(
    intros i ->%list_elem_of_singleton; exists tn; cbn [pn_tl set_val]; rewrite Htl; split; [done|];
    destruct (at_node_other node v l s) as (-> & _); apply (quiet_names _ _ _ t); try done;
      [apply named_names; rewrite Hnames; by apply named_names
      |intros [= ->]; apply Hv; by do 2 right; left|by rewrite Hnames]) []).
  cbn [app] in Hq. rewrite Hq. cbn [try_transitions rbind go]. rewrite (get_node_ok _ _ _ Hp1). cbn [stays rbind].
  cbn [pn_tl set_val]. rewrite Htl. cbn [length seq try_default].
  rewrite (get_tn_ok _ _ _ 0 tn Hp1) by (cbn [pn_tl set_val]; by rewrite Htl). cbn [stays rbind].
  rewrite Ht, streq_ne by congruence. cbn [rbind go]. rewrite (get_node_ok _ _ _ Hp1). cbn [stays rbind pn_tl set_val].
  by rewrite Htl.
Qed.

(** A node without value and without a user to ask. *)
Lemma ask_step s node p nm :
  heap_never_fails -> g_nodes s !! node = Some p -> pn_mnt_opt_names p = [nm] -> pn_val p = None ->
  pn_default_val p = None -> pn_flags p = ECRYPTFS_PARAM_FLAG_ECHO_INPUT -> named (g_nvp s) ->
  unused nm (g_nvp s) = [] -> g_verbosity s <> 0 ->
  eval_step pkcs11h_config_tf false node s = go (MOUNT_ERROR, None, set_steps (S (g_steps s)) s).
Proof.
  intros Hh Hp Hnm Hv Hd Hfl Hn Hu Hvb. unfold eval_step, alloc_and_get_val.
  rewrite (get_node_ok _ _ p), bind_Ok, Hv by done.
  rewrite (retrieve_spent _ (set_steps (S (g_steps s)) s) p nm) by (done || by rewrite Hd). rewrite bind_Ok, Hd.
  cbn [Z.eqb negb andb]. rewrite (get_node_ok _ _ p), bind_Ok, Hfl by done.
  change (has_flag ECRYPTFS_PARAM_FLAG_ECHO_INPUT ECRYPTFS_ALLOW_IMPLICIT_TRANSITION) with false.
  cbn [andb mret outcome_ret]. rewrite bind_Ok. unfold ask_user.
  rewrite (get_node_ok _ _ p), bind_Ok, Hfl by done.
  change (has_flag ECRYPTFS_PARAM_FLAG_ECHO_INPUT ECRYPTFS_PARAM_FLAG_NO_VALUE) with false.
  change (has_flag ECRYPTFS_PARAM_FLAG_ECHO_INPUT PARAMETER_SET) with false.
  cbn [g_verbosity set_steps andb negb]. by replace (g_verbosity s =? 0) with false by lia.
Qed.

Lemma loop_end b fuel node s rc s' :
  eval_step pkcs11h_config_tf b node s = go (rc, None, s') -> rc <> 0 ->
  eval_loop pkcs11h_config_tf b (S fuel) node s = Ok (Returned rc s').
Proof. intros Hs Hrc. cbn [eval_loop]. rewrite Hs. cbn [obind go]. by replace (rc =? 0) with false by lia. Qed.

(** Words that the graph could take for a transition, or that stand for no value. *)
Definition provider_words : list cstring :=
  [lit "(null)"; lit "NULL"; lit "name"; lit "library"; lit "default"].
Definition plain (v : cstring) : Prop := v ∉ provider_words.

Lemma plain_not v t : plain v -> t ∈ provider_words -> v ∉ [lit "(null)"; lit "NULL"; t].
Proof.
  intros Hv Ht. rewrite !elem_of_cons. intros [->|[->|[->|Hx%elem_of_nil]]]; [apply Hv..|done]; [by left|right; by left|done].
Qed.

(** When names or libraries are used up, the next node that needs one has nobody
    to ask. *)
Lemma cycle_ends fuel s names libs :
  heap_never_fails -> config_state s -> g_verbosity s <> 0 ->
  unused (lit "name") (g_nvp s) = Some <$> names -> unused (lit "library") (g_nvp s) = Some <$> libs ->
  Forall plain names -> names = [] \/ libs = [] ->
  exists s', eval_loop pkcs11h_config_tf false (3 + fuel) PKCS11H_PROVIER_TOK_PROVIDER s = Ok (Returned MOUNT_ERROR s') /\
    g_calls s' = g_calls s.
Proof.
  intros Hh Hs Hvb Hun Hul Hpl Hend.
  destruct (decide (Some (lit "name") ∈ option_names (g_nvp s))) as [Hin|Hno].
  2:{ destruct (stuck_step false s PKCS11H_PROVIER_TOK_PROVIDER pk_provider_node (lit "pkcs11-provider") [] (lit "name"))
        as (s' & He & Hc); [done|apply Hs; by left|done..|apply Hs|rewrite (cs_unset _ Hs); [done|by left]
        |apply (bool_decide_unpack _); by vm_compute|by eexists|done|done|].
      exists s'. split; [|done]. by apply (loop_end _ (2 + fuel)). }
  destruct (provider_first false s Hh Hs Hin) as (s1 & He1 & Ha1 & Hs1 & Hf1).
  destruct (ad_kept _ _ _ Ha1) as (_ & _ & _ & Hc1 & Hv1).
  assert (unused (lit "name") (g_nvp s1) = Some <$> names) as Hun1 by (by rewrite (ad_others _ _ _ Ha1)).
  destruct names as [|n names].
  { eexists. split; [cbn [Nat.add]; rewrite (loop_next _ _ _ _ _ _ _ He1); apply (loop_end _ (S fuel)); [|done]|].
    - apply (ask_step s1 PKCS11H_PROVIER_TOK_NAME pk_name_node (lit "name"));
        [done|apply Hs1; right; by left|done..|apply Hs1|done|by rewrite Hv1].
    - by rewrite <- Hc1. }
  destruct Hend as [?| -> ]; [done|]. apply Forall_cons in Hpl as [Hpl _].
  destruct (decide (Some (lit "library") ∈ option_names (g_nvp s1))) as [Hil|Hno].
  2:{ destruct (stuck_step false s1 PKCS11H_PROVIER_TOK_NAME pk_name_node (lit "name") n (lit "library"))
        as (s' & He & Hc); [done|apply Hs1; right; by left|done..|apply Hs1|by rewrite Hun1
        |apply plain_not; [done|do 3 right; by left]|by eexists|done|done|].
      exists s'. split; [|by rewrite Hc]. cbn [Nat.add]. rewrite (loop_next _ _ _ _ _ _ _ He1). by apply (loop_end _ (S fuel)). }
  destruct (provider_name false s1 n _ _ Hh Hs1 Hf1 Hil Hun1) as (s2 & He2 & Ha2 & Hs2 & Hf2);
    [apply plain_not; [done|do 3 right; by left]|].
  destruct (ad_kept _ _ _ Ha2) as (_ & _ & _ & Hc2 & Hv2).
  eexists. split; [cbn [Nat.add]; rewrite (loop_next _ _ _ _ _ _ _ He1), (loop_next _ _ _ _ _ _ _ He2); apply (loop_end _ fuel); [|done]|].
  - apply (ask_step s2 PKCS11H_PROVIER_TOK_LIBRARY pk_library_node (lit "library"));
      [done|apply Hs2; do 2 right; by left|done..|apply Hs2| |by rewrite Hv2, Hv1].
    by rewrite (ad_others _ _ _ Ha2), (ad_others _ _ _ Ha1).
  - change (g_calls s2 = g_calls s). by rewrite Hc2.
Qed.

(** The whole cycle: names and libraries are paired in their order. *)
Lemma cycle_run names libs fuel s :
  heap_never_fails -> config_state s -> g_verbosity s <> 0 ->
  unused (lit "name") (g_nvp s) = Some <$> names -> unused (lit "library") (g_nvp s) = Some <$> libs ->
  Forall plain names -> Forall plain libs ->
  exists s', eval_loop pkcs11h_config_tf false (7 * length names + 3 + fuel) PKCS11H_PROVIER_TOK_PROVIDER s =
             Ok (Returned MOUNT_ERROR s') /\
    g_calls s' = g_calls s ++ zip_with provider_of names libs.
Proof.
  intros Hh. revert libs s. induction names as [|n names IH]; intros libs s Hs Hvb Hun Hul Hpn Hpl.
  { destruct (cycle_ends fuel s [] libs) as (s' & He & Hc); try done; [by left|].
    exists s'. cbn [zip_with]. by rewrite app_nil_r. }
  destruct libs as [|lb libs].
  { destruct (cycle_ends (7 * S (length names) + fuel) s (n :: names) []) as (s' & He & Hc); try done; [by right|].
    exists s'. cbn [zip_with]. rewrite app_nil_r. split; [|done]. rewrite <- He. f_equal. cbn [length]. lia. }
  apply Forall_cons in Hpn as [Hn Hpn]. apply Forall_cons in Hpl as [Hl Hpl]. rewrite fmap_cons in Hun, Hul.
  destruct (provider_round false (7 * length names + 3 + fuel) s n lb _ _ Hh Hs Hun Hul)
    as (s1 & He1 & Hs1 & Hun1 & Hul1 & Hc1 & Hv1); [apply plain_not; [done|do 3 right; by left]|apply plain_not; [done|do 4 right; by left]|].
  destruct (IH libs s1) as (s' & He & Hc); try done; [by rewrite Hv1|].
  exists s'. split.
  - rewrite <- He, <- He1. f_equal. cbn [length]. lia.
  - rewrite Hc, Hc1, <- app_assoc. done.
Qed.

(** Leaving the node of the log level, by the options that are there. *)
Lemma loglevel_transition lvl s0 :
  let node := PKCS11H_GLOBAL_TOK_LOGLEVEL in
  let s1 := entered node s0 in
  g_nodes s1 !! node = Some (set_val (Some lvl) pk_loglevel_node) ->
  do_transition pkcs11h_config_tf node s0 =
  match g_nvp s1 with
  | [] => go (MOUNT_ERROR, None, s1)
  | _ => go (- EINVAL, None, upd_node node (set_val None) (add_call (set_log_level (atoi lvl)) s1))
  end.
Proof.
  intros node s1 Hp1. set (tn := pk_config_tn None None TF_PKCS11H_GLOBAL_LOGLEVEL).
  assert (forall k, get_tn s1 node k = if decide (k = 0%nat) then Ok tn else UB OutOfBoundsRead) as Htn.
  { intros k. unfold get_tn. rewrite (get_node_ok _ _ _ Hp1), bind_Ok. by destruct k as [|[|k]]. }
  unfold do_transition. fold (entered node s0). fold s1. rewrite (get_node_ok _ _ _ Hp1). cbn [stays rbind pn_tl set_val length seq].
  change (length (pn_tl pk_loglevel_node)) with 1%nat. cbn [seq try_transitions].
  rewrite (get_node_ok _ _ _ Hp1), Htn. cbn [stays rbind decide]. rewrite decide_True by done. cbn [stays rbind tn_val tn pk_config_tn].
  destruct (g_nvp s1) as [|a l].
  - cbn [try_nvps rbind go]. rewrite (get_node_ok _ _ _ Hp1). cbn [stays rbind pn_tl set_val].
    change (length (pn_tl pk_loglevel_node)) with 1%nat. cbn [seq try_default]. rewrite Htn, decide_True by done.
    cbn [stays rbind tn_val tn pk_config_tn go]. rewrite (get_node_ok _ _ _ Hp1). done.
  - cbn [try_nvps]. rewrite Htn, decide_True by done. cbn [stays rbind tn_val tn pk_config_tn mret outcome_ret negb].
    change (call_tf pkcs11h_config_tf _ NULL_TOK node s1) with (stays (tf_pkcs11h_global_loglevel node s1)).
    unfold tf_pkcs11h_global_loglevel. rewrite (get_node_ok _ _ _ Hp1), bind_Ok. cbn [pn_val set_val deref_str mret outcome_ret obind].
    cbn [stays rbind mret outcome_ret]. change (DEFAULT_TOK =? MOUNT_ERROR) with false.
    change ((DEFAULT_TOK =? DEFAULT_TOK) || (DEFAULT_TOK =? NULL_TOK)) with true. cbn iota. unfold follow.
    rewrite (get_tn_ok _ _ (set_val None (set_val (Some lvl) pk_loglevel_node)) 0 tn);
      [done|by apply upd_node_lookup|done].
Qed.

(** The graph of the settings has one node that is visited. *)
Lemma loglevel_visit b fuel s lvl :
  heap_never_fails -> g_nodes s !! PKCS11H_GLOBAL_TOK_LOGLEVEL = Some pk_loglevel_node -> named (g_nvp s) ->
  value_of (Some (lit "0")) (unused (lit "pkcs11-log-level") (g_nvp s)) = Some lvl -> lvl <> lit "(null)" ->
  exists rc s', eval_loop pkcs11h_config_tf b (S fuel) PKCS11H_GLOBAL_TOK_LOGLEVEL s = Ok (Returned rc s') /\
    (forall m, m <> PKCS11H_GLOBAL_TOK_LOGLEVEL -> g_nodes s' !! m = g_nodes s !! m) /\
    g_calls s' = g_calls s ++ (if decide (g_nvp s = []) then [] else [set_log_level (atoi lvl)]).
Proof.
  intros Hh Hp Hn Hval Hlvl. set (node := PKCS11H_GLOBAL_TOK_LOGLEVEL) in *. set (s0 := set_steps (S (g_steps s)) s).
  destruct (take_value b node s0 pk_loglevel_node (lit "pkcs11-log-level")) as (v & l & Htake & Ha); try done.
  { cbn [g_nvp set_steps s0]. destruct (unused _ (g_nvp s)) as [|[x|] vs]; cbn [value_of] in Hval; [|by injection Hval as ->|done].
    split; [by eexists|done]. }
  assert (v = lvl /\ option_names l = option_names (g_nvp s)) as [-> Hnames].
  { destruct Htake as [(vs & Hus & _ & [Hnames _ _])|(Hus & Hd' & _ & ->)]; cbn [g_nvp set_steps s0] in Hus;
      rewrite Hus in Hval; cbn [value_of] in Hval; [split; [congruence|done]|].
    change (Some (lit "0") = Some v) in Hd'. split; [congruence|done]. }
  assert (l = [] <-> g_nvp s = []) as Hnil.
  { pose proof (f_equal length Hnames) as Hlen. unfold option_names in Hlen. rewrite !length_fmap in Hlen.
    split; intros Hx; rewrite Hx in Hlen; apply length_zero_iff_nil; by symmetry. }
  set (s1 := at_node node lvl l s).
  destruct (at_node_other node lvl l s) as (Hl1 & _ & _ & _ & _ & Hc1 & _). fold s1 in Hl1, Hc1.
  assert (g_nodes s1 !! node = Some (set_val (Some lvl) pk_loglevel_node)) as Hp1
    by (unfold s1; by rewrite at_node_nodes, decide_True, Hp).
  assert (forall m, m <> node -> g_nodes s1 !! m = g_nodes s !! m) as Hn1
    by (intros m Hm; unfold s1; by rewrite at_node_nodes, decide_False).
  pose proof (loglevel_transition lvl (upd_node node (set_val (Some lvl)) (set_nvp l s0))) as Htr.
  cbv zeta in Htr. fold node in Htr.
  change (entered node (upd_node node (set_val (Some lvl)) (set_nvp l s0))) with s1 in Htr.
  specialize (Htr Hp1). rewrite Hl1 in Htr.
  assert (eval_step pkcs11h_config_tf b node s = match l with
    | [] => go (MOUNT_ERROR, None, s1)
    | _ => go (- EINVAL, None, upd_node node (set_val None) (add_call (set_log_level (atoi lvl)) s1))
    end) as He by (unfold eval_step; fold s0; rewrite Ha; cbn [stays rbind Z.eqb negb]; exact Htr).
  destruct l as [|a l].
  - exists MOUNT_ERROR, s1. split; [by apply loop_end|]. split; [done|]. rewrite decide_True by (by apply Hnil). by rewrite app_nil_r, Hc1.
  - exists (- EINVAL). eexists. split; [by apply loop_end|]. split.
    + intros m Hm. rewrite <- Hn1 by done. cbn. by rewrite lookup_alter_ne.
    + rewrite decide_False by (by rewrite <- Hnil). by rewrite <- Hc1.
Qed.

(** ** A configuration file *)

(** A file of options, which the luck of the heap terminates. *)
Record config_file (open : cstring -> Z + descriptor) (home : cstring) (opts : list (cstring * option cstring)) : Prop := ConfigFile {
  cf_open : let text := join_with 44 (option_text <$> opts) in
    open (home ++ lit "/.ecryptfsrc.pkcs11") = inr (inr (FileStat FRegular (zlen text)), fun _ => None, text);
  cf_options : Forall option_ok opts;
  cf_string : is_cstring (join_with 44 (option_text <$> opts));
  cf_size : zlen (join_with 44 (option_text <$> opts)) <= MAX_FILE_SIZE;
  cf_end : heap_junk (length (join_with 44 (option_text <$> opts))) = 0
}.

(** What it says: names, libraries and the log level, among options that the
    graphs do not know. *)
Record config_says (opts : list (cstring * option cstring)) (names libs : list cstring) (lvl : cstring) : Prop := ConfigSays {
  sy_default : Some (lit "default") ∉ option_names (option_node <$> opts);
  sy_unset t : t ∈ provider_defaults -> unused t (option_node <$> opts) = [];
  sy_names : unused (lit "name") (option_node <$> opts) = Some <$> names;
  sy_libs : unused (lit "library") (option_node <$> opts) = Some <$> libs;
  sy_plain_names : Forall plain names;
  sy_plain_libs : Forall plain libs;
  sy_lvl : value_of (Some (lit "0")) (unused (lit "pkcs11-log-level") (option_node <$> opts)) = Some lvl;
  sy_lvl_value : lvl <> lit "(null)"
}.

(** The graphs as they are compiled in. *)
Record config_graphs (nodes : gmap Z param_node) : Prop := ConfigGraphs {
  cg_loglevel : nodes !! PKCS11H_GLOBAL_TOK_LOGLEVEL = Some pk_loglevel_node;
  cg_cycle n p : (n, p) ∈ cycle_nodes -> nodes !! n = Some p;
  cg_end : nodes !! PKCS11H_PROVIER_TOK_END = Some pk_end_node
}.

Lemma config_file_parsed open home opts :
  heap_never_fails -> config_file open home opts ->
  exists fstat read_errno input, open (home ++ lit "/.ecryptfsrc.pkcs11") = inr (fstat, read_errno, input) /\
    parse_options_file fstat read_errno input = Ok (0, option_node <$> opts).
Proof.
  intros Hh [Ho Hok Hc Hl Hj]. do 3 eexists. split; [exact Ho|].
  rewrite parse_options_file_unterminated, Hj by done. by apply (parse_options_ok opts).
Qed.

Lemma option_nodes_named opts : named (option_node <$> opts).
Proof. apply Forall_fmap, Forall_forall. intros o _. by eexists. Qed.

Lemma get_verbosity_unset l : named l -> Some (lit "verbosity") ∉ option_names l -> get_verbosity l = Ok 1.
Proof.
  intros Hn. induction Hn as [|a l [n Ha] Hn IH]; [done|]. unfold option_names. rewrite fmap_cons, Ha, not_elem_of_cons.
  intros [Hne Hin]. cbn [get_verbosity]. rewrite Ha. cbn [deref_str mret outcome_ret obind].
  rewrite streq_ne by congruence. by apply IH.
Qed.

Lemma parse_file_walks home open fuel root s opts verbosity :
  heap_never_fails -> config_file open home opts -> get_verbosity (option_node <$> opts) = Ok verbosity ->
  ecryptfs_pkcs11h_parse_file (Some home) open fuel root s =
  (r ← eval_loop pkcs11h_config_tf false fuel root
         (set_foo FooNull (set_verbosity verbosity (set_mnt [None] (own_context (option_node <$> opts) s))));
   match r with
   | Returned _ s' => mret (Some (0, leave_context s s'))
   | _ => mret None
   end).
Proof.
  intros Hh Hf Hv. destruct (config_file_parsed open home opts Hh Hf) as (fstat & errno & input & Ho & Hp).
  unfold ecryptfs_pkcs11h_parse_file. rewrite !Hh, Ho. cbn [negb]. rewrite Hp, bind_Ok.
  unfold ecryptfs_eval_decision_graph, eval_param_tree. cbn [g_mnt own_context set_foo set_verbosity set_mods set_mnt].
  change (g_nvp (set_mnt [None] (own_context (option_node <$> opts) s))) with (option_node <$> opts). rewrite Hv, bind_Ok.
  destruct (eval_loop _ _ _ _ _) as [[| |rc s']|e]; done.
Qed.

(** The two walks over the file. *)
Lemma parse_file_loglevel home open fuel s opts names libs lvl verbosity :
  heap_never_fails -> config_file open home opts -> config_says opts names libs lvl ->
  get_verbosity (option_node <$> opts) = Ok verbosity -> config_graphs (g_nodes s) ->
  exists s', ecryptfs_pkcs11h_parse_file (Some home) open (S fuel) PKCS11H_GLOBAL_TOK_LOGLEVEL s = Ok (Some (0, s')) /\
    (forall m, m <> PKCS11H_GLOBAL_TOK_LOGLEVEL -> g_nodes s' !! m = g_nodes s !! m) /\
    g_calls s' = g_calls s ++ (if decide (opts = []) then [] else [set_log_level (atoi lvl)]).
Proof.
  intros Hh Hf Hs Hv [Hp _ _]. rewrite (parse_file_walks _ _ _ _ _ opts verbosity) by done.
  set (s0 := set_foo FooNull (set_verbosity verbosity (set_mnt [None] (own_context (option_node <$> opts) s)))).
  destruct (loglevel_visit false fuel s0 lvl) as (rc & s1 & He & Hn & Hc);
    [done|done|apply option_nodes_named|apply Hs|apply Hs|].
  rewrite He. eexists. split; [done|]. split; [intros m Hm; exact (Hn m Hm)|].
  change (g_calls (leave_context s s1)) with (g_calls s1). rewrite Hc. f_equal.
  change (g_nvp s0) with (option_node <$> opts). destruct opts; [done|]. by rewrite !decide_False.
Qed.
End Lemmas.

Definition hooks_work (w : pkcs11h_setup) : Prop := w = Pkcs11hSetup true true true true true.

(** C9. Loading the module registers the providers of the configuration file: the
    first name with the first library and so on - wherever in the file they stand
    - each allowed protected authentication and with public certificates; a name or
    a library too many is dropped.  The log level is set, to 0 unless the file says
    otherwise, if the file has any option.  Nothing else is asked of the library,
    so the period for which PINs are cached is never set. *)
Theorem pkcs11_init_registers_providers `{Heap} quiet w home open opts names libs lvl fuel s :
  heap_never_fails -> hooks_work w -> config_file open home opts -> config_says opts names libs lvl ->
  Some (lit "verbosity") ∉ option_names (option_node <$> opts) -> config_graphs (g_nodes s) ->
  (7 * length names + 3 <= fuel)%nat ->
  exists s', ecryptfs_pkcs11h_init quiet w (Some home) open fuel s = Ok (Some (0, Some (lit "pkcs11-helper"), s')) /\
    g_calls s' = g_calls s ++ set_log_level quiet ::
      (if decide (opts = []) then [] else [set_log_level (atoi lvl)]) ++ zip_with provider_of names libs.
Proof.
  intros Hh -> Hf Hs Hv Hg Hfuel. pose proof (get_verbosity_unset _ (option_nodes_named opts) Hv) as Hvb.
  unfold ecryptfs_pkcs11h_init. rewrite Hh. cbn [negb ps_initialize ps_setLogHook].
  destruct fuel as [|fuel]; [lia|].
  destruct (parse_file_loglevel home open fuel (add_call (set_log_level quiet) s) opts names libs lvl 1)
    as (s1 & -> & Hn1 & Hc1); try done. rewrite bind_Ok.
  cbn [negb ps_setTokenPromptHook ps_setPINPromptHook ps_setProtectedAuthentication].
  rewrite (parse_file_walks _ _ _ _ _ opts 1) by done.
  set (s2 := set_foo FooNull (set_verbosity 1 (set_mnt [None] (own_context (option_node <$> opts) s1)))).
  assert (config_state s2) as Hs2.
  { destruct Hg as [_ Hcy Hend]. split; [| |apply option_nodes_named|apply Hs|apply Hs].
    - intros n p Hin. change (g_nodes s1 !! n = Some p). rewrite Hn1; [by apply Hcy|].
      intros ->. unfold cycle_nodes in Hin. repeat (apply elem_of_cons in Hin as [[=]|Hin]). by apply elem_of_nil in Hin.
    - exists None. split; [|by left]. change (g_nodes s1 !! PKCS11H_PROVIER_TOK_END = Some pk_end_node). by rewrite Hn1. }
  destruct (cycle_run names libs (S fuel - (7 * length names + 3)) s2) as (s3 & He & Hc3); [done..|apply Hs|apply Hs|apply Hs|apply Hs|].
  replace (7 * length names + 3 + (S fuel - (7 * length names + 3)))%nat with (S fuel) in He by lia.
  rewrite He. eexists. split; [done|]. change (g_calls (leave_context s1 s3)) with (g_calls s3).
  rewrite Hc3. change (g_calls s2) with (g_calls s1). rewrite Hc1. cbn [g_calls add_call]. by rewrite <- !app_assoc.
Qed.

Definition sample_config : list (cstring * option cstring) :=
  [(lit "pkcs11-log-level", Some (lit "5"));
   (lit "pkcs11-provider1", None); (lit "name", Some (lit "card")); (lit "library", Some (lit "/lib/card.so"));
   (lit "pkcs11-provider2", None); (lit "name", Some (lit "soft")); (lit "library", Some (lit "/lib/soft.so"))].
Definition sample_open (opts : list (cstring * option cstring)) (path : cstring) : Z + descriptor :=
  let text := join_with 44 (option_text <$> opts) in
  if bool_decide (path = lit "/home/user/.ecryptfsrc.pkcs11")
  then inr (inr (FileStat FRegular (zlen text)), fun _ => None, text) else inl ENOENT.
Definition sample_config_state : gstate :=
  set_nodes (pkcs11h_global_param_nodes ∪ pkcs11h_provider_param_nodes) (fresh_state ∅ []).

Lemma sample_graphs : config_graphs (g_nodes sample_config_state).
Proof.
  split; [reflexivity| |reflexivity]. intros n p Hin. unfold cycle_nodes in Hin.
  repeat (apply elem_of_cons in Hin as [[= -> ->]|Hin]; [reflexivity|]). by apply elem_of_nil in Hin.
Qed.

(** The checks of a sample file. *)
Ltac sample_file :=
  split; [reflexivity|repeat (apply Forall_cons_2; [apply sample_option_ok; reflexivity|]); apply Forall_nil_2
         |apply (bool_decide_unpack _); vm_compute; exact I|vm_compute; congruence|reflexivity].
Ltac sample_says :=
  split; [apply (bool_decide_unpack _); vm_compute; exact I
         |intros t Ht; unfold provider_defaults in Ht;
          repeat (apply elem_of_cons in Ht as [->|Ht]; [reflexivity|]); by apply elem_of_nil in Ht
         |vm_compute; reflexivity|vm_compute; reflexivity
         |apply (bool_decide_unpack _); vm_compute; exact I|apply (bool_decide_unpack _); vm_compute; exact I
         |vm_compute; reflexivity|done].

Lemma pkcs11_init_registers_providers_witness :
  exists s', @ecryptfs_pkcs11h_init plenty (-2) (Pkcs11hSetup true true true true true) (Some (lit "/home/user"))
      (sample_open sample_config) 20 sample_config_state = Ok (Some (0, Some (lit "pkcs11-helper"), s')) /\
    g_calls s' = [] ++ set_log_level (-2) ::
      (if decide (sample_config = []) then [] else [set_log_level (atoi (lit "5"))]) ++
      zip_with provider_of [lit "card"; lit "soft"] [lit "/lib/card.so"; lit "/lib/soft.so"].
Proof.
  apply (@pkcs11_init_registers_providers plenty (-2) (Pkcs11hSetup true true true true true) (lit "/home/user")
    (sample_open sample_config) sample_config [lit "card"; lit "soft"] [lit "/lib/card.so"; lit "/lib/soft.so"] (lit "5")
    20 sample_config_state).
  - done.
  - done.
  - sample_file.
  - sample_says.
  - apply (bool_decide_unpack _). vm_compute. exact I.
  - exact sample_graphs.
  - vm_compute. lia.
Defined.

(** ** A cycle without end *)
Section Spinning.
Context `{Heap}.

(** What is the same at every visit of the cycle. *)
Record spinning (s : gstate) : Prop := Spinning {
  sp_state : config_state s;
  sp_verbosity : g_verbosity s = 0;
  sp_name : Some (lit "name") ∈ option_names (g_nvp s);
  sp_library : Some (lit "library") ∈ option_names (g_nvp s);
  sp_names v : v ∈ unused (lit "name") (g_nvp s) -> exists x, v = Some x /\ plain x;
  sp_libs v : v ∈ unused (lit "library") (g_nvp s) -> exists x, v = Some x /\ plain x
}.

Lemma spinning_advanced nm s s' : advanced nm s s' -> spinning s -> spinning s'.
Proof.
  intros Ha [Hs Hv Hn Hl Hns Hls]. destruct (ad_kept _ _ _ Ha) as (_ & _ & _ & _ & Hv').
  assert (forall t v, v ∈ unused t (g_nvp s') -> v ∈ unused t (g_nvp s)) as Hsub.
  { intros t v. destruct (decide (t = nm)) as [->|Hne]; [|by rewrite (ad_others _ _ _ Ha)].
    rewrite (ad_first _ _ _ Ha). destruct (unused nm (g_nvp s)); [done|]. by right. }
  split; rewrite ?(ad_names _ _ _ Ha); eauto using config_state_advanced; congruence.
Qed.

(** Without a value, and without a question at verbosity 0, the name or library
    is the text that is printed for none. *)
Lemma silent_step s node nm pr t next tf f c :
  let p := pk_config_node nm pr None ECRYPTFS_PARAM_FLAG_ECHO_INPUT (pk_config_tn (Some t) (Some next) tf) in
  heap_never_fails -> g_nodes s !! node = Some p -> named (g_nvp s) -> unused nm (g_nvp s) = [] ->
  g_verbosity s = 0 ->
  (if decide (t = lit "default") then Some t ∉ option_names (g_nvp s) else Some t ∈ option_names (g_nvp s)) ->
  (tf, f) ∈ [(TF_PKCS11H_PROVIDER_NAME, step_name); (TF_PKCS11H_PROVIDER_LIBRARY, step_library)] ->
  g_foo s = foo_of c ->
  exists s', eval_step pkcs11h_config_tf false node s = go (0, Some next, s') /\ advanced nm s s' /\
    g_foo s' = foo_of (f c (lit "(null)")).
Proof.
  intros p Hh Hp Hn Hu Hvb Ht Hin Hf. set (s0 := set_steps (S (g_steps s)) s). set (s1 := entered node s0).
  set (s' := upd_node node (set_val None) (set_foo (foo_of (f c (lit "(null)"))) s1)).
  assert (alloc_and_get_val false node s0 = Ok (0, s0)) as Ha.
  { unfold alloc_and_get_val. rewrite (get_node_ok _ _ p), bind_Ok by done. cbn [pn_val p pk_config_node].
    rewrite (retrieve_spent node s0 p nm), bind_Ok by done. cbn [Z.eqb negb pn_default_val p pk_config_node andb].
    rewrite (get_node_ok _ _ p), bind_Ok by done.
    change (has_flag (pn_flags p) ECRYPTFS_ALLOW_IMPLICIT_TRANSITION) with false.
    cbn [andb mret outcome_ret]. rewrite bind_Ok. unfold ask_user. rewrite (get_node_ok _ _ p), bind_Ok by done.
    change (has_flag (pn_flags p) ECRYPTFS_PARAM_FLAG_NO_VALUE) with false.
    change (has_flag (pn_flags p) STDIN_REQUIRED) with false.
    change (g_verbosity s0) with (g_verbosity s). by rewrite Hvb. }
  assert (g_nodes s1 !! node = Some p) as Hp1 by (unfold s1; by rewrite entered_nodes).
  assert (pkcs11h_config_tf (TfModule tf) node s1 = go (DEFAULT_TOK, s')) as Hcall.
  { assert (provider_ctx s1 = Ok c) as Hc
      by (unfold provider_ctx, s1; rewrite entered_foo; change (g_foo s0) with (g_foo s); rewrite Hf; by destruct c).
    apply elem_of_cons in Hin as [[= -> ->]|[[= -> ->]|[]%elem_of_nil]%elem_of_cons].
    - change (stays (tf_pkcs11h_provider_name node s1) = go (DEFAULT_TOK, s')).
      unfold tf_pkcs11h_provider_name. rewrite Hc, bind_Ok, (get_node_ok _ _ _ Hp1), bind_Ok, Hh. done.
    - change (stays (tf_pkcs11h_provider_library node s1) = go (DEFAULT_TOK, s')).
      unfold tf_pkcs11h_provider_library. rewrite Hc, bind_Ok, (get_node_ok _ _ _ Hp1), bind_Ok, Hh. done. }
  assert (forall m, g_nodes s' !! m = g_nodes s !! m) as Hnodes.
  { intros m. unfold s'. cbn [g_nodes upd_node set_nodes set_foo].
    destruct (decide (m = node)) as [->|Hne]; [by rewrite lookup_alter_eq, Hp1, Hp|].
    rewrite lookup_alter_ne by done. unfold s1. by rewrite entered_nodes. }
  assert (exists tn', get_tn s' node 0 = Ok tn' /\ tn_next_token tn' = Some next) as Hnext
    by (eexists; split; [eapply get_tn_ok; [by rewrite Hnodes|reflexivity]|reflexivity]).
  exists s'. split; [|split; [|done]].
  - unfold eval_step. fold s0. rewrite Ha. cbn [stays rbind Z.eqb negb].
    destruct (decide (t = lit "default")) as [->|Hd].
    + eapply (do_transition_default _ _ _ p 0 _ DEFAULT_TOK); [done| |reflexivity|reflexivity|intros; lia|exact Hcall|done..].
      intros [|j] t' Ht'; [|done]. injection Ht' as <-. by eapply quiet_names.
    + eapply (do_transition_named _ _ _ p 0 _ t); [done|intros; lia|reflexivity|reflexivity|done|done|done|exact Hcall|done].
  - assert (g_nvp s' = g_nvp s) as Hl by (change (g_nvp s1 = g_nvp s); unfold s1; by rewrite entered_nvp).
    split; rewrite ?Hl, ?Hu; try done. unfold kept, s'. cbn [g_mnt g_mods g_keyring g_calls g_verbosity upd_node set_nodes set_foo].
    unfold s1, entered. destruct (bool_decide _); by split_and!.
Qed.

(** Between two visits: a context, but at the first node. *)
Definition cycling (node : Z) (s : gstate) : Prop :=
  spinning s /\
  (node = PKCS11H_PROVIER_TOK_PROVIDER \/
   node ∈ [PKCS11H_PROVIER_TOK_NAME; PKCS11H_PROVIER_TOK_LIBRARY; PKCS11H_PROVIER_TOK_PROT_AUTH;
           PKCS11H_PROVIER_TOK_CERT_PRIVATE; PKCS11H_PROVIER_TOK_PRIVATE_MASK; PKCS11H_PROVIER_TOK_END] /\
   exists c, g_foo s = foo_of c).

Lemma cycling_next s nm s' next c :
  advanced nm s s' -> spinning s -> g_foo s' = foo_of c ->
  next ∈ [PKCS11H_PROVIER_TOK_NAME; PKCS11H_PROVIER_TOK_LIBRARY; PKCS11H_PROVIER_TOK_PROT_AUTH;
          PKCS11H_PROVIER_TOK_CERT_PRIVATE; PKCS11H_PROVIER_TOK_PRIVATE_MASK; PKCS11H_PROVIER_TOK_END] ->
  cycling next s'.
Proof. intros Ha Hs Hf Hin. split; [by eapply spinning_advanced|]. right. split; [done|]. by exists c. Qed.

Ltac in_list := apply (bool_decide_unpack _); vm_compute; exact I.

(** The value of the first unused option, which is plain. *)
Lemma first_plain t s :
  (forall v, v ∈ unused t (g_nvp s) -> exists x, v = Some x /\ plain x) ->
  unused t (g_nvp s) = [] \/ exists x vs, unused t (g_nvp s) = Some x :: vs /\ plain x.
Proof.
  intros Hpl. destruct (unused t (g_nvp s)) as [|v vs]; [by left|right].
  destruct (Hpl v) as (x & -> & Hx); [by left|]. by exists x, vs.
Qed.

Lemma cycling_step node s :
  heap_never_fails -> cycling node s ->
  exists next s', eval_step pkcs11h_config_tf false node s = go (0, Some next, s') /\ cycling next s'.
Proof.
  intros Hh [Hs Hnode]. pose proof (sp_state _ Hs) as Hst. destruct Hnode as [->|(Hin & c & Hf)].
  { destruct (provider_first false s Hh Hst (sp_name _ Hs)) as (s' & He & Ha & _ & Hf').
    eexists _, s'. split; [exact He|]. by eapply cycling_next; [..|in_list]. }
  repeat (apply elem_of_cons in Hin as [->|Hin]); [..|by apply elem_of_nil in Hin].
  - destruct (first_plain (lit "name") s (sp_names _ Hs)) as [Hu|(x & vs & Hu & Hx)].
    + destruct (silent_step s PKCS11H_PROVIER_TOK_NAME (lit "name") (lit "PKCS#11 Provider Alias") (lit "library")
        PKCS11H_PROVIER_TOK_LIBRARY TF_PKCS11H_PROVIDER_NAME step_name c) as (s' & He & Ha & Hf');
        [done|apply Hst; right; by left|apply Hst|done|apply Hs|exact (sp_library _ Hs)|by left|done|].
      eexists _, s'. split; [exact He|]. by eapply cycling_next; [..|in_list].
    + destruct (provider_name false s x vs c Hh Hst Hf (sp_library _ Hs) Hu) as (s' & He & Ha & _ & Hf');
        [apply plain_not; [done|do 3 right; by left]|].
      eexists _, s'. split; [exact He|]. by eapply cycling_next; [..|in_list].
  - destruct (first_plain (lit "library") s (sp_libs _ Hs)) as [Hu|(x & vs & Hu & Hx)].
    + destruct (silent_step s PKCS11H_PROVIER_TOK_LIBRARY (lit "library") (lit "PKCS#11 Library") (lit "default")
        PKCS11H_PROVIER_TOK_PROT_AUTH TF_PKCS11H_PROVIDER_LIBRARY step_library c) as (s' & He & Ha & Hf');
        [done|apply Hst; do 2 right; by left|apply Hst|done|apply Hs|exact (cs_default _ Hst)|right; by left|done|].
      eexists _, s'. split; [exact He|]. by eapply cycling_next; [..|in_list].
    + destruct (provider_library false s x vs c Hh Hst Hf Hu) as (s' & He & Ha & _ & Hf');
        [apply plain_not; [done|do 4 right; by left]|].
      eexists _, s'. split; [exact He|]. by eapply cycling_next; [..|in_list].
  - destruct (unset_step false s PKCS11H_PROVIER_TOK_PROT_AUTH (lit "allow-protected-auth") (lit "Allow Protected Authentication")
      (lit "1") (Z.lor ECRYPTFS_PARAM_FLAG_ECHO_INPUT ECRYPTFS_ALLOW_IMPLICIT_TRANSITION) PKCS11H_PROVIER_TOK_CERT_PRIVATE
      TF_PKCS11H_PROVIDER_PROT_AUTH step_prot_auth c) as (s' & He & Ha & _ & Hf');
      [done|done|do 3 right; by left|done|right; by left|in_list|do 2 right; by left|done|].
    eexists _, s'. split; [exact He|]. by eapply cycling_next; [..|in_list].
  - destruct (unset_step false s PKCS11H_PROVIER_TOK_CERT_PRIVATE (lit "cert-private") (lit "Certificate is private object")
      (lit "0") ECRYPTFS_PARAM_FLAG_ECHO_INPUT PKCS11H_PROVIER_TOK_PRIVATE_MASK
      TF_PKCS11H_PROVIDER_CERT_PRIVATE step_cert_private c) as (s' & He & Ha & _ & Hf');
      [done|done|do 4 right; by left|done|do 2 right; by left|in_list|do 3 right; by left|done|].
    eexists _, s'. split; [exact He|]. by eapply cycling_next; [..|in_list].
  - destruct (unset_step false s PKCS11H_PROVIER_TOK_PRIVATE_MASK (lit "private-mask") (lit "Private Key Mask")
      (lit "0") ECRYPTFS_PARAM_FLAG_ECHO_INPUT PKCS11H_PROVIER_TOK_END
      TF_PKCS11H_PROVIDER_PRIVATE_MASK step_private_mask c) as (s' & He & Ha & _ & Hf');
      [done|done|do 5 right; by left|done|do 3 right; by left|in_list|do 4 right; by left|done|].
    eexists _, s'. split; [exact He|]. by eapply cycling_next; [..|in_list].
  - destruct (visit_end false s c Hh (cs_end _ Hst) (cs_named _ Hst)
      (cs_unset _ Hst (lit "dummy") ltac:(do 4 right; by left)) (cs_default _ Hst) Hf)
      as (s' & He & Hn & Hend & Hl & _ & Hv).
    eexists _, s'. split; [exact He|]. split; [|by left]. destruct Hs as [_ Hvb Hn1 Hl1 Hns Hls].
    split; rewrite ?Hl, ?Hv; try done. split; rewrite ?Hl; [|done|apply Hst..].
    intros n p Hin. rewrite Hn; [by apply Hst|]. intros ->. unfold cycle_nodes in Hin.
    repeat (apply elem_of_cons in Hin as [[=]|Hin]). by apply elem_of_nil in Hin.
Qed.
End Spinning.

(** The line verbosity=0 in the configuration file keeps the module from ever
    being loaded: when the providers are used up, nobody is asked for the next
    name, its text is the one that is printed for none, and the cycle goes round
    for ever.  No amount of fuel is enough. *)
Theorem pkcs11_verbosity_0_never_loads `{Heap} quiet w home open opts names libs lvl fuel s :
  heap_never_fails -> hooks_work w -> config_file open home opts -> config_says opts names libs lvl ->
  names <> [] -> libs <> [] -> get_verbosity (option_node <$> opts) = Ok 0 -> config_graphs (g_nodes s) ->
  ecryptfs_pkcs11h_init quiet w (Some home) open (S fuel) s = Ok None.
Proof.
  intros Hh -> Hf Hs Hnn Hnl Hvb Hg. unfold ecryptfs_pkcs11h_init. rewrite Hh. cbn [negb ps_initialize ps_setLogHook].
  destruct (parse_file_loglevel home open fuel (add_call (set_log_level quiet) s) opts names libs lvl 0)
    as (s1 & -> & Hn1 & Hc1); try done. rewrite bind_Ok.
  cbn [negb ps_setTokenPromptHook ps_setPINPromptHook ps_setProtectedAuthentication].
  rewrite (parse_file_walks _ _ _ _ _ opts 0) by done.
  rewrite (loop_forever _ _ cycling); [done|intros node s'; by apply cycling_step|].
  set (s2 := set_foo FooNull (set_verbosity 0 (set_mnt [None] (own_context (option_node <$> opts) s1)))).
  change (g_nvp s2) with (option_node <$> opts). split; [|by left].
  assert (forall t (l : list cstring), unused t (option_node <$> opts) = Some <$> l -> Forall plain l ->
    (forall v, v ∈ unused t (option_node <$> opts) -> exists x, v = Some x /\ plain x) /\
    (l <> [] -> Some t ∈ option_names (option_node <$> opts))) as Hl.
  { intros t l Hu Hpl. rewrite Hu. split.
    - intros v (x & -> & Hx)%list_elem_of_fmap. exists x. split; [done|]. rewrite Forall_forall in Hpl. by apply Hpl.
    - intros Hne. destruct l as [|x l]; [done|]. apply (unused_in_names _ (Some x)). rewrite Hu. by left. }
  destruct (Hl _ _ (sy_names _ _ _ _ Hs) (sy_plain_names _ _ _ _ Hs)) as [Hpn Hin_n].
  destruct (Hl _ _ (sy_libs _ _ _ _ Hs) (sy_plain_libs _ _ _ _ Hs)) as [Hpl Hin_l].
  split; [|done|by apply Hin_n|by apply Hin_l|exact Hpn|exact Hpl].
  destruct Hg as [_ Hcy Hend]. split; [| |apply option_nodes_named|apply Hs|apply Hs].
  - intros n p Hin. change (g_nodes s1 !! n = Some p). rewrite Hn1; [by apply Hcy|].
    intros ->. unfold cycle_nodes in Hin. repeat (apply elem_of_cons in Hin as [[=]|Hin]). by apply elem_of_nil in Hin.
  - exists None. split; [|by left]. change (g_nodes s1 !! PKCS11H_PROVIER_TOK_END = Some pk_end_node). by rewrite Hn1.
Qed.

Lemma pkcs11_verbosity_0_never_loads_witness :
  @ecryptfs_pkcs11h_init plenty (-2) (Pkcs11hSetup true true true true true) (Some (lit "/home/user"))
    (sample_open ((lit "verbosity", Some (lit "0")) :: sample_config)) (S 500) sample_config_state = Ok None.
Proof.
  apply (@pkcs11_verbosity_0_never_loads plenty (-2) (Pkcs11hSetup true true true true true) (lit "/home/user")
    (sample_open ((lit "verbosity", Some (lit "0")) :: sample_config)) ((lit "verbosity", Some (lit "0")) :: sample_config)
    [lit "card"; lit "soft"] [lit "/lib/card.so"; lit "/lib/soft.so"] (lit "5") 500 sample_config_state).
  - done.
  - done.
  - sample_file.
  - sample_says.
  - done.
  - done.
  - vm_compute. reflexivity.
  - exact sample_graphs.
Defined.
