(* ===== verification/Terminal.v ===== *)
(** * Reading from the terminal ([utils/io.c])

    Lines of any length into growing memory, lines into a fixed buffer, the
    menus of the manager and the passphrase with its confirmation.  The standard
    input is the list of the characters that are still to come; at its end
    [getchar] returns [EOF], again and again. *)

From S2P Require Import Prelude CLib Ecryptfs KeyMod KeyManagement.

(** The terminal: its local flags and the codes of [tcgetattr] and
    [tcsetattr]. *)
Record terminal := Terminal { lflag : Z; tcgetattr_rc : Z; tcsetattr_rc : Z }.

Definition set_lflag (x : Z) (t : terminal) : terminal :=
  if tcsetattr_rc t =? 0 then Terminal x (tcgetattr_rc t) (tcsetattr_rc t) else t.

(** The code, the saved flags and the terminal. *)
Definition disable_echo (t : terminal) : Z * option Z * terminal :=
  if negb (tcgetattr_rc t =? 0) then (tcgetattr_rc t, None, t)
  else (tcsetattr_rc t, Some (lflag t), set_lflag (Z.land (lflag t) (Z.lnot ECHO)) t).
Definition enable_echo (saved_settings : Z) (t : terminal) : Z * terminal :=
  (tcsetattr_rc t, set_lflag saved_settings t).

(** The character [mygetchar] makes of one of the input; [None] is [EOF]. *)
Definition newline_of (c : Z) : Z := if c =? 13 then 10 else c.
Definition mygetchar (input : list Z) : option Z * list Z :=
  match input with
  | [] => (None, [])
  | c :: input' => (Some (newline_of c), input')
  end.

Section Strings.
Context `{Heap}.

Definition DEFAULT_STRING_LENGTH : Z := 16.

(** The [do] loop of [get_string_stdin]: the code, the block of [*val], the
    number of characters, whether the end was reached and the input left. *)
Fixpoint stdin_loop (count length : Z) (val : bytes) (input : list Z)
    : outcome (Z * bytes * Z * bool * list Z) :=
  let grown := count =? length in
  if grown && negb (alloc_ok 1183 (Z.to_nat length)) then mret (- ENOMEM, val, count, false, input)
  else
    val ← (if grown then
             old ← rd val 0 length;
             wr (malloc_block heap_junk (length * 2)) 0 old
           else mret val);
    let length := if grown then length * 2 else length in
    match input with
    | [] => val ← wr val count [10]; mret (0, val, count + 1, true, [])
    | c :: input =>
        let c := newline_of c in
        val ← wr val count [c];
        if c =? 10 then mret (0, val, count + 1, false, input)
        else stdin_loop (count + 1) length val input
    end.

(** [*val] after the call: left alone, null or a block. *)
Inductive pointer := Untouched | Null | Block (b : bytes).

Definition get_string_stdin (echo : bool) (t : terminal) (input : list Z)
    : outcome (Z * pointer * terminal * list Z) :=
  if negb (alloc_ok 1164 0) then mret (- ENOMEM, Untouched, t, input)
  else
    temp ← wr (malloc_block heap_junk DEFAULT_STRING_LENGTH) 0 [0];
    let '(rc, saved_settings, t) := if echo then (0, None, t) else disable_echo t in
    if negb (rc =? 0) then mret (rc, Block temp, t, input)
    else
      '(rc, val, count, eof, input) ←
        stdin_loop 0 DEFAULT_STRING_LENGTH temp input;
      if negb (rc =? 0) then mret (rc, Block val, t, input)
      else
        val ← wr val (count - 1) [0];
        let '(rc, t) := match saved_settings with
                        | Some saved => enable_echo saved t
                        | None => (0, t)
                        end in
        if (count =? 1) && eof then mret (- EIO, Null, t, input)
        else mret (rc, Block val, t, input).

(** The loop of [get_string]; [val] is the buffer of the caller. *)
Fixpoint string_loop (count len : Z) (val : bytes) (input : list Z)
    : outcome (bytes * Z * bool * list Z) :=
  match input with
  | [] => val ← wr val count [10]; mret (val, count + 1, true, [])
  | c :: input =>
      let c := newline_of c in
      val ← wr val count [c];
      if (c =? 10) || negb (count + 1 <? len) then mret (val, count + 1, false, input)
      else string_loop (count + 1) len val input
  end.

Definition get_string (val : bytes) (len : Z) (echo : bool) (t : terminal) (input : list Z)
    : outcome (Z * bytes * terminal * list Z) :=
  let '(rc, saved_settings, t) := if echo then (0, None, t) else disable_echo t in
  if negb (rc =? 0) then mret (rc, val, t, input)
  else
    '(val, count, eof, input) ← string_loop 0 len val input;
    let '(rc, t) := match saved_settings with
                    | Some saved => enable_echo saved t
                    | None => (0, t)
                    end in
    if (count =? 1) && eof then val ← wr val 0 [0]; mret (- EIO, val, t, input)
    else if len <? count then val ← wr val (len - 1) [0]; mret (rc, val, t, input)
    else val ← wr val (count - 1) [0]; mret (rc, val, t, input).

(** ** The menu of the manager *)
Definition MME_MOUNT_PASSPHRASE : Z := 1.
Definition MME_MOUNT_PUBKEY : Z := 2.
Definition MME_GEN_PUBKEY : Z := 3.
Definition MME_ABORT : Z := 4.

(** The rest of the line: the code and the input after it. *)
Fixpoint skip_line (input : list Z) : list Z :=
  match input with
  | [] => []
  | c :: input' => if newline_of c =? 10 then input' else skip_line input'
  end.

Definition munch_newline (input : list Z) : Z * list Z :=
  match mygetchar input with
  | (None, input) => (0, input)
  | (Some c, input) => if c =? 10 then (0, input) else (-1, skip_line input)
  end.

(** From the label [try_again] on, [fuel] times; [str] is the array on the
    stack, which is not initialised.  [None] when the fuel runs out. *)
Fixpoint manager_menu (fuel : nat) (str : bytes) (input : list Z) : outcome (option Z * list Z) :=
  match fuel with
  | O => mret (None, input)
  | S fuel' =>
      let '(c, input) := mygetchar input in
      str ← wr str 0 [default 255 c];
      let '(rc, input) := munch_newline input in
      if negb (rc =? 0) then manager_menu fuel' str input
      else
        text ← cstr_of str;
        let selection := atoi text in
        if (MME_MOUNT_PASSPHRASE <=? selection) && (selection <=? MME_ABORT)
        then mret (Some selection, input)
        else manager_menu fuel' str input
  end.

(** ** The passphrase and its confirmation *)

(** [pass] has room for [ECRYPTFS_MAX_PASSWORD_LENGTH] bytes; the salt is not
    used. *)
Definition read_passphrase_salt (pass : bytes) (t : terminal) (input : list Z)
    : outcome (Z * bytes * terminal * list Z) :=
  if negb (alloc_ok 1229 0) then UB NullDeref
  else
    let confirmed_pass := malloc_block heap_junk ECRYPTFS_MAX_PASSWORD_LENGTH in
    '(rc, pass, t, input) ← get_string pass ECRYPTFS_MAX_PASSWORD_LENGTH false t input;
    if negb (rc =? 0) then mret (rc, pass, t, input)
    else
      first ← rd1 pass 0;
      if first =? 0 then mret (- EINVAL, pass, t, input)
      else
        '(rc, confirmed_pass, t, input) ←
          get_string confirmed_pass ECRYPTFS_MAX_PASSWORD_LENGTH false t input;
        if negb (rc =? 0) then mret (rc, pass, t, input)
        else
          a ← cstr_of pass;
          b ← cstr_of confirmed_pass;
          mret (if streq a b then 0 else - EINVAL, pass, t, input).
End Strings.

(** ** The choice of a key module *)

(** The string in an array that a read filled. *)
Fixpoint until_nul (b : bytes) : cstring :=
  match b with
  | [] => []
  | c :: b' => if c =? 0 then [] else c :: until_nul b'
  end.

(** The position of the module chosen; [fuel] bounds the prompts. *)
Fixpoint select_loop (fuel : nat) (n : Z) (input : list Z) : option (Z * option Z * list Z) :=
  match fuel with
  | O => None
  | S fuel' =>
      match fgets 4 input with
      | None => Some (- EIO, None, input)
      | Some (str, input) =>
          let text := until_nul str in
          let key_mod_type := if bool_decide (head str = Some 10) then 1 else atoi text in
          if (key_mod_type <? 1) || (n <? key_mod_type) then
            select_loop fuel' n (if bool_decide (10 ∈ text) then input else skip_line input)
          else Some (0, Some (key_mod_type - 1), input)
      end
  end.

Definition ecryptfs_select_key_mod (mods : key_mod_list) (input : list Z)
    : option (Z * option Z * list Z) :=
  match mods with
  | [] => Some (1, None, input)
  | [_] => Some (0, Some 0, input)
  | _ => select_loop (S (length input)) (zlen mods) input
  end.

(** ** Lemmas *)

(** The characters of a line. *)
Definition line_char (c : Z) : Prop := c <> 0 /\ c <> 10 /\ c <> 13.

Lemma newline_of_char c : line_char c -> newline_of c = c.
Proof. intros (_ & _ & Hc). unfold newline_of. by rewrite (proj2 (Z.eqb_neq _ _) Hc). Qed.

Lemma line_char_nonzero line : Forall line_char line -> Forall (fun c => c <> 0) line.
Proof. intros Hl. eapply Forall_impl; [exact Hl|]. by intros c (? & _ & _). Qed.

(** One character into a block that is filled up to [count]. *)
Lemma wr_next (pre tail : bytes) x c : wr (pre ++ x :: tail) (zlen pre) [c] = Ok (pre ++ c :: tail).
Proof. by apply (wr_app3 pre [x] tail (zlen pre) [c]). Qed.

Section Lines.
Context `{Heap}.

(** The block grows as the line is read, and keeps what it holds. *)
Lemma stdin_loop_line line rest pre tail count length :
  heap_never_fails -> Forall line_char line ->
  count = zlen pre -> length = zlen (pre ++ tail) -> 0 < length ->
  exists tail', stdin_loop count length (pre ++ tail) (line ++ 10 :: rest) =
    Ok (0, pre ++ line ++ 10 :: tail', count + zlen line + 1, false, rest).
Proof.
  intros Hh Hl. revert pre tail count length.
  assert (forall pre tail count length input, count = zlen pre -> length = zlen (pre ++ tail) -> 0 < length ->
    exists x tail' length', length' = zlen (pre ++ x :: tail') /\ 0 < length' /\
      forall c, stdin_loop count length (pre ++ tail) (c :: input) =
        val ← wr (pre ++ x :: tail') count [newline_of c];
        if newline_of c =? 10 then mret (0, val, count + 1, false, input)
        else stdin_loop (count + 1) length' val input) as Hstep.
  { intros pre tail count length input -> -> Hpos. cbn [stdin_loop]. rewrite Hh, andb_false_r.
    destruct tail as [|x tail].
    - rewrite app_nil_r in *. rewrite Z.eqb_refl. rewrite rd_ok by lia. rewrite drop_0.
      rewrite take_ge by (unfold zlen; lia). cbn [obind].
      rewrite wr_ok by (rewrite ?zlen_malloc_block; lia).
      change (Z.to_nat 0) with 0%nat. rewrite take_0, Nat.add_0_l. cbn [app].
      set (b := malloc_block _ _). assert (zlen (drop (List.length pre) b) = zlen pre) as Hb.
      { rewrite zlen_drop. unfold b. rewrite zlen_malloc_block by lia. unfold zlen in *. lia. }
      destruct (drop (List.length pre) b) as [|x tail]; [rewrite zlen_nil in Hb; lia|].
      exists x, tail, (zlen pre * 2). rewrite zlen_app, Hb. split_and!; [lia|lia|done].
    - rewrite zlen_app, zlen_cons in *. pose proof (zlen_nonneg tail). pose proof (zlen_nonneg pre).
      rewrite (proj2 (Z.eqb_neq _ _)) by lia. cbn [mret outcome_ret].
      exists x, tail, (zlen pre + (1 + zlen tail)). rewrite zlen_app, zlen_cons. split_and!; [lia|lia|done]. }
  induction Hl as [|c line Hc Hl IH]; intros pre tail count length Hcount Hlen Hpos.
  - destruct (Hstep pre tail count length rest Hcount Hlen Hpos) as (x & tail' & l' & _ & _ & Hs).
    exists tail'. cbn [app]. rewrite Hs, Hcount, wr_next, bind_Ok. change (newline_of 10) with 10.
    change (zlen (@nil Z)) with 0. cbn [Z.eqb Pos.eqb]. do 2 f_equal. repeat f_equal. lia.
  - destruct (Hstep pre tail count length (line ++ 10 :: rest) Hcount Hlen Hpos)
      as (x & tail1 & l1 & Hl1 & Hp1 & Hs).
    cbn [app]. rewrite Hs, newline_of_char, Hcount, wr_next, bind_Ok by done.
    destruct Hc as (_ & Hc & _). rewrite (proj2 (Z.eqb_neq _ _) Hc).
    replace (pre ++ c :: tail1) with ((pre ++ [c]) ++ tail1) by (by rewrite <- app_assoc).
    destruct (IH (pre ++ [c]) tail1 (zlen pre + 1) l1) as (tail2 & Heq);
      [by rewrite zlen_app|rewrite Hl1, !zlen_app, zlen_cons; change (zlen [c]) with 1; lia|done|].
    exists tail2. rewrite Heq, <- app_assoc. cbn [app].
    by replace (zlen pre + 1 + zlen line + 1) with (zlen pre + zlen (c :: line) + 1)
      by (rewrite zlen_cons; lia).
Qed.

Lemma string_loop_line line rest pre tail count len room :
  Forall line_char line -> count = zlen pre -> len = count + Z.of_nat (S room) ->
  (S room <= length tail)%nat ->
  let taken := take (S room) (line ++ [10]) in
  string_loop count len (pre ++ tail) (line ++ 10 :: rest) =
  Ok (pre ++ taken ++ drop (length taken) tail, count + zlen taken, false,
      drop (S room) (line ++ [10]) ++ rest).
Proof.
  intros Hl. revert pre tail count room.
  induction Hl as [|c line Hc Hl IH]; intros pre tail count room Hcount Hlen Hroom;
    (destruct tail as [|x tail]; [cbn in Hroom; lia|]); cbn [app string_loop take drop length];
    rewrite Hcount, ?newline_of_char, wr_next, bind_Ok by done.
  - change (newline_of 10) with 10. cbn [Z.eqb Pos.eqb orb]. rewrite take_nil, drop_nil.
    cbn [app length drop]. by rewrite drop_0.
  - destruct Hc as (_ & Hc & _). rewrite (proj2 (Z.eqb_neq _ _) Hc). cbn [orb].
    destruct room as [|room].
    + replace (zlen pre + 1 <? len) with false by lia. cbn [negb take drop app length].
      rewrite ?drop_0, <- ?app_assoc. done.
    + replace (zlen pre + 1 <? len) with true by lia. cbn [negb].
      replace (pre ++ c :: tail) with ((pre ++ [c]) ++ tail) by (by rewrite <- app_assoc).
      rewrite (IH (pre ++ [c]) tail (zlen pre + 1) room);
        [|by rewrite zlen_app|lia|cbn in Hroom; lia].
      rewrite <- app_assoc. cbn [app length drop]. rewrite zlen_cons. do 4 f_equal. lia.
Qed.

Lemma take_S_snoc (l : list Z) a n : exists y, take (S n) (l ++ [a]) = take n l ++ [y].
Proof.
  destruct (decide (n < length l)%nat) as [Hn|Hn].
  - destruct (lookup_lt_is_Some_2 l n Hn) as [y Hy]. exists y.
    rewrite take_app_le by lia. by apply take_S_r.
  - exists a. rewrite !take_ge by (rewrite ?length_app; cbn; lia). done.
Qed.

(** The terminal works; with echo it is not touched. *)
Definition echo_works (echo : bool) (t : terminal) : Prop :=
  echo = true \/ tcgetattr_rc t = 0 /\ tcsetattr_rc t = 0.

Lemma echo_restored t : tcgetattr_rc t = 0 -> tcsetattr_rc t = 0 ->
  exists t', disable_echo t = (0, Some (lflag t), t') /\ enable_echo (lflag t) t' = (0, t).
Proof.
  intros Hg Hs. unfold disable_echo, enable_echo, set_lflag. rewrite Hg, Hs. cbn [negb Z.eqb].
  eexists. split; [reflexivity|]. destruct t. cbn in *. by subst.
Qed.

(** What [get_string] makes of a line: the characters that fit, terminated. *)
Lemma get_string_ok val len echo t line rest :
  0 < len <= zlen val -> Forall line_char line -> echo_works echo t ->
  let text := take (Z.to_nat (len - 1)) line in
  get_string val len echo t (line ++ 10 :: rest) =
  Ok (0, text ++ 0 :: drop (S (length text)) val, t, drop (Z.to_nat len) (line ++ [10]) ++ rest).
Proof.
  intros Hlen Hl He text.
  pose proof (string_loop_line line rest [] val 0 len (Z.to_nat (len - 1)) Hl eq_refl ltac:(lia)
    ltac:(unfold zlen in *; lia)) as Hs. cbn zeta in Hs.
  destruct (take_S_snoc line 10 (Z.to_nat (len - 1))) as (y & Hy).
  rewrite Hy in Hs. fold text in Hs. replace (S (Z.to_nat (len - 1))) with (Z.to_nat len) in Hs by lia.
  rewrite length_app, zlen_app in Hs. change (zlen [y]) with 1 in Hs. cbn [length] in Hs.
  rewrite Nat.add_1_r in Hs.
  assert (0 + (zlen text + 1) <= len) as Hle by (unfold text; rewrite zlen_take; lia).
  cbn [app] in Hs. rewrite <- app_assoc in Hs. cbn [app] in Hs.
  assert (forall rc t',
    (val ← wr (text ++ y :: drop (S (length text)) val) (0 + (zlen text + 1) - 1) [0];
     mret (rc, val, t', drop (Z.to_nat len) (line ++ [10]) ++ rest)) =
    Ok (rc : Z, text ++ 0 :: drop (S (length text)) val, t' : terminal,
        drop (Z.to_nat len) (line ++ [10]) ++ rest)) as Hw.
  { intros rc t'. replace (0 + (zlen text + 1) - 1) with (zlen text) by lia.
    by rewrite wr_next, bind_Ok. }
  unfold get_string. destruct echo.
  - cbn [Z.eqb negb]. rewrite Hs, bind_Ok, andb_false_r.
    replace (len <? 0 + (zlen text + 1)) with false by lia. apply Hw.
  - destruct He as [|[Hg Hset]]; [done|]. destruct (echo_restored t Hg Hset) as (t' & -> & He).
    cbn [Z.eqb negb]. rewrite Hs, bind_Ok, He, andb_false_r.
    replace (len <? 0 + (zlen text + 1)) with false by lia. apply Hw.
Qed.
End Lines.

(** ** Properties *)

(** A line typed at a prompt is read whole, whatever its length: the block
    grows without a write outside it, ends with a terminator, and the input after
    the line is left.  The terminal is as it was. *)
Theorem get_string_stdin_line `{Heap} echo t line rest :
  heap_never_fails -> Forall line_char line -> echo_works echo t ->
  exists b, get_string_stdin echo t (line ++ 10 :: rest) = Ok (0, Block b, t, rest) /\
    cstr_of b = Ok line.
Proof.
  intros Hh Hl He. unfold get_string_stdin. rewrite Hh. cbn [negb].
  destruct (malloc_block heap_junk DEFAULT_STRING_LENGTH) as [|x b] eqn:Hb; [done|].
  assert (zlen (x :: b) = 16) as Hlen by (rewrite <- Hb; by rewrite zlen_malloc_block).
  rewrite (wr_next [] b x 0 : wr (x :: b) 0 [0] = _), bind_Ok. cbn [app].
  destruct (stdin_loop_line line rest [] (0 :: b) 0 DEFAULT_STRING_LENGTH Hh Hl eq_refl)
    as (tail & Hs); [rewrite zlen_cons in *; cbn [app]; rewrite zlen_cons; unfold DEFAULT_STRING_LENGTH; lia|done|].
  cbn [app] in Hs. exists (line ++ 0 :: tail).
  assert (wr (line ++ 10 :: tail) (0 + zlen line + 1 - 1) [0] = Ok (line ++ 0 :: tail)) as Hw.
  { replace (0 + zlen line + 1 - 1) with (zlen line) by lia. apply wr_next. }
  split; [|apply cstr_of_app; by apply line_char_nonzero]. destruct echo.
  - cbn [Z.eqb negb]. rewrite Hs, bind_Ok. cbn [Z.eqb negb]. rewrite Hw, bind_Ok.
    by rewrite andb_false_r.
  - destruct He as [|[Hg Hset]]; [done|]. destruct (echo_restored t Hg Hset) as (t' & -> & Ht').
    cbn [Z.eqb negb]. rewrite Hs, bind_Ok. cbn [Z.eqb negb]. rewrite Hw, bind_Ok, Ht'.
    by rewrite andb_false_r.
Qed.

Lemma get_string_stdin_line_witness :
  exists b, @get_string_stdin plenty false (Terminal 8 0 0) (lit "a passphrase of more than sixteen characters" ++ 10 :: lit "yes") =
    Ok (0, Block b, Terminal 8 0 0, lit "yes") /\
    cstr_of b = Ok (lit "a passphrase of more than sixteen characters").
Proof.
  apply (@get_string_stdin_line plenty false (Terminal 8 0 0)); [done| |by right].
  apply (bool_decide_unpack (Forall (fun c => c <> 0 /\ c <> 10 /\ c <> 13) _)). vm_compute. exact I.
Defined.

(** The passphrase of the manager, for lines that fit the buffer: an empty one
    is refused at once; otherwise the code is 0 exactly when the second line is
    the same, the buffer holds the first line, and the terminal echoes again. *)
Theorem read_passphrase_salt_correct `{Heap} pass t line1 line2 rest :
  heap_never_fails -> zlen pass = ECRYPTFS_MAX_PASSWORD_LENGTH -> echo_works false t ->
  Forall line_char line1 -> Forall line_char line2 ->
  zlen line1 < ECRYPTFS_MAX_PASSWORD_LENGTH -> zlen line2 < ECRYPTFS_MAX_PASSWORD_LENGTH ->
  read_passphrase_salt pass t (line1 ++ 10 :: line2 ++ 10 :: rest) =
  Ok (if bool_decide (line1 = line2 /\ line1 <> []) then 0 else - EINVAL,
      line1 ++ 0 :: drop (S (length line1)) pass, t,
      if bool_decide (line1 = []) then line2 ++ 10 :: rest else rest).
Proof.
  intros Hh Hp Ht Hl1 Hl2 Hn1 Hn2. change ECRYPTFS_MAX_PASSWORD_LENGTH with 64 in *.
  assert (forall b line rest', zlen b = 64 -> Forall line_char line -> zlen line < 64 ->
    get_string b 64 false t (line ++ 10 :: rest') =
    Ok (0, line ++ 0 :: drop (S (length line)) b, t, rest')) as Hget.
  { intros b line rest' Hb Hl Hn. rewrite get_string_ok by (done || lia). unfold zlen in Hn.
    rewrite take_ge by lia. rewrite (drop_ge (line ++ [10])) by (rewrite length_app; cbn; lia). done. }
  unfold read_passphrase_salt. rewrite Hh. cbn [negb].
  change ECRYPTFS_MAX_PASSWORD_LENGTH with 64. rewrite Hget, bind_Ok by done. cbn [Z.eqb negb].
  destruct line1 as [|c line1].
  { cbn [app]. change (rd1 (0 :: ?b) 0) with (Ok 0). rewrite bind_Ok. cbn [Z.eqb].
    rewrite bool_decide_eq_false_2 by naive_solver. done. }
  change (rd1 ((c :: ?a) ++ ?b) 0) with (Ok c). rewrite bind_Ok.
  apply Forall_cons in Hl1 as Hc. destruct Hc as [(Hc & _) _]. rewrite (proj2 (Z.eqb_neq _ _) Hc).
  rewrite Hget, bind_Ok by (done || by rewrite zlen_malloc_block). cbn [Z.eqb negb].
  rewrite !cstr_of_app, !bind_Ok by (by apply line_char_nonzero).
  rewrite (bool_decide_eq_false_2 (c :: line1 = [])) by done.
  destruct (decide (c :: line1 = line2)) as [<-|Hne].
  - by rewrite streq_refl, bool_decide_eq_true_2.
  - rewrite streq_ne by done. by rewrite bool_decide_eq_false_2 by naive_solver.
Qed.

Lemma read_passphrase_salt_correct_witness :
  @read_passphrase_salt plenty (zeros 64) (Terminal 8 0 0) (lit "secret" ++ 10 :: lit "secret" ++ [10]) =
  Ok (0, lit "secret" ++ zeros 58, Terminal 8 0 0, []).
Proof.
  exact (@read_passphrase_salt_correct plenty (zeros 64) (Terminal 8 0 0) (lit "secret") (lit "secret") []
    (fun _ _ => eq_refl) eq_refl (or_intror (conj eq_refl eq_refl))
    ltac:(repeat constructor; done) ltac:(repeat constructor; done) eq_refl eq_refl).
Defined.

Lemma length_skip_line input : (length (skip_line input) <= length input)%nat.
Proof. induction input as [|c input IH]; cbn; [lia|]. case_match; lia. Qed.

Lemma fgets_shorter input str input' : fgets 4 input = Some (str, input') -> (length input' < length input)%nat.
Proof.
  destruct input as [|c input]; [done|]. unfold fgets. change (4 - 1)%nat with 3%nat.
  pose proof (get_line_app 3 (c :: input)) as Ha.
  destruct (get_line 3 (c :: input)) as [l r] eqn:Hg. intros [= -> ->].
  destruct str as [|d str]; [cbn in Hg; by repeat case_match|].
  apply (f_equal length) in Ha. rewrite length_app in Ha. cbn in *. lia.
Qed.

(** The choice of a key module always ends: with a module of the list, with
    1 when there is none, or with -EIO at the end of the input.  Each prompt takes
    something from the input, so as many prompts as it has characters are enough. *)
Theorem select_key_mod_ends mods input :
  exists rc i rest, ecryptfs_select_key_mod mods input = Some (rc, i, rest) /\
    (rc = 0 /\ (exists k, i = Some k /\ 0 <= k < zlen mods) \/
     rc = 1 /\ mods = [] /\ i = None \/ rc = - EIO /\ i = None /\ rest = []).
Proof.
  assert (forall fuel n inp, (length inp < fuel)%nat ->
    exists rc i rest, select_loop fuel n inp = Some (rc, i, rest) /\
      (rc = 0 /\ (exists k, i = Some k /\ 0 <= k < n) \/ rc = - EIO /\ i = None /\ rest = [])) as Hloop.
  { intros fuel n. induction fuel as [|fuel IH]; intros inp Hf; [lia|]. cbn [select_loop].
    destruct (fgets 4 inp) as [[str inp']|] eqn:Hg.
    - apply fgets_shorter in Hg. set (key_mod_type := if bool_decide _ then 1 else _).
      destruct ((key_mod_type <? 1) || (n <? key_mod_type)) eqn:Hk.
      + apply IH. case_match; [|pose proof (length_skip_line inp')]; lia.
      + eexists _, _, _. split; [done|]. left. split; [done|]. eexists. split; [done|]. apply orb_false_iff in Hk. lia.
    - eexists _, _, _. split; [done|]. right. split_and!; [done..|]. by destruct inp. }
  unfold ecryptfs_select_key_mod. destruct mods as [|m [|m' mods]].
  - eexists _, _, _. split; [done|]. by right; left.
  - eexists _, _, _. split; [done|]. left. split; [done|]. exists 0. by vm_compute.
  - destruct (Hloop (S (length input)) (zlen (m :: m' :: mods)) input) as (rc & i & rest & Hs & Hr); [lia|].
    exists rc, i, rest. split; [exact Hs|]. tauto.
Qed.

(** At the end of the input the menu of the manager never ends. *)
Theorem manager_menu_endless fuel x str text :
  cstr_of str = Ok text -> manager_menu fuel (x :: str) [] = Ok (None, []).
Proof.
  intros Hs. revert x. induction fuel as [|fuel IH]; intros x; [done|]. cbn [manager_menu mygetchar].
  change (wr (x :: str) 0 [default 255 None]) with (wr ([] ++ x :: str) (zlen (@nil Z)) [255]).
  rewrite wr_next, bind_Ok. cbn [app munch_newline mygetchar Z.eqb negb cstr_of].
  rewrite Hs, bind_Ok. cbn [obind]. replace (atoi (255 :: text)) with 0 by (by destruct text as [|? [|? ?]]). apply IH.
Qed.
