(* ===== verification/Sysfs.v ===== *)
(** * The version of the kernel module ([libecryptfs/sysfs.c])

    The mount point of sysfs is looked up in the table of mounts, which is read
    twice, and the version is read from a file below it.  The tests of the bits
    of the version are in [ModuleMgr]. *)

From S2P Require Import Prelude CLib Ecryptfs Terminal.

Record mount_entry := MountEntry { me_type : cstring; me_dir : cstring }.

(** What the process sees: the table of mounts at its first and second reading;
    the file with a name at the first and second attempt to open it; what
    [system] and [read] return. *)
Record sysfs_world := SysfsWorld {
  mtab_read : nat -> Z + list mount_entry;
  version_open : nat -> cstring -> Z + bytes;
  modprobe : Z;
  read_fails : bool
}.

Definition first_sysfs (entries : list mount_entry) : option mount_entry :=
  snd <$> list_find (fun e => me_type e = lit "sysfs") entries.

(** The code, [*mnt_size] when it is set, and the block [mnt]. *)
Definition get_sysfs_mountpoint (mtab : Z + list mount_entry) (mnt : option bytes)
    : outcome (Z * option Z * option bytes) :=
  match mtab with
  | inl errno => mret (- errno, None, mnt)
  | inr entries =>
      let dir := match first_sysfs entries with Some e => me_dir e | None => lit "/sys" end in
      match mnt with
      | None => mret (0, Some (zlen dir), None)
      | Some b => b ← wr b 0 dir; mret (0, Some (zlen dir), Some b)
      end
  end.

(** [atoi] of an array: it reads on while there are digits. *)
Definition atoi_array (b : bytes) : outcome Z :=
  let text := until_nul b in
  if (zlen text =? zlen b) && forallb isdigit (split_sign (skip_spaces text)).2
  then UB OutOfBoundsRead else mret (atoi text).

Section Version.
Context `{Heap} (w : sysfs_world).

(** The code and [*version] when it is set; the number read is converted to an
    unsigned integer. *)
Definition ecryptfs_get_version : outcome (Z * option Z) :=
  '(rc, mnt_size, _) ← get_sysfs_mountpoint (mtab_read w 0) None;
  match mnt_size with
  | None => mret (rc, None)
  | Some mnt_size =>
      if negb (alloc_ok 73 0) then mret (- ENOMEM, None)
      else
        '(rc, size, mnt) ← get_sysfs_mountpoint (mtab_read w 1)
                             (Some (malloc_block heap_junk (mnt_size + 1)));
        match size, mnt with
        | Some size, Some mnt =>
            mnt ← wr mnt size [0];
            dir ← cstr_of mnt;
            if negb (alloc_ok 84 0) then mret (- ENOMEM, None)
            else
              let handle := dir ++ lit "/fs/ecryptfs/version" in
              let fd := match version_open w 0 handle with
                        | inl errno =>
                            if (errno =? ENOENT) && negb (modprobe w =? -1)
                            then version_open w 1 handle else inl errno
                        | fd => fd
                        end in
              match fd with
              | inl _ => mret (- EINVAL, None)
              | inr content =>
                  let data := take 16 content in
                  if read_fails w || (zlen data =? 0) then mret (- EINVAL, None)
                  else
                    version_str ← wr (malloc_block heap_junk 16) 0 data;
                    n ← atoi_array version_str;
                    mret (0, Some (u32 n))
              end
        | _, _ => mret (rc, None)
        end
  end.
End Version.

(** ** Properties *)

Lemma get_sysfs_mountpoint_fits entries b :
  let dir := match first_sysfs entries with Some e => me_dir e | None => lit "/sys" end in
  zlen dir <= zlen b ->
  get_sysfs_mountpoint (inr entries) (Some b) =
  Ok (0, Some (zlen dir), Some (dir ++ drop (length dir) b)).
Proof.
  intros dir Hd. unfold get_sysfs_mountpoint. fold dir. rewrite wr_ok by lia.
  by rewrite bind_Ok.
Qed.

Lemma show_digits_digits fuel n acc :
  0 <= n -> Forall (fun c => 48 <= c <= 57) acc -> Forall (fun c => 48 <= c <= 57) (show_digits fuel n acc).
Proof.
  revert n acc. induction fuel as [|fuel IH]; intros n acc Hn Ha; [done|]. cbn [show_digits].
  assert (Forall (fun c => 48 <= c <= 57) (48 + n mod 10 :: acc)) as Ha'
    by (apply Forall_cons; split; [lia|done]).
  destruct (n <? 10); [done|]. apply IH; [lia|done].
Qed.

Lemma until_nul_app a b : Forall (fun c => c <> 0) a -> until_nul (a ++ b) = a ++ until_nul b.
Proof.
  induction 1 as [|c a Hc _ IH]; [done|]. cbn [app until_nul].
  by rewrite (proj2 (Z.eqb_neq _ _) Hc), IH.
Qed.

(** A number and a newline at the start of an array. *)
Lemma atoi_array_line v rest :
  0 <= v < 2 ^ 31 -> atoi_array (show_int v ++ 10 :: rest) = Ok v.
Proof.
  intros Hv. unfold atoi_array.
  assert (Forall (fun c => 48 <= c <= 57) (show_int v)) as Hd.
  { unfold show_int. replace (v <? 0) with false by lia. apply show_digits_digits; [lia|apply Forall_nil_2]. }
  assert (exists d r, show_int v = d :: r) as (d & r & Hdr).
  { unfold show_int. replace (v <? 0) with false by lia.
    destruct (show_digits_head (S (Z.to_nat (Z.log2 v))) v [] ltac:(lia) ltac:(lia)) as (d & r & E & _).
    by exists d, r. }
  rewrite until_nul_app by (eapply Forall_impl; [exact Hd|]; cbn; lia). cbn [until_nul Z.eqb].
  assert (forall t, (split_sign (skip_spaces (show_int v ++ t))).2 = show_int v ++ t) as Hs.
  { intros t. rewrite Hdr in *. apply Forall_cons in Hd as [Hd _]. cbn [app skip_spaces].
    unfold isspace. replace (((9 <=? d) && (d <=? 13)) || (d =? 32)) with false by lia.
    cbn [split_sign]. replace (d =? 45) with false by lia. by replace (d =? 43) with false by lia. }
  rewrite Hs, forallb_app. cbn [forallb isdigit]. rewrite (andb_false_r (forallb _ _)), andb_false_r.
  unfold atoi. rewrite strtol_show_int by (done || unfold LONG_MAX; lia).
  unfold mret, outcome_ret, i32. f_equal. apply swrap_small; lia.
Qed.

(** The version that the file below the mount point of sysfs gives, in a line
    of decimal digits, is the version reported; a file that is missing is opened
    again after the module was loaded. *)
Theorem get_version_correct `{Heap} w entries v :
  heap_never_fails -> (forall k, mtab_read w k = inr entries) -> read_fails w = false ->
  let dir := match first_sysfs entries with Some e => me_dir e | None => lit "/sys" end in
  let handle := dir ++ lit "/fs/ecryptfs/version" in
  Forall (fun c => c <> 0) dir -> 0 <= v < 2 ^ 31 ->
  version_open w 0 handle = inr (show_int v ++ [10]) \/
  version_open w 0 handle = inl ENOENT /\ modprobe w = 0 /\
    version_open w 1 handle = inr (show_int v ++ [10]) ->
  zlen (show_int v) < 16 ->
  ecryptfs_get_version w = Ok (0, Some v).
Proof.
  intros Hh Hm Hr dir handle Hd Hv Hopen Hlen. unfold ecryptfs_get_version.
  rewrite Hm. cbn [get_sysfs_mountpoint mret outcome_ret]. fold dir. rewrite bind_Ok, !Hh. cbn [negb].
  pose proof (zlen_nonneg dir).
  set (b := malloc_block heap_junk (zlen dir + 1)).
  assert (zlen b = zlen dir + 1) as Hb by (apply zlen_malloc_block; lia).
  rewrite Hm, get_sysfs_mountpoint_fits, bind_Ok by (fold dir; lia). fold dir.
  destruct (drop (length dir) b) as [|x [|y t]] eqn:Hx;
    apply (f_equal zlen) in Hx; rewrite zlen_drop, Hb in Hx; unfold zlen in Hx; cbn [length] in Hx; [lia| |lia].
  replace (wr (dir ++ [x]) (zlen dir) [0]) with (Ok (dir ++ [0])) by (symmetry; apply wr_next).
  rewrite bind_Ok, cstr_of_app, bind_Ok by done. fold handle.
  assert (match version_open w 0 handle with
          | inl errno => if (errno =? ENOENT) && negb (modprobe w =? -1) then version_open w 1 handle
                         else inl errno
          | fd => fd
          end = inr (show_int v ++ [10])) as ->.
  { destruct Hopen as [->|(-> & -> & ->)]; done. }
  rewrite take_ge by (rewrite length_app; unfold zlen in Hlen; cbn; lia). rewrite Hr.
  rewrite zlen_app. change (zlen [10]) with 1. pose proof (zlen_nonneg (show_int v)).
  replace (zlen (show_int v) + 1 =? 0) with false by lia. cbn [orb].
  rewrite wr_ok by (rewrite ?zlen_malloc_block, ?zlen_app by lia; change (zlen [10]) with 1; lia).
  change (Z.to_nat 0) with 0%nat. rewrite take_0, bind_Ok. cbn [app]. rewrite <- app_assoc. cbn [app].
  rewrite atoi_array_line, bind_Ok by done. unfold u32. rewrite Z.mod_small by lia. done.
Qed.

Definition sample_sysfs : sysfs_world :=
  SysfsWorld (fun _ => inr [MountEntry (lit "ext4") (lit "/"); MountEntry (lit "sysfs") (lit "/sys")])
    (fun k _ => match k with O => inl ENOENT | _ => inr (lit "919" ++ [10]) end) 0 false.

Lemma get_version_correct_witness : @ecryptfs_get_version plenty sample_sysfs = Ok (0, Some 0x397).
Proof.
  apply (@get_version_correct plenty sample_sysfs
    [MountEntry (lit "ext4") (lit "/"); MountEntry (lit "sysfs") (lit "/sys")] 0x397); try done.
  - repeat constructor; done.
  - by right.
Defined.
