(* ===== verification/Tools.v ===== *)
(** * The command-line tools on passphrases: [src/utils/ecryptfs_*_passphrase*.c]

    Five small programs around [KeyManagement]: a passphrase is put into the
    keyring, wrapped into a file, wrapped again under another passphrase, printed,
    or put into the keyring from its file.  Passphrases come from the arguments or
    from standard input. *)

From S2P Require Import Prelude CLib Ecryptfs PassphraseSig KeyMod KeyPayload KeyManagement.
From S2P Require Import CmdLnParser ModuleMgr Sysfs.

(** What a program finds: the home directory of the user, the rc file, which files
    [stat] finds, and sysfs. *)
Record tool_env := ToolEnv {
  t_home : option cstring;
  t_rc_open : cstring -> Z + ((Z + filestat) * (nat -> option Z) * bytes);
  t_stat_ok : cstring -> bool;
  t_sysfs : sysfs_world
}.

(** What it changes: files, keyring, standard input, and the results it prints on
    standard output, without the words around them. *)
Record tool_state := ToolState {
  ts_files : files;
  ts_keyring : keyring;
  ts_stdin : bytes;
  ts_out : list cstring
}.
Definition set_files (fs : files) (s : tool_state) : tool_state :=
  ToolState fs (ts_keyring s) (ts_stdin s) (ts_out s).
Definition set_stdin (i : bytes) (s : tool_state) : tool_state :=
  ToolState (ts_files s) (ts_keyring s) i (ts_out s).
Definition put_key (kr : keyring) (s : tool_state) : tool_state :=
  ToolState (ts_files s) kr (ts_stdin s) (ts_out s).
Definition say (line : cstring) (s : tool_state) : tool_state :=
  ToolState (ts_files s) (ts_keyring s) (ts_stdin s) (ts_out s ++ [line]).

(** [strlen(arg) == n && strncmp(arg, word, n) == 0] for a word of length [n]. *)
Definition is_word (word arg : cstring) : bool := (zlen arg =? zlen word) && prefixb word arg.
Definition DASH : cstring := lit "-".
Definition FNEK : cstring := lit "--fnek".

Definition too_long (p : cstring) : bool := ECRYPTFS_MAX_PASSWORD_LENGTH <? zlen p.

Section Tools.
Context `{Heap, Nss, Sys} (e : tool_env).

Definition get_pass (s : tool_state) : outcome (option cstring * tool_state) :=
  '(p, rest) ← ecryptfs_get_passphrase (ts_stdin s); mret (p, set_stdin rest s).

Definition tool_salt : outcome bytes := '(_, salt) ← rc_salt (t_home e) (t_rc_open e); mret salt.

(** The signature a key was added under, as it is printed. *)
Definition sig_text (auth_tok_sig_hex : bytes) : outcome cstring :=
  b ← wr auth_tok_sig_hex ECRYPTFS_SIG_SIZE_HEX [0]; cstr_of b.

(** ** [ecryptfs-add-passphrase] *)

(** The passphrase, if one was read, and the mode; [None] after the usage text. *)
Definition add_arguments (argv : list cstring) (s : tool_state)
    : outcome (option (option cstring * bool) * tool_state) :=
  let read fnek := '(p, s) ← get_pass s; mret (Some (p, fnek), s) in
  match argv with
  | [_] => read false
  | [_; a] =>
      if is_word FNEK a then read true
      else if is_word DASH a then read false
      else mret (None, s)
  | [_; a; b] => if is_word FNEK a && is_word DASH b then read true else mret (None, s)
  | _ => mret (None, s)
  end.

(** One key; the [k]-th call. *)
Definition add_and_report (k : nat) (sig : bytes) (passphrase : cstring) (salt : bytes) (s : tool_state)
    : outcome (bool * bytes * tool_state) :=
  '(rc, sig, kr) ← ecryptfs_add_passphrase_key_to_keyring k (ts_keyring s) sig passphrase salt;
  let s := put_key kr s in
  if rc <? 0 then mret (false, sig, s)
  else
    sig ← wr sig ECRYPTFS_SIG_SIZE_HEX [0];
    text ← cstr_of sig;
    mret (true, sig, say text s).

Definition add_passphrase_main (argv : list cstring) (s : tool_state) : outcome (Z * tool_state) :=
  '(args, s) ← add_arguments argv s;
  match args with
  | None => mret (0, s)
  | Some (None, _) => mret (1, s)
  | Some (Some passphrase, fnek) =>
      if too_long passphrase then mret (1, s)
      else
        unsupported ← (if fnek : bool then
            '(rc, version) ← ecryptfs_get_version (t_sysfs e);
            if negb (rc =? 0) then mret true
            else match version with
            | Some version => mret (negb (ecryptfs_supports_filename_encryption version))
            | None => UB Uninitialised
            end
          else mret false);
        if unsupported : bool then mret (1, s)
        else
          salt ← tool_salt;
          '(ok, sig, s) ← add_and_report 0 (malloc_block heap_junk (ECRYPTFS_SIG_SIZE_HEX + 1))
                            passphrase salt s;
          if negb ok then mret (1, s)
          else if negb fnek then mret (0, s)
          else
            '(ok, _, s) ← add_and_report 1 sig passphrase (ECRYPTFS_DEFAULT_SALT_FNEK_HEX ++ [0]) s;
            mret (if ok : bool then 0 else 1, s)
  end.

(** ** [ecryptfs-unwrap-passphrase] and [ecryptfs-insert-wrapped-passphrase-into-keyring] *)

(** Their arguments differ in the test by which the second one is the passphrase:
    a file and the passphrase, if one was read. *)
Definition file_arguments (is_passphrase : cstring -> bool) (argv : list cstring) (s : tool_state)
    : outcome (option (cstring * option cstring) * tool_state) :=
  let read file := '(p, s) ← get_pass s; mret (Some (file, p), s) in
  match argv with
  | [_] =>
      match ecryptfs_get_wrapped_passphrase_filename (t_home e) (t_stat_ok e) with
      | None => mret (None, s)
      | Some file => read file
      end
  | [_; file] => read file
  | [_; file; a] =>
      if is_word DASH a then read file
      else if is_passphrase a then mret (Some (file, Some a), s)
      else mret (None, s)
  | _ => mret (None, s)
  end.
Definition unwrap_is_passphrase (a : cstring) : bool := negb (zlen a =? 1) || prefixb DASH a.
Definition insert_is_passphrase (a : cstring) : bool := negb (zlen a =? 1) || negb (prefixb DASH a).

Definition unwrap_passphrase_main (argv : list cstring) (s : tool_state) : outcome (Z * tool_state) :=
  '(args, s) ← file_arguments unwrap_is_passphrase argv s;
  match args with
  | Some (file, Some wrapping_passphrase) =>
      if too_long wrapping_passphrase then mret (0, s)
      else
        salt ← tool_salt;
        '(rc, passphrase) ← ecryptfs_unwrap_passphrase (ts_files s)
           (malloc_block heap_junk (ECRYPTFS_MAX_PASSWORD_LENGTH + 1)) file wrapping_passphrase salt;
        if negb (rc =? 0) then mret (1, s)
        else text ← cstr_of passphrase; mret (0, say text s)
  | _ => mret (0, s)
  end.

Definition insert_wrapped_main (argv : list cstring) (s : tool_state) : outcome (Z * tool_state) :=
  '(args, s) ← file_arguments insert_is_passphrase argv s;
  match args with
  | Some (file, Some wrapping_passphrase) =>
      if too_long wrapping_passphrase then mret (0, s)
      else
        salt ← tool_salt;
        '(rc, sig, kr) ← ecryptfs_insert_wrapped_passphrase_into_keyring (ts_files s) (ts_keyring s)
           (malloc_block heap_junk (ECRYPTFS_SIG_SIZE_HEX + 1)) file wrapping_passphrase salt
           (malloc_block heap_junk (ECRYPTFS_MAX_PASSPHRASE_BYTES + 1));
        let s := put_key kr s in
        if rc <? 0 then mret (1, s)
        else text ← sig_text sig; mret (0, say text s)
  | _ => mret (0, s)
  end.

(** ** [ecryptfs-wrap-passphrase] *)

(** File, passphrase and wrapping passphrase, of which one may be null. *)
Definition wrap_arguments (argv : list cstring) (s : tool_state)
    : outcome (option (cstring * option cstring * option cstring) * tool_state) :=
  let read file :=
    '(p, s) ← get_pass s;
    match p with
    | None => mret (Some (file, None, None), s)
    | Some p => '(w, s) ← get_pass s; mret (Some (file, Some p, w), s)
    end in
  match argv with
  | [_; file] => read file
  | [_; file; a] => if is_word DASH a then read file else mret (None, s)
  | [_; file; p; w] => mret (Some (file, Some p, Some w), s)
  | _ => mret (None, s)
  end.

Definition wrap_passphrase_main (argv : list cstring) (s : tool_state) : outcome (Z * tool_state) :=
  '(args, s) ← wrap_arguments argv s;
  match args with
  | None => mret (0, s)
  | Some (file, Some passphrase, Some wrapping_passphrase) =>
      if too_long passphrase || too_long wrapping_passphrase then mret (1, s)
      else
        salt ← tool_salt;
        '(rc, fs) ← ecryptfs_wrap_passphrase (ts_files s) file wrapping_passphrase salt passphrase;
        mret (if negb (rc =? 0) then 1 else 0, set_files fs s)
  | Some _ => mret (1, s)
  end.

(** ** [ecryptfs-rewrap-passphrase] *)

(** How the arguments end: with the usage text, with a code, or with a file and
    the old and the new wrapping passphrase. *)
Inductive rewrap_args :=
  | RewrapExit (rc : Z)
  | RewrapFile (file : cstring) (old new : option cstring).

Definition rewrap_arguments (argv : list cstring) (s : tool_state)
    : outcome (rewrap_args * tool_state) :=
  match argv with
  | [_; file] =>
      '(old, s) ← get_pass s;
      '(new, s) ← get_pass s;
      '(new2, s) ← get_pass s;
      match new, new2 with
      | Some n, Some n2 =>
          if negb (zlen n =? zlen n2) || negb (prefixb n n2) then mret (RewrapExit 1, s)
          else mret (RewrapFile file old new, s)
      | _, _ => UB NullDeref
      end
  | [_; file; a] =>
      if is_word DASH a then
        '(old, s) ← get_pass s;
        '(new, s) ← get_pass s;
        mret (RewrapFile file old new, s)
      else mret (RewrapExit 0, s)
  | [_; file; old; new] => mret (RewrapFile file (Some old) (Some new), s)
  | _ => mret (RewrapExit 0, s)
  end.

Definition rewrap_passphrase_main (argv : list cstring) (s : tool_state) : outcome (Z * tool_state) :=
  '(args, s) ← rewrap_arguments argv s;
  match args with
  | RewrapExit rc => mret (rc, s)
  | RewrapFile file (Some old) (Some new) =>
      if too_long old || too_long new then mret (0, s)
      else
        salt ← tool_salt;
        '(rc, passphrase) ← ecryptfs_unwrap_passphrase (ts_files s)
           (malloc_block heap_junk (ECRYPTFS_MAX_PASSWORD_LENGTH + 1)) file old salt;
        if negb (rc =? 0) then mret (1, s)
        else
          p ← cstr_of passphrase;
          '(rc, fs) ← ecryptfs_wrap_passphrase (ts_files s) file new salt p;
          mret (if negb (rc =? 0) then 1 else 0, set_files fs s)
  | RewrapFile _ _ _ => mret (0, s)
  end.
End Tools.

(** ** Lemmas *)

(** A line of input that is a passphrase. *)
Record pass_line (p : cstring) : Prop := PassLine {
  pl_cstring : is_cstring p;
  pl_newline : 10 ∉ p;
  pl_short : zlen p <= 64
}.

Lemma get_line_newline n p rest :
  10 ∉ p -> (length p < n)%nat -> get_line n (p ++ 10 :: rest) = (p ++ [10], rest).
Proof.
  revert n. induction p as [|c p IH]; intros [|n] Hp Hn; cbn [app length get_line] in *; try lia; [done|].
  apply not_elem_of_cons in Hp as [Hc Hp]. replace (c =? 10) with false by lia.
  by rewrite IH by (done || lia).
Qed.

Lemma cut_last_newline p : cut_last (p ++ [10]) 10 = p.
Proof.
  unfold cut_last. rewrite reverse_app. cbn [reverse rev_append app strchr Z.eqb Pos.eqb].
  rewrite length_app. cbn [length]. by rewrite take_app_length' by lia.
Qed.

Lemma is_word_self w : is_word w w = true.
Proof. unfold is_word, prefixb. rewrite Z.eqb_refl, firstn_all. by apply bool_decide_eq_true_2. Qed.

Section ToolLemmas.
Context `{Heap, Nss, !NssLaws, Sys} (e : tool_env).

Lemma get_pass_line p rest s :
  heap_never_fails -> pass_line p -> get_pass (set_stdin (p ++ 10 :: rest) s) = Ok (Some p, set_stdin rest s).
Proof.
  intros Hh [Hc Hn Hl]. unfold get_pass, ecryptfs_get_passphrase. rewrite (Hh 814). cbn [negb ts_stdin set_stdin].
  unfold fgets. destruct (p ++ 10 :: rest) eqn:E; [by destruct p|]. rewrite <- E.
  change (Z.to_nat (ECRYPTFS_MAX_PASSWORD_LENGTH + 2) - 1)%nat with 65%nat.
  rewrite get_line_newline by (done || unfold zlen in Hl; lia).
  rewrite cstr_of_app; [cbn [obind]|].
  - rewrite cut_last_newline. change ECRYPTFS_MAX_PASSWORD_LENGTH with 64. by replace (64 <? zlen p) with false by lia.
  - apply Forall_app; split; [by apply is_char_nonzero|by repeat constructor].
Qed.

Lemma not_too_long p : zlen p <= 64 -> too_long p = false.
Proof. intros Hl. unfold too_long. change ECRYPTFS_MAX_PASSWORD_LENGTH with 64. lia. Qed.

Lemma tool_salt_ok rc0 salt :
  rc_salt (t_home e) (t_rc_open e) = Ok (rc0, salt) -> tool_salt e = Ok salt /\ zlen salt = 8.
Proof. intros Hs. unfold tool_salt. rewrite Hs. split; [done|]. by eapply rc_salt_length. Qed.

(** Standard input as the last argument. *)
Lemma file_arguments_stdin is_passphrase prog file p rest s :
  heap_never_fails -> pass_line p ->
  file_arguments e is_passphrase [prog; file; DASH] (set_stdin (p ++ 10 :: rest) s) =
  Ok (Some (file, Some p), set_stdin rest s).
Proof. intros Hh Hp. cbn [file_arguments]. by rewrite is_word_self, get_pass_line. Qed.

(** What the tools make of the wrapped file, for arguments that name it and a
    wrapping passphrase. *)
Lemma unwrap_main_ok argv s s1 rc0 salt file w p :
  nss_works -> sys_works -> rc_salt (t_home e) (t_rc_open e) = Ok (rc0, salt) ->
  zlen w <= 64 -> is_cstring p -> 0 < zlen p <= 64 ->
  file_arguments e unwrap_is_passphrase argv s = Ok (Some (file, Some w), s1) ->
  ts_files s1 !! file = Some (wrapped_content salt w p) ->
  unwrap_passphrase_main e argv s = Ok (0, say p s1).
Proof.
  intros Hn Hsys Hs Hw Hc Hp Ha Hf. destruct (tool_salt_ok _ _ Hs) as [Es Hs8].
  unfold unwrap_passphrase_main. rewrite Ha, bind_Ok, not_too_long, Es, bind_Ok by done.
  rewrite (unwrap_wrapped _ _ _ _ _ p) by (done || lia || by rewrite zlen_malloc_block).
  rewrite bind_Ok. cbn [Z.eqb negb]. by rewrite cstr_of_padded, bind_Ok by (done || lia).
Qed.

Lemma unwrap_main_refused argv s s1 rc0 salt file w w' p :
  nss_works -> sys_works -> rc_salt (t_home e) (t_rc_open e) = Ok (rc0, salt) ->
  zlen w <= 64 -> zlen w' <= 64 -> 0 < zlen p <= 64 ->
  file_arguments e unwrap_is_passphrase argv s = Ok (Some (file, Some w'), s1) ->
  ts_files s1 !! file = Some (wrapped_content salt w p) ->
  passphrase_sig_hex salt w' <> passphrase_sig_hex salt w ->
  unwrap_passphrase_main e argv s = Ok (1, s1).
Proof.
  intros Hn Hsys Hs Hw Hw' Hp Ha Hf Hne. destruct (tool_salt_ok _ _ Hs) as [Es Hs8].
  unfold unwrap_passphrase_main. rewrite Ha, bind_Ok, not_too_long, Es, bind_Ok by done.
  destruct (length_wrapped_content salt w p Hn Hp) as (c & Ec & Ewc & Hl & Hsig & Hcl & Hmod).
  rewrite Ewc in Hf.
  assert (65 <= zlen (malloc_block heap_junk (ECRYPTFS_MAX_PASSWORD_LENGTH + 1))) as Hj
    by (by rewrite zlen_malloc_block).
  rewrite (unwrap_derived _ _ _ _ _ _ _ Hn Hsys (Z.eq_le_incl _ _ (eq_sym Hs8)) Hw' Hf Hsig Hcl Hmod Hj).
  by rewrite bool_decide_eq_false_2 by congruence.
Qed.

Lemma wrap_main_ok prog s rc0 salt file w p :
  nss_works -> sys_works -> rc_salt (t_home e) (t_rc_open e) = Ok (rc0, salt) ->
  zlen w <= 64 -> 0 < zlen p <= 64 ->
  wrap_passphrase_main e [prog; file; p; w] s =
  Ok (0, set_files (<[file := wrapped_content salt w p]> (ts_files s)) s).
Proof.
  intros Hn Hsys Hs Hw Hp. destruct (tool_salt_ok _ _ Hs) as [Es Hs8].
  unfold wrap_passphrase_main. cbn [wrap_arguments mret outcome_ret obind].
  rewrite !not_too_long, Es, bind_Ok by lia. cbn [orb].
  by rewrite wrap_passphrase_ok, bind_Ok by (done || lia).
Qed.

Lemma rewrap_main_ok prog s rc0 salt file old new p rest :
  heap_never_fails -> nss_works -> sys_works -> rc_salt (t_home e) (t_rc_open e) = Ok (rc0, salt) ->
  pass_line old -> pass_line new -> is_cstring p -> 0 < zlen p <= 64 ->
  ts_files s !! file = Some (wrapped_content salt old p) ->
  rewrap_passphrase_main e [prog; file; DASH] (set_stdin (old ++ 10 :: new ++ 10 :: rest) s) =
  Ok (0, set_files (<[file := wrapped_content salt new p]> (ts_files s)) (set_stdin rest s)).
Proof.
  intros Hh Hn Hsys Hs Hold Hnew Hc Hp Hf. destruct (tool_salt_ok _ _ Hs) as [Es Hs8].
  unfold rewrap_passphrase_main. cbn [rewrap_arguments].
  rewrite is_word_self, get_pass_line, bind_Ok, get_pass_line, bind_Ok by done.
  cbn [mret outcome_ret obind].
  rewrite !not_too_long, Es, bind_Ok by (apply Hold || apply Hnew). cbn [orb].
  rewrite (unwrap_wrapped _ _ _ _ _ p) by (done || lia || apply Hold || by rewrite zlen_malloc_block).
  rewrite bind_Ok. cbn [Z.eqb negb]. rewrite cstr_of_padded, bind_Ok by (done || lia).
  by rewrite wrap_passphrase_ok, bind_Ok by (done || lia || apply Hnew).
Qed.

Lemma ensure_token_code kr salt p : ((ensure_token kr salt p).1 <? 0) = false.
Proof. unfold ensure_token. by case_match. Qed.

Lemma zlen_sig salt p : digest_total -> zlen (passphrase_sig_hex salt p) = 16.
Proof. intros Hd. unfold zlen. by rewrite length_passphrase_sig_hex. Qed.

Lemma end_sig salt p tail :
  digest_total ->
  wr (passphrase_sig_hex salt p ++ [0] ++ tail) ECRYPTFS_SIG_SIZE_HEX [0] =
  Ok (passphrase_sig_hex salt p ++ [0] ++ tail).
Proof. intros Hd. apply wr_app3; [by rewrite zlen_sig|done]. Qed.

Lemma read_end_sig salt p tail :
  digest_total -> cstr_of (passphrase_sig_hex salt p ++ [0] ++ tail) = Ok (passphrase_sig_hex salt p).
Proof. intros Hd. by apply cstr_of_app, is_char_nonzero, passphrase_sig_hex_cstring. Qed.

Lemma add_and_report_ok k sig p salt s :
  heap_never_fails -> digest_total -> sys_works -> 17 <= zlen sig -> 8 <= zlen salt -> zlen p <= 64 ->
  exists sig', add_and_report k sig p salt s =
    Ok (true, sig', say (passphrase_sig_hex salt p) (put_key (ensure_token (ts_keyring s) salt p).2 s)) /\
    zlen sig' = zlen sig.
Proof.
  intros Hh Hd Hsys Hl Hs Hp. unfold add_and_report.
  rewrite add_passphrase_key_ok, bind_Ok by done. rewrite ensure_token_code, end_sig, bind_Ok by done.
  rewrite read_end_sig, bind_Ok by done.
  eexists. split; [done|]. rewrite !zlen_app, zlen_drop, zlen_sig by done. change (zlen [0]) with 1. lia.
Qed.

(** Adding a passphrase that is read from standard input, with the key for names
    of files or without. *)
Lemma add_main_ok prog (fnek : bool) p rest s rc0 salt v :
  heap_never_fails -> digest_total -> sys_works ->
  rc_salt (t_home e) (t_rc_open e) = Ok (rc0, salt) -> pass_line p ->
  ecryptfs_get_version (t_sysfs e) = Ok (0, Some v) -> ecryptfs_supports_filename_encryption v = true ->
  let fs_salt := ECRYPTFS_DEFAULT_SALT_FNEK_HEX ++ [0] in
  let s1 := set_stdin rest s in
  let s2 := say (passphrase_sig_hex salt p) (put_key (ensure_token (ts_keyring s) salt p).2 s1) in
  add_passphrase_main e (if fnek then [prog; FNEK; DASH] else [prog; DASH]) (set_stdin (p ++ 10 :: rest) s) =
  Ok (0, if fnek then say (passphrase_sig_hex fs_salt p) (put_key (ensure_token (ts_keyring s2) fs_salt p).2 s2)
         else s2).
Proof.
  intros Hh Hd Hsys Hs Hp Hv Hf fs_salt s1 s2. destruct (tool_salt_ok _ _ Hs) as [Es Hs8].
  unfold add_passphrase_main.
  assert (add_arguments (if fnek then [prog; FNEK; DASH] else [prog; DASH]) (set_stdin (p ++ 10 :: rest) s)
    = Ok (Some (Some p, fnek), s1)) as ->.
  { destruct fnek; cbn [add_arguments].
    - rewrite !is_word_self. cbn [andb]. by rewrite get_pass_line.
    - change (is_word FNEK DASH) with false. by rewrite is_word_self, get_pass_line. }
  rewrite bind_Ok, not_too_long by apply Hp.
  assert ((if fnek then '(rc, version) ← ecryptfs_get_version (t_sysfs e);
             if negb (rc =? 0) then mret true
             else match version with
             | Some version => mret (negb (ecryptfs_supports_filename_encryption version))
             | None => UB Uninitialised
             end
           else mret false) = Ok false) as -> by (destruct fnek; [rewrite Hv; cbn; by rewrite Hf|done]).
  rewrite bind_Ok, Es, bind_Ok.
  destruct (add_and_report_ok 0 (malloc_block heap_junk (ECRYPTFS_SIG_SIZE_HEX + 1)) p salt s1)
    as (sig & E & Hsig); [done..|by rewrite zlen_malloc_block|lia|apply Hp|].
  rewrite E, bind_Ok. cbn [negb]. destruct fnek; cbn [negb]; [|done].
  rewrite zlen_malloc_block in Hsig by done. change (ECRYPTFS_SIG_SIZE_HEX + 1) with 17 in Hsig.
  destruct (add_and_report_ok 1 sig p fs_salt s2) as (sig' & E' & _); [done..|lia|done|apply Hp|].
  change (add_and_report 1 sig p _ _) with (add_and_report 1 sig p fs_salt s2). rewrite E'. reflexivity.
Qed.

Lemma insert_main_ok argv s s1 rc0 salt file w p :
  heap_never_fails -> nss_works -> sys_works -> rc_salt (t_home e) (t_rc_open e) = Ok (rc0, salt) ->
  zlen w <= 64 -> is_cstring p -> 0 < zlen p <= 64 ->
  file_arguments e insert_is_passphrase argv s = Ok (Some (file, Some w), s1) ->
  ts_files s1 !! file = Some (wrapped_content salt w p) ->
  insert_wrapped_main e argv s =
  Ok (0, say (passphrase_sig_hex salt p) (put_key
    (ensure_token (ensure_token (ts_keyring s1) (ECRYPTFS_DEFAULT_SALT_FNEK_HEX ++ [0]) p).2 salt p).2 s1)).
Proof.
  intros Hh Hn Hsys Hs Hw Hc Hp Ha Hf. destruct (tool_salt_ok _ _ Hs) as [Es Hs8].
  unfold insert_wrapped_main. rewrite Ha, bind_Ok, not_too_long, Es, bind_Ok by done.
  destruct (insert_wrapped_ok (ts_files s1) (ts_keyring s1) file w salt p
    (malloc_block heap_junk (ECRYPTFS_SIG_SIZE_HEX + 1))
    (malloc_block heap_junk (ECRYPTFS_MAX_PASSPHRASE_BYTES + 1))) as (sig & E & Hsig);
    [done..|lia|done|done|done|by rewrite zlen_malloc_block|by rewrite zlen_malloc_block|done|].
  rewrite E, bind_Ok, ensure_token_code. unfold sig_text.
  destruct (cstr_of_inv _ _ Hsig) as [r ->].
  destruct Hn as [Hd _]. change (passphrase_sig_hex salt p ++ 0 :: r) with (passphrase_sig_hex salt p ++ [0] ++ r).
  by rewrite end_sig, bind_Ok, read_end_sig, bind_Ok.
Qed.
End ToolLemmas.

(** Keys of different signatures are put in in either order. *)
Lemma ensure_token_comm `{Nss} kr a b p :
  passphrase_sig_hex a p <> passphrase_sig_hex b p ->
  (ensure_token (ensure_token kr a p).2 b p).2 = (ensure_token (ensure_token kr b p).2 a p).2.
Proof.
  unfold ensure_token. generalize (passphrase_sig_hex a p) (passphrase_sig_hex b p).
  generalize (passphrase_token a p) (passphrase_token b p). intros ta tb sa sb Hne.
  destruct (kr !! sa) eqn:Ha, (kr !! sb) eqn:Hb; cbn [snd];
    rewrite ?lookup_insert_ne, ?Ha, ?Hb by done; cbn [snd]; [done..|by rewrite insert_insert_ne].
Qed.

Lemma ensure_token_in `{Nss} kr salt p : is_Some ((ensure_token kr salt p).2 !! passphrase_sig_hex salt p).
Proof.
  unfold ensure_token. generalize (passphrase_sig_hex salt p) (passphrase_token salt p). intros sig tok.
  destruct (kr !! sig) eqn:E; cbn [snd]; [by rewrite E|]. rewrite lookup_insert_eq. by eexists.
Qed.

(** States are compared member by member. *)
Ltac tool_state :=
  unfold set_stdin, set_files, put_key, say; cbn [ts_files ts_keyring ts_stdin ts_out]; reflexivity.

(** ** Properties *)

(** C14. The life of a wrapped passphrase with the tools: [ecryptfs-wrap-passphrase]
    writes it to its file, [ecryptfs-rewrap-passphrase] changes the wrapping
    passphrase, both taken line by line from standard input, and
    [ecryptfs-unwrap-passphrase] then prints the passphrase for the new wrapping
    passphrase and, with exit code 1, nothing for the old one.  No other file, no
    key and no further input is touched. *)
Theorem rewrap_tool_roundtrip `{Heap, Nss, !NssLaws, Sys} e s prog file p old new rest rc0 salt :
  heap_never_fails -> nss_works -> sys_works -> rc_salt (t_home e) (t_rc_open e) = Ok (rc0, salt) ->
  is_cstring p -> 0 < zlen p <= 64 -> pass_line old -> pass_line new ->
  passphrase_sig_hex salt old <> passphrase_sig_hex salt new ->
  exists s1 s2,
    wrap_passphrase_main e [prog; file; p; old] s = Ok (0, s1) /\
    rewrap_passphrase_main e [prog; file; DASH] (set_stdin (old ++ 10 :: new ++ 10 :: rest) s1) = Ok (0, s2) /\
    s2 = set_files (<[file := wrapped_content salt new p]> (ts_files s)) (set_stdin rest s) /\
    unwrap_passphrase_main e [prog; file; DASH] (set_stdin (new ++ 10 :: rest) s2) = Ok (0, say p s2) /\
    unwrap_passphrase_main e [prog; file; DASH] (set_stdin (old ++ 10 :: rest) s2) = Ok (1, s2).
Proof.
  intros Hh Hn Hsys Hs Hc Hp Hold Hnew Hne. pose proof (pl_short _ Hold). pose proof (pl_short _ Hnew).
  eexists _, _. split; [by apply (wrap_main_ok e prog s rc0 salt)|].
  split; [apply (rewrap_main_ok e prog _ rc0 salt file old new p rest); [done..|apply lookup_insert_eq]|].
  cbn [ts_files set_files]. rewrite insert_insert_eq. split; [done|]. split.
  - apply (unwrap_main_ok e _ _ _ rc0 salt file new p); [done..|rewrite file_arguments_stdin by done; tool_state|].
    apply lookup_insert_eq.
  - apply (unwrap_main_refused e _ _ _ rc0 salt file new old p); [done..|rewrite file_arguments_stdin by done; tool_state| |done].
    apply lookup_insert_eq.
Qed.

(** C28. Putting a passphrase into the keyring by hand, with
    [ecryptfs-add-passphrase --fnek], and putting it there from its wrapped file,
    with [ecryptfs-insert-wrapped-passphrase-into-keyring], make the same keyring,
    whatever it held before: the key for contents and the one for names of files,
    each unless a key of its signature is there.  The first tool prints both
    signatures, the second one only that of the key for contents. *)
Theorem add_is_insert `{Heap, Nss, !NssLaws, Sys} e s prog file p w rest rc0 salt v :
  heap_never_fails -> nss_works -> sys_works -> rc_salt (t_home e) (t_rc_open e) = Ok (rc0, salt) ->
  pass_line p -> p <> [] -> pass_line w -> ts_files s !! file = Some (wrapped_content salt w p) ->
  ecryptfs_get_version (t_sysfs e) = Ok (0, Some v) -> ecryptfs_supports_filename_encryption v = true ->
  let names := ECRYPTFS_DEFAULT_SALT_FNEK_HEX ++ [0] in
  passphrase_sig_hex salt p <> passphrase_sig_hex names p ->
  exists kr,
    add_passphrase_main e [prog; FNEK; DASH] (set_stdin (p ++ 10 :: rest) s) =
      Ok (0, say (passphrase_sig_hex names p) (say (passphrase_sig_hex salt p) (put_key kr (set_stdin rest s)))) /\
    insert_wrapped_main e [prog; file; DASH] (set_stdin (w ++ 10 :: rest) s) =
      Ok (0, say (passphrase_sig_hex salt p) (put_key kr (set_stdin rest s))).
Proof.
  intros Hh Hn Hsys Hs Hp Hne Hw Hf Hv Hsup names Hsig. pose proof Hn as [Hd _].
  assert (0 < zlen p <= 64) as Hp64.
  { split; [|apply Hp]. destruct p; [by destruct Hne|]. rewrite zlen_cons. pose proof (zlen_nonneg p). lia. }
  exists (ensure_token (ensure_token (ts_keyring s) salt p).2 names p).2. split.
  - etransitivity; [exact (add_main_ok e prog true p rest s rc0 salt v Hh Hd Hsys Hs Hp Hv Hsup)|].
    fold names. tool_state.
  - rewrite ensure_token_comm by exact Hsig.
    apply (insert_main_ok e _ _ (set_stdin rest s) rc0 salt file w p); [done..|apply Hw|apply Hp|done| |exact Hf].
    by apply file_arguments_stdin.
Qed.

(** [ecryptfs-unwrap-passphrase] does not take a wrapping passphrase of one
    character from its arguments: it prints its usage and reports success, without
    a look at the file.  [ecryptfs-insert-wrapped-passphrase-into-keyring], with the
    opposite comparison in the same place, takes it, and on standard input the
    first tool takes it, too. *)
Theorem one_character_passphrase `{Heap, Nss, !NssLaws, Sys} e s prog file c p rest rc0 salt :
  heap_never_fails -> nss_works -> sys_works -> rc_salt (t_home e) (t_rc_open e) = Ok (rc0, salt) ->
  is_char c -> c <> 45 -> c <> 10 -> is_cstring p -> 0 < zlen p <= 64 ->
  ts_files s !! file = Some (wrapped_content salt [c] p) ->
  unwrap_passphrase_main e [prog; file; [c]] s = Ok (0, s) /\
  (exists kr, insert_wrapped_main e [prog; file; [c]] s = Ok (0, say (passphrase_sig_hex salt p) (put_key kr s)) /\
     is_Some (kr !! passphrase_sig_hex salt p)) /\
  unwrap_passphrase_main e [prog; file; DASH] (set_stdin ([c] ++ 10 :: rest) s) =
    Ok (0, say p (set_stdin rest s)).
Proof.
  intros Hh Hn Hsys Hs Hc Hd Hl Hp Hp64 Hf.
  assert (prefixb DASH [c] = false) as Hpre by (by apply bool_decide_eq_false_2; intros [=]).
  assert (is_word DASH [c] = false) as Hw by (unfold is_word; by rewrite Hpre, andb_false_r).
  assert (pass_line [c]) as Hline.
  { split; [by apply Forall_singleton| |by vm_compute]. by intros <-%list_elem_of_singleton. }
  split; [|split].
  - unfold unwrap_passphrase_main. cbn [file_arguments]. rewrite Hw. unfold unwrap_is_passphrase. by rewrite Hpre.
  - eexists. split.
    + apply (insert_main_ok e _ s s rc0 salt file [c] p); [done..|apply Hline|done|done| |done].
      cbn [file_arguments]. rewrite Hw. unfold insert_is_passphrase. by rewrite Hpre.
    + apply ensure_token_in.
  - apply (unwrap_main_ok e _ _ _ rc0 salt file [c] p); [done..|apply Hline|done|done| |done].
    by apply file_arguments_stdin.
Qed.

(** Guards of [ecryptfs-rewrap-passphrase]: when the new wrapping passphrase and
    its repetition differ, nothing is changed and the exit code is 1.  When the
    input ends before the repetition, the program reads a null pointer.  A new
    wrapping passphrase that is too long changes nothing, but the exit code is
    that of success. *)
Theorem rewrap_tool_guards `{Heap, Nss, !NssLaws, Sys} e s prog file old new again long rest :
  heap_never_fails -> pass_line old -> pass_line new -> pass_line again -> new <> again ->
  64 < zlen long ->
  rewrap_passphrase_main e [prog; file] (set_stdin (old ++ 10 :: new ++ 10 :: again ++ 10 :: rest) s) =
    Ok (1, set_stdin rest s) /\
  rewrap_passphrase_main e [prog; file] (set_stdin (old ++ 10 :: new ++ [10]) s) = UB NullDeref /\
  rewrap_passphrase_main e [prog; file; old; long] s = Ok (0, s).
Proof.
  intros Hh Hold Hnew Hag Hne Hlong.
  assert (forall i, rewrap_arguments [prog; file] (set_stdin (old ++ 10 :: new ++ 10 :: i) s) =
    '(new2, s) ← get_pass (set_stdin i s);
    match new2 with
    | Some n2 => if negb (zlen new =? zlen n2) || negb (prefixb new n2) then mret (RewrapExit 1, s)
                 else mret (RewrapFile file (Some old) (Some new), s)
    | None => UB NullDeref
    end) as Harg.
  { intros i. cbn [rewrap_arguments]. by rewrite get_pass_line, bind_Ok, get_pass_line, bind_Ok. }
  unfold rewrap_passphrase_main. split; [|split].
  - rewrite Harg, get_pass_line, bind_Ok by done.
    assert (negb (zlen new =? zlen again) || negb (prefixb new again) = true) as ->; [|done].
    destruct (Z.eqb_spec (zlen new) (zlen again)) as [Hl|]; [|done]. cbn [negb orb].
    unfold prefixb. rewrite bool_decide_eq_false_2; [done|]. intros Heq. apply Hne.
    rewrite <- Heq. apply take_ge. unfold zlen in Hl. lia.
  - rewrite Harg. unfold get_pass, ecryptfs_get_passphrase. by rewrite (Hh 814).
  - cbn [rewrap_arguments mret outcome_ret obind]. unfold too_long at 2.
    change ECRYPTFS_MAX_PASSWORD_LENGTH with 64. replace (64 <? zlen long) with true by lia.
    by rewrite orb_true_r.
Qed.

(** ** Witnesses *)

(** A user without an rc file; a digest that tells apart by the first character of
    the salt. *)
Definition sample_tool_env : tool_env := ToolEnv None (fun _ => inl ENOENT) (fun _ => false) sample_sysfs.
Definition default_salt : bytes := [0; 17; 34; 51; 68; 85; 102; 119].
Definition first_nss : Nss := {|
  hash_buf := fun _ m => Some (nth 0 m 0 mod 256 :: zeros 63);
  import_sym_key := fun _ => true;
  cipher_op := fun _ _ d => Some d;
  digest_final := fun _ _ _ => Some []
|}.
#[export] Instance first_nss_laws : @NssLaws first_nss.
Proof.
  split; cbn -[nth]; intros; simplify_eq; try done. split; [done|].
  repeat constructor; try lia; unfold is_byte; apply Z.mod_pos_bound; lia.
Qed.
Lemma first_nss_works : @nss_works first_nss.
Proof. split; [intros m; cbn; eauto|]. cbn. eauto. Qed.

Lemma sample_tool_salt : @rc_salt plenty (t_home sample_tool_env) (t_rc_open sample_tool_env) = Ok (- EIO, default_salt).
Proof. vm_compute. reflexivity. Qed.

Lemma sample_pass_line s : forallb (fun c => (0 <? c) && (c <? 256) && negb (c =? 10)) s && (zlen s <=? 64) = true -> pass_line s.
Proof.
  intros [Hf Hl]%andb_true_iff. rewrite forallb_forall in Hf. split; [| |lia].
  - apply List.Forall_forall. intros c Hc. specialize (Hf c Hc). unfold is_char. lia.
  - intros Hin%list_elem_of_In. specialize (Hf 10 Hin). by vm_compute in Hf.
Qed.

Lemma rewrap_tool_roundtrip_witness :
  let s := ToolState ∅ ∅ [] [] in
  exists s1 s2,
    @wrap_passphrase_main plenty eighth_nss calm_sys sample_tool_env
      [lit "wrap"; lit "w"; lit "secret"; lit "login"] s = Ok (0, s1) /\
    @rewrap_passphrase_main plenty eighth_nss calm_sys sample_tool_env [lit "wrap"; lit "w"; DASH]
      (set_stdin (lit "login" ++ 10 :: lit "fresh" ++ 10 :: []) s1) = Ok (0, s2) /\
    s2 = set_files (<[lit "w" := @wrapped_content eighth_nss default_salt (lit "fresh") (lit "secret")]> (ts_files s))
           (set_stdin [] s) /\
    @unwrap_passphrase_main plenty eighth_nss calm_sys sample_tool_env [lit "wrap"; lit "w"; DASH]
      (set_stdin (lit "fresh" ++ 10 :: []) s2) = Ok (0, say (lit "secret") s2) /\
    @unwrap_passphrase_main plenty eighth_nss calm_sys sample_tool_env [lit "wrap"; lit "w"; DASH]
      (set_stdin (lit "login" ++ 10 :: []) s2) = Ok (1, s2).
Proof.
  apply (@rewrap_tool_roundtrip plenty eighth_nss eighth_nss_laws calm_sys sample_tool_env
    (ToolState ∅ ∅ [] []) (lit "wrap") (lit "w") (lit "secret") (lit "login") (lit "fresh") [] (- EIO) default_salt).
  - intros line k. reflexivity.
  - apply eighth_nss_works.
  - apply calm_sys_works.
  - apply sample_tool_salt.
  - by apply sample_pass_line.
  - split; vm_compute; congruence.
  - by apply sample_pass_line.
  - by apply sample_pass_line.
  - apply (bool_decide_unpack _). vm_compute. exact I.
Defined.

Lemma add_is_insert_witness :
  let s := ToolState (<[lit "w" := @wrapped_content first_nss default_salt (lit "login") (lit "secret")]> ∅) ∅ [] [] in
  let names := ECRYPTFS_DEFAULT_SALT_FNEK_HEX ++ [0] in
  exists kr,
    @add_passphrase_main plenty first_nss calm_sys sample_tool_env [lit "a"; FNEK; DASH]
      (set_stdin (lit "secret" ++ 10 :: []) s) =
      Ok (0, say (@passphrase_sig_hex first_nss names (lit "secret"))
        (say (@passphrase_sig_hex first_nss default_salt (lit "secret")) (put_key kr (set_stdin [] s)))) /\
    @insert_wrapped_main plenty first_nss calm_sys sample_tool_env [lit "a"; lit "w"; DASH]
      (set_stdin (lit "login" ++ 10 :: []) s) =
      Ok (0, say (@passphrase_sig_hex first_nss default_salt (lit "secret")) (put_key kr (set_stdin [] s))).
Proof.
  apply (@add_is_insert plenty first_nss first_nss_laws calm_sys sample_tool_env
    (ToolState (<[lit "w" := @wrapped_content first_nss default_salt (lit "login") (lit "secret")]> ∅) ∅ [] [])
    (lit "a") (lit "w") (lit "secret") (lit "login") [] (- EIO) default_salt 0x397).
  - intros line k. reflexivity.
  - apply first_nss_works.
  - apply calm_sys_works.
  - apply sample_tool_salt.
  - by apply sample_pass_line.
  - discriminate.
  - by apply sample_pass_line.
  - apply lookup_insert_eq.
  - vm_compute. reflexivity.
  - reflexivity.
  - apply (bool_decide_unpack _). vm_compute. exact I.
Defined.

Lemma one_character_passphrase_witness :
  let s := ToolState (<[lit "w" := @wrapped_content first_nss default_salt [120] (lit "secret")]> ∅) ∅ [] [] in
  @unwrap_passphrase_main plenty first_nss calm_sys sample_tool_env [lit "a"; lit "w"; [120]] s = Ok (0, s) /\
  (exists kr, @insert_wrapped_main plenty first_nss calm_sys sample_tool_env [lit "a"; lit "w"; [120]] s =
      Ok (0, say (@passphrase_sig_hex first_nss default_salt (lit "secret")) (put_key kr s)) /\
     is_Some (kr !! @passphrase_sig_hex first_nss default_salt (lit "secret"))) /\
  @unwrap_passphrase_main plenty first_nss calm_sys sample_tool_env [lit "a"; lit "w"; DASH]
    (set_stdin ([120] ++ 10 :: []) s) = Ok (0, say (lit "secret") (set_stdin [] s)).
Proof.
  apply (@one_character_passphrase plenty first_nss first_nss_laws calm_sys sample_tool_env
    (ToolState (<[lit "w" := @wrapped_content first_nss default_salt [120] (lit "secret")]> ∅) ∅ [] [])
    (lit "a") (lit "w") 120 (lit "secret") [] (- EIO) default_salt).
  - intros line k. reflexivity.
  - apply first_nss_works.
  - apply calm_sys_works.
  - apply sample_tool_salt.
  - split; reflexivity.
  - discriminate.
  - discriminate.
  - by apply sample_pass_line.
  - split; vm_compute; congruence.
  - apply lookup_insert_eq.
Defined.

Lemma rewrap_tool_guards_witness :
  let s := ToolState ∅ ∅ [] [] in
  @rewrap_passphrase_main plenty first_nss calm_sys sample_tool_env [lit "a"; lit "w"]
    (set_stdin (lit "old" ++ 10 :: lit "new" ++ 10 :: lit "nww" ++ 10 :: []) s) = Ok (1, set_stdin [] s) /\
  @rewrap_passphrase_main plenty first_nss calm_sys sample_tool_env [lit "a"; lit "w"]
    (set_stdin (lit "old" ++ 10 :: lit "new" ++ [10]) s) = UB NullDeref /\
  @rewrap_passphrase_main plenty first_nss calm_sys sample_tool_env [lit "a"; lit "w"; lit "old"; replicate 65 97] s =
    Ok (0, s).
Proof.
  apply (@rewrap_tool_guards plenty first_nss first_nss_laws calm_sys sample_tool_env).
  - intros line k. reflexivity.
  - by apply sample_pass_line.
  - by apply sample_pass_line.
  - by apply sample_pass_line.
  - discriminate.
  - vm_compute. reflexivity.
Defined.
