(* ===== verification/Manager.v ===== *)
(** * The key manager: [src/utils/manager.c]

    A menu on standard input: add a passphrase to the keyring, add or generate a
    key of a key module by a walk over its graph, or leave.  The walk reads lines of
    the same input.  The list of mount options that it fills begins with a node
    that is not initialised; the model takes that node for an empty one. *)

From S2P Require Import Prelude CLib Ecryptfs PassphraseSig KeyMod KeyPayload KeyManagement.
From S2P Require Import CmdLnParser DecisionGraph PassphraseGraph ModuleMgr Terminal Sysfs.

Definition common_salt : bytes := [0x00; 0x11; 0x22; 0x33; 0x44; 0x55; 0x66; 0x77].

(** ** Lines of the input *)

(** The lines that [get_string_stdin] finds; the end of the input ends one, too. *)
Fixpoint lines (input : list Z) : list cstring :=
  match input with
  | [] => []
  | c :: input' =>
      if newline_of c =? 10 then [] :: lines input'
      else match lines input' with
      | [] => [[newline_of c]]
      | l :: ls => (newline_of c :: l) :: ls
      end
  end.

(** The answers of the user to the questions of a walk; the input after [n] of
    them. *)
Definition answers (input : list Z) : list (Z * option cstring) :=
  (fun l => (0, Some (until_nul l))) <$> lines input.
Definition rest_of_input (n : nat) (input : list Z) : list Z := Nat.iter n skip_line input.

(** ** The program *)

(** The buffers on the stack, the last code, what walks share (with the keyring),
    the terminal and its input, and the signatures reported as added; [None]
    for a key that was there. *)
Record mgr_state := Mgr {
  ms_passphrase : bytes;
  ms_salt : bytes;
  ms_rc : Z;
  ms_graph : gstate;
  ms_term : terminal;
  ms_input : list Z;
  ms_out : list (option cstring)
}.
Definition set_rc (rc : Z) (s : mgr_state) : mgr_state :=
  Mgr (ms_passphrase s) (ms_salt s) rc (ms_graph s) (ms_term s) (ms_input s) (ms_out s).
Definition set_typed (i : list Z) (s : mgr_state) : mgr_state :=
  Mgr (ms_passphrase s) (ms_salt s) (ms_rc s) (ms_graph s) (ms_term s) i (ms_out s).
Definition set_graph (g : gstate) (s : mgr_state) : mgr_state :=
  Mgr (ms_passphrase s) (ms_salt s) (ms_rc s) g (ms_term s) (ms_input s) (ms_out s).
Definition report_key (line : option cstring) (s : mgr_state) : mgr_state :=
  Mgr (ms_passphrase s) (ms_salt s) (ms_rc s) (ms_graph s) (ms_term s) (ms_input s) (ms_out s ++ [line]).
(** The two [memset]s. *)
Definition wipe (s : mgr_state) : outcome mgr_state :=
  p ← memset (ms_passphrase s) 0 0 ECRYPTFS_MAX_PASSWORD_LENGTH;
  salt ← memset (ms_salt s) 0 0 ECRYPTFS_SALT_SIZE;
  mret (Mgr p salt (ms_rc s) (ms_graph s) (ms_term s) (ms_input s) (ms_out s)).

(** One pass from the label [selection]: back to it, out of [main], out of the
    process, or never. *)
Inductive mgr_end :=
  | MgrAgain (s : mgr_state)
  | MgrReturns (rc : Z) (s : mgr_state)
  | MgrExits
  | MgrEndless.

Section Manager.
Context `{Heap, Nss, Sys} (big_endian : bool).
Context (module_trans : trans_node_id -> option transition_node)
        (module_tf : Z -> Z -> gstate -> running (Z * gstate))
        (open_file : nat -> cstring -> Z + descriptor) (open_fd : nat -> Z -> descriptor)
        (pw_dir : option cstring) (open_rc : cstring -> Z + descriptor)
        (key_mod_dir : cstring) (dir : option (list dirent)).
(** What the arrays [str] of the menu and [auth_tok_sig] hold at first; the kernel
    module; the result of linking the keyrings. *)
Context (menu_str sig_junk : bytes) (sysfs : sysfs_world) (keyctl_link : Z).

(** The way back to the menu. *)
Definition again (s : mgr_state) : outcome mgr_end := s ← wipe s; mret (MgrAgain s).

Definition add_passphrase (s : mgr_state) : outcome mgr_end :=
  '(rc, pass, t, input) ← read_passphrase_salt (ms_passphrase s) (ms_term s) (ms_input s);
  let s := Mgr pass (ms_salt s) rc (ms_graph s) t input (ms_out s) in
  if negb (rc =? 0) then again s
  else
    first ← rd1 (ms_salt s) 0;
    salt ← (if first =? 0 then wr (ms_salt s) 0 common_salt else mret (ms_salt s));
    passphrase ← cstr_of pass;
    '(rc, sig, kr) ← ecryptfs_add_passphrase_key_to_keyring 0 (g_keyring (ms_graph s)) sig_junk passphrase salt;
    let s := Mgr pass salt rc (set_keyring kr (ms_graph s)) t input (ms_out s) in
    s ← (if rc =? 1 then mret (report_key None (set_rc 0 s))
         else if rc =? 0 then text ← cstr_of sig; mret (report_key (Some text) s)
         else mret s);
    again s.

(** The version of the kernel module, or what is assumed without it. *)
Definition version_or_passphrase : outcome Z :=
  '(rc, version) ← ecryptfs_get_version sysfs;
  if negb (rc =? 0) then mret ECRYPTFS_VERSIONING_PASSPHRASE
  else match version with Some v => mret v | None => UB Uninitialised end.

(** [out]: the code of the walk is replaced by that of freeing the modules. *)
Definition leave_main (s : mgr_state) : outcome mgr_end :=
  _ ← ecryptfs_free_key_mod_list (g_mods (ms_graph s)); mret (MgrReturns 0 (set_rc 0 s)).

(** A walk over the answers that the input holds, and what comes after it. *)
Definition with_walk (walk : gstate -> outcome walk_end) (next : mgr_state -> outcome mgr_end)
    (s : mgr_state) : outcome mgr_end :=
  let given := answers (ms_input s) in
  r ← walk (set_input given (set_mnt [None] (ms_graph s)));
  match r with
  | OutOfFuel => mret MgrEndless
  | Exited => mret MgrExits
  | Returned rc g =>
      let s := set_typed (rest_of_input (length given - length (g_input g)) (ms_input s))
                 (set_graph g (set_rc rc s)) in
      if negb (rc =? 0) then leave_main s
      else
        '(_, mods) ← ecryptfs_free_key_mod_list (g_mods g);
        next (set_graph (set_mods mods g) s)
  end.

Definition add_public_key (fuel : nat) (s : mgr_state) : outcome mgr_end :=
  version ← version_or_passphrase;
  if negb (alloc_ok 120088 0) then leave_main (set_rc (- ENOMEM) s)
  else with_walk (ecryptfs_process_decision_graph big_endian module_trans module_tf open_file open_fd
                    true pw_dir open_rc key_mod_dir dir fuel version (Some []) true) again s.

(** This one leads back to the menu past the [memset]s. *)
Definition generate_key (fuel : nat) (s : mgr_state) : outcome mgr_end :=
  version ← version_or_passphrase;
  with_walk (ecryptfs_process_key_gen_decision_graph big_endian module_trans module_tf open_file open_fd
               true key_mod_dir dir fuel version) (fun s => mret (MgrAgain s)) s.

Definition manager_step (fuel : nat) (s : mgr_state) : outcome mgr_end :=
  '(selection, input) ← manager_menu fuel menu_str (ms_input s);
  match selection with
  | None => mret MgrEndless
  | Some selection =>
      let s := set_typed input s in
      if selection =? MME_MOUNT_PASSPHRASE then add_passphrase s
      else if selection =? MME_MOUNT_PUBKEY then add_public_key fuel s
      else if selection =? MME_GEN_PUBKEY then generate_key fuel s
      else if selection =? MME_ABORT then s ← wipe s; mret (MgrReturns (ms_rc s) s)
      else s ← wipe s; mret (MgrReturns (-1) s)
  end.

(** [n] passes at most. *)
Fixpoint manager_loop (n fuel : nat) (s : mgr_state) : outcome mgr_end :=
  match n with
  | O => mret MgrEndless
  | S n' =>
      r ← manager_step fuel s;
      match r with MgrAgain s => manager_loop n' fuel s | _ => mret r end
  end.

(** [stack] and [stack_salt] are what the buffers hold at first. *)
Definition manager_main (n fuel : nat) (stack stack_salt : bytes) (g : gstate) (t : terminal)
    (input : list Z) : outcome mgr_end :=
  let s := Mgr stack stack_salt 0 g t input [] in
  let rc := ecryptfs_validate_keyring keyctl_link in
  if negb (rc =? 0) then mret (MgrReturns 1 s)
  else s ← wipe s; manager_loop n fuel s.
End Manager.

(** ** Lemmas *)
Lemma wipe_inv s s' :
  wipe s = Ok s' ->
  take 64 (ms_passphrase s') = zeros 64 /\ take 8 (ms_salt s') = zeros 8 /\
  s' = Mgr (ms_passphrase s') (ms_salt s') (ms_rc s) (ms_graph s) (ms_term s) (ms_input s) (ms_out s).
Proof.
  unfold wipe. intros (p & Ep & (salt & Es & [= <-])%bind_ok_inv)%bind_ok_inv. cbn [ms_passphrase ms_salt].
  unfold memset in *. apply wr_ok_inv in Ep as (_ & _ & ->), Es as (_ & _ & ->).
  change (Z.to_nat 0) with 0%nat. rewrite !take_0. cbn [app]. split; [|split]; [apply take_app_length'..|]; done.
Qed.

Lemma wipe_ok s :
  zlen (ms_passphrase s) = 64 -> zlen (ms_salt s) = 8 ->
  wipe s = Ok (Mgr (zeros 64) (zeros 8) (ms_rc s) (ms_graph s) (ms_term s) (ms_input s) (ms_out s)).
Proof.
  intros Hp Hs. unfold wipe, memset. change ECRYPTFS_MAX_PASSWORD_LENGTH with 64. change ECRYPTFS_SALT_SIZE with 8.
  rewrite !wr_ok by (rewrite ?zlen_replicate; lia). rewrite !bind_Ok. change (Z.to_nat 0) with 0%nat.
  rewrite !take_0, !drop_ge, !app_nil_r by (unfold zlen in *; rewrite ?length_replicate; lia). done.
Qed.

(** A choice of the menu, when no digit follows on the stack. *)
Lemma menu_choice fuel x str text n input :
  1 <= n <= 4 -> cstr_of str = Ok text ->
  match text with c :: _ => (digit_of c <? 10) = false | [] => True end ->
  manager_menu (S fuel) (x :: str) (48 + n :: 10 :: input) = Ok (Some n, input).
Proof.
  intros Hn Hs Ht. cbn [manager_menu mygetchar].
  assert (newline_of (48 + n) = 48 + n) as -> by (apply newline_of_char; unfold line_char; lia). cbn [default from_option id].
  rewrite (wr_next [] str x (48 + n) : wr (x :: str) 0 [48 + n] = _), bind_Ok.
  cbn [munch_newline mygetchar]. change (newline_of 10) with 10. cbn [Z.eqb Pos.eqb negb app cstr_of].
  replace (48 + n =? 0) with false by lia. rewrite Hs, !bind_Ok.
  assert (atoi (48 + n :: text) = n) as ->.
  { unfold atoi. assert (48 + n :: text = show_int n ++ text) as ->.
    { assert (n = 1 \/ n = 2 \/ n = 3 \/ n = 4) as [-> | [-> | [-> | ->]]] by lia; done. }
    rewrite strtol_show_int by (unfold LONG_MAX; done || lia). apply swrap_small; lia. }
  unfold MME_MOUNT_PASSPHRASE, MME_ABORT.
  replace ((1 <=? n) && (n <=? 4)) with true by lia. done.
Qed.

Section ManagerLemmas.
Context `{Heap, Nss, !NssLaws, Sys} (big_endian : bool).
Context (module_trans : trans_node_id -> option transition_node)
        (module_tf : Z -> Z -> gstate -> running (Z * gstate))
        (open_file : nat -> cstring -> Z + descriptor) (open_fd : nat -> Z -> descriptor)
        (pw_dir : option cstring) (open_rc : cstring -> Z + descriptor)
        (key_mod_dir : cstring) (dir : option (list dirent)) (sysfs : sysfs_world).
(** The array of the menu, whose second byte on does not go on with digits. *)
Context (x : byte) (str text : bytes) (sig_junk : bytes).
Hypothesis str_text : cstr_of str = Ok text.
Hypothesis text_no_digit : match text with c :: _ => (digit_of c <? 10) = false | [] => True end.
Hypothesis sig_room : zlen sig_junk = 17.
Hypothesis heap_works : heap_never_fails.

Abbreviation step := (manager_step big_endian module_trans module_tf open_file open_fd pw_dir open_rc
  key_mod_dir dir (x :: str) sig_junk sysfs).

(** What the menu shows at: empty buffers. *)
Definition at_menu (rc : Z) (g : gstate) (t : terminal) (input : list Z) (out : list (option cstring))
    : mgr_state := Mgr (zeros 64) (zeros 8) rc g t input out.

(** The choice of a passphrase, and the end. *)
Lemma step_passphrase fuel rc g t p input out :
  digest_total -> sys_works -> echo_works false t -> Forall line_char p -> p <> [] -> zlen p < 64 ->
  let kr := ensure_token (g_keyring g) common_salt p in
  step (S fuel) (at_menu rc g t (49 :: 10 :: p ++ 10 :: p ++ 10 :: input) out) =
  Ok (MgrAgain (at_menu 0 (set_keyring kr.2 g) t input
        (out ++ [if kr.1 =? 1 then None else Some (passphrase_sig_hex common_salt p)]))).
Proof.
  intros Hd Hsys Ht Hp Hne Hl kr. unfold manager_step.
  change (49 :: 10 :: p ++ 10 :: p ++ 10 :: input) with (48 + 1 :: 10 :: p ++ 10 :: p ++ 10 :: input).
  unfold at_menu at 1. cbn [ms_input]. rewrite (menu_choice fuel x str text 1) by (done || lia).
  rewrite bind_Ok. change (1 =? MME_MOUNT_PASSPHRASE) with true.
  unfold add_passphrase. cbn [set_typed at_menu ms_passphrase ms_salt ms_term ms_input ms_graph ms_out ms_rc].
  rewrite read_passphrase_salt_correct, bind_Ok by done. rewrite bool_decide_eq_true_2, bool_decide_eq_false_2 by done.
  cbn [Z.eqb negb]. change (rd1 (zeros 8) 0) with (Ok 0). rewrite bind_Ok. cbn [Z.eqb].
  change (wr (zeros 8) 0 common_salt) with (Ok common_salt). rewrite bind_Ok.
  rewrite cstr_of_app, bind_Ok by (by apply line_char_nonzero).
  rewrite add_passphrase_key_ok, bind_Ok by (done || lia). fold kr.
  assert (forall s, zlen (ms_passphrase s) = 64 -> ms_salt s = common_salt ->
    again s = Ok (MgrAgain (at_menu (ms_rc s) (ms_graph s) (ms_term s) (ms_input s) (ms_out s)))) as Hagain.
  { intros s Hps Hss. unfold again. rewrite wipe_ok, bind_Ok by (done || by rewrite Hss). done. }
  assert (zlen (p ++ 0 :: drop (S (length p)) (zeros 64)) = 64) as Hbuf.
  { rewrite zlen_app, zlen_cons. unfold zlen in *. rewrite length_drop. change (length (zeros 64)) with 64%nat. lia. }
  unfold kr, ensure_token. destruct (g_keyring g !! passphrase_sig_hex common_salt p); cbn [fst snd Z.eqb Pos.eqb].
  - rewrite bind_Ok. by apply Hagain.
  - change ([0] ++ drop 17 sig_junk) with (0 :: drop 17 sig_junk).
    rewrite cstr_of_app by (by apply is_char_nonzero, passphrase_sig_hex_cstring).
    cbn [obind mret outcome_ret]. by apply Hagain.
Qed.

(** Leaving: the last code is the exit code. *)
Lemma step_abort fuel rc g t input out :
  step (S fuel) (at_menu rc g t (52 :: 10 :: input) out) = Ok (MgrReturns rc (at_menu rc g t input out)).
Proof.
  unfold manager_step. change (52 :: 10 :: input) with (48 + 4 :: 10 :: input).
  unfold at_menu at 1. cbn [ms_input]. by rewrite (menu_choice fuel x str text 4) by (done || lia).
Qed.

(** A line of more than one character is not a choice. *)
Lemma menu_long_line fuel c d l input :
  line_char c -> line_char d -> Forall line_char l ->
  manager_menu (S fuel) (x :: str) (c :: d :: l ++ 10 :: input) = manager_menu fuel (c :: str) input.
Proof.
  intros Hc Hd Hl. cbn [manager_menu mygetchar]. rewrite (newline_of_char c) by done. cbn [default from_option id].
  rewrite (wr_next [] str x c : wr (x :: str) 0 [c] = _), bind_Ok.
  cbn [munch_newline mygetchar]. rewrite (newline_of_char d) by done.
  destruct Hd as (_ & Hd & _). rewrite (proj2 (Z.eqb_neq _ _) Hd). cbn [Z.eqb negb app].
  assert (skip_line (l ++ 10 :: input) = input) as ->; [|done].
  induction Hl as [|e l He _ IH]; [done|]. cbn [app skip_line]. rewrite newline_of_char by done.
  destruct He as (_ & He & _). by rewrite (proj2 (Z.eqb_neq _ _) He).
Qed.

(** A passphrase of 64 characters, typed twice: the confirmation is what is left
    of the first line. *)
Lemma step_64_characters fuel rc g t p input out :
  echo_works false t -> Forall line_char p -> zlen p = 64 ->
  step (S fuel) (at_menu rc g t (49 :: 10 :: p ++ 10 :: p ++ 10 :: input) out) =
  Ok (MgrAgain (at_menu (- EINVAL) g t (p ++ 10 :: input) out)).
Proof.
  intros Ht Hp Hl. unfold manager_step.
  change (49 :: 10 :: p ++ 10 :: p ++ 10 :: input) with (48 + 1 :: 10 :: p ++ 10 :: p ++ 10 :: input).
  unfold at_menu at 1. cbn [ms_input]. rewrite (menu_choice fuel x str text 1) by (done || lia).
  rewrite bind_Ok. change (1 =? MME_MOUNT_PASSPHRASE) with true.
  unfold add_passphrase. cbn [set_typed at_menu ms_passphrase ms_salt ms_term ms_input ms_graph ms_out ms_rc].
  unfold read_passphrase_salt. rewrite (heap_works 1229). cbn [negb]. change ECRYPTFS_MAX_PASSWORD_LENGTH with 64.
  rewrite get_string_ok by (done || by vm_compute). rewrite bind_Ok. cbn [Z.eqb negb].
  change (Z.to_nat (64 - 1)) with 63%nat. change (Z.to_nat 64) with 64%nat.
  destruct p as [|c p]; [done|]. assert (length p = 63%nat) as H63 by (unfold zlen in Hl; cbn in Hl; lia).
  cbn [take]. change (rd1 ((c :: ?a) ++ ?b) 0) with (Ok c). rewrite bind_Ok.
  apply Forall_cons in Hp as [Hc Hp]. destruct Hc as (Hc & _). rewrite (proj2 (Z.eqb_neq _ _) Hc).
  rewrite drop_app_length' by (cbn; lia).
  change ([10] ++ (c :: p) ++ 10 :: input) with ([] ++ 10 :: (c :: p) ++ 10 :: input).
  rewrite get_string_ok, bind_Ok by (done || rewrite ?zlen_malloc_block by lia; lia).
  cbn [Z.eqb negb take].
  rewrite cstr_of_app, bind_Ok; [|apply Forall_cons; split; [done|]; apply line_char_nonzero; by apply Forall_take].
  rewrite ?take_nil. rewrite (cstr_of_app []), bind_Ok by apply Forall_nil_2.
  rewrite streq_ne by done. cbn [obind mret outcome_ret]. change (- EINVAL =? 0) with false. cbn [negb].
  unfold again. rewrite wipe_ok, bind_Ok; [done| |done].
  cbn [ms_passphrase]. rewrite zlen_app, zlen_cons, zlen_cons, zlen_drop. unfold zlen.
  cbn [length]. rewrite length_take. change (length (zeros 64)) with 64%nat. lia.
Qed.
End ManagerLemmas.

(** No passphrase and no salt in the buffers. *)
Definition clean (s : mgr_state) : Prop :=
  take 64 (ms_passphrase s) = zeros 64 /\ take 8 (ms_salt s) = zeros 8.
Definition clean_end (r : mgr_end) : Prop :=
  match r with MgrAgain s | MgrReturns _ s => clean s | _ => True end.

Lemma again_clean s r : again s = Ok r -> clean_end r.
Proof. unfold again. intros (s' & E & [= <-])%bind_ok_inv. by apply wipe_inv in E as (? & ? & _). Qed.

Lemma leave_main_clean s r : clean s -> leave_main s = Ok r -> clean_end r.
Proof. unfold leave_main. by intros Hs (? & _ & [= <-])%bind_ok_inv. Qed.

Lemma with_walk_clean walk next s r :
  clean s -> (forall s r, clean s -> next s = Ok r -> clean_end r) ->
  with_walk walk next s = Ok r -> clean_end r.
Proof.
  intros Hs Hn. unfold with_walk. intros ([| |rc g] & _ & E)%bind_ok_inv; [by injection E as [= <-]..|].
  destruct (negb (rc =? 0)); [by apply leave_main_clean in E|].
  apply bind_ok_inv in E as ([log mods] & _ & E). by apply Hn in E.
Qed.

(** The states in which the menu is shown, for any input. *)
Section Reach.
Context `{Heap, Nss, Sys} (step : nat -> mgr_state -> outcome mgr_end).
Inductive at_selection : mgr_state -> Prop :=
  | selection_first s s' : wipe s = Ok s' -> at_selection s'
  | selection_again fuel s s' : at_selection s -> step fuel s = Ok (MgrAgain s') -> at_selection s'.
End Reach.

(** ** Properties *)
Section Properties.
Context `{Heap, Nss, !NssLaws, Sys} (big_endian : bool).
Context (module_trans : trans_node_id -> option transition_node)
        (module_tf : Z -> Z -> gstate -> running (Z * gstate))
        (open_file : nat -> cstring -> Z + descriptor) (open_fd : nat -> Z -> descriptor)
        (pw_dir : option cstring) (open_rc : cstring -> Z + descriptor)
        (key_mod_dir : cstring) (dir : option (list dirent)) (sysfs : sysfs_world).

(** C26. A session of the manager in which a passphrase is added, typed twice as the
    terminal gives it, and left with the choice 4: it ends with code 0, the keyring
    has the token of the passphrase with the built-in salt, its signature is
    reported, or that it was there, and both buffers are empty.  A passphrase of 64
    characters, which the other tools take, cannot be added: the confirmation reads
    the rest of the first line, the second one is read by the menu, no key is added,
    and the code at the end is that of the last choice. *)
Theorem manager_adds_passphrase (x : byte) str text sig_junk p t g rest n fuel stack stack_salt :
  heap_never_fails -> digest_total -> sys_works -> echo_works false t ->
  cstr_of str = Ok text -> match text with c :: _ => (digit_of c <? 10) = false | [] => True end ->
  zlen sig_junk = 17 -> zlen stack = 64 -> zlen stack_salt = 8 -> Forall line_char p -> p <> [] ->
  let run := manager_main big_endian module_trans module_tf open_file open_fd pw_dir open_rc
    key_mod_dir dir (x :: str) sig_junk sysfs 0 (S (S n)) (S (S fuel)) stack stack_salt g t
    (49 :: 10 :: p ++ 10 :: p ++ 10 :: 52 :: 10 :: rest) in
  (zlen p < 64 ->
   let kr := ensure_token (g_keyring g) common_salt p in
   run = Ok (MgrReturns 0 (Mgr (zeros 64) (zeros 8) 0 (set_keyring kr.2 g) t rest
               [if kr.1 =? 1 then None else Some (passphrase_sig_hex common_salt p)]))) /\
  (zlen p = 64 -> run = Ok (MgrReturns (- EINVAL) (Mgr (zeros 64) (zeros 8) (- EINVAL) g t rest []))).
Proof.
  intros Hh Hd Hsys Ht Hstr Htext Hsig Hst Hsa Hp Hne run.
  assert (run = manager_loop big_endian module_trans module_tf open_file open_fd pw_dir open_rc
    key_mod_dir dir (x :: str) sig_junk sysfs (S (S n)) (S (S fuel))
    (at_menu 0 g t (49 :: 10 :: p ++ 10 :: p ++ 10 :: 52 :: 10 :: rest) [])) as ->.
  { unfold run, manager_main. change (ecryptfs_validate_keyring 0) with 0. cbn [Z.eqb negb].
    by rewrite wipe_ok, bind_Ok. }
  cbn [manager_loop]. split; intros Hl.
  - rewrite (step_passphrase big_endian _ _ _ _ _ _ _ _ _ x str text), bind_Ok by done.
    by rewrite (step_abort big_endian _ _ _ _ _ _ _ _ _ x str text), bind_Ok.
  - rewrite (step_64_characters big_endian _ _ _ _ _ _ _ _ _ x str text), bind_Ok by done.
    unfold manager_step. cbn [at_menu ms_input].
    destruct p as [|c [|d p]]; [done|done|]. do 2 (apply Forall_cons in Hp as [? Hp]).
    cbn [app]. rewrite menu_long_line by done.
    change (52 :: 10 :: rest) with (48 + 4 :: 10 :: rest).
    rewrite (menu_choice fuel c str text 4), bind_Ok by (done || lia). done.
Qed.

(** C18. Whatever is typed and however often: each time the menu is shown the buffers
    of passphrase and salt are empty, and they are when [main] returns - after a
    key was added or refused, after a walk over the graph of a key module, after
    its failure, and after the way back to the menu that jumps over the wiping. *)
Theorem manager_leaves_no_passphrase menu_str sig_junk :
  let step := manager_step big_endian module_trans module_tf open_file open_fd pw_dir open_rc
    key_mod_dir dir menu_str sig_junk sysfs in
  forall s, at_selection step s ->
  clean s /\ forall fuel rc s', step fuel s = Ok (MgrReturns rc s') -> clean s'.
Proof.
  intros step.
  assert (forall fuel s r, clean s -> step fuel s = Ok r -> clean_end r) as Hstep.
  { intros fuel s r Hs. unfold step, manager_step. intros ([selection input] & _ & E)%bind_ok_inv.
    destruct selection as [selection|]; [|by injection E as [= <-]].
    assert (clean (set_typed input s)) as Hs' by done.
    destruct (selection =? MME_MOUNT_PASSPHRASE).
    { unfold add_passphrase in E. apply bind_ok_inv in E as ([[[rc pass] t] i] & _ & E).
      destruct (negb (rc =? 0)); [by apply again_clean in E|].
      apply bind_ok_inv in E as (? & _ & E). apply bind_ok_inv in E as (? & _ & E).
      apply bind_ok_inv in E as (? & _ & E). apply bind_ok_inv in E as ([[? ?] ?] & _ & E).
      apply bind_ok_inv in E as (? & _ & E). by apply again_clean in E. }
    destruct (selection =? MME_MOUNT_PUBKEY).
    { unfold add_public_key in E. apply bind_ok_inv in E as (version & _ & E).
      destruct (negb _); [by apply leave_main_clean in E|].
      apply with_walk_clean in E; [done..|]. intros ? ? _. apply again_clean. }
    destruct (selection =? MME_GEN_PUBKEY).
    { unfold generate_key in E. apply bind_ok_inv in E as (version & _ & E).
      apply with_walk_clean in E; [done..|]. by intros ? ? ? [= <-]. }
    destruct (selection =? MME_ABORT); apply bind_ok_inv in E as (s1 & E1 & [= <-]);
      by apply wipe_inv in E1 as (? & ? & _). }
  assert (forall s, at_selection step s -> clean s) as Hat.
  { induction 1 as [s s' Hw|fuel s s' _ IH Hs]; [by apply wipe_inv in Hw as (? & ? & _)|].
    by apply Hstep in Hs. }
  intros s Hs. split; [by apply Hat|]. intros fuel rc s' E. by apply Hat in Hs; apply Hstep in E.
Qed.

(** When a walk for a public key fails, the manager is left at once, and its exit
    code is 0: the code of the walk is overwritten by that of freeing the modules. *)
Theorem manager_hides_failures (x : byte) str text sig_junk n fuel rc0 g g' t input out version code :
  heap_never_fails -> cstr_of str = Ok text ->
  match text with c :: _ => (digit_of c <? 10) = false | [] => True end ->
  1 < n <= 3 -> version_or_passphrase sysfs = Ok version -> code <> 0 ->
  (if n =? 2
   then ecryptfs_process_decision_graph big_endian module_trans module_tf open_file open_fd true pw_dir
          open_rc key_mod_dir dir (S fuel) version (Some []) true
   else ecryptfs_process_key_gen_decision_graph big_endian module_trans module_tf open_file open_fd true
          key_mod_dir dir (S fuel) version)
    (set_input (answers input) (set_mnt [None] g)) = Ok (Returned code g') ->
  (exists log, ecryptfs_free_key_mod_list (g_mods g') = Ok log) ->
  exists s', manager_step big_endian module_trans module_tf open_file open_fd pw_dir open_rc
    key_mod_dir dir (x :: str) sig_junk sysfs (S fuel) (at_menu rc0 g t (48 + n :: 10 :: input) out) =
  Ok (MgrReturns 0 s').
Proof.
  intros Hh Hstr Htext Hn Hv Hc Hw [log Hlog]. unfold manager_step. cbn [at_menu ms_input].
  rewrite (menu_choice fuel x str text n), bind_Ok by (done || lia).
  assert (n = 2 \/ n = 3) as [-> | ->] by lia; cbn [Z.eqb Pos.eqb] in Hw.
  - change (2 =? MME_MOUNT_PASSPHRASE) with false. change (2 =? MME_MOUNT_PUBKEY) with true.
    unfold add_public_key. rewrite Hv, bind_Ok, (Hh 120088). cbn [negb]. unfold with_walk.
    cbn [set_typed at_menu ms_input ms_graph]. rewrite Hw, bind_Ok, (proj2 (Z.eqb_neq _ _) Hc). cbn [negb].
    unfold leave_main. cbn [set_typed set_graph set_rc ms_graph]. rewrite Hlog, bind_Ok. by eexists.
  - change (3 =? MME_MOUNT_PASSPHRASE) with false. change (3 =? MME_MOUNT_PUBKEY) with false.
    change (3 =? MME_GEN_PUBKEY) with true. unfold generate_key. rewrite Hv, bind_Ok. unfold with_walk.
    cbn [set_typed at_menu ms_input ms_graph]. rewrite Hw, bind_Ok, (proj2 (Z.eqb_neq _ _) Hc). cbn [negb].
    unfold leave_main. cbn [set_typed set_graph set_rc ms_graph]. rewrite Hlog, bind_Ok. by eexists.
Qed.
End Properties.

(** ** Witnesses *)
Definition no_files : cstring -> Z + descriptor := fun _ => inl ENOENT.
Definition sample_terminal : terminal := Terminal ECHO 0 0.

(** A manager that finds no key modules, not even their directory. *)
Abbreviation bare_manager f := (f false (fun _ => None) (fun _ _ _ => UB NullDeref) (fun _ _ => inl ENOENT)
  (fun _ _ => (inl ENOENT, fun _ => None, [])) None no_files (lit "/lib") None).

Lemma manager_adds_passphrase_witness :
  let run p := bare_manager (@manager_main plenty eighth_nss calm_sys)
    (0 :: zeros 7) (zeros 17) sample_sysfs 0 2%nat 2%nat (replicate 64 1) (replicate 8 1) (fresh_state ∅ []) sample_terminal
    (49 :: 10 :: p ++ 10 :: p ++ 10 :: 52 :: 10 :: []) in
  let kr := @ensure_token eighth_nss ∅ common_salt (lit "secret") in
  run (lit "secret") =
    Ok (MgrReturns 0 (Mgr (zeros 64) (zeros 8) 0 (set_keyring kr.2 (fresh_state ∅ [])) sample_terminal []
      [if kr.1 =? 1 then None else Some (@passphrase_sig_hex eighth_nss common_salt (lit "secret"))])) /\
  run (replicate 64 97) =
    Ok (MgrReturns (- EINVAL) (Mgr (zeros 64) (zeros 8) (- EINVAL) (fresh_state ∅ []) sample_terminal [] [])).
Proof.
  assert (forall p, bool_decide (Forall (fun c => c <> 0 /\ c <> 10 /\ c <> 13) p) = true -> Forall line_char p) as Hline
    by (intros p Hp; by apply bool_decide_eq_true_1 in Hp).
  split.
  - apply (bare_manager (@manager_adds_passphrase plenty eighth_nss eighth_nss_laws calm_sys) sample_sysfs
      0 (zeros 7) [] (zeros 17) (lit "secret") sample_terminal (fresh_state ∅ []) [] 0%nat 0%nat (replicate 64 1) (replicate 8 1));
      try reflexivity; [by intros line k|by intros m; cbn; eauto|apply calm_sys_works|by right|by apply Hline|discriminate].
  - apply (bare_manager (@manager_adds_passphrase plenty eighth_nss eighth_nss_laws calm_sys) sample_sysfs
      0 (zeros 7) [] (zeros 17) (replicate 64 97) sample_terminal (fresh_state ∅ []) [] 0%nat 0%nat (replicate 64 1) (replicate 8 1));
      try reflexivity; [by intros line k|by intros m; cbn; eauto|apply calm_sys_works|by right|by apply Hline|discriminate].
Defined.

Lemma manager_leaves_no_passphrase_witness :
  let s := Mgr (zeros 64) (zeros 8) 0 (fresh_state ∅ []) sample_terminal (lit "4" ++ [10]) [] in
  let step := bare_manager (@manager_step plenty eighth_nss calm_sys) (zeros 8) (zeros 17) sample_sysfs in
  clean s /\ forall fuel rc s', step fuel s = Ok (MgrReturns rc s') -> clean s'.
Proof.
  intros s step.
  apply (bare_manager (@manager_leaves_no_passphrase plenty eighth_nss calm_sys) sample_sysfs (zeros 8) (zeros 17)).
  apply (selection_first _ (Mgr (replicate 64 1) (replicate 8 1) 0 (fresh_state ∅ []) sample_terminal (lit "4" ++ [10]) [])).
  reflexivity.
Defined.

Lemma manager_hides_failures_witness :
  exists s', bare_manager (@manager_step plenty eighth_nss calm_sys) (0 :: zeros 7) (zeros 17) sample_sysfs 1%nat
    (at_menu 0 (fresh_state ∅ []) sample_terminal (48 + 2 :: 10 :: []) []) = Ok (MgrReturns 0 s').
Proof.
  eapply (bare_manager (@manager_hides_failures plenty eighth_nss calm_sys) sample_sysfs 0 (zeros 7) [] (zeros 17) 2 0%nat
    0 (fresh_state ∅ []) _ sample_terminal [] [] 0x397 (- EPERM)); try reflexivity; try discriminate.
  - by intros line k.
  - lia.
  - by eexists.
Defined.
