(* ===== verification/GenKey.v ===== *)
(** * Directories for new keys: [src/utils/gen_key.c]

    The two functions that make the directories of a key file below the home of
    the user; the rest of that file is a comment.  The name of the file is cut
    after each slash in place, and the character is put back.  Allocations of
    this file are asked for by line number plus 150000. *)

From S2P Require Import Prelude CLib Ecryptfs.

Section GenKey.
Context `{Heap} (mkdir : cstring -> option Z) (asprintf_errno : Z).
Context (home alias : cstring).

Definition pki_dir : cstring := home ++ lit "/.ecryptfs/pki/" ++ alias ++ lit "/".

(** [mkdir(directory,0700) != 0 && errno != EEXIST]: the code to leave with. *)
Definition mkdir_fails (directory : cstring) : option Z :=
  match mkdir directory with
  | Some errno => if errno =? EEXIST then None else Some errno
  | None => None
  end.

(** The code, the buffer with the name, and the directories asked for.  A turn is
    taken for a slash, so [fuel] beyond the length of the buffer is not used. *)
Fixpoint subdirectory_loop (fuel : nat) (substring : Z) (file : bytes) (made : list cstring)
    : outcome (option (Z * bytes * list cstring)) :=
  match fuel with
  | O => mret None
  | S fuel' =>
      rest ← cstr_of (drop (Z.to_nat substring) file);
      match strstr rest (lit "/") with
      | None => mret (Some (0, file, made))
      | Some k =>
          let substring := substring + Z.of_nat k in
          temp ← rd1 file (substring + 1);
          file ← wr file (substring + 1) [0];
          if negb (alloc_ok 150120 (length made)) then mret (Some (asprintf_errno, file, made))
          else
            name ← cstr_of file;
            let directory := pki_dir ++ name in
            match mkdir_fails directory with
            | Some rc => mret (Some (rc, file, made ++ [directory]))
            | None =>
                file ← wr file (substring + 1) [temp];
                subdirectory_loop fuel' (substring + 1) file (made ++ [directory])
            end
      end
  end.
Definition create_subdirectory (file : bytes) : outcome (option (Z * bytes * list cstring)) :=
  subdirectory_loop (S (length file)) 0 file [].

(** The code and the directories asked for. *)
Fixpoint make_dirs (lines : list (Z * cstring)) (made : list cstring) : Z * list cstring :=
  match lines with
  | [] => (0, made)
  | (line, directory) :: lines' =>
      if negb (alloc_ok line 0) then (asprintf_errno, made)
      else match mkdir_fails directory with
      | Some rc => (rc, made ++ [directory])
      | None => make_dirs lines' (made ++ [directory])
      end
  end.
Definition create_default_dir : Z * list cstring :=
  make_dirs [(150145, home ++ lit "/.ecryptfs/"); (150156, home ++ lit "/.ecryptfs/pki/"); (150167, pki_dir)] [].
End GenKey.

(** ** Lemmas *)

(** The names that end with a slash at the front of [s], each behind [pre]. *)
Fixpoint slash_prefixes (pre s : cstring) : list cstring :=
  match s with
  | [] => []
  | c :: s' => (if c =? 47 then [pre ++ [47]] else []) ++ slash_prefixes (pre ++ [c]) s'
  end.

Lemma slash_prefixes_skip pre a s :
  Forall (fun c => c <> 47) a -> slash_prefixes pre (a ++ s) = slash_prefixes (pre ++ a) s.
Proof.
  intros Ha. revert pre. induction Ha as [|c a Hc _ IH]; intros pre; [by rewrite app_nil_r|].
  cbn [app slash_prefixes]. rewrite (proj2 (Z.eqb_neq c 47)) by done. cbn [app].
  by rewrite IH, <- app_assoc.
Qed.

(** The text up to the first slash. *)
Lemma strstr_slash s :
  match strstr s (lit "/") with
  | None => Forall (fun c => c <> 47) s
  | Some k => exists a b, s = a ++ 47 :: b /\ k = length a /\ Forall (fun c => c <> 47) a
  end.
Proof.
  change (lit "/") with [47]. rewrite strstr_char. induction s as [|c s IH]; [constructor|]. cbn [strchr].
  destruct (Z.eqb_spec c 47) as [->|Hc]; [by exists [], s|].
  destruct (strchr s 47) as [k|]; cbn [fmap option_fmap option_map].
  - destruct IH as (a & b & -> & -> & Ha). exists (c :: a), b. by repeat constructor.
  - by constructor.
Qed.

Lemma strstr_slash_at a b : Forall (fun c => c <> 47) a -> strstr (a ++ 47 :: b) (lit "/") = Some (length a).
Proof.
  change (lit "/") with [47]. rewrite strstr_char. induction 1 as [|c a Hc _ IH]; [done|].
  cbn [app strchr]. rewrite (proj2 (Z.eqb_neq c 47)) by done. by rewrite IH.
Qed.

Section GenKeyLemmas.
Context `{Heap} (mkdir : cstring -> option Z) (asprintf_errno : Z) (home alias : cstring).
Hypothesis heap_works : heap_never_fails.
Abbreviation loop := (subdirectory_loop mkdir asprintf_errno home alias).
Abbreviation dir := (pki_dir home alias).

(** One slash. *)
Lemma subdirectory_turn fuel pre a b junk made :
  Forall (fun c => c <> 0) (pre ++ a ++ 47 :: b) -> Forall (fun c => c <> 47) a ->
  let file := pre ++ a ++ 47 :: b ++ 0 :: junk in
  let cut := pre ++ a ++ [47] in
  loop (S fuel) (zlen pre) file made =
  match mkdir_fails mkdir (dir ++ cut) with
  | Some rc => Ok (Some (rc, cut ++ 0 :: drop 1 (b ++ 0 :: junk), made ++ [dir ++ cut]))
  | None => loop fuel (zlen cut) (cut ++ b ++ 0 :: junk) (made ++ [dir ++ cut])
  end.
Proof.
  intros Hnz Ha file cut. cbn [subdirectory_loop]. unfold file.
  unfold zlen at 1. rewrite Nat2Z.id, drop_app_length.
  apply Forall_app in Hnz as [Hp Hnz]. pose proof Hnz as [Hna [_ Hb]%Forall_cons]%Forall_app.
  replace (a ++ 47 :: b ++ 0 :: junk) with ((a ++ 47 :: b) ++ 0 :: junk) by (by rewrite <- app_assoc).
  rewrite cstr_of_app, bind_Ok by done.
  rewrite strstr_slash_at by done. rewrite <- app_assoc. cbn [app].
  assert (pre ++ a ++ 47 :: b ++ 0 :: junk = cut ++ b ++ 0 :: junk) as -> by (unfold cut; by rewrite <- !app_assoc).
  assert (zlen pre + Z.of_nat (length a) + 1 = zlen cut) as -> by (unfold cut, zlen; rewrite !length_app; cbn; lia).
  destruct (b ++ 0 :: junk) as [|t r] eqn:Er; [by destruct b|].
  assert (forall x y, wr (cut ++ x :: r) (zlen cut) [y] = Ok (cut ++ y :: r)) as Hw
    by (intros x y; by apply (wr_app3 cut [x] r)).
  rewrite rd1_app, bind_Ok by done. rewrite Hw, bind_Ok.
  rewrite (heap_works 150120). cbn [negb].
  assert (Forall (fun c => c <> 0) cut) as Hc.
  { unfold cut. apply Forall_app. split; [done|]. apply Forall_app. split; [done|]. by repeat constructor. }
  rewrite cstr_of_app, bind_Ok by done.
  destruct (mkdir_fails mkdir (dir ++ cut)); [done|].
  by rewrite Hw, bind_Ok.
Qed.

Lemma subdirectory_loop_ok fuel pre s junk made :
  (forall d, mkdir_fails mkdir d = None) -> Forall (fun c => c <> 0) (pre ++ s) -> (length s < fuel)%nat ->
  loop fuel (zlen pre) (pre ++ s ++ 0 :: junk) made =
  Ok (Some (0, pre ++ s ++ 0 :: junk, made ++ ((fun p => dir ++ p) <$> slash_prefixes pre s))).
Proof.
  intros Hm. revert pre s made. induction fuel as [|fuel IH]; intros pre s made Hnz Hf; [lia|].
  pose proof (strstr_slash s) as Hs. destruct (strstr s (lit "/")) as [k|] eqn:Ek.
  - destruct Hs as (a & b & -> & _ & Ha). rewrite <- app_assoc. cbn [app].
    rewrite subdirectory_turn by done. rewrite Hm. cbn [app].
    rewrite length_app in Hf. cbn [length] in Hf.
    rewrite IH; [|by rewrite <- !app_assoc|lia].
    rewrite slash_prefixes_skip by done. cbn [slash_prefixes Z.eqb Pos.eqb app fmap list_fmap].
    rewrite <- !app_assoc. done.
  - cbn [subdirectory_loop]. unfold zlen at 1. rewrite Nat2Z.id, drop_app_length.
    apply Forall_app in Hnz as [_ Hnz]. rewrite cstr_of_app, bind_Ok by done. rewrite Ek.
    rewrite <- (app_nil_r s) at 3. rewrite slash_prefixes_skip by done. cbn [slash_prefixes fmap list_fmap].
    by rewrite app_nil_r.
Qed.
End GenKeyLemmas.

(** ** Properties *)

(** When directories can be made, or are there, the default ones are asked for from
    the home down, and then one for every slash in the name of the key, each behind
    the one that holds it; the buffer with the name is as it was.  When the first of
    these cannot be made, the name stays cut behind its first slash. *)
Theorem key_directories `{Heap} mkdir asprintf_errno home alias name junk :
  heap_never_fails -> Forall (fun c => c <> 0) name ->
  let file := name ++ 0 :: junk in
  let dir := pki_dir home alias in
  ((forall d, mkdir_fails mkdir d = None) ->
     create_default_dir mkdir asprintf_errno home alias =
       (0, [home ++ lit "/.ecryptfs/"; home ++ lit "/.ecryptfs/pki/"; dir]) /\
     create_subdirectory mkdir asprintf_errno home alias file =
       Ok (Some (0, file, (fun p => dir ++ p) <$> slash_prefixes [] name))) /\
  (forall a b rc, name = a ++ 47 :: b -> Forall (fun c => c <> 47) a ->
     mkdir_fails mkdir (dir ++ a ++ [47]) = Some rc ->
     exists file', create_subdirectory mkdir asprintf_errno home alias file =
       Ok (Some (rc, file', [dir ++ a ++ [47]])) /\ cstr_of file' = Ok (a ++ [47])).
Proof.
  intros Hh Hnz file dir. split.
  - intros Hm. unfold create_default_dir. cbn [make_dirs]. rewrite !Hh, !Hm. split; [done|].
    unfold create_subdirectory, file. apply (subdirectory_loop_ok mkdir asprintf_errno home alias Hh _ [] name); [done..|].
    rewrite length_app. cbn [length]. lia.
  - intros a b rc -> Ha Hrc. unfold create_subdirectory, file. rewrite <- app_assoc. cbn [app].
    pose proof (subdirectory_turn mkdir asprintf_errno home alias Hh (length (a ++ 47 :: b ++ 0 :: junk)) [] a b junk [] Hnz Ha) as E.
    cbn [app] in E. fold dir in E. rewrite Hrc in E. eexists. split; [exact E|].
    apply cstr_of_app. apply Forall_app in Hnz as [Hna _]. apply Forall_app. split; [done|]. by repeat constructor.
Qed.

Lemma key_directories_witness :
  @create_subdirectory plenty (fun _ => None) 0 (lit "/root") (lit "openssl") (lit "work/2009/key.pem" ++ [0]) =
    Ok (Some (0, lit "work/2009/key.pem" ++ [0],
      [lit "/root/.ecryptfs/pki/openssl/work/"; lit "/root/.ecryptfs/pki/openssl/work/2009/"])) /\
  exists file', @create_subdirectory plenty (fun _ => Some EACCES) 0 (lit "/root") (lit "openssl") (lit "a/key.pem" ++ [0]) =
    Ok (Some (EACCES, file', [lit "/root/.ecryptfs/pki/openssl/a/"])) /\ cstr_of file' = Ok (lit "a/").
Proof.
  split.
  - refine (proj2 (proj1 (@key_directories plenty (fun _ => None) 0 (lit "/root") (lit "openssl") (lit "work/2009/key.pem") []
      (fun _ _ => eq_refl) _) (fun _ => eq_refl))). by repeat constructor.
  - refine (proj2 (@key_directories plenty (fun _ => Some EACCES) 0 (lit "/root") (lit "openssl") (lit "a/key.pem") []
      (fun _ _ => eq_refl) _) (lit "a") (lit "key.pem") EACCES eq_refl _ eq_refl); by repeat constructor.
Defined.
