(* ===== verification/MountEcryptfs.v ===== *)
(** * The mount helper ([utils/mount.ecryptfs.c])

    The program behind [mount -t ecryptfs]: it walks the graph of mount options,
    turns what the walk left on the stack into options of the kernel, asks about
    signatures it has not seen, and runs [/bin/mount]. *)

From S2P Require Import Prelude CLib Ecryptfs PassphraseSig KeyMod KeyManagement CmdLnParser DecisionGraph PassphraseGraph ModuleMgr Questions Terminal Sysfs.

Definition ECANCELED : Z := 125.
Definition NUM_REQUIRED_ARGS : Z := 3.

(** ** Arguments *)

(** [arg] in a fresh block; the test for a slash at the end looks at the
    terminator. *)
Definition copy_path (ptr : cstring) : outcome cstring :=
  let len := zlen ptr + 1 in
  let b := ptr ++ [0] in
  last ← rd1 b (len - 1);
  b ← (if last =? 47 then wr b (len - 1) [0] else mret b);
  cstr_of b.

(** The argument behind the first "-o". *)
Fixpoint find_options (argv : list cstring) : option cstring :=
  match argv with
  | a :: ((b :: _) as argv') => if streq (lit "-o") a then Some b else find_options argv'
  | _ => None
  end.

(** [parameter_should_be_scrubbed] and its tables. *)
Definition parameters_to_scrub : list cstring :=
  [lit "key="; lit "cipher="; lit "passthrough"; lit "ecryptfs_passthrough"; lit "hmac";
   lit "ecryptfs_hmac"; lit "xattr"; lit "ecryptfs_xattr"; lit "encrypted_view";
   lit "ecryptfs_encrypted_view"; lit "user"; lit "sig"; lit "no_sig_cache"; lit "verbose";
   lit "verbosity"; lit "ecryptfs_enable_filename_crypto"].
Definition parameters_to_not_scrub : list cstring := [lit "xattr_user"].

(** [strstr(str, p) == str]. *)
Definition starts_with (str p : cstring) : bool :=
  match strstr str p with Some O => true | _ => false end.
Definition parameter_should_not_be_scrubbed (str : cstring) : bool :=
  existsb (starts_with str) parameters_to_not_scrub.
Definition parameter_should_be_scrubbed (str : cstring) : bool :=
  existsb (fun p => starts_with str p && negb (parameter_should_not_be_scrubbed str))
    parameters_to_scrub.

(** A string up to its first comma, and what follows the comma. *)
Definition next_option (cur : cstring) : cstring * option cstring :=
  match strstr cur [44] with
  | Some i => (take i cur, Some (drop (S i) cur))
  | None => (cur, None)
  end.

Section Options.
Context `{Heap}.

Definition parse_arguments (argv : list cstring) (with_paths : bool)
    : outcome (Z * option cstring * option cstring * option cstring) :=
  let failed := mret (- ENOMEM, None, None, None) in
  let path (line : Z) (i : nat) : outcome (option (option cstring)) :=
    if with_paths then
      ptr ← deref_str (argv !! i);
      if negb (alloc_ok line 0) then mret None else p ← copy_path ptr; mret (Some (Some p))
    else mret (Some None) in
  src ← path 40080 1%nat;
  match src with
  | None => failed
  | Some src =>
      target ← path 40092 2%nat;
      match target with
      | None => failed
      | Some target =>
          if NUM_REQUIRED_ARGS <=? zlen argv then
            match find_options (drop 3 argv) with
            | None => mret (0, src, target, None)
            | Some ptr =>
                if negb (alloc_ok (if with_paths then 40120 else 40121) 0) then failed
                else mret (0, src, target, Some ptr)
            end
          else mret (0, src, target, None)
      end
  end.

(** The loop of [strip_userland_opts]: [temp] and the offset [temp_end];
    [None] when the fuel runs out. *)
Fixpoint strip_loop (fuel : nat) (cur : cstring) (temp : bytes) (temp_end : Z) (first : bool)
    : outcome (option bytes) :=
  match fuel with
  | O => mret None
  | S fuel' =>
      let '(opt, next) := next_option cur in
      '(temp, temp_end, first) ←
        (if parameter_should_be_scrubbed opt then mret (temp, temp_end, first)
         else
           '(temp, temp_end) ← (if first : bool then mret (temp, temp_end)
                                else temp ← wr temp temp_end [44]; mret (temp, temp_end + 1));
           temp ← wr temp temp_end opt;
           mret (temp, temp_end + zlen opt, false));
      match next with
      | None => mret (Some temp)
      | Some next => strip_loop fuel' next temp temp_end first
      end
  end.

(** The code and the options, which are changed in place. *)
Definition strip_userland_opts (options : option cstring) : outcome (Z * option cstring) :=
  match options with
  | None => mret (0, None)
  | Some options =>
      let len := zlen options + 1 in
      if negb (alloc_ok 40203 0) then mret (-1, Some options)
      else
        temp ← memset (malloc_block heap_junk len) 0 0 len;
        r ← strip_loop (S (length options)) options temp 0 true;
        match r with
        | None => mret (-1, Some options)
        | Some temp =>
            b ← wr (options ++ [0]) 0 temp;
            s ← cstr_of b;
            mret (0, Some s)
        end
  end.

(** Does some option of the list start with [option]? *)
Fixpoint contains_loop (fuel : nat) (opt option : cstring) : bool :=
  match fuel with
  | O => false
  | S fuel' =>
      if prefixb option opt then true
      else match strchr opt 44 with
      | Some i => contains_loop fuel' (drop (S i) opt) option
      | None => false
      end
  end.
Definition opts_str_contains_option (options : option cstring) (option : cstring) : bool :=
  match options with
  | None => false
  | Some options => contains_loop (S (length options)) options option
  end.

Definition required_mount_opts : list cstring := [lit "ecryptfs_key_bytes="].
Definition ecryptfs_validate_mount_opts (opts : option cstring) : Z :=
  if forallb (opts_str_contains_option opts) required_mount_opts then 0 else - EINVAL.
End Options.

(** ** Signatures that were not used before *)
Section Signatures.
Context `{Heap, Sys}.

(** The next answer of [get_string_stdin]. *)
Definition ask (input : list (Z * option cstring)) : Z * option cstring * list (Z * option cstring) :=
  match input with
  | [] => (- EIO, None, [])
  | (rc, v) :: input => (rc, v, input)
  end.

(** A [do] loop that asks until the answer is yes or no, [k] more times at
    most: the code of a failed read or the last answer.  A read that fails to
    allocate leaves [yesno] alone, which was freed before ([freed]) and is freed
    again at the end of the function. *)
Fixpoint ask_yes_no (k : nat) (freed : bool) (input : list (Z * option cstring))
    : outcome ((Z + cstring) * list (Z * option cstring)) :=
  let '(rc, yesno, input) := ask input in
  if negb (rc =? 0) then
    if freed && (rc =? - ENOMEM) && bool_decide (yesno = None) then UB DoubleFree
    else mret (inl rc, input)
  else
    yesno ← deref_str yesno;
    if streq yesno (lit "yes") || streq yesno (lit "no") then mret (inr yesno, input)
    else match k with
    | O => mret (inr yesno, input)
    | S k' => ask_yes_no k' true input
    end.

(** [mkdir] and [chown] of the directory are ignored by the code. *)
Definition process_sig (fs : files) (auth_tok_sig : cstring) (pw_dir : cstring)
    (input : list (Z * option cstring)) : outcome (Z * files * list (Z * option cstring)) :=
  if negb (alloc_ok 40247 0) then mret (- ENOMEM, fs, input)
  else if negb (alloc_ok 40257 0) then mret (- ENOMEM, fs, input)
  else
    let sig_cache_filename := pw_dir ++ lit "/.ecryptfs/sig-cache.txt" in
    '(rc, flags) ← ecryptfs_check_sig fs (auth_tok_sig ++ [0]) sig_cache_filename 0;
    if negb (rc =? 0) then mret (rc, fs, input)
    else if negb (has_flag flags ECRYPTFS_SIG_FLAG_NOENT) then mret (0, fs, input)
    else
      '(proceed, input) ← ask_yes_no 4 false input;
      match proceed with
      | inl rc => mret (rc, fs, input)
      | inr yesno =>
          if negb (streq yesno (lit "yes")) then mret (ECANCELED, fs, input)
          else
            '(append, input) ← ask_yes_no 4 true input;
            match append with
            | inl rc => mret (rc, fs, input)
            | inr yesno =>
                if streq yesno (lit "yes") then
                  '(rc, fs) ← ecryptfs_append_sig fs (auth_tok_sig ++ [0]) sig_cache_filename;
                  mret (rc, fs, input)
                else mret (if streq yesno (lit "no") then 0 else - EINVAL, fs, input)
            end
      end.
End Signatures.

(** ** Mounting *)

(** How [/bin/mount] ends. *)
Inductive child_end :=
  | ForkFailed (errno : Z)
  | WaitFailed (errno : Z)
  | ExitStatus (status : Z)
  | Signalled.

(** A run of [/bin/mount -i --no-canonicalize -t ecryptfs source target -o opts]. *)
Record mount_run := MountRun { mr_source : cstring; mr_target : cstring; mr_opts : cstring }.

Definition EPIPE : Z := 32.

Section Mount.
Context `{Heap, Nss, Sys} (realpath : cstring -> Z + cstring) (bin_mount : mount_run -> child_end).

(** The code and the runs of [/bin/mount]. *)
Definition ecryptfs_mount (source target : option cstring) (opts : cstring) : Z * list mount_run :=
  match source, target with
  | Some source, Some target =>
      match realpath source with
      | inl errno => (- errno, [])
      | inr fullpath_source =>
          match realpath target with
          | inl errno => (- errno, [])
          | inr fullpath_target =>
              let run := MountRun fullpath_source fullpath_target opts in
              match bin_mount run with
              | ForkFailed errno => (- errno, [])
              | WaitFailed errno => (- errno, [run])
              | Signalled => (- EPERM, [run])
              | ExitStatus status =>
                  let rc := - status in
                  (if rc =? - EPIPE then - EPERM else rc, [run])
              end
          end
      end
  | _, _ => (- EINVAL, [])
  end.

(** The loop that pops the values: the code, the options, the files and the
    input.  A value that the options contain already is dropped. *)
Fixpoint pop_options (stack : list (option cstring)) (sig_cache : bool) (pw_dir : cstring)
    (new_opts : option cstring) (fs : files) (input : list (Z * option cstring))
    : outcome (Z * option cstring * files * list (Z * option cstring)) :=
  match stack with
  | [] => mret (0, new_opts, fs, input)
  | None :: _ => mret (0, new_opts, fs, input)
  | Some val :: stack' =>
      is_sig ← (if sig_cache then
                  start ← rd (val ++ [0]) 0 13; mret (bool_decide (start = lit "ecryptfs_sig="))
                else mret false);
      '(rc, fs, input) ← (if is_sig : bool then process_sig fs (drop 13 val) pw_dir input
                          else mret (0, fs, input));
      if negb (rc =? 0) then mret (rc, new_opts, fs, input)
      else
        match new_opts with
        | Some temp =>
            match strstr temp val with
            | Some _ => pop_options stack' sig_cache pw_dir new_opts fs input
            | None =>
                if negb (alloc_ok 40482 (length stack')) then mret (- ENOMEM, None, fs, input)
                else pop_options stack' sig_cache pw_dir
                       (Some (if zlen temp =? 0 then val else val ++ 44 :: temp)) fs input
            end
        | None =>
            if negb (alloc_ok 40482 (length stack')) then mret (- ENOMEM, None, fs, input)
            else pop_options stack' sig_cache pw_dir (Some val) fs input
        end
  end.

Definition ecryptfs_do_mount (argv : list cstring) (mnt_params : list (option cstring))
    (sig_cache : bool) (pw_dir : cstring) (fs : files) (input : list (Z * option cstring))
    : outcome (Z * list mount_run * files) :=
  '(rc, src, targ, opts) ← parse_arguments argv true;
  if negb (rc =? 0) then mret (rc, [], fs)
  else
    '(rc, opts) ← strip_userland_opts opts;
    if negb (rc =? 0) then mret (rc, [], fs)
    else if negb (alloc_ok 40457 0 && alloc_ok 10037 0) then mret (- ENOMEM, [], fs)
    else
      '(rc, new_opts, fs, _) ←
        pop_options (Some (lit "ecryptfs_unlink_sigs") :: mnt_params) sig_cache pw_dir opts fs input;
      if negb (rc =? 0) then mret (rc, [], fs)
      else
        let rc := ecryptfs_validate_mount_opts new_opts in
        if negb (rc =? 0) then mret (rc, [], fs)
        else
          opts ← deref_str new_opts;
          let '(rc, runs) := ecryptfs_mount src targ opts in
          mret (rc, runs, fs).
End Mount.

(** ** The program *)

(** How the program ends: it exits in [usage], it returns from [main], or a walk
    over the graph ends it or does not end. *)
Inductive main_end :=
  | UsageExit (code : Z)
  | MainReturns (rc : Z) (runs : list mount_run) (fs : files) (kr : gmap (list Z) ecryptfs_auth_tok)
  | WalkExits
  | WalkEndless.

(** What the program finds: results of [mlockall] and [keyctl], the entry of the
    user, the version files, paths and [/bin/mount]. *)
Record mount_world := MountWorld {
  mw_mlockall : Z;
  mw_pw_dir : option cstring;
  mw_sysfs : sysfs_world;
  mw_keyctl_link : Z;
  mw_realpath : cstring -> Z + cstring;
  mw_bin_mount : mount_run -> child_end
}.

Section Main.
Context `{Heap, Nss, Sys} (big_endian : bool).
Context (module_trans : trans_node_id -> option transition_node)
        (module_tf : Z -> Z -> gstate -> running (Z * gstate))
        (open_file : nat -> cstring -> Z + descriptor) (open_fd : nat -> Z -> descriptor)
        (open_rc : cstring -> Z + descriptor) (key_mod_dir : cstring) (dir : option (list dirent)).
Context (w : mount_world).

(** The options asked for, with "verbosity=0" when the user is not to be
    asked; [None] when the allocation fails. *)
Definition effective_options (opts_str : option cstring) : option (option cstring) :=
  if (opts_str_contains_option opts_str (lit "no_prompt") ||
      opts_str_contains_option opts_str (lit "wild_ass_guess")) &&
     negb (opts_str_contains_option opts_str (lit "verbosity=0"))
  then if negb (alloc_ok 40590 0) then None
       else Some (Some (show_str opts_str ++ lit ",verbosity=0"))
  else Some opts_str.

Definition main (fuel : nat) (argv : list cstring) (fs : files) (s : gstate) : outcome main_end :=
  let returns rc := mret (MainReturns rc [] fs (g_keyring s)) in
  if negb (mw_mlockall w =? 0) then returns (-1)
  else match mw_pw_dir w with
  | None => returns (- EIO)
  | Some pw_dir =>
      if zlen argv <? NUM_REQUIRED_ARGS then mret (UsageExit (- EINVAL))
      else
        '(rc, version) ← ecryptfs_get_version (mw_sysfs w);
        version ← (if negb (rc =? 0) then mret ECRYPTFS_VERSIONING_PASSPHRASE
                   else match version with Some v => mret v | None => UB Uninitialised end);
        let rc := ecryptfs_validate_keyring (mw_keyctl_link w) in
        if negb (rc =? 0) then returns rc
        else if negb (alloc_ok 40562 0) then UB NullDeref
        else
          '(rc, _, _, opts_str) ← parse_arguments argv false;
          if negb (rc =? 0) then returns rc
          else if opts_str_contains_option opts_str (lit "remount") then returns (- EINVAL)
          else match effective_options opts_str with
          | None => returns (- ENOMEM)
          | Some opts_str' =>
              let sig_cache := negb (opts_str_contains_option opts_str (lit "no_sig_cache")) &&
                               negb (opts_str_contains_option opts_str' (lit "verbosity=0")) in
              r ← ecryptfs_process_decision_graph big_endian module_trans module_tf open_file open_fd
                    true (Some pw_dir) open_rc key_mod_dir dir fuel version opts_str' false s;
              match r with
              | OutOfFuel => mret WalkEndless
              | Exited => mret WalkExits
              | Returned rc s =>
                  if negb (rc =? 0) then
                    mret (MainReturns (if 0 <? rc then - EINVAL else rc) [] fs (g_keyring s))
                  else
                    '(rc, runs, fs) ← ecryptfs_do_mount (mw_realpath w) (mw_bin_mount w) argv (g_mnt s)
                                        sig_cache pw_dir fs (g_input s);
                    mret (MainReturns (if rc =? ECANCELED then 0 else if 0 <? rc then - rc else rc)
                            runs fs (g_keyring s))
              end
          end
  end.
End Main.

(** ** Reference: the options of a string *)
Fixpoint split_on (c : Z) (s : cstring) : list cstring :=
  match s with
  | [] => [[]]
  | x :: s' =>
      if x =? c then [] :: split_on c s'
      else match split_on c s' with
      | t :: ts => (x :: t) :: ts
      | [] => [[x]]
      end
  end.

(** The options that are left for the kernel. *)
Definition kernel_options (options : cstring) : cstring :=
  join_with 44 (filter (fun o => parameter_should_be_scrubbed o = false) (split_on 44 options)).

(** ** Lemmas on options *)
Lemma split_on_nonempty c s : split_on c s <> [].
Proof. destruct s as [|x s]; cbn; [done|]. by repeat case_match. Qed.

Lemma strchr_split s c :
  match strchr s c with
  | Some i => split_on c s = take i s :: split_on c (drop (S i) s) /\ zlen s = zlen (take i s) + 1 + zlen (drop (S i) s)
  | None => split_on c s = [s]
  end.
Proof.
  induction s as [|x s IH]; [done|]. cbn [strchr split_on]. destruct (x =? c).
  { cbn [take drop]. rewrite drop_0. split; [done|]. unfold zlen. cbn [length]. lia. }
  destruct (strchr s c) as [i|]; cbn [fmap option_fmap option_map].
  - destruct IH as [-> Hl]. cbn [take drop]. rewrite !zlen_cons, Hl. split; [done|lia].
  - by rewrite IH.
Qed.

Lemma next_option_split cur :
  match next_option cur with
  | (o, Some next) => split_on 44 cur = o :: split_on 44 next /\ zlen cur = zlen o + 1 + zlen next
  | (o, None) => split_on 44 cur = [o] /\ o = cur
  end.
Proof.
  unfold next_option. rewrite strstr_char. pose proof (strchr_split cur 44) as Hs.
  destruct (strchr cur 44); done.
Qed.

Lemma join_with_snoc c l o : join_with c (l ++ [o]) = match l with [] => o | _ => join_with c l ++ c :: o end.
Proof.
  induction l as [|a l IH]; [done|]. cbn [app]. destruct l as [|b l]; [done|].
  change (join_with c (a :: (b :: l) ++ [o])) with (a ++ c :: join_with c ((b :: l) ++ [o])).
  change (join_with c (a :: b :: l)) with (a ++ c :: join_with c (b :: l)).
  rewrite IH. by rewrite <- app_assoc.
Qed.

(** A write at the end of what is there, into room filled with zeros. *)
Lemma wr_append acc n src :
  zlen src <= n -> wr (acc ++ zeros n) (zlen acc) src = Ok ((acc ++ src) ++ zeros (n - zlen src)).
Proof.
  intros Hn. pose proof (zlen_nonneg src).
  replace (zeros n) with (zeros (zlen src) ++ zeros (n - zlen src)).
  - rewrite (wr_app3 acc (zeros (zlen src)) (zeros (n - zlen src)) (zlen acc) src); [by rewrite app_assoc|done|].
    unfold zeros. rewrite zlen_replicate. lia.
  - unfold zeros. rewrite <- replicate_add. f_equal. lia.
Qed.

Lemma join_with_chars (P : Z -> Prop) c l : P c -> Forall (Forall P) l -> Forall P (join_with c l).
Proof.
  intros Hc Hl. induction Hl as [|a l Ha Hl IH]; [apply Forall_nil_2|].
  destruct l; [exact Ha|]. apply Forall_app. split; [done|]. apply Forall_cons. by split.
Qed.

Lemma split_on_chars (P : Z -> Prop) c s : Forall P s -> Forall (Forall P) (split_on c s).
Proof.
  induction 1 as [|x s Hx _ IH]; cbn [split_on]; [apply Forall_cons; split; apply Forall_nil_2|].
  destruct (x =? c); [apply Forall_cons; split; [apply Forall_nil_2|done]|].
  destruct (split_on c s) as [|t ts]; [|apply Forall_cons in IH as [? ?]];
    (apply Forall_cons; split; [by apply Forall_cons|done]) || (apply Forall_cons; split; [|done]; apply Forall_cons; split; [done|apply Forall_nil_2]).
Qed.

Lemma kernel_options_chars (P : Z -> Prop) options : P 44 -> Forall P options -> Forall P (kernel_options options).
Proof.
  intros Hc Ho. apply join_with_chars; [done|]. apply Forall_forall. intros o [_ Hin]%list_elem_of_filter.
  pose proof (split_on_chars P 44 options Ho) as Hs. rewrite Forall_forall in Hs. by apply Hs.
Qed.

(** A prefix without commas is one of the first option. *)
Lemma prefixb_option option a b :
  Forall (fun x => x <> 44) option -> prefixb option (a ++ 44 :: b) = prefixb option a.
Proof.
  revert a. induction option as [|x option IH]; intros a Ho; [done|].
  apply Forall_cons in Ho as [Hx Ho]. unfold prefixb in *. cbn [length].
  destruct a as [|y a]; cbn [app take].
  - rewrite !bool_decide_eq_false_2; [done|done|]. by intros [= <- _].
  - specialize (IH a Ho).
    destruct (decide (y = x)) as [->|Hne].
    + revert IH. case_bool_decide as H1; case_bool_decide as H2; intros IH; try done.
      * rewrite !bool_decide_eq_true_2; [done|by rewrite H2|by rewrite H1].
      * rewrite !bool_decide_eq_false_2; [done|congruence|congruence].
    + rewrite !bool_decide_eq_false_2; [done|congruence|congruence].
Qed.

(** [opts_str_contains_option] looks at the beginning of every option. *)
Lemma contains_option_split options option :
  Forall (fun x => x <> 44) option ->
  opts_str_contains_option (Some options) option = existsb (prefixb option) (split_on 44 options).
Proof.
  intros Ho. unfold opts_str_contains_option.
  assert (forall fuel opt, (length opt < fuel)%nat ->
    contains_loop fuel opt option = existsb (prefixb option) (split_on 44 opt)) as Hloop;
    [|by apply Hloop; lia].
  intros fuel. induction fuel as [|fuel IH]; intros opt Hf; [lia|]. cbn [contains_loop].
  pose proof (strchr_split opt 44) as Hs. destruct (strchr opt 44) as [i|] eqn:Hi.
  - destruct Hs as [-> Hlen]. cbn [existsb].
    assert (opt = take i opt ++ 44 :: drop (S i) opt) as Hopt.
    { clear -Hi. revert i Hi. induction opt as [|x opt IH]; intros i Hi; [done|]. cbn [strchr] in Hi.
      destruct (x =? 44) eqn:Hx; [injection Hi as <-; apply Z.eqb_eq in Hx as ->; cbn [take drop app]; by rewrite drop_0|].
      destruct (strchr opt 44) as [j|]; [|done]. injection Hi as <-. cbn [take drop app]. f_equal. by apply IH. }
    rewrite IH by (unfold zlen in Hlen; lia).
    rewrite Hopt at 1. rewrite prefixb_option by done. by destruct (prefixb option (take i opt)).
  - rewrite Hs. cbn [existsb]. by destruct (prefixb option opt).
Qed.

(** An option of a list begins with [p]. *)
Definition some_option (p : cstring) (options : option cstring) : Prop :=
  exists o r, options = Some o /\ (p ++ r) ∈ split_on 44 o.

Lemma contains_option_spec options p :
  Forall (fun x => x <> 44) p -> opts_str_contains_option options p = true <-> some_option p options.
Proof.
  intros Hp. destruct options as [o|]; [|split; [done|by intros (o & r & ? & _)]].
  rewrite contains_option_split by done. rewrite existsb_exists. unfold some_option. split.
  - intros (t & Ht & [r ->]%prefixb_spec). exists o, r. split; [done|by apply list_elem_of_In].
  - intros (o' & r & [= <-] & Hr). exists (p ++ r). split; [by apply list_elem_of_In|apply prefixb_app].
Qed.

Lemma contains_option_false options p :
  Forall (fun x => x <> 44) p -> opts_str_contains_option options p = false <-> ~ some_option p options.
Proof. intros Hp. rewrite <- contains_option_spec, not_true_iff_false by done. done. Qed.

Section OptionLemmas.
Context `{Heap}.

Lemma strip_loop_ok fuel cur kept n :
  (length cur < fuel)%nat ->
  (if bool_decide (kept = []) then 0 else 1) + zlen cur < n ->
  exists m, strip_loop fuel cur (join_with 44 kept ++ zeros n) (zlen (join_with 44 kept))
              (bool_decide (kept = [])) =
    Ok (Some (join_with 44 (kept ++ filter (fun o => parameter_should_be_scrubbed o = false) (split_on 44 cur))
              ++ zeros m)) /\ 0 < m /\
    zlen (join_with 44 (kept ++ filter (fun o => parameter_should_be_scrubbed o = false) (split_on 44 cur))) + m =
      zlen (join_with 44 kept) + n.
Proof.
  revert cur kept n. induction fuel as [|fuel IH]; intros cur kept n Hf Hn; [lia|].
  cbn [strip_loop]. pose proof (next_option_split cur) as Hs.
  destruct (next_option cur) as [o next]. pose proof (zlen_nonneg o).
  assert (zlen o <= zlen cur) as Ho.
  { destruct next as [next|]; destruct Hs as [_ Hs]; [pose proof (zlen_nonneg next); lia|by subst]. }
  set (step := if parameter_should_be_scrubbed o then _ else _).
  assert (exists n', step = Ok (join_with 44 (kept ++ filter (fun o => parameter_should_be_scrubbed o = false) [o]) ++ zeros n',
      zlen (join_with 44 (kept ++ filter (fun o => parameter_should_be_scrubbed o = false) [o])),
      bool_decide (kept ++ filter (fun o => parameter_should_be_scrubbed o = false) [o] = [])) /\
      (if bool_decide (kept ++ filter (fun o => parameter_should_be_scrubbed o = false) [o] = []) then 0 else 1)
        + (zlen cur - zlen o - 1) < n' /\ 0 < n' /\
      zlen (join_with 44 (kept ++ filter (fun o => parameter_should_be_scrubbed o = false) [o])) + n' =
        zlen (join_with 44 kept) + n)
    as (n' & -> & Hn' & Hpos & Hsum).
  { unfold step. rewrite filter_cons, filter_nil. destruct (parameter_should_be_scrubbed o) eqn:Hscrub.
    - rewrite decide_False, app_nil_r by done. exists n. split; [done|]. revert Hn. destruct (bool_decide (kept = [])); lia.
    - rewrite decide_True by done. rewrite (bool_decide_eq_false_2 (kept ++ [o] = [])) by (by destruct kept).
      rewrite join_with_snoc. destruct kept as [|k kept].
      + change (bool_decide (@nil cstring = [])) with true in *. cbn match in Hn. cbn [mret outcome_ret]. rewrite bind_Ok.
        change (join_with 44 []) with (@nil Z). rewrite (wr_append [] n o) by lia. rewrite bind_Ok.
        exists (n - zlen o). split; [done|]. change (zlen (@nil Z)) with 0.
        change (join_with 44 ([] ++ [o])) with o. lia.
      + change (bool_decide (k :: kept = [])) with false in *. cbn match in Hn. set (acc := join_with 44 (k :: kept)).
        rewrite wr_append by (change (zlen [44]) with 1; lia). cbn [mret outcome_ret]. rewrite !bind_Ok.
        replace (zlen acc + 1) with (zlen (acc ++ [44])) by (by rewrite zlen_app).
        change (zlen [44]) with 1. rewrite wr_append by lia. rewrite bind_Ok.
        exists (n - 1 - zlen o). rewrite <- !app_assoc. cbn [app].
        assert (zlen (acc ++ 44 :: o) = zlen acc + 1 + zlen o) as Hlen by (rewrite zlen_app, zlen_cons; lia).
        split; [|lia]. rewrite Hlen, zlen_app. reflexivity. }
  rewrite bind_Ok. destruct next as [next|].
  - destruct Hs as [-> Hlen].
    destruct (IH next (kept ++ filter (fun o => parameter_should_be_scrubbed o = false) [o]) n')
      as (m & Heq & Hm & Hm2); [unfold zlen in *; lia|lia|].
    exists m. rewrite <- app_assoc, <- filter_app in *. split; [exact Heq|]. split; [done|]. cbn [app] in *. lia.
  - destruct Hs as [-> _]. exists n'. done.
Qed.
End OptionLemmas.

Lemma strip_userland_opts_alloc `{Heap} options :
  is_cstring options ->
  strip_userland_opts (Some options) =
    Ok (if alloc_ok 40203 0 then (0, Some (kernel_options options)) else (-1, Some options)).
Proof.
  intros Hc. unfold strip_userland_opts. destruct (alloc_ok 40203 0); cbn [negb]; [|done].
  pose proof (zlen_nonneg options). unfold memset.
  rewrite wr_ok by (rewrite ?zlen_replicate, ?zlen_malloc_block; lia).
  change (Z.to_nat 0) with 0%nat. rewrite take_0, length_replicate.
  rewrite drop_ge by (unfold malloc_block; rewrite length_fmap, length_seq; lia). rewrite app_nil_r.
  cbn [app]. rewrite bind_Ok.
  destruct (strip_loop_ok (S (length options)) options [] (zlen options + 1)) as (m & Heq & Hm & Hlen);
    [lia|cbn; lia|].
  change (bool_decide (@nil cstring = [])) with true in Heq. change (join_with 44 []) with (@nil Z) in Heq.
  cbn [app] in Heq. change (zlen (@nil Z)) with 0 in Heq. unfold zeros in Heq. rewrite Heq, bind_Ok.
  cbn [app] in Hlen. fold (kernel_options options) in Hlen |- *. fold (zeros m).
  rewrite wr_ok by (rewrite ?zlen_app; unfold zeros; rewrite ?zlen_replicate;
    change (join_with 44 []) with (@nil Z) in Hlen; unfold zlen in *; cbn [length] in *; lia).
  change (Z.to_nat 0) with 0%nat. rewrite take_0. cbn [app].
  rewrite drop_ge by (rewrite !length_app; unfold zeros; rewrite length_replicate;
    change (join_with 44 []) with (@nil Z) in Hlen; unfold zlen in *; cbn [length] in *; lia).
  rewrite app_nil_r, bind_Ok. unfold zeros. destruct (Z.to_nat m) eqn:Hm2; [lia|]. cbn [replicate].
  rewrite cstr_of_app, bind_Ok; [done|]. apply kernel_options_chars; [done|by apply is_char_nonzero].
Qed.

Lemma strip_userland_opts_ok `{Heap} options :
  heap_never_fails -> is_cstring options ->
  strip_userland_opts (Some options) = Ok (0, Some (kernel_options options)).
Proof. intros Hh Hc. by rewrite strip_userland_opts_alloc, Hh. Qed.

(** ** Properties *)

(** The options handed on to the kernel are the options given, at their
    commas, without those that begin with a name of the table, in order and
    separated by commas; the copy never leaves its buffer. *)
Theorem strip_userland_opts_filter `{Heap} options :
  heap_never_fails -> is_cstring options ->
  strip_userland_opts (Some options) = Ok (0, Some (kernel_options options)).
Proof. apply strip_userland_opts_ok. Qed.

Lemma strip_userland_opts_filter_witness :
  @strip_userland_opts plenty (Some (lit "rw,key=passphrase,xattr_user,ecryptfs_cipher=aes,user=joe")) =
  Ok (0, Some (lit "rw,xattr_user,ecryptfs_cipher=aes")).
Proof.
  apply (@strip_userland_opts_filter plenty (lit "rw,key=passphrase,xattr_user,ecryptfs_cipher=aes,user=joe")).
  - done.
  - apply (bool_decide_unpack _). vm_compute. exact I.
Defined.

(** ** Questions about signatures *)
Definition yes_or_no (a : cstring) : Prop := a = lit "yes" \/ a = lit "no".
Definition neither (a : cstring) : Prop := a <> lit "yes" /\ a <> lit "no".

Lemma ask_yes_no_ok k freed wrong a input :
  Forall neither wrong -> (length wrong <= k)%nat -> yes_or_no a \/ length wrong = k ->
  ask_yes_no k freed (typed (wrong ++ [a]) ++ input) = Ok (inr a, input).
Proof.
  intros Hw. revert k freed. induction Hw as [|b wrong [Hy Hn] Hw IH]; intros k freed Hk Ha.
  - destruct k; cbn -[lit]; destruct (streq a (lit "yes") || streq a (lit "no")) eqn:E; try done.
    destruct Ha as [[-> | ->]|]; done.
  - destruct k as [|k]; [cbn in Hk; lia|].
    cbn -[lit]. rewrite !streq_ne by done. cbn [orb]. apply IH; [cbn in Hk; lia|].
    destruct Ha as [|Ha]; [by left|right; cbn in Ha; lia].
Qed.

(** A signature that is in the cache is used without a question.  For one that
    is not, the mount goes on only after a yes (to a question asked up to five
    times); the signature is added to the cache exactly when the second question
    is answered with yes, too; nothing else of the files changes. *)
Theorem process_sig_asks `{Heap, Sys} fs sig pw_dir l wrong1 a1 wrong2 a2 input :
  let cache := pw_dir ++ lit "/.ecryptfs/sig-cache.txt" in
  let second := typed (wrong2 ++ [a2]) ++ input in
  heap_never_fails -> sys_works -> zlen sig = 16 -> Forall (fun s => length s = 16%nat) l ->
  fs !! cache = Some (sig_cache l) ->
  Forall neither wrong1 -> Forall neither wrong2 -> (length wrong1 <= 4)%nat -> (length wrong2 <= 4)%nat ->
  yes_or_no a1 \/ length wrong1 = 4%nat -> yes_or_no a2 \/ length wrong2 = 4%nat ->
  process_sig fs sig pw_dir (typed (wrong1 ++ [a1]) ++ second) =
  Ok (if bool_decide (sig ∈ l) then (0, fs, typed (wrong1 ++ [a1]) ++ second)
      else if bool_decide (a1 = lit "yes") then
        (if bool_decide (a2 = lit "yes") then 0 else if bool_decide (a2 = lit "no") then 0 else - EINVAL,
         if bool_decide (a2 = lit "yes") then <[cache := sig_cache (l ++ [sig])]> fs else fs, input)
      else (ECANCELED, fs, second)).
Proof.
  intros cache second Hh Hs Hsig Hl Hf Hw1 Hw2 Hk1 Hk2 Ha1 Ha2. unfold process_sig. rewrite !Hh. cbn [negb].
  fold cache. assert (16 <= zlen (sig ++ [0])) as Hlen by (rewrite zlen_app; pose proof (zlen_nonneg [0]); lia).
  assert (take 16 (sig ++ [0]) = sig) as Ht
    by (rewrite take_app_le, take_ge by (unfold zlen in Hsig; lia); done).
  rewrite (check_sig_ok _ _ _ l), bind_Ok, Ht by done. cbn [Z.eqb negb].
  destruct (decide (sig ∈ l)) as [Hin|Hin].
  { by rewrite !bool_decide_eq_true_2. }
  rewrite !(bool_decide_eq_false_2 (sig ∈ l)) by done.
  change (has_flag _ ECRYPTFS_SIG_FLAG_NOENT) with true. cbn [negb].
  rewrite ask_yes_no_ok, bind_Ok by done. unfold streq.
  destruct (bool_decide (a1 = lit "yes")); [cbn [negb]|done].
  unfold second. rewrite ask_yes_no_ok, bind_Ok by done.
  destruct (bool_decide (a2 = lit "yes")); [|done].
  rewrite (append_sig_ok _ _ _ l), bind_Ok, Ht by done. done.
Qed.

Lemma process_sig_asks_witness :
  let sig := lit "0123456789abcdef" in
  let cache := lit "/home/joe/.ecryptfs/sig-cache.txt" in
  @process_sig plenty calm_sys {[cache := []]} sig (lit "/home/joe")
    (typed [lit "what"; lit "yes"; lit "yes"]) = Ok (0, {[cache := sig ++ [10]]}, []).
Proof.
  cbn zeta.
  exact (@process_sig_asks plenty calm_sys {[lit "/home/joe/.ecryptfs/sig-cache.txt" := []]}
    (lit "0123456789abcdef") (lit "/home/joe") [] [lit "what"] (lit "yes") [] (lit "yes") []
    (fun _ _ => eq_refl) calm_sys_works eq_refl (Forall_nil_2 _) eq_refl
    ltac:(repeat constructor; done) (Forall_nil_2 _) ltac:(cbn; lia) ltac:(cbn; lia)
    ltac:(by left; left) ltac:(by left; left)).
Defined.

(** ** Backwards: what the answers and the files were *)
Lemma ask_yes_no_inv k freed a input input' :
  ask_yes_no k freed input = Ok (inr a, input') ->
  exists wrong, Forall neither wrong /\ (length wrong <= k)%nat /\ input = typed (wrong ++ [a]) ++ input'.
Proof.
  revert freed input. induction k as [|k IH]; intros freed [|[rc v] input]; cbn [ask_yes_no ask].
  1, 3: change (- EIO =? 0) with false; cbn [negb]; by case_match.
  all: (destruct (rc =? 0) eqn:Hrc; cbn [negb]; [apply Z.eqb_eq in Hrc as ->|by case_match]);
    (destruct v as [v|]; [|done]); cbn [deref_str obind mret outcome_ret];
    destruct (streq v (lit "yes") || streq v (lit "no")) eqn:Hv.
  - intros [= -> ->]. by exists [].
  - intros [= -> ->]. by exists [].
  - intros [= -> ->]. exists []. split_and!; [done|cbn; lia|done].
  - intros Ha. destruct (IH _ _ Ha) as (wrong & Hw & Hl & ->). exists (v :: wrong).
    split_and!; [|cbn; lia|done]. constructor; [|done].
    apply orb_false_iff in Hv as [H1 H2]. split; intros ->; by rewrite streq_refl in *.
Qed.

Lemma ask_yes_no_code k freed input input' : ask_yes_no k freed input <> Ok (inl 0, input').
Proof.
  revert freed input. induction k as [|k IH]; intros freed [|[rc v] input]; cbn [ask_yes_no ask].
  1, 3: change (- EIO =? 0) with false; cbn [negb]; case_match; [done|intros [= ? _]; done].
  all: destruct (rc =? 0) eqn:Hrc; cbn [negb]; [|case_match; [done|intros [= -> _]; done]];
    (destruct v as [v|]; [|done]); cbn [deref_str obind mret outcome_ret];
    destruct (streq v (lit "yes") || streq v (lit "no")); done || apply IH.
Qed.

(** The cache has a record for the signature: sixteen bytes and one more. *)
Definition cached (content : bytes) (sig : bytes) : Prop :=
  exists k : nat, take 16 (drop (17 * k) content) = sig /\ (17 * k + 17 <= length content)%nat.

Lemma check_sig_loop_inv fuel sig content :
  check_sig_loop fuel sig content = Ok true -> cached content (take 16 sig).
Proof.
  revert content. induction fuel as [|fuel IH]; intros content; cbn [check_sig_loop];
    change (Z.to_nat (ECRYPTFS_SIG_SIZE_HEX + 1)) with 17%nat;
    (destruct (zlen (take 17 content) =? ECRYPTFS_SIG_SIZE_HEX + 1) eqn:Hl; [|done]); apply Z.eqb_eq in Hl;
    change (ECRYPTFS_SIG_SIZE_HEX + 1) with 17 in Hl;
    intros (a & (_ & _ & _ & ->)%rd_ok_inv & (b & (_ & _ & _ & ->)%rd_ok_inv & E)%bind_ok_inv)%bind_ok_inv;
    change (Z.to_nat 0) with 0%nat in E; change (Z.to_nat ECRYPTFS_SIG_SIZE_HEX) with 16%nat in E;
    rewrite !drop_0 in E; assert (17 <= length content)%nat as Hlen
      by (unfold zlen in Hl; rewrite length_take in Hl; lia);
    (case_bool_decide as Heq; [exists O; rewrite Nat.mul_0_r, drop_0; rewrite take_take in Heq; split; [done|lia]|]);
    [done|].
  destruct (IH _ E) as (k & Ht & Hk). rewrite length_take, Nat.min_l in Ht, Hk by lia.
  rewrite length_drop in Hk. exists (S k). rewrite drop_drop in Ht.
  split; [|lia]. by replace (17 * S k)%nat with (17 + 17 * k)%nat by lia.
Qed.

Section Agreement.
Context `{Heap, Sys} (cache : cstring).

(** The user agrees to a signature: it is in the cache, or he answers the
    question with yes, after at most four answers that are neither yes nor no; and
    the second question with no, or with yes, which adds it to the cache.  The
    files and the input before and after. *)
Inductive sig_agreed (sig : bytes) : files -> list (Z * option cstring) -> files -> list (Z * option cstring) -> Prop :=
  | agreed_cached fs content input :
      fs !! cache = Some content -> cached content sig -> sig_agreed sig fs input fs input
  | agreed_once fs wrong1 wrong2 input :
      Forall neither wrong1 -> Forall neither wrong2 -> (length wrong1 <= 4)%nat -> (length wrong2 <= 4)%nat ->
      sig_agreed sig fs (typed (wrong1 ++ [lit "yes"]) ++ typed (wrong2 ++ [lit "no"]) ++ input) fs input
  | agreed_from_now_on fs wrong1 wrong2 input :
      Forall neither wrong1 -> Forall neither wrong2 -> (length wrong1 <= 4)%nat -> (length wrong2 <= 4)%nat ->
      sig_agreed sig fs (typed (wrong1 ++ [lit "yes"]) ++ typed (wrong2 ++ [lit "yes"]) ++ input)
        (<[cache := default [] (fs !! cache) ++ sig ++ [10]]> fs) input.

Lemma append_sig_inv fs sig fs' :
  ecryptfs_append_sig fs sig cache = Ok (0, fs') ->
  fs' = <[cache := default [] (fs !! cache) ++ take 16 sig ++ [10]]> fs.
Proof.
  unfold ecryptfs_append_sig. destruct (negb _); [done|].
  intros (a & (_ & _ & Hlen & ->)%rd_ok_inv & E)%bind_ok_inv. unfold write_file in E.
  change (Z.to_nat 0) with 0%nat in E. change (Z.to_nat ECRYPTFS_SIG_SIZE_HEX) with 16%nat in E.
  rewrite drop_0 in E. change ECRYPTFS_SIG_SIZE_HEX with 16 in *.
  set (tmp := take 16 sig ++ [10]) in *.
  assert (length tmp = 17%nat) as Htmp
    by (unfold tmp; rewrite length_app, length_take; cbn [length]; unfold zlen in Hlen; lia).
  destruct (sys_write 760 (zlen tmp) =? 16 + 1) eqn:Hw; cbn [negb] in E; [|done]. apply Z.eqb_eq in Hw.
  injection E as <-. rewrite Hw, lookup_insert_eq, insert_insert_eq. cbn [default from_option id].
  rewrite take_ge by (rewrite Htmp; lia). done.
Qed.
End Agreement.

Lemma process_sig_inv `{Heap, Sys} fs sig pw_dir input fs' input' :
  process_sig fs sig pw_dir input = Ok (0, fs', input') ->
  sig_agreed (pw_dir ++ lit "/.ecryptfs/sig-cache.txt") (take 16 (sig ++ [0])) fs input fs' input'.
Proof.
  unfold process_sig. do 2 (destruct (negb _); [done|]). set (cache := pw_dir ++ lit "/.ecryptfs/sig-cache.txt").
  intros ([rc flags] & Hck & E)%bind_ok_inv.
  destruct (rc =? 0) eqn:Hrc; cbn [negb] in E; [|injection E as ? _ _; lia].
  destruct (has_flag flags ECRYPTFS_SIG_FLAG_NOENT) eqn:Hfl; cbn [negb] in E.
  - apply bind_ok_inv in E as ([proceed input1] & Hask1 & E). destruct proceed as [c|a1].
    { injection E as -> _ _. by apply ask_yes_no_code in Hask1. }
    destruct (streq a1 (lit "yes")) eqn:Ha1; cbn [negb] in E; [|done]. apply streq_spec in Ha1 as ->.
    apply ask_yes_no_inv in Hask1 as (wrong1 & Hw1 & Hl1 & ->).
    apply bind_ok_inv in E as ([append input2] & Hask2 & E). destruct append as [c|a2].
    { injection E as -> _ _. by apply ask_yes_no_code in Hask2. }
    apply ask_yes_no_inv in Hask2 as (wrong2 & Hw2 & Hl2 & ->).
    destruct (streq a2 (lit "yes")) eqn:Ha2.
    + apply streq_spec in Ha2 as ->. apply bind_ok_inv in E as ([rc2 fs2] & Happ & E).
      injection E as -> <- <-. apply append_sig_inv in Happ as ->. by constructor.
    + destruct (streq a2 (lit "no")) eqn:Hn; [|done]. apply streq_spec in Hn as ->.
      injection E as <- <-. by constructor.
  - injection E as <- <-. revert Hck. unfold ecryptfs_check_sig.
    destruct (negb _); [intros [= _ <-]; done|].
    destruct (fs !! cache) as [content|] eqn:Hf; [|intros [= _ <-]; done].
    intros ([|] & Hloop & [= _ <-])%bind_ok_inv; [|done].
    apply check_sig_loop_inv in Hloop. by eapply agreed_cached.
Qed.

(** All signatures among the values of a stack, in order. *)
Inductive all_agreed (cache : cstring) : list cstring -> files -> list (Z * option cstring) -> Prop :=
  | all_agreed_nil fs input : all_agreed cache [] fs input
  | all_agreed_other v vs fs input :
      (forall sig, v <> lit "ecryptfs_sig=" ++ sig) -> all_agreed cache vs fs input ->
      all_agreed cache (v :: vs) fs input
  | all_agreed_sig sig vs fs input fs' input' :
      sig_agreed cache (take 16 (sig ++ [0])) fs input fs' input' -> all_agreed cache vs fs' input' ->
      all_agreed cache ((lit "ecryptfs_sig=" ++ sig) :: vs) fs input.

(** The values of a stack, up to the first that is missing. *)
Fixpoint stack_values (stack : list (option cstring)) : list cstring :=
  match stack with Some v :: stack' => v :: stack_values stack' | _ => [] end.

Lemma join_with_split c l a b : join_with c (l ++ [a ++ c :: b]) = join_with c (l ++ [a; b]).
Proof.
  induction l as [|x l IH]; [done|]. cbn [app].
  assert (forall y, l ++ y :: [] <> []) as Hne1 by (by destruct l).
  destruct (l ++ [a ++ c :: b]) eqn:E1; [by apply Hne1 in E1|].
  destruct (l ++ [a; b]) eqn:E2; [by destruct l|].
  change (join_with c (x :: l0 :: l1)) with (x ++ c :: join_with c (l0 :: l1)).
  change (join_with c (x :: l2 :: l3)) with (x ++ c :: join_with c (l2 :: l3)). by rewrite IH.
Qed.

(** The options that were there to begin with. *)
Definition given_text (new_opts : option cstring) : list cstring :=
  match new_opts with Some (c :: t) => [c :: t] | _ => [] end.

Lemma occurs_refl p : occurs p p.
Proof. exists [], []. by rewrite app_nil_r. Qed.

Lemma occurs_trans p q r : occurs p q -> occurs q r -> occurs p r.
Proof. intros (a & b & ->) (a' & b' & ->). exists (a' ++ a), (b ++ b'). by rewrite <- !app_assoc. Qed.

Section Popping.
Context `{Heap, Sys} (pw_dir : cstring).

(** A prefix of the string in a block does not reach the terminator. *)
Lemma take_terminated val p :
  length p = 13%nat -> 0 ∉ p -> take 13 (val ++ [0]) = p -> take 13 val = p.
Proof.
  intros Hl Hz Ht. destruct (decide (13 <= length val)%nat).
  - by rewrite take_app_le in Ht by done.
  - exfalso. apply Hz. rewrite take_ge in Ht by (rewrite length_app; cbn [length]; lia).
    rewrite <- Ht. apply elem_of_app. by right; left.
Qed.

(** One value: the options before and after it. *)
Lemma pop_value_inv val vs (new_opts new_opts' : option cstring) out added :
  (match new_opts with
   | Some temp => match strstr temp val with
                  | Some _ => new_opts' = new_opts
                  | None => new_opts' = Some (if zlen temp =? 0 then val else val ++ 44 :: temp)
                  end
   | None => new_opts' = Some val
   end) ->
  (forall t, new_opts' = Some t -> occurs t out) ->
  Forall (.∈ vs) added -> out = join_with 44 (added ++ given_text new_opts') ->
  (forall t, new_opts = Some t -> occurs t out) /\ occurs val out /\
  exists added', Forall (.∈ val :: vs) added' /\ out = join_with 44 (added' ++ given_text new_opts).
Proof.
  intros Hnew Hocc Hadd Hout.
  assert (Forall (.∈ val :: vs) added) as Hadd' by (eapply Forall_impl; [exact Hadd|]; intros; by right).
  destruct new_opts as [temp|].
  - destruct (strstr temp val) as [i|] eqn:Hs; subst new_opts'.
    + split; [done|]. split; [|by exists added].
      eapply occurs_trans; [by eapply strstr_Some|by apply Hocc].
    + specialize (Hocc _ eq_refl). apply strstr_None in Hs.
      assert (val <> []) as Hne by (intros ->; apply Hs; by exists [], temp).
      destruct temp as [|c temp].
      * cbn [zlen] in *. change (zlen [] =? 0) with true in *. split; [|split; [done|]].
        -- intros t [= <-]. by exists [], out.
        -- exists (added ++ [val]). split; [apply Forall_app; split; [done|by repeat constructor]|].
           rewrite Hout. destruct val; [done|]. cbn [given_text]. by rewrite <- app_assoc.
      * assert ((zlen (c :: temp) =? 0) = false) as Hz by (rewrite zlen_cons; pose proof (zlen_nonneg temp); lia).
        rewrite Hz in *. split; [|split].
        -- intros t [= <-]. eapply occurs_trans; [|exact Hocc]. exists (val ++ [44]), [].
           by rewrite app_nil_r, <- app_assoc.
        -- eapply occurs_trans; [|exact Hocc]. by exists [], (44 :: c :: temp).
        -- exists (added ++ [val]). split; [apply Forall_app; split; [done|by repeat constructor]|].
           rewrite Hout. destruct val as [|x val]; [done|]. cbn [given_text app].
           rewrite <- app_assoc. apply (join_with_split 44 added (x :: val) (c :: temp)).
  - subst new_opts'. specialize (Hocc _ eq_refl). split; [done|]. split; [done|]. cbn [given_text].
    destruct val as [|x val]; cbn [given_text] in Hout.
    + by exists added.
    + exists (added ++ [x :: val]). split; [apply Forall_app; split; [done|by repeat constructor]|].
      by rewrite app_nil_r.
Qed.

Lemma pop_options_inv stack sig_cache new_opts fs input out fs' input' :
  pop_options stack sig_cache pw_dir new_opts fs input = Ok (0, Some out, fs', input') ->
  (forall t, new_opts = Some t -> occurs t out) /\
  Forall (fun v => occurs v out) (stack_values stack) /\
  (exists added, Forall (.∈ stack_values stack) added /\ out = join_with 44 (added ++ given_text new_opts)) /\
  (sig_cache = true -> all_agreed (pw_dir ++ lit "/.ecryptfs/sig-cache.txt") (stack_values stack) fs input).
Proof.
  revert new_opts fs input. induction stack as [|[val|] stack IH]; intros new_opts fs input; cbn [pop_options stack_values].
  1, 3: intros [= -> _ _]; split_and!; [by intros t [= <-]; apply occurs_refl|constructor| |constructor];
    exists []; split; [constructor|]; by destruct out.
  intros (is_sig & Hsig & E)%bind_ok_inv. apply bind_ok_inv in E as ([[rc fs1] input1] & Hproc & E).
  destruct (rc =? 0) eqn:Hrc; cbn [negb] in E; [apply Z.eqb_eq in Hrc as ->|injection E as ? _ _ _; lia].
  assert (exists new', pop_options stack sig_cache pw_dir new' fs1 input1 = Ok (0, Some out, fs', input') /\
    match new_opts with
    | Some temp => match strstr temp val with
                   | Some _ => new' = new_opts
                   | None => new' = Some (if zlen temp =? 0 then val else val ++ 44 :: temp)
                   end
    | None => new' = Some val
    end) as (new' & Hpop & Hnew).
  { destruct new_opts as [temp|].
    - destruct (strstr temp val); [by eexists|]. destruct (negb _); [done|]. by eexists.
    - destruct (negb _); [done|]. by eexists. }
  destruct (IH _ _ _ Hpop) as (Hocc & Hvals & (added & Hadd & Hout) & Hagreed).
  destruct (pop_value_inv val (stack_values stack) new_opts new' out added Hnew Hocc Hadd Hout)
    as (Hocc' & Hval & Hadd').
  split_and!; [done|by constructor|done|]. intros Hsc. specialize (Hagreed Hsc). rewrite Hsc in Hsig.
  apply bind_ok_inv in Hsig as (start & (_ & _ & Hlen & ->)%rd_ok_inv & [= <-]).
  change (Z.to_nat 0) with 0%nat in Hproc. change (Z.to_nat 13) with 13%nat in Hproc. rewrite drop_0 in Hproc.
  case_bool_decide as Hst.
  - assert (exists sig, val = lit "ecryptfs_sig=" ++ sig) as [sig ->].
    { exists (drop 13 val). rewrite <- (take_terminated val (lit "ecryptfs_sig=")); [by rewrite take_drop|done| |done].
      by apply (bool_decide_unpack _). }
    apply process_sig_inv in Hproc. by econstructor.
  - injection Hproc as <- <-. apply all_agreed_other; [|done]. intros sig ->. apply Hst. reflexivity.
Qed.
End Popping.

(** ** When [/bin/mount] is run *)
Lemma copy_path_ok ptr : is_cstring ptr -> copy_path ptr = Ok ptr.
Proof.
  intros Hp. unfold copy_path. replace (zlen ptr + 1 - 1) with (zlen ptr) by lia.
  rewrite (rd1_app ptr 0 [] (zlen ptr)), bind_Ok by done. cbn [Z.eqb obind mret outcome_ret].
  apply cstr_of_app. by apply is_char_nonzero.
Qed.

Section Runs.
Context `{Heap, Nss, Sys} (realpath : cstring -> Z + cstring) (bin_mount : mount_run -> child_end).

(** The options given: the argument behind the first "-o" after source and
    target. *)
Definition given_options (argv : list cstring) (opts : option cstring) : Prop :=
  match opts with
  | Some o => exists pre post, drop 3 argv = pre ++ lit "-o" :: o :: post /\ lit "-o" ∉ pre
  | None => forall pre o post, drop 3 argv <> pre ++ lit "-o" :: o :: post
  end.

Lemma find_options_given argv : given_options argv (find_options (drop 3 argv)).
Proof.
  unfold given_options. generalize (drop 3 argv). clear argv.
  assert (forall (b : cstring) l a, find_options (a :: b :: l) = if streq (lit "-o") a then Some b else find_options (b :: l))
    as Hstep by done.
  induction l as [|a l IH]; [intros [|] ? ?; done|]. destruct l as [|b l].
  { cbn [find_options]. intros [|x [|]] o post; done. }
  rewrite Hstep. destruct (streq (lit "-o") a) eqn:Ha.
  - apply streq_spec in Ha as <-. exists [], l. split; [done|by apply not_elem_of_nil].
  - assert (lit "-o" <> a) as Hne by (intros <-; by rewrite streq_refl in Ha).
    destruct (find_options (b :: l)) as [o|].
    + destruct IH as (pre & post & -> & Hpre). exists (a :: pre), post.
      split; [done|]. by apply not_elem_of_cons.
    + intros [|x pre] o post E; cbn [app] in E; [congruence|].
      apply (IH pre o post). congruence.
Qed.

Lemma parse_arguments_paths argv src target opts :
  Forall is_cstring argv -> parse_arguments argv true = Ok (0, src, target, opts) ->
  src = argv !! 1%nat /\ target = argv !! 2%nat /\ given_options argv opts.
Proof.
  intros Hc. unfold parse_arguments.
  assert (forall (i : nat) p (line : Z), argv !! i = Some p -> copy_path p = Ok p) as Hcopy.
  { intros i p _ Hp. apply copy_path_ok. rewrite Forall_lookup in Hc. by eapply Hc. }
  pose proof (find_options_given argv) as Hgiven.
  destruct (argv !! 1%nat) as [a|] eqn:Ha; [|done]. cbn [deref_str mret outcome_ret].
  rewrite bind_Ok. destruct (negb (alloc_ok 40080 0)); [done|].
  rewrite (Hcopy 1%nat a 0 Ha). cbn [obind mret outcome_ret].
  destruct (argv !! 2%nat) as [b|] eqn:Hb; [|done]. cbn [deref_str obind mret outcome_ret].
  destruct (negb (alloc_ok 40092 0)); [done|].
  rewrite (Hcopy 2%nat b 0 Hb). cbn [obind mret outcome_ret].
  destruct (NUM_REQUIRED_ARGS <=? zlen argv) eqn:Hl.
  - destruct (find_options (drop 3 argv)) as [o|]; [|by intros [= <- <- <-]].
    destruct (negb _); [done|]. by intros [= <- <- <-].
  - intros [= <- <- <-]. split_and!; [done..|]. apply Z.leb_gt in Hl.
    unfold given_options. rewrite drop_ge by (unfold zlen, NUM_REQUIRED_ARGS in Hl; lia). by intros [|] ? ?.
Qed.

Lemma parse_arguments_options argv src target opts :
  NUM_REQUIRED_ARGS <= zlen argv -> parse_arguments argv false = Ok (0, src, target, opts) ->
  given_options argv opts.
Proof.
  intros Hl. unfold parse_arguments. cbn [obind mret outcome_ret].
  rewrite (proj2 (Z.leb_le _ _) Hl). pose proof (find_options_given argv) as Hgiven.
  destruct (find_options (drop 3 argv)) as [o|]; [|by intros [= _ _ <-]].
  destruct (negb _); [done|]. by intros [= _ _ <-].
Qed.

Lemma given_options_unique argv o o' : given_options argv o -> given_options argv o' -> o = o'.
Proof.
  unfold given_options. generalize (drop 3 argv). clear argv.
  assert (forall (l pre pre' post post' : list cstring) x x', l = pre ++ lit "-o" :: x :: post -> lit "-o" ∉ pre ->
    l = pre' ++ lit "-o" :: x' :: post' -> lit "-o" ∉ pre' -> x = x') as Huniq.
  { intros l pre. revert l. induction pre as [|p pre IH]; intros l pre' post post' x x' -> Hp E Hp';
      destruct pre' as [|p' pre']; cbn [app] in E.
    - by injection E.
    - injection E as <- _. exfalso. apply Hp'. left.
    - injection E as -> _. exfalso. apply Hp. left.
    - injection E as <- E. eapply IH; [reflexivity| |exact E|].
      + intros Hin. apply Hp. by right.
      + intros Hin. apply Hp'. by right. }
  intros l. destruct o as [o|], o' as [o'|]; [|..|done].
  - intros (pre & post & E & Hp) (pre' & post' & E' & Hp'). f_equal. by eapply Huniq.
  - intros (pre & post & E & _) Hn. by apply Hn in E.
  - intros Hn (pre & post & E & _). by apply Hn in E.
Qed.

(** Statuses are not negative, numbers of errors positive. *)
Definition child_codes : Prop :=
  forall run, match bin_mount run with
              | ForkFailed errno | WaitFailed errno => 0 < errno
              | ExitStatus status => 0 <= status
              | Signalled => True
              end.
Hypothesis Hchild : child_codes.

Lemma ecryptfs_mount_runs a b opts rc runs :
  ecryptfs_mount realpath bin_mount (Some a) (Some b) opts = (rc, runs) ->
  runs = [] \/ exists run, runs = [run] /\ mr_opts run = opts /\
    realpath a = inr (mr_source run) /\ realpath b = inr (mr_target run) /\
    (0 <= rc -> bin_mount run = ExitStatus 0).
Proof.
  unfold ecryptfs_mount. destruct (realpath a) as [|fa] eqn:Ha; [intros [= _ <-]; by left|].
  destruct (realpath b) as [|fb] eqn:Hb; [intros [= _ <-]; by left|].
  pose proof (Hchild (MountRun fa fb opts)) as Hcodes.
  destruct (bin_mount _) eqn:Hm; intros [= <- <-]; [by left|right; eexists; split; [done|]..];
    (split_and!; [done..|]); intros Hrc; rewrite Hm.
  - lia.
  - f_equal. revert Hrc. unfold EPIPE, EPERM. case_match; lia.
  - unfold EPERM in Hrc. lia.
Qed.

(** The options a run was given: those of the command line that are for the
    kernel, with values of the walk in front. *)
Definition run_options (opts : option cstring) (values : list cstring) (text : cstring) : Prop :=
  (exists added, Forall (.∈ values) added /\
     text = join_with 44 (added ++ given_text (kernel_options <$> opts))) /\
  Forall (fun v => occurs v text) values /\
  some_option (lit "ecryptfs_key_bytes=") (Some text).

Lemma do_mount_runs argv mnt_params sig_cache pw_dir fs input rc runs fs' :
  Forall is_cstring argv ->
  ecryptfs_do_mount realpath bin_mount argv mnt_params sig_cache pw_dir fs input = Ok (rc, runs, fs') ->
  runs = [] \/
  exists a b run opts, runs = [run] /\ argv !! 1%nat = Some a /\ argv !! 2%nat = Some b /\
    realpath a = inr (mr_source run) /\ realpath b = inr (mr_target run) /\
    given_options argv opts /\
    run_options opts (stack_values (Some (lit "ecryptfs_unlink_sigs") :: mnt_params)) (mr_opts run) /\
    (sig_cache = true ->
     all_agreed (pw_dir ++ lit "/.ecryptfs/sig-cache.txt")
       (stack_values (Some (lit "ecryptfs_unlink_sigs") :: mnt_params)) fs input) /\
    (0 <= rc -> bin_mount run = ExitStatus 0).
Proof.
  intros Hc. unfold ecryptfs_do_mount. intros ([[[rc1 src] targ] opts] & Hp & Hd)%bind_ok_inv.
  destruct (rc1 =? 0) eqn:Hrc1; cbn [negb] in Hd; [|injection Hd as _ <- _; by left].
  apply Z.eqb_eq in Hrc1 as ->. apply parse_arguments_paths in Hp as (-> & -> & Hgiven); [|done].
  apply bind_ok_inv in Hd as ([rc2 opts2] & Hstrip & Hd).
  destruct (rc2 =? 0) eqn:Hrc2; cbn [negb] in Hd; [|injection Hd as _ <- _; by left].
  apply Z.eqb_eq in Hrc2 as ->.
  assert (opts2 = kernel_options <$> opts) as ->.
  { destruct opts as [o|]; [|by injection Hstrip].
    assert (is_cstring o) as Ho.
    { destruct Hgiven as (pre & post & E & _). rewrite Forall_forall in Hc. apply Hc.
      rewrite <- (take_drop 3 argv), E, !elem_of_app, !elem_of_cons. tauto. }
    rewrite strip_userland_opts_alloc in Hstrip by done. by destruct (alloc_ok 40203 0); simplify_eq. }
  destruct (negb _); [injection Hd as _ <- _; by left|].
  apply bind_ok_inv in Hd as ([[[rc3 new_opts] fs3] input3] & Hpop & Hd).
  destruct (rc3 =? 0) eqn:Hrc3; cbn [negb] in Hd; [|injection Hd as _ <- _; by left].
  apply Z.eqb_eq in Hrc3 as ->.
  unfold ecryptfs_validate_mount_opts in Hd. cbn [forallb required_mount_opts] in Hd.
  rewrite andb_true_r in Hd.
  destruct (opts_str_contains_option new_opts _) eqn:Hreq; [|injection Hd as _ <- _; by left].
  cbn [Z.eqb negb] in Hd. destruct new_opts as [opts'|]; [|done]. cbn [deref_str mret outcome_ret] in Hd.
  rewrite bind_Ok in Hd. destruct (ecryptfs_mount _ _ _ _ _) as [rc4 runs4] eqn:Hm.
  injection Hd as <- <- _.
  destruct (argv !! 1%nat) as [a|] eqn:Ha; [|injection Hm as _ <-; by left].
  destruct (argv !! 2%nat) as [b|] eqn:Hb; [|injection Hm as _ <-; by left].
  apply ecryptfs_mount_runs in Hm as [->|(run & -> & <- & Hra & Hrb & Hrc)]; [by left|right].
  apply pop_options_inv in Hpop as (_ & Hvals & Hadded & Hagreed).
  apply contains_option_spec in Hreq; [|by apply (bool_decide_unpack _)].
  exists a, b, run, opts. by split_and!.
Qed.
End Runs.

(** No option of the command line keeps the helper from asking. *)
Definition asks (opts : option cstring) : Prop :=
  ~ some_option (lit "no_sig_cache") opts /\ ~ some_option (lit "verbosity=0") opts /\
  ~ some_option (lit "no_prompt") opts /\ ~ some_option (lit "wild_ass_guess") opts.

Section Asking.
Context `{Heap}.

Lemma effective_options_ok opts opts' :
  effective_options opts = Some opts' ->
  opts' = opts \/ opts' = Some (show_str opts ++ lit ",verbosity=0") /\
    (some_option (lit "no_prompt") opts \/ some_option (lit "wild_ass_guess") opts).
Proof.
  unfold effective_options. destruct ((_ || _) && _) eqn:Hc; [|intros [= <-]; by left].
  destruct (negb (alloc_ok _ _)); [done|]. intros [= <-]. right. split; [done|].
  apply andb_true_iff in Hc as [[Hc|Hc]%orb_true_iff _]; [left|right];
    (apply contains_option_spec in Hc; [done|by apply (bool_decide_unpack _)]).
Qed.

Lemma asks_sig_cache opts opts' :
  asks opts -> effective_options opts = Some opts' ->
  negb (opts_str_contains_option opts (lit "no_sig_cache")) &&
  negb (opts_str_contains_option opts' (lit "verbosity=0")) = true.
Proof.
  intros (H1 & H2 & H3 & H4) He. apply effective_options_ok in He as [->|[_ [?|?]]]; [|done..].
  apply contains_option_false in H1, H2; [|by apply (bool_decide_unpack _)..]. by rewrite H1, H2.
Qed.
End Asking.

(** C20. [/bin/mount] is run at most once, and only after all checks: the memory is
    locked, the user is known and the user keyring in reach; no option
    begins with [remount]; the walk over the graph of options - for the version
    that the system tells, or for passphrases only - returned 0; unless
    an option asks for no questions, the user has agreed, in order, to every
    signature that the walk has left, which is in the cache of signatures or to
    which he answered yes.  Source and target are those given, resolved.  The options
    are those given that are for the kernel, with values of the walk in front; every
    value of the walk occurs in them, and one option names a key size.  When
    it was run, the program returns 0 only if it exited with 0. *)
Theorem mount_helper_runs `{Heap, Nss, Sys} big_endian module_trans module_tf open_file open_fd open_rc
    key_mod_dir dir w fuel argv fs s rc runs fs' kr :
  Forall is_cstring argv -> child_codes (mw_bin_mount w) ->
  main big_endian module_trans module_tf open_file open_fd open_rc key_mod_dir dir w fuel argv fs s =
    Ok (MainReturns rc runs fs' kr) ->
  runs = [] \/
  exists a b run opts pw_dir version opts' s',
    runs = [run] /\ argv !! 1%nat = Some a /\ argv !! 2%nat = Some b /\
    mw_realpath w a = inr (mr_source run) /\ mw_realpath w b = inr (mr_target run) /\
    mw_mlockall w = 0 /\ mw_pw_dir w = Some pw_dir /\ mw_keyctl_link w = 0 /\
    (exists c v, ecryptfs_get_version (mw_sysfs w) = Ok (c, v) /\
       if c =? 0 then v = Some version else version = ECRYPTFS_VERSIONING_PASSPHRASE) /\
    given_options argv opts /\ ~ some_option (lit "remount") opts /\
    (opts' = opts \/ opts' = Some (show_str opts ++ lit ",verbosity=0") /\
       (some_option (lit "no_prompt") opts \/ some_option (lit "wild_ass_guess") opts)) /\
    ecryptfs_process_decision_graph big_endian module_trans module_tf open_file open_fd
      true (Some pw_dir) open_rc key_mod_dir dir fuel version opts' false s = Ok (Returned 0 s') /\
    kr = g_keyring s' /\
    (let values := stack_values (Some (lit "ecryptfs_unlink_sigs") :: g_mnt s') in
     run_options opts values (mr_opts run) /\
     (asks opts -> all_agreed (pw_dir ++ lit "/.ecryptfs/sig-cache.txt") values fs (g_input s'))) /\
    (rc = 0 -> mw_bin_mount w run = ExitStatus 0).
Proof.
  intros Hc Hchild. unfold main.
  destruct (mw_mlockall w =? 0) eqn:Hlock; cbn [negb]; [|intros [= _ <- _ _]; by left].
  destruct (mw_pw_dir w) as [pw_dir|] eqn:Hpw; [|intros [= _ <- _ _]; by left].
  destruct (zlen argv <? _) eqn:Hargc; [done|]. apply Z.ltb_ge in Hargc.
  intros ([c v] & Hver & Hm)%bind_ok_inv.
  apply bind_ok_inv in Hm as (version & Hversion & Hm). unfold ecryptfs_validate_keyring in Hm.
  destruct (mw_keyctl_link w =? 0) eqn:Hlink; cbn [negb Z.eqb] in Hm;
    [|destruct (negb (- EIO =? 0)) eqn:Hx in Hm; [injection Hm as _ <- _ _; by left|done]].
  destruct (negb (alloc_ok _ _)); [done|].
  apply bind_ok_inv in Hm as ([[[rc2 src] targ] opts] & Hparse & Hm).
  destruct (rc2 =? 0) eqn:Hrc2; cbn [negb] in Hm; [|injection Hm as _ <- _ _; by left].
  apply Z.eqb_eq in Hrc2 as ->. apply parse_arguments_options in Hparse; [|done].
  destruct (opts_str_contains_option opts (lit "remount")) eqn:Hre; [injection Hm as _ <- _ _; by left|].
  destruct (effective_options opts) as [opts'|] eqn:Heff; [|injection Hm as _ <- _ _; by left].
  apply bind_ok_inv in Hm as (r & Hwalk & Hm). destruct r as [| |rc3 s3]; [done..|].
  destruct (rc3 =? 0) eqn:Hrc3; cbn [negb] in Hm; [|injection Hm as _ <- _ _; by left].
  apply Z.eqb_eq in Hrc3 as ->.
  apply bind_ok_inv in Hm as ([[rc4 runs4] fs4] & Hd & Hm).
  injection Hm as <- <- _ <-.
  apply do_mount_runs in Hd; [|done..].
  destruct Hd as [->|(a & b & run & opts1 & -> & Ha & Hb & Hra & Hrb & Hgiven & Hopts & Hagreed & Hrc)]; [by left|right].
  rewrite (given_options_unique _ _ _ Hgiven Hparse) in *. clear Hgiven.
  exists a, b, run, opts, pw_dir, version, opts', s3. split_and!; try done; try lia.
  - exists c, v. split; [done|]. destruct (c =? 0); cbn [negb] in Hversion; [|by injection Hversion].
    destruct v as [v|]; [by injection Hversion as ->|done].
  - apply contains_option_false; [|done]. by apply (bool_decide_unpack _).
  - by apply effective_options_ok.
  - intros Hasks. apply Hagreed. by apply (asks_sig_cache opts opts').
  - intros Hz. apply Hrc. revert Hz. unfold ECANCELED. repeat case_match; lia.
Qed.

Lemma mount_helper_runs_witness :
  let w := MountWorld 0 (Some (lit "/home/joe")) sample_sysfs 0 (fun p => inr p) (fun _ => ExitStatus 0) in
  let argv := [lit "mount.ecryptfs"; lit "/crypt"; lit "/mnt"; lit "-o";
    lit "sig=0011223344556677,ecryptfs_cipher=aes,ecryptfs_key_bytes=16,verbosity=0"] in
  exists rc run fs' kr,
    @main plenty toy_nss calm_sys false (fun _ => None) (fun _ _ s => go (0, s))
      (fun _ _ => inl ENOENT) (fun _ _ => (inl (- EIO), fun _ => None, [])) (fun _ => inl ENOENT)
      (lit "/lib") (Some []) w 25 argv ∅ (fresh_state ∅ []) = Ok (MainReturns rc [run] fs' kr) /\
    some_option (lit "ecryptfs_key_bytes=") (Some (mr_opts run)).
Proof.
  intros w argv. do 4 eexists. split; [vm_compute; reflexivity|].
  edestruct (@mount_helper_runs plenty toy_nss calm_sys false (fun _ => None) (fun _ _ s => go (0, s))
    (fun _ _ => inl ENOENT) (fun _ _ => (inl (- EIO), fun _ => None, [])) (fun _ => inl ENOENT)
    (lit "/lib") (Some []) w 25 argv ∅ (fresh_state ∅ []))
    as [Hno|(a & b & run & opts & pw_dir & version & opts' & s' & Hrun & _ & _ & _ & _ & _ & _ & _ & _ & _ & _ & _ & _ & _ &
       [(_ & _ & Hkey) _] & _)].
  - apply (bool_decide_unpack _). vm_compute. exact I.
  - done.
  - vm_compute. reflexivity.
  - discriminate Hno.
  - injection Hrun as <-. exact Hkey.
Defined.
