(* ===== verification/MountHelper.v ===== *)
(** * A passphrase mount from the command line to [/bin/mount]

    [MountEcryptfs] composed with the walk over the graph: what the program does
    with a list of options that answers all its questions. *)

From S2P Require Import Prelude CLib Ecryptfs PassphraseSig KeyMod KeyPayload KeyManagement CmdLnParser DecisionGraph PassphraseGraph ModuleMgr MountGraph MountWalks Terminal Sysfs MountEcryptfs.

(** ** Lemmas on option strings *)
Lemma split_on_app c a b : split_on c (a ++ c :: b) = split_on c a ++ split_on c b.
Proof.
  induction a as [|x a IH]; cbn [app split_on]; [by rewrite Z.eqb_refl|].
  destruct (x =? c); [by rewrite IH|]. rewrite IH.
  destruct (split_on c a) eqn:Ha; [by apply split_on_nonempty in Ha|done].
Qed.

Lemma split_on_single c s : Forall (fun x => x <> c) s -> split_on c s = [s].
Proof.
  induction 1 as [|x s Hx _ IH]; [done|]. cbn [split_on]. by rewrite (proj2 (Z.eqb_neq _ _) Hx), IH.
Qed.

Lemma split_join c l :
  l <> [] -> Forall (Forall (fun x => x <> c)) l -> split_on c (join_with c l) = l.
Proof.
  intros Hne Hl. induction Hl as [|s l Hs Hl IH]; [done|]. destruct l as [|s' l].
  - by apply split_on_single.
  - change (join_with c (s :: s' :: l)) with (s ++ c :: join_with c (s' :: l)).
    by rewrite split_on_app, split_on_single, IH.
Qed.

Lemma starts_with_prefixb s p : starts_with s p = prefixb p s.
Proof.
  unfold starts_with. destruct s as [|x s]; cbn [strstr]; destruct (prefixb p _); try done.
  by destruct (strstr s p).
Qed.

(** ** The options that the values on the stack make *)
Definition add_value (temp val : cstring) : cstring :=
  match strstr temp val with
  | Some _ => temp
  | None => if zlen temp =? 0 then val else val ++ 44 :: temp
  end.

Lemma pop_options_values `{Heap, Sys} vals pw_dir temp fs input :
  heap_never_fails ->
  pop_options ((Some <$> vals) ++ [None]) false pw_dir (Some temp) fs input =
  Ok (0, Some (foldl add_value temp vals), fs, input).
Proof.
  intros Hh. revert temp. induction vals as [|v vals IH]; intros temp; [done|].
  cbn [fmap list_fmap app pop_options foldl mret outcome_ret]. rewrite !bind_Ok. cbn [Z.eqb negb].
  unfold add_value at 2. destruct (strstr temp v); [apply IH|]. rewrite Hh. cbn [negb]. apply IH.
Qed.

(** The options given stay at the end. *)
Lemma add_value_suffix vals base :
  base <> [] -> exists pre, foldl add_value base vals = pre ++ base.
Proof.
  intros Hb.
  assert (forall temp, (exists pre, temp = pre ++ base) ->
    exists pre, foldl add_value temp vals = pre ++ base) as Hgen; [|by apply Hgen; exists []].
  induction vals as [|v vals IH]; intros temp Ht; [done|]. cbn [foldl]. apply IH. unfold add_value.
  destruct (strstr temp v); [done|]. destruct Ht as (pre & ->).
  destruct (zlen (pre ++ base) =? 0) eqn:Hz.
  - destruct base as [|x base]; [done|]. rewrite zlen_app, zlen_cons in Hz.
    pose proof (zlen_nonneg pre). pose proof (zlen_nonneg base). lia.
  - exists (v ++ 44 :: pre). by rewrite <- app_assoc.
Qed.

(** What is left of the options of a passphrase mount. *)
Definition passed_on (passwd : cstring) : cstring :=
  lit "passphrase_passwd=" ++ passwd ++ lit ",ecryptfs_cipher=aes,ecryptfs_key_bytes=16".

Lemma passwd_kept passwd : parameter_should_be_scrubbed (lit "passphrase_passwd=" ++ passwd) = false.
Proof.
  unfold parameter_should_be_scrubbed. cbn [parameters_to_scrub existsb].
  rewrite !starts_with_prefixb. unfold prefixb. cbn.
  by rewrite !bool_decide_eq_false_2 by discriminate.
Qed.

Section Passphrase.
Context (passwd : cstring) (Hp : passphrase_ok passwd).

#[local] Abbreviation texts := (option_text <$> passphrase_options passwd (lit "aes") 16).

Lemma passphrase_texts :
  texts = [lit "key=passphrase"; lit "passphrase_passwd=" ++ passwd; lit "ecryptfs_cipher=aes";
           lit "ecryptfs_key_bytes=16"; lit "verbosity=0"].
Proof. reflexivity. Qed.

Lemma passphrase_split : split_on 44 (join_with 44 texts) = texts.
Proof.
  apply split_join; [done|]. apply Forall_forall. intros t Hin.
  assert (Forall option_ok (passphrase_options passwd (lit "aes") 16)) as Hok
    by (apply passphrase_options_ok; [done|exact aes_choice]).
  apply list_elem_of_fmap in Hin as (o & -> & Hin). rewrite Forall_forall in Hok.
  destruct (Hok o Hin) as [_ Hs _ _ _ _ _]. unfold no_separator in Hs.
  eapply Forall_impl; [exact Hs|]. by intros c [? _].
Qed.

Lemma passphrase_text_chars : is_cstring (join_with 44 texts).
Proof.
  apply join_with_chars; [by vm_compute|]. apply Forall_forall. intros t Hin.
  assert (Forall option_ok (passphrase_options passwd (lit "aes") 16)) as Hok
    by (apply passphrase_options_ok; [done|exact aes_choice]).
  apply list_elem_of_fmap in Hin as (o & -> & Hin). rewrite Forall_forall in Hok. by apply Hok.
Qed.

Lemma passphrase_kernel_options : kernel_options (join_with 44 texts) = passed_on passwd.
Proof.
  unfold kernel_options. rewrite passphrase_split, passphrase_texts.
  rewrite !filter_cons, filter_nil, passwd_kept.
  rewrite (decide_False (P := parameter_should_be_scrubbed (lit "key=passphrase") = false)) by done.
  rewrite (decide_True (P := false = false)) by done.
  rewrite (decide_True (P := parameter_should_be_scrubbed (lit "ecryptfs_cipher=aes") = false)) by done.
  rewrite (decide_True (P := parameter_should_be_scrubbed (lit "ecryptfs_key_bytes=16") = false)) by done.
  rewrite (decide_False (P := parameter_should_be_scrubbed (lit "verbosity=0") = false)) by done.
  unfold passed_on. cbn [join_with]. by rewrite <- app_assoc.
Qed.

(** Which of the options that the program looks for are there. *)
Lemma passphrase_contains option :
  option ∈ [lit "remount"; lit "no_sig_cache"; lit "no_prompt"; lit "wild_ass_guess"] ->
  opts_str_contains_option (Some (join_with 44 texts)) option = false.
Proof.
  intros Hin. rewrite contains_option_split.
  - rewrite passphrase_split, passphrase_texts.
    repeat (apply elem_of_cons in Hin as [->|Hin]; [unfold prefixb; cbn;
      by rewrite !bool_decide_eq_false_2 by discriminate|]). by apply elem_of_nil in Hin.
  - repeat (apply elem_of_cons in Hin as [->|Hin];
      [apply (bool_decide_unpack _); vm_compute; exact I|]). by apply elem_of_nil in Hin.
Qed.

Lemma passphrase_verbosity :
  opts_str_contains_option (Some (join_with 44 texts)) (lit "verbosity=0") = true.
Proof.
  rewrite contains_option_split by (apply (bool_decide_unpack _); vm_compute; exact I).
  rewrite passphrase_split, passphrase_texts. cbn [existsb].
  replace (prefixb (lit "verbosity=0") (lit "verbosity=0")) with true by done. by rewrite !orb_true_r.
Qed.

Lemma passed_on_key_bytes pre :
  ecryptfs_validate_mount_opts (Some (pre ++ passed_on passwd)) = 0.
Proof.
  unfold ecryptfs_validate_mount_opts. cbn [forallb required_mount_opts].
  rewrite contains_option_split by (apply (bool_decide_unpack _); vm_compute; exact I).
  replace (pre ++ passed_on passwd)
    with ((pre ++ lit "passphrase_passwd=" ++ passwd ++ lit ",ecryptfs_cipher=aes") ++ 44 :: lit "ecryptfs_key_bytes=16")
    by (unfold passed_on; rewrite <- !app_assoc; reflexivity).
  rewrite split_on_app, existsb_app.
  replace (existsb _ (split_on 44 (lit "ecryptfs_key_bytes=16"))) with true by (vm_compute; reflexivity).
  by rewrite orb_true_r.
Qed.
End Passphrase.

(** ** Properties *)

(** C7. A mount with its options separated by commas, from the command line to
    [/bin/mount]: with every system call working the program returns 0, adds the
    token of the passphrase and runs [/bin/mount] once, with the options on the
    stack in front of the ones given.  The options end with the passphrase itself,
    readable for everyone who lists processes. *)
Theorem passphrase_mount_end_to_end junk `{Nss, !NssLaws, Sys} big_endian module_trans module_tf
    open_file open_fd key_mod_dir w home version prog src target rsrc rtarget passwd fs kr input fuel :
  sys_works -> digest_total -> passphrase_ok passwd -> Forall is_cstring [src; target] ->
  mw_mlockall w = 0 -> mw_pw_dir w = Some home -> mw_keyctl_link w = 0 ->
  @ecryptfs_get_version (works junk) (mw_sysfs w) = Ok (0, Some version) ->
  ecryptfs_supports_passphrase version = true -> ecryptfs_supports_filename_encryption version = true ->
  mw_realpath w src = inr rsrc -> mw_realpath w target = inr rtarget ->
  (forall run, mw_bin_mount w run = ExitStatus 0) ->
  let sig := lit "ecryptfs_sig=" ++ passphrase_sig_hex default_salt passwd in
  let opts := foldl add_value (passed_on passwd)
    [lit "ecryptfs_unlink_sigs"; lit "ecryptfs_key_bytes=16"; lit "ecryptfs_cipher=aes"; sig] in
  @main (works junk) _ _ big_endian module_trans module_tf open_file open_fd (fun _ => inl ENOENT)
    key_mod_dir (Some []) w (20 + fuel)
    [prog; src; target; lit "-o"; join_with 44 (option_text <$> passphrase_options passwd (lit "aes") 16)]
    fs (fresh_state kr input) =
  Ok (MainReturns 0 [MountRun rsrc rtarget opts] fs (ensure_token kr default_salt passwd).2) /\
  exists pre, opts = pre ++ passed_on passwd.
Proof.
  intros Hs Hd Hp Hc Hlock Hhome Hlink Hversion Hpass Hname Hsrc Htarget Hmount sig opts.
  apply Forall_cons in Hc as [Hcs Hc]. apply Forall_cons in Hc as [Hct _].
  destruct (add_value_suffix [lit "ecryptfs_unlink_sigs"; lit "ecryptfs_key_bytes=16"; lit "ecryptfs_cipher=aes"; sig]
    (passed_on passwd)) as (pre & Hpre); [done|]. fold opts in Hpre.
  split; [|by exists pre].
  unfold main. rewrite Hlock, Hhome. cbn [Z.eqb negb].
  change (zlen (prog :: _) <? NUM_REQUIRED_ARGS) with false. cbn match.
  rewrite Hversion, bind_Ok. cbn [Z.eqb negb mret outcome_ret]. rewrite bind_Ok, Hlink.
  change (ecryptfs_validate_keyring 0) with 0. change (negb (0 =? 0)) with false. cbn match.
  change (negb (@alloc_ok (works junk) 40562 0)) with false. cbn match.
  set (text := join_with 44 _).
  assert (forall b, @parse_arguments (works junk) [prog; src; target; lit "-o"; text] b =
    Ok (0, if b then Some src else None, if b then Some target else None, Some text)) as Hparse.
  { intros b. unfold parse_arguments. destruct b; cbn [deref_str obind mret outcome_ret lookup list_lookup];
      cbn -[lit copy_path find_options]; rewrite ?copy_path_ok by done; reflexivity. }
  rewrite Hparse, bind_Ok. cbn [Z.eqb negb].
  assert (forall o, o ∈ [lit "remount"; lit "no_sig_cache"; lit "no_prompt"; lit "wild_ass_guess"] ->
    opts_str_contains_option (Some text) o = false) as Hno by (intros o Ho; by apply passphrase_contains).
  unfold effective_options. rewrite !Hno by (repeat first [left; reflexivity|right]).
  assert (opts_str_contains_option (Some text) (lit "verbosity=0") = true) as Hverb
    by (by apply passphrase_verbosity).
  cbn [orb andb negb]. rewrite Hverb. cbn [negb andb].
  destruct (passphrase_process junk big_endian module_trans module_tf open_file open_fd (Some home)
    key_mod_dir version passwd kr input fuel Hs Hd Hpass Hp) as (s' & Hw & Hm & Hk & Hi).
  unfold process, works_heap in Hw. fold text in Hw. rewrite Hw, bind_Ok, Hname, !orb_true_r. cbn [Z.eqb negb].
  rewrite andb_false_r, Hm, Hk, Hi. unfold ecryptfs_do_mount. rewrite Hparse, bind_Ok. cbn [Z.eqb negb].
  rewrite strip_userland_opts_ok, bind_Ok by (done || by apply passphrase_text_chars).
  unfold text at 1. rewrite passphrase_kernel_options by done. cbn [Z.eqb negb].
  change (negb (@alloc_ok (works junk) 40457 0 && @alloc_ok (works junk) 10037 0)) with false. cbn match.
  pose proof (@pop_options_values (works junk) _
    [lit "ecryptfs_unlink_sigs"; lit "ecryptfs_key_bytes=16"; lit "ecryptfs_cipher=aes"; sig]
    home (passed_on passwd) fs input (works_never_fails junk)) as Hpop.
  cbn [fmap list_fmap app] in Hpop. fold opts in Hpop. fold sig. rewrite Hpop, bind_Ok. cbn [Z.eqb negb].
  rewrite Hpre at 1. rewrite passed_on_key_bytes. cbn [Z.eqb negb deref_str obind mret outcome_ret].
  unfold ecryptfs_mount. rewrite Hsrc, Htarget, Hmount. reflexivity.
Qed.

Definition sample_world : mount_world :=
  MountWorld 0 (Some (lit "/home/joe")) sample_sysfs 0 (fun p => inr p) (fun _ => ExitStatus 0).

Lemma passphrase_mount_end_to_end_witness :
  let sig := lit "ecryptfs_sig=" ++ @passphrase_sig_hex toy_nss default_salt (lit "secret") in
  let opts := foldl add_value (passed_on (lit "secret"))
    [lit "ecryptfs_unlink_sigs"; lit "ecryptfs_key_bytes=16"; lit "ecryptfs_cipher=aes"; sig] in
  @main (works (fun _ => 0)) toy_nss calm_sys false (fun _ => None) (fun _ _ s => go (0, s))
    (fun _ _ => inl ENOENT) (fun _ _ => (inl (- EIO), fun _ => None, [])) (fun _ => inl ENOENT)
    (lit "/lib") (Some []) sample_world (20 + 0)
    [lit "mount.ecryptfs"; lit "/crypt"; lit "/mnt"; lit "-o";
     lit "key=passphrase,passphrase_passwd=secret,ecryptfs_cipher=aes,ecryptfs_key_bytes=16,verbosity=0"]
    ∅ (fresh_state ∅ []) =
  Ok (MainReturns 0 [MountRun (lit "/crypt") (lit "/mnt") opts] ∅
        (@ensure_token toy_nss ∅ default_salt (lit "secret")).2) /\
  exists pre, opts = pre ++ passed_on (lit "secret").
Proof.
  refine (@passphrase_mount_end_to_end (fun _ => 0) toy_nss toy_nss_laws calm_sys false (fun _ => None)
    (fun _ _ s => go (0, s)) (fun _ _ => inl ENOENT) (fun _ _ => (inl (- EIO), fun _ => None, []))
    (lit "/lib") sample_world (lit "/home/joe") 0x397 (lit "mount.ecryptfs") (lit "/crypt") (lit "/mnt")
    (lit "/crypt") (lit "/mnt") (lit "secret") ∅ ∅ [] 0 calm_sys_works toy_digest_total secret_ok
    _ eq_refl eq_refl eq_refl eq_refl eq_refl eq_refl eq_refl eq_refl (fun _ => eq_refl)).
  apply (bool_decide_unpack _). vm_compute. exact I.
Defined.
