(* ===== verification/MountPrivate.v ===== *)
(** * The setuid mount helper: [src/utils/mount.ecryptfs_private.c], with
    [ecryptfs_fetch_private_mnt] and [ecryptfs_private_is_mounted] of
    [src/libecryptfs/main.c]

    The program is a function of the system it runs on; its result is the exit
    status, the privileged effects in order, the contents of the mount counter
    and the keyring it leaves. *)

From S2P Require Import Prelude CLib Ecryptfs KeyManagement.

Definition KEY_BYTES : Z := 16.
Definition KEY_CIPHER : cstring := lit "aes".
Definition FSTYPE : cstring := lit "ecryptfs".
Definition TMP : cstring := lit "/dev/shm".
Definition MAXPATHLEN : Z := 4096.
Definition MAXINT : Z := 2 ^ 31 - 1.

(** The flags of [mount(2)]. *)
Definition MS_NOSUID : Z := 2.
Definition MS_NODEV : Z := 4.

(** The members of [struct mntent] the program reads. *)
Record mntent := Mntent {
  mnt_fsname : cstring;
  mnt_dir : cstring;
  mnt_type : cstring;
  mnt_opts : cstring
}.
#[export] Instance mntent_eq_dec : EqDecision mntent.
Proof. solve_decision. Defined.

(** What [update_mtab] meets: is [/etc/mtab] a symbolic link, do the steps
    work, and the entries of the old table; [mt_add_ok i] is the [i]-th call of
    [addmntent]. *)
Record mtab_env := MtabEnv {
  mt_symlink : bool;
  mt_lock_ok : bool;
  mt_old : option (list mntent);
  mt_new_ok : bool;
  mt_add_ok : nat -> bool;
  mt_fchmod_ok : bool;
  mt_rename_ok : bool
}.

(** The system.  [stat] gives regular file, directory and owner; [w_getmntent]
    is the parser of the C library for the first entry of a file. *)
Record world := World {
  w_uid : Z;
  w_gid : Z;
  w_seteuid_ok : bool;
  w_pwd : option (cstring * cstring);
  w_stat : cstring -> option (bool * bool * Z);
  w_fopen : cstring -> option bytes;
  w_getmntent : bytes -> option mntent;
  w_lock_open : cstring -> option (bool * Z);
  w_fdopen_ok : bool;
  w_counter : cstring -> bytes;
  w_chdir_ok : cstring -> bool;
  w_dot : option (bool * Z);
  w_getcwd : option cstring;
  w_mounts : option (list mntent);
  w_setreuid_ok : bool;
  w_setregid_ok : bool;
  w_mount_ok : bool;
  w_mtab : mtab_env
}.

Inductive effect :=
  | Lock (path : cstring)
  | RemoveKey (sig : cstring)
  | RaiseUid
  | RaiseGid
  | DoMount (src target : cstring) (flags : Z) (opt : cstring)   (* the call of [mount], whether it works or not *)
  | WriteMtab (entries : list mntent)
  | LeaveMtabLock
  | DropPrivileges
  | ExecUmount.

Record result := Result {
  r_exit : Z;
  r_effects : list effect;
  r_counter : option bytes;
  r_keyring : gmap (list Z) ecryptfs_auth_tok
}.

Section MountPrivate.
Context `{Heap, Sys}.

(** ** Helpers of [main.c] *)

(** [strtok(s, "\n")]: the first stretch without newlines. *)
Fixpoint skip_newlines (s : cstring) : cstring :=
  match s with
  | c :: s' => if c =? 10 then skip_newlines s' else s
  | [] => []
  end.
Fixpoint until_newline (s : cstring) : cstring :=
  match s with
  | c :: s' => if c =? 10 then [] else c :: until_newline s'
  | [] => []
  end.
Definition strtok_newline (s : cstring) : option cstring :=
  match until_newline (skip_newlines s) with [] => None | t => Some t end.

(** [fopen] gives the contents of a file it can open. *)
Definition ecryptfs_fetch_private_mnt (fopen : cstring -> option bytes) (pw_dir : cstring)
    : outcome (option cstring) :=
  if negb (alloc_ok 102 0) then mret None
  else if negb (alloc_ok 108 0) then mret None
  else
    let mnt_default := pw_dir ++ lit "/" ++ ECRYPTFS_PRIVATE_DIR in
    let mnt_file := pw_dir ++ lit "/.ecryptfs/" ++ ECRYPTFS_PRIVATE_DIR ++ lit ".mnt" in
    match fopen mnt_file with
    | None => mret (Some mnt_default)
    | Some content =>
        if negb (alloc_ok 118 0) then mret None
        else match fgets (Z.to_nat MAXPATHLEN) content with
        | None => mret (Some mnt_default)
        | Some (line, _) => mnt ← cstr_of (line ++ [0]); mret (strtok_newline mnt)
        end
    end.

(** [hasmntopt]: an option up to a comma, or up to its value. *)
Fixpoint split_commas (s cur : cstring) : list cstring :=
  match s with
  | [] => [cur]
  | c :: s' => if c =? 44 then cur :: split_commas s' [] else split_commas s' (cur ++ [c])
  end.
Definition hasmntopt (m : mntent) (opt : cstring) : bool :=
  existsb (fun t => streq t opt || prefixb (opt ++ lit "=") t) (split_commas (mnt_opts m) []).

(** The loop over the mount table; a null source or mount point is skipped when
    mounting and read otherwise. *)
Fixpoint mounts_loop (l : list mntent) (dev mnt opt : option cstring) (mounting : bool)
    : outcome bool :=
  match l with
  | [] => mret false
  | m :: l' =>
      if negb (streq (mnt_type m) (lit "ecryptfs")) then mounts_loop l' dev mnt opt mounting
      else if mounting then
        if match dev with Some d => streq (mnt_fsname m) d | None => false end then mret true
        else if match mnt with Some n => streq (mnt_dir m) n | None => false end then mret true
        else mounts_loop l' dev mnt opt mounting
      else match dev with
      | None => UB NullDeref
      | Some d =>
          if negb (streq (mnt_fsname m) d) then mounts_loop l' dev mnt opt mounting
          else match mnt with
          | None => UB NullDeref
          | Some n =>
              if streq (mnt_dir m) n && match opt with None => true | Some o => hasmntopt m o end
              then mret true else mounts_loop l' dev mnt opt mounting
          end
      end
  end.

Definition ecryptfs_private_is_mounted (mounts : option (list mntent)) (dev mnt sig : option cstring)
    (mounting : bool) : outcome bool :=
  if negb (match sig with Some _ => alloc_ok 147 0 | None => true end) then mret false
  else
    let opt := (fun s => lit "ecryptfs_sig=" ++ s) <$> sig in
    match mounts with
    | None => mret false
    | Some l => mounts_loop l dev mnt opt mounting
    end.

(** ** Configuration and signatures *)

(** Source, mount point and options of the first entry. *)
Definition read_config (w : world) (pw_dir : cstring) (uid : Z) (alias : cstring)
    : option (cstring * cstring * cstring) :=
  if negb (alloc_ok 62 0) then None
  else
    let fnam := pw_dir ++ lit "/.ecryptfs/" ++ alias ++ lit ".conf" in
    match w_stat w fnam with
    | None => None
    | Some (reg, _, owner) =>
        if negb reg || negb (owner =? uid) then None
        else match w_fopen w fnam with
        | None => None
        | Some content =>
            match w_getmntent w content with
            | None => None
            | Some e =>
                if negb (streq (mnt_type e) (lit "ecryptfs")) then None
                else if negb (alloc_ok 87 0 && alloc_ok 90 0 && alloc_ok 93 0) then None
                else Some (mnt_fsname e, mnt_dir e, mnt_opts e)
            end
        end
    end.

Definition username_char (i len : Z) (c : Z) : bool :=
  ((97 <=? c) && (c <=? 122)) || ((65 <=? c) && (c <=? 90)) || ((48 <=? c) && (c <=? 57)) ||
  (c =? 95) || (c =? 46) || (c =? 64) || ((c =? 45) && negb (i =? 0)) ||
  ((c =? 36) && (i =? len - 1)).

Fixpoint check_username_loop (i len : Z) (u : cstring) : Z :=
  match u with
  | [] => 0
  | c :: u' => if negb (username_char i len c) then 1 else check_username_loop (i + 1) len u'
  end.

Definition check_username (u : cstring) : Z :=
  if zlen u =? 0 then 1 else check_username_loop 0 (zlen u) u.

(** The validation loop of [fetch_sig]: the string is cut at the first white
    space, which also ends the loop. *)
Fixpoint validate_sig (s : cstring) : option cstring :=
  match s with
  | [] => Some []
  | c :: s' =>
      if negb (isxdigit c) && negb (isspace c) then None
      else if isspace c then Some []
      else cons c <$> validate_sig s'
  end.

Inductive sig_line := SigEof | SigBad | SigOk (sig : cstring) (rest : bytes).

(** One turn of the loop over the lines. *)
Definition fetch_sig_line (kr : gmap (list Z) ecryptfs_auth_tok) (i : nat) (content : bytes)
    : outcome sig_line :=
  if negb (alloc_ok 158 i) then mret SigBad
  else match fgets (Z.to_nat (KEY_BYTES + 2)) content with
  | None => mret SigEof
  | Some (line, rest) =>
      s ← cstr_of (line ++ [0]);
      match validate_sig s with
      | None => mret SigBad
      | Some sig =>
          if (0 <? zlen sig) && negb (zlen sig =? KEY_BYTES) then mret SigBad
          else match kr !! sig with
          | None => mret SigBad
          | Some _ => mret (SigOk sig rest)
          end
      end
  end.

(** The two signatures, or a null pointer. *)
Definition fetch_sig (w : world) (kr : gmap (list Z) ecryptfs_auth_tok) (pw_dir alias : cstring)
    : outcome (option (cstring * option cstring)) :=
  if negb (alloc_ok 140 0) then mret None
  else match w_fopen w (pw_dir ++ lit "/.ecryptfs/" ++ alias ++ lit ".sig") with
  | None => mret None
  | Some content =>
      if negb (alloc_ok 150 0) then mret None
      else
        l0 ← fetch_sig_line kr 0 content;
        match l0 with
        | SigEof | SigBad => mret None
        | SigOk sig0 rest =>
            l1 ← fetch_sig_line kr 1 rest;
            match l1 with
            | SigEof => mret (Some (sig0, None))
            | SigBad => mret None
            | SigOk sig1 _ => mret (Some (sig0, Some sig1))
            end
        end
  end.

(** The mount point, canonical, when the user owns it. *)
Definition check_ownership_mnt (w : world) (uid : Z) (mnt : cstring) : option cstring :=
  if negb (w_chdir_ok w mnt) then None
  else match w_dot w with
  | None => None
  | Some (dir, owner) =>
      if negb dir then None
      else if negb (owner =? uid) then None
      else w_getcwd w
  end.

(** ** [/etc/mtab] *)

(** The result code and the effects: the table is replaced, or the lock file
    stays behind.  Failures after the old table was read close it a second
    time. *)
Definition update_mtab (e : mtab_env) (dev mnt opt : cstring) : outcome (Z * list effect) :=
  if mt_symlink e then mret (0, [])
  else if negb (mt_lock_ok e) then mret (1, [])
  else match mt_old e with
  | None => mret (1, [LeaveMtabLock])
  | Some old =>
      if negb (mt_new_ok e) then mret (1, [])
      else if negb (forallb (mt_add_ok e) (seq 0 (length old))) then mret (1, [])
      else
        let new_ent := Mntent dev mnt FSTYPE opt in
        if negb (mt_add_ok e (length old)) then UB DoubleFree
        else if negb (mt_fchmod_ok e) then UB DoubleFree
        else if negb (mt_rename_ok e) then UB DoubleFree
        else mret (0, [WriteMtab (old ++ [new_ent])])
  end.

(** ** The mount counter *)

(** The loop of [lock_counter] with its suffixes: the file that is opened. *)
Fixpoint lock_counter_loop (fuel : nat) (w : world) (uid : Z) (base f : cstring) (i : Z)
    : option cstring :=
  match fuel with
  | O => None
  | S fuel' =>
      match w_lock_open w f with
      | Some (reg, owner) =>
          if reg && (owner =? uid) then Some f
          else if negb (alloc_ok 396 (Z.to_nat i)) then None
          else lock_counter_loop fuel' w uid base (base ++ lit "-" ++ show_int i) (i + 1)
      | None =>
          if negb (alloc_ok 396 (Z.to_nat i)) then None
          else lock_counter_loop fuel' w uid base (base ++ lit "-" ++ show_int i) (i + 1)
      end
  end.

Definition lock_counter (w : world) (u : cstring) (uid : Z) (alias : cstring) : option cstring :=
  if negb (alloc_ok 380 0) then None
  else
    let base := TMP ++ lit "/" ++ FSTYPE ++ lit "-" ++ u ++ lit "-" ++ alias in
    match lock_counter_loop 49 w uid base base 1 with
    | None => None
    | Some f => if w_fdopen_ok w then Some f else None
    end.

(** [fscanf("%d\n")]. *)
Definition scan_count (content : bytes) : option Z :=
  if strtol_converts 10 content then Some (i32 (strtol 10 content)) else None.

(** The number printed replaces the start of the file. *)
Definition overwrite (content new : bytes) : bytes := new ++ drop (length new) content.

Definition bump_counter (content : bytes) (delta : Z) : outcome (Z * bytes) :=
  let count := default 0 (scan_count content) in
  let count := count + delta in
  if negb ((- 2 ^ 31 <=? count) && (count <? 2 ^ 31)) then UB SignedOverflow
  else
    let count := if count <? 0 then 0 else count in
    mret (count, overwrite content (show_int count ++ [10])).

Definition increment (content : bytes) := bump_counter content 1.
Definition decrement (content : bytes) := bump_counter content (-1).
Definition zero (content : bytes) := bump_counter content (- MAXINT + 1).

(** ** [main] *)
Definition mount_opt (sig_fekek sig_fnek : option cstring) : cstring :=
  lit "ecryptfs_check_dev_ruid,ecryptfs_cipher=" ++ KEY_CIPHER ++ lit ",ecryptfs_key_bytes=" ++
  show_int KEY_BYTES ++ lit ",ecryptfs_unlink_sigs" ++
  match sig_fekek with Some s => lit ",ecryptfs_sig=" ++ s | None => [] end ++
  match sig_fnek with Some s => lit ",ecryptfs_fnek_sig=" ++ s | None => [] end.

(** Alias, source and mount point; every failure here ends with status 1. *)
Definition choose_dirs (w : world) (pw_dir : cstring) (argv : list cstring)
    : outcome (option (cstring * cstring * cstring)) :=
  match argv with
  | [_] =>
      if negb (alloc_ok 533 0) then mret None
      else
        dest ← ecryptfs_fetch_private_mnt (w_fopen w) pw_dir;
        match dest with
        | None => mret None
        | Some dest =>
            mret (Some (ECRYPTFS_PRIVATE_DIR, pw_dir ++ lit "/." ++ ECRYPTFS_PRIVATE_DIR, dest))
        end
  | [_; alias] =>
      match read_config w pw_dir (w_uid w) alias with
      | None => mret None
      | Some (src, dest, opts2) =>
          if negb (zlen opts2 =? 0) && negb (streq opts2 (lit "none")) then mret None
          else mret (Some (alias, src, dest))
      end
  | _ => mret None
  end.

(** The branch that mounts, from the counter on. *)
Definition do_mount (w : world) (kr : gmap (list Z) ecryptfs_auth_tok) (lock : effect)
    (counter : bytes) (src dest : cstring) (sig_fekek : option cstring) (opt : cstring)
    : outcome result :=
  '(_, counter) ← increment counter;
  let done st effects := mret (Result st (lock :: effects) (Some counter) kr) in
  mounted ← ecryptfs_private_is_mounted (w_mounts w) (Some src) (Some dest) sig_fekek true;
  if mounted : bool then done 0 []
  else if negb (w_setreuid_ok w) then done 1 []
  else if negb (w_setregid_ok w) then done 1 [RaiseUid]
  else
    let call := DoMount src (lit ".") (Z.lor MS_NOSUID MS_NODEV) opt in
    if w_mount_ok w then
      '(rc, mtab) ← update_mtab (w_mtab w) src dest opt;
      done rc ([RaiseUid; RaiseGid; call] ++ mtab)
    else done 1 [RaiseUid; RaiseGid; call; DropPrivileges].

(** Removing the key of a signature, best effort. *)
Definition remove_sig (kr : gmap (list Z) ecryptfs_auth_tok) (sig : option cstring)
    : list effect * gmap (list Z) ecryptfs_auth_tok :=
  match sig with
  | None => ([], kr)
  | Some s =>
      let '(rc, kr) := ecryptfs_remove_auth_tok_from_keyring kr s in
      ([RemoveKey s], kr)
  end.

(** The branch that unmounts; the last effect replaces the process. *)
Definition do_umount (w : world) (kr : gmap (list Z) ecryptfs_auth_tok) (lock : effect)
    (counter : bytes) (force : bool) (src dest : cstring) (sig_fekek sig_fnek : option cstring)
    : outcome result :=
  '(count, counter) ← (if force then zero counter else decrement counter);
  let done st effects kr := mret (Result st (lock :: effects) (Some counter) kr) in
  if negb force && (0 <? count) then done 1 [] kr
  else
    let '(e1, kr) := remove_sig kr sig_fekek in
    let '(e2, kr) := remove_sig kr sig_fnek in
    mounted ← ecryptfs_private_is_mounted (w_mounts w) (Some src) (Some dest) sig_fekek false;
    if negb mounted then done 1 (e1 ++ e2) kr
    else done 0 (e1 ++ e2 ++ [ExecUmount]) kr.

Definition main (w : world) (kr : gmap (list Z) ecryptfs_auth_tok) (argv : list cstring)
    : outcome result :=
  let uid := w_uid w in
  let fail0 := mret (Result 1 [] None kr) in
  if negb (w_seteuid_ok w) then fail0
  else match w_pwd w with
  | None => fail0
  | Some (pw_name, pw_dir) =>
      dirs ← choose_dirs w pw_dir argv;
      match dirs with
      | None => fail0
      | Some (alias, src, dest) =>
          if (match strstr alias (lit "..") with Some _ => true | None => false end) then fail0
          else match lock_counter w pw_name uid alias with
          | None => fail0
          | Some path =>
              let lock := Lock path in
              let counter := w_counter w path in
              let fail1 := mret (Result 1 [lock] (Some counter) kr) in
              if negb (check_username pw_name =? 0) then fail1
              else
                let mounting :=
                  match strstr (default [] (head argv)) (lit "umount") with None => true | Some _ => false end in
                let force := negb mounting &&
                  match argv with _ :: a :: _ => prefixb (lit "-f") a | _ => false end in
                sigs ← fetch_sig w kr pw_dir alias;
                if match sigs with None => mounting | Some _ => false end then fail1
                else
                  let sig_fekek := fst <$> sigs in
                  let sig_fnek := sigs ≫= snd in
                  if negb (alloc_ok 604 0) then fail1
                  else
                    let opt := mount_opt sig_fekek sig_fnek in
                    match check_ownership_mnt w uid dest with
                    | None => fail1
                    | Some dest =>
                        if mounting : bool then do_mount w kr lock counter src dest sig_fekek opt
                        else do_umount w kr lock counter force src dest sig_fekek sig_fnek
                    end
          end
      end
  end.
End MountPrivate.

(** ** Lemmas *)

(** A signature that [fetch_sig] lets through. *)
Definition sig_ok (s : cstring) : Prop :=
  (zlen s = 0 \/ zlen s = KEY_BYTES) /\ Forall (fun c => isxdigit c = true) s.

Lemma validate_sig_xdigits s t :
  validate_sig s = Some t -> Forall (fun c => isxdigit c = true) t.
Proof.
  revert t. induction s as [|c s IH]; intros t; cbn [validate_sig]; [by intros [= <-]|].
  destruct (isxdigit c) eqn:Ex; cbn [negb andb].
  - destruct (isspace c); [by intros [= <-]|].
    destruct (validate_sig s); [|done]. cbn. intros [= <-]. constructor; [done|]. by apply IH.
  - destruct (isspace c); cbn [negb]; [by intros [= <-] | done].
Qed.

Lemma validate_sig_prefix s t : validate_sig s = Some t -> exists r, s = t ++ r.
Proof.
  revert t. induction s as [|c s IH]; intros t; cbn [validate_sig]; [by intros [= <-]; exists []|].
  destruct (_ && _); [done|]. destruct (isspace c); [by intros [= <-]; exists (c :: s)|].
  destruct (validate_sig s) as [t'|]; [|done]. cbn. intros [= <-]. destruct (IH t' eq_refl) as [r ->]. by exists r.
Qed.

Section Lemmas.
Context `{Heap, Sys}.

Lemma fetch_sig_line_ok kr i content sig rest :
  fetch_sig_line kr i content = Ok (SigOk sig rest) ->
  sig_ok sig /\ is_Some (kr !! sig) /\ exists r, content = sig ++ r.
Proof.
  unfold fetch_sig_line, mret, outcome_ret. destruct (negb _); [done|].
  destruct (fgets _ content) as [[line r]|] eqn:Eg; [|done].
  intros (s & Es & E)%bind_ok_inv. destruct (validate_sig s) as [t|] eqn:Ev; [|done].
  pose proof (validate_sig_prefix _ _ Ev) as [r1 ->].
  apply validate_sig_xdigits in Ev. destruct (_ && _) eqn:El; [done|].
  destruct (kr !! t) eqn:Ek; [|done]. injection E as <- _. split; [|split; [by rewrite Ek|]].
  - split; [|done]. pose proof (zlen_nonneg t). apply andb_false_iff in El as [El|El]; to_prop; lia.
  - apply fgets_app in Eg as ->. apply cstr_of_prefix in Es as [r2 ->]. eexists. by rewrite <- !app_assoc.
Qed.

Lemma check_ownership_ok w uid mnt dest :
  check_ownership_mnt w uid mnt = Some dest ->
  w_chdir_ok w mnt = true /\ w_dot w = Some (true, uid) /\ w_getcwd w = Some dest.
Proof.
  unfold check_ownership_mnt. destruct (w_chdir_ok w mnt); [|done]. cbn [negb].
  destruct (w_dot w) as [[d o]|]; [|done]. destruct d; [|done]. cbn [negb].
  destruct (Z.eqb_spec o uid) as [->|]; [|done]. cbn [negb]. auto.
Qed.

(** A letter, a digit or one of five signs: none of them ends an option. *)
Definition harmless (c : Z) : Prop :=
  97 <= c <= 122 \/ 65 <= c <= 90 \/ 48 <= c <= 57 \/ c ∈ lit "_.@-$".

Lemma check_username_ok name : check_username name = 0 -> name <> [] /\ Forall harmless name.
Proof.
  unfold check_username. destruct (Z.eqb_spec (zlen name) 0) as [|Hne]; [done|]. intros Hl.
  split; [by intros ->; apply Hne|].
  assert (forall u len i, check_username_loop i len u = 0 -> Forall harmless u) as Hloop; [|by eapply Hloop].
  clear. induction u as [|c u IH]; intros len i; cbn [check_username_loop]; [by constructor|].
  destruct (username_char i len c) eqn:Hc; cbn [negb]; [|done]. intros Hl. constructor; [|by eapply IH].
  unfold username_char in Hc. unfold harmless. rewrite !orb_true_iff, !andb_true_iff in Hc.
  change (lit "_.@-$") with [95; 46; 64; 45; 36]. rewrite !elem_of_cons. lia.
Qed.

(** Source and mount point of an alias: the private directory and the mount
    point that a file of the user names, or the first entry of a configuration
    that the user owns. *)
Definition configured (w : world) (dir : cstring) (argv : list cstring) (alias src dest : cstring) : Prop :=
  ((exists prog, argv = [prog]) /\ alias = lit "Private" /\ src = dir ++ lit "/.Private" /\
   (dest = dir ++ lit "/Private" \/
    exists content, w_fopen w (dir ++ lit "/.ecryptfs/Private.mnt") = Some content /\
      occurs dest content /\ dest <> [] /\ 10 ∉ dest)) \/
  ((exists prog, argv = [prog; alias]) /\ exists d content e,
   w_stat w (dir ++ lit "/.ecryptfs/" ++ alias ++ lit ".conf") = Some (true, d, w_uid w) /\
   w_fopen w (dir ++ lit "/.ecryptfs/" ++ alias ++ lit ".conf") = Some content /\
   w_getmntent w content = Some e /\ mnt_type e = lit "ecryptfs" /\ mnt_fsname e = src /\
   mnt_dir e = dest /\ (mnt_opts e = [] \/ mnt_opts e = lit "none")).

Lemma strtok_newline_ok s t : strtok_newline s = Some t -> occurs t s /\ t <> [] /\ 10 ∉ t.
Proof.
  unfold strtok_newline. intros Ht.
  assert (until_newline (skip_newlines s) = t /\ t <> []) as [<- Hne] by (by destruct (until_newline _); simplify_eq).
  split_and!; [|done|].
  - assert (exists a, s = a ++ skip_newlines s) as [a Ha].
    { clear. induction s as [|c s [a IH]]; [by exists []|]. cbn [skip_newlines].
      destruct (c =? 10); [exists (c :: a); cbn [app]; by rewrite <- IH|by exists []]. }
    assert (exists b, skip_newlines s = until_newline (skip_newlines s) ++ b) as [b Hb].
    { generalize (skip_newlines s). clear. induction l as [|c l [b IH]]; [by exists []|]. cbn [until_newline].
      destruct (c =? 10); [by exists (c :: l)|]. exists b. cbn [app]. by rewrite <- IH. }
    exists a, b. by rewrite <- Hb.
  - generalize (skip_newlines s). clear. induction l as [|c l IH]; cbn [until_newline]; [by apply not_elem_of_nil|].
    destruct (Z.eqb_spec c 10); [by apply not_elem_of_nil|]. apply not_elem_of_cons. split; [congruence|done].
Qed.

Lemma fetch_private_mnt_ok w dir dest :
  ecryptfs_fetch_private_mnt (w_fopen w) dir = Ok (Some dest) ->
  dest = dir ++ lit "/Private" \/
  exists content, w_fopen w (dir ++ lit "/.ecryptfs/Private.mnt") = Some content /\
    occurs dest content /\ dest <> [] /\ 10 ∉ dest.
Proof.
  unfold ecryptfs_fetch_private_mnt, mret, outcome_ret. intros E. do 2 (destruct (negb _); [done|]).
  change (lit "/.ecryptfs/" ++ ECRYPTFS_PRIVATE_DIR ++ lit ".mnt") with (lit "/.ecryptfs/Private.mnt") in E.
  destruct (w_fopen w _) as [content|] eqn:Ef; [|injection E as <-; by left].
  destruct (negb _); [done|]. destruct (fgets _ content) as [[line rest]|] eqn:Eg; [|injection E as <-; by left].
  apply bind_ok_inv in E as (mnt & Em & E). injection E as E. right. exists content. split; [done|].
  apply strtok_newline_ok in E as ((a & b & Hab) & Hne & Hnl). split; [|done].
  apply fgets_app in Eg as ->. apply cstr_of_prefix in Em as [r ->]. exists a, (b ++ r ++ rest).
  rewrite Hab, <- !app_assoc. done.
Qed.

Lemma choose_dirs_ok w dir argv alias src dest :
  choose_dirs w dir argv = Ok (Some (alias, src, dest)) -> configured w dir argv alias src dest.
Proof.
  unfold choose_dirs, mret, outcome_ret. destruct argv as [|prog [|al [|]]]; try done.
  - destruct (negb _); [done|]. intros (d & Ed & E)%bind_ok_inv. destruct d as [d|]; [|done].
    injection E as <- <- <-. left. split_and!; [by exists prog|done|done|]. by apply fetch_private_mnt_ok.
  - unfold read_config. destruct (negb (alloc_ok 62 0)); [done|].
    destruct (w_stat w _) as [[[reg d] owner]|] eqn:Es; [|done].
    destruct reg; [|done]. destruct (Z.eqb_spec owner (w_uid w)) as [->|]; [|done]. cbn [negb orb].
    destruct (w_fopen w _) as [content|] eqn:Ef; [|done].
    destruct (w_getmntent w content) as [e|] eqn:Ee; [|done].
    destruct (streq (mnt_type e) _) eqn:Et; [|done]. cbn [negb]. apply streq_spec in Et.
    destruct (negb _); [done|]. destruct (negb _ && negb _) eqn:Eo; [done|]. intros [= <- <- <-].
    right. split; [by exists prog|]. exists d, content, e. split_and!; try done.
    apply andb_false_iff in Eo as [Eo|Eo]; apply negb_false_iff in Eo.
    + left. apply Z.eqb_eq in Eo. destruct (mnt_opts e); [done|]. unfold zlen in Eo. cbn in Eo. lia.
    + right. by apply streq_spec in Eo.
Qed.

(** The user, the directories, the lock and the mount point of a run that passes
    the checks: they are done without privileges; the name of the user is harmless in an option string, the alias
    stays inside the directory of configurations, the lock file is one of the user's
    own, and the user owns the directory that the run stands in. *)
Record entitled (w : world) (argv : list cstring) (name dir alias src dest0 dest path : cstring) : Prop := {
  en_unprivileged : w_seteuid_ok w = true;
  en_user : w_pwd w = Some (name, dir);
  en_name : name <> [] /\ Forall harmless name;
  en_alias : ~ occurs (lit "..") alias;
  en_dirs : configured w dir argv alias src dest0;
  en_lock : w_lock_open w path = Some (true, w_uid w);
  en_path : exists suffix, path = lit "/dev/shm/ecryptfs-" ++ name ++ lit "-" ++ alias ++ suffix;
  en_mnt : w_chdir_ok w dest0 = true /\ w_dot w = Some (true, w_uid w) /\ w_getcwd w = Some dest
}.

(** Signatures of keys in the keyring of the user, the first from the file of the
    alias. *)
Definition known_sigs (w : world) (kr : gmap (list Z) ecryptfs_auth_tok) (dir alias : cstring)
    (s1 : cstring) (s2 : option cstring) : Prop :=
  sig_ok s1 /\ is_Some (kr !! s1) /\
  (match s2 with Some s => sig_ok s /\ is_Some (kr !! s) | None => True end) /\
  exists rest, w_fopen w (dir ++ lit "/.ecryptfs/" ++ alias ++ lit ".sig") = Some (s1 ++ rest).

Lemma fetch_sig_ok w kr dir alias s1 s2 :
  fetch_sig w kr dir alias = Ok (Some (s1, s2)) -> known_sigs w kr dir alias s1 s2.
Proof.
  unfold fetch_sig, known_sigs, mret, outcome_ret. destruct (negb _); [done|].
  destruct (w_fopen w _) as [content|]; [|done]. destruct (negb _); [done|].
  intros (l0 & E0 & E)%bind_ok_inv. destruct l0 as [| |sig0 rest]; try done.
  apply fetch_sig_line_ok in E0 as (Hs0 & Hk0 & r & ->).
  apply bind_ok_inv in E as (l1 & E1 & E). destruct l1 as [| |sig1 rest1]; try done;
    injection E as <- <-; split_and!; try done; try by exists r.
  all: by apply fetch_sig_line_ok in E1 as (? & ? & _).
Qed.

Lemma lock_counter_ok w u uid alias path :
  lock_counter w u uid alias = Some path ->
  w_lock_open w path = Some (true, uid) /\
  exists suffix, path = lit "/dev/shm/ecryptfs-" ++ u ++ lit "-" ++ alias ++ suffix.
Proof.
  unfold lock_counter. destruct (negb _); [done|].
  change (TMP ++ lit "/" ++ FSTYPE ++ lit "-" ++ u ++ lit "-" ++ alias)
    with (lit "/dev/shm/ecryptfs-" ++ u ++ lit "-" ++ alias).
  set (base := lit "/dev/shm/ecryptfs-" ++ u ++ lit "-" ++ alias).
  assert (forall fuel f i p, (exists suffix, f = base ++ suffix) -> lock_counter_loop fuel w uid base f i = Some p ->
    w_lock_open w p = Some (true, uid) /\ exists suffix, p = base ++ suffix) as Hloop.
  { induction fuel as [|fuel IH]; intros f i p Hf; [done|]. cbn [lock_counter_loop].
    assert (exists suffix, base ++ lit "-" ++ show_int i = base ++ suffix) as Hnext by (by eexists).
    destruct (w_lock_open w f) as [[reg owner]|] eqn:Eo; [|destruct (negb _); [done|by apply IH]].
    destruct (reg && (owner =? uid)) eqn:Er; [|destruct (negb _); [done|by apply IH]].
    intros [= <-]. apply andb_true_iff in Er as [-> ->%Z.eqb_eq]. done. }
  destruct (lock_counter_loop 49 w uid base base 1) as [f|] eqn:El; [|done].
  destruct (w_fdopen_ok w); [|done]. intros [= <-].
  apply Hloop in El as [Ho [suffix ->]]; [|exists []; by rewrite app_nil_r].
  split; [done|]. exists suffix. unfold base. by rewrite <- !app_assoc.
Qed.

(** The entry that keeps [mount] away, and the entry that [umount] needs. *)
Lemma mounts_loop_mounting l d n opt :
  mounts_loop l (Some d) (Some n) opt true = Ok false ->
  Forall (fun m => mnt_type m = lit "ecryptfs" -> mnt_fsname m <> d /\ mnt_dir m <> n) l.
Proof.
  induction l as [|m l IH]; [by constructor|]. cbn [mounts_loop].
  destruct (streq (mnt_type m) _) eqn:Et; cbn [negb].
  - destruct (streq (mnt_fsname m) d) eqn:Ed; [done|]. destruct (streq (mnt_dir m) n) eqn:En; [done|].
    intros Hl. constructor; [|by apply IH]. intros _. split; intros E;
      [rewrite E, streq_refl in Ed|rewrite E, streq_refl in En]; done.
  - intros Hl. constructor; [|by apply IH]. intros E. by rewrite E, streq_refl in Et.
Qed.





(** What the search says of the mount table. *)
Lemma is_mounted_mounting mounts src dest sig :
  ecryptfs_private_is_mounted mounts (Some src) (Some dest) sig true = Ok false ->
  (sig <> None /\ alloc_ok 147 0 = false) \/ mounts = None \/ exists l, mounts = Some l /\
    Forall (fun m => mnt_type m = lit "ecryptfs" -> mnt_fsname m <> src /\ mnt_dir m <> dest) l.
Proof.
  unfold ecryptfs_private_is_mounted. destruct sig as [s|]; [destruct (alloc_ok 147 0) eqn:Ea; cbn [negb]|].
  - destruct mounts as [l|]; [|by auto]. intros ?%mounts_loop_mounting. eauto.
  - by left.
  - destruct mounts as [l|]; [|by auto]. intros ?%mounts_loop_mounting. eauto.
Qed.


Definition is_umount (argv : list cstring) : bool :=
  match strstr (default [] (head argv)) (lit "umount") with Some _ => true | None => false end.
Definition is_forced (argv : list cstring) : bool :=
  match argv with _ :: a :: _ => prefixb (lit "-f") a | _ => false end.

(** A run either stops early, with at most the lock taken, or passes all checks
    and does its work. *)
Lemma main_inv w kr argv r :
  main w kr argv = Ok r ->
  (r_exit r = 1 /\ r_keyring r = kr /\ (r_effects r = [] \/ exists p, r_effects r = [Lock p])) \/
  exists name dir alias src dest0 dest path sigs,
    entitled w argv name dir alias src dest0 dest path /\
    match sigs with Some (s1, s2) => known_sigs w kr dir alias s1 s2 | None => True end /\
    if is_umount argv
    then do_umount w kr (Lock path) (w_counter w path) (is_forced argv) src dest
           (fst <$> sigs) (sigs ≫= snd) = Ok r
    else sigs <> None /\
         do_mount w kr (Lock path) (w_counter w path) src dest (fst <$> sigs)
           (mount_opt (fst <$> sigs) (sigs ≫= snd)) = Ok r.
Proof.
  intros E. unfold main, mret, outcome_ret in E.
  destruct (w_seteuid_ok w) eqn:Eeuid; cbn [negb] in E; [|injection E as <-; by left; eauto].
  destruct (w_pwd w) as [[name dir]|] eqn:Epwd; [|injection E as <-; by left; eauto].
  apply bind_ok_inv in E as (dirs & Edirs & E).
  destruct dirs as [[[alias src] dest0]|]; [|injection E as <-; by left; eauto].
  destruct (strstr alias _) eqn:Ealias; [injection E as <-; by left; eauto|].
  destruct (lock_counter w name _ alias) as [path|] eqn:Elock; [|injection E as <-; by left; eauto].
  destruct (Z.eqb_spec (check_username name) 0) as [Hname|];
    cbn [negb] in E; [|injection E as <-; left; cbn; eauto].
  apply bind_ok_inv in E as (sigs & Esig & E).
  destruct (match sigs with None => _ | Some _ => _ end) eqn:Hno in E;
    [injection E as <-; left; cbn; eauto|].
  destruct (alloc_ok 604 0); cbn [negb] in E; [|injection E as <-; left; cbn; eauto].
  destruct (check_ownership_mnt w (w_uid w) dest0) as [dest|] eqn:Eown;
    [|injection E as <-; left; cbn; eauto].
  apply lock_counter_ok in Elock as [Hlock Hpath].
  right. exists name, dir, alias, src, dest0, dest, path, sigs. split_and!.
  - split; [done|done|by apply check_username_ok|by apply strstr_None|by apply choose_dirs_ok|done|done|
      by apply check_ownership_ok].
  - destruct sigs as [[s1 s2]|]; [by apply fetch_sig_ok|done].
  - unfold is_umount, is_forced in *. destruct (strstr (default [] (head argv)) _) as [n|]; [exact E|].
    split; [by destruct sigs | exact E].
Qed.
End Lemmas.

(** ** The mount counter *)

(** The file shows the count [n]: it is empty, or starts with a line. *)
Definition counts (content : bytes) (n : Z) : Prop :=
  (content = [] /\ n = 0) \/ exists rest, content = show_int n ++ 10 :: rest.

Inductive counter_op := Increment | Decrement | Zero.

Definition run_op (content : bytes) (op : counter_op) : outcome (Z * bytes) :=
  match op with
  | Increment => increment content
  | Decrement => decrement content
  | Zero => zero content
  end.

(** What the counter promises. *)
Definition counter_spec (n : Z) (op : counter_op) : Z :=
  match op with Increment => n + 1 | Decrement => Z.max 0 (n - 1) | Zero => 0 end.

(** A run of operations: the counts returned and the file left. *)
Fixpoint run_ops (content : bytes) (ops : list counter_op) : outcome (list Z * bytes) :=
  match ops with
  | [] => Ok ([], content)
  | op :: ops' =>
      '(n, content) ← run_op content op;
      '(ns, content) ← run_ops content ops';
      Ok (n :: ns, content)
  end.
Fixpoint spec_counts (n : Z) (ops : list counter_op) : list Z :=
  match ops with
  | [] => []
  | op :: ops' => counter_spec n op :: spec_counts (counter_spec n op) ops'
  end.

Lemma strtol_converts_show_int n tail : strtol_converts 10 (show_int n ++ 10 :: tail) = true.
Proof.
  unfold strtol_converts, show_int. set (m := if n <? 0 then - n else n).
  assert (exists d r, show_nat m ++ 10 :: tail = d :: r /\ 48 <= d <= 57) as (d & r & E & Hd).
  { destruct (show_digits_head (S (Z.to_nat (Z.log2 m))) m [] ltac:(lia) ltac:(unfold m; destruct (Z.ltb_spec n 0); lia))
      as (d & r & E & Hd). exists d, (r ++ 10 :: tail). split; [|done]. unfold show_nat. by rewrite E. }
  assert ((digit_of d <? 10) = true) as Hdig.
  { unfold digit_of, isdigit. decide_test ((48 <=? d) && (d <=? 57)). lia. }
  assert (skip_0x 10 (d :: r) = d :: r) as H0 by (unfold skip_0x; by repeat case_match).
  destruct (Z.ltb_spec n 0); subst m.
  - cbn [app skip_spaces]. change (isspace 45) with false. cbn [split_sign].
    change (45 =? 45) with true. cbn [snd]. by rewrite E, H0.
  - rewrite E. cbn [skip_spaces]. unfold isspace.
    decide_test (((9 <=? d) && (d <=? 13)) || (d =? 32)). cbn [split_sign].
    decide_test (d =? 45). decide_test (d =? 43). cbn [snd]. by rewrite H0.
Qed.

Lemma counts_scan content n :
  counts content n -> - 2 ^ 31 <= n < 2 ^ 31 -> default 0 (scan_count content) = n.
Proof.
  intros [[-> ->]|[rest ->]] Hn; [done|]. unfold scan_count.
  rewrite strtol_converts_show_int. cbn [default].
  rewrite strtol_show_int by (unfold LONG_MAX; done || lia). by apply swrap_small.
Qed.

Lemma bump_counter_spec content n delta :
  counts content n -> - 2 ^ 31 <= n < 2 ^ 31 -> - 2 ^ 31 <= n + delta < 2 ^ 31 ->
  exists content', bump_counter content delta = Ok (Z.max 0 (n + delta), content') /\
    counts content' (Z.max 0 (n + delta)).
Proof.
  intros Hc Hn Hd. unfold bump_counter. rewrite (counts_scan _ _ Hc Hn).
  decide_test ((- 2 ^ 31 <=? n + delta) && (n + delta <? 2 ^ 31)). cbn [negb].
  replace (if n + delta <? 0 then 0 else n + delta) with (Z.max 0 (n + delta))
    by (destruct (Z.ltb_spec (n + delta) 0); lia).
  eexists. split; [reflexivity|]. right. unfold overwrite.
  eexists. by rewrite <- app_assoc.
Qed.

Lemma run_op_spec content n op :
  counts content n -> 0 <= n < MAXINT ->
  exists content', run_op content op = Ok (counter_spec n op, content') /\
    counts content' (counter_spec n op).
Proof.
  intros Hc Hn. assert (MAXINT = 2 ^ 31 - 1) as Hmax by reflexivity.
  assert (exists d, counter_spec n op = Z.max 0 (n + d) /\ run_op content op = bump_counter content d /\
    - 2 ^ 31 <= n + d < 2 ^ 31) as (d & -> & -> & Hd).
  { destruct op; cbn [run_op counter_spec]; unfold increment, decrement, zero.
    - exists 1. repeat split; lia.
    - exists (-1). repeat split; lia.
    - exists (- MAXINT + 1). repeat split; lia. }
  by apply bump_counter_spec; [|lia|].
Qed.

(** The mount counter file implements a counter that stops at zero and can
    be reset: for every sequence of mounts and unmounts that stays below
    [MAXINT], the counts [increment], [decrement] and [zero] return are those of
    the specification, and the file shows the last of them, also where a shorter
    number was written over a longer one. *)
Theorem counter_refines content n ops :
  counts content n -> 0 <= n -> n + zlen ops < MAXINT ->
  exists content', run_ops content ops = Ok (spec_counts n ops, content') /\
    counts content' (foldl counter_spec n ops).
Proof.
  revert content n. induction ops as [|op ops IH]; intros content n Hc Hn Hb.
  { exists content. done. }
  rewrite zlen_cons in Hb. pose proof (zlen_nonneg ops).
  destruct (run_op_spec content n op) as (content1 & E1 & Hc1); [done|lia|].
  destruct (IH content1 (counter_spec n op)) as (content2 & E2 & Hc2); [done|..].
  { destruct op; cbn [counter_spec]; lia. }
  { destruct op; cbn [counter_spec]; lia. }
  exists content2. split; [|exact Hc2]. cbn [run_ops spec_counts].
  rewrite E1. cbn [obind]. rewrite E2. done.
Qed.

Lemma counter_refines_witness :
  let ops := [Increment; Decrement; Decrement; Increment; Zero; Increment] in
  counts (lit "9" ++ [10]) 9 /\ exists content',
  run_ops (lit "9" ++ [10]) ops = Ok ([10; 9; 8; 9; 0; 1], content') /\ counts content' 1.
Proof.
  intros ops. assert (Hc : counts (lit "9" ++ [10]) 9) by (right; by exists []).
  split; [exact Hc|].
  apply (counter_refines (lit "9" ++ [10]) 9 ops Hc); vm_compute; done.
Defined.

(** ** What the privileged operations are guarded by *)
Section Guards.
Context `{Heap, Sys}.

(** The mounting branch: when it calls [mount], the counter is one higher and the
    search has found nothing. *)
Lemma do_mount_inv w kr path counter src dest s opt r n :
  do_mount w kr (Lock path) counter src dest s opt = Ok r ->
  (forall src' target flags opt', DoMount src' target flags opt' ∉ r_effects r) /\ ExecUmount ∉ r_effects r \/
  ecryptfs_private_is_mounted (w_mounts w) (Some src) (Some dest) s true = Ok false /\
  (exists rest, r_effects r = Lock path :: RaiseUid :: RaiseGid :: DoMount src (lit ".") 6 opt :: rest /\
     (forall src' target flags opt', DoMount src' target flags opt' ∉ rest) /\ ExecUmount ∉ rest /\
     (w_mount_ok w = false -> rest = [DropPrivileges] /\ r_exit r = 1)) /\
  w_setreuid_ok w = true /\ w_setregid_ok w = true /\ r_keyring r = kr /\
  (counts counter n -> 0 <= n < MAXINT -> exists c, r_counter r = Some c /\ counts c (n + 1)).
Proof.
  unfold do_mount. intros ([m c] & Ec & E)%bind_ok_inv.
  apply bind_ok_inv in E as (mounted & Em & E). revert E. unfold mret, outcome_ret.
  assert (counts counter n -> 0 <= n < MAXINT -> exists c', Some c = Some c' /\ counts c' (n + 1)) as Hcount.
  { intros Hc Hn. destruct (run_op_spec counter n Increment Hc Hn) as (c' & E' & Hc').
    cbn [run_op] in E'. rewrite Ec in E'. injection E' as _ <-. by exists c. }
  destruct mounted; [intros [= <-]; left; cbn; set_solver|].
  destruct (w_setreuid_ok w) eqn:Hu; cbn [negb]; [|intros [= <-]; left; cbn; set_solver].
  destruct (w_setregid_ok w) eqn:Hg; cbn [negb]; [|intros [= <-]; left; cbn; set_solver].
  destruct (w_mount_ok w) eqn:Hmount.
  - intros ([rc mtab] & Hm & [= <-])%bind_ok_inv. right. split_and!; [done| |done..].
    exists mtab. split; [done|]. revert Hm. unfold update_mtab, mret, outcome_ret.
    repeat case_match; try done; intros [= <- <-]; set_solver.
  - intros [= <-]. right. split_and!; [done| |done..]. exists [DropPrivileges]. cbn [r_exit]. set_solver.
Qed.

(** The keys that the unmounting branch removes. *)
Definition removals (s1 s2 : option cstring) : list effect :=
  match s1 with Some s => [RemoveKey s] | None => [] end ++
  match s2 with Some s => [RemoveKey s] | None => [] end.

Lemma remove_sig_effects kr sig : (remove_sig kr sig).1 = match sig with Some s => [RemoveKey s] | None => [] end.
Proof.
  unfold remove_sig. destruct sig as [s|]; [|done]. by destruct (ecryptfs_remove_auth_tok_from_keyring kr s).
Qed.

(** The unmounting branch: when it runs [umount], the search has found the entry
    and the counter is zero. *)
Lemma do_umount_inv w kr path counter force src dest s1 s2 r n :
  do_umount w kr (Lock path) counter force src dest s1 s2 = Ok r ->
  (forall src' target flags opt, DoMount src' target flags opt ∉ r_effects r) /\
  (ExecUmount ∈ r_effects r ->
   ecryptfs_private_is_mounted (w_mounts w) (Some src) (Some dest) s1 false = Ok true /\
   r_effects r = Lock path :: removals s1 s2 ++ [ExecUmount] /\
   (counts counter n -> 0 <= n < MAXINT ->
    (force = true \/ n <= 1) /\ exists c, r_counter r = Some c /\ counts c 0)).
Proof.
  unfold do_umount. intros ([m c] & Ec & E)%bind_ok_inv. revert E.
  unfold mret, outcome_ret.
  destruct (negb force && (0 <? m)) eqn:Ef; [intros [= <-]; cbn; set_solver|].
  pose proof (remove_sig_effects kr s1) as H1.
  destruct (remove_sig kr s1) as [e1 kr1].
  pose proof (remove_sig_effects kr1 s2) as H2.
  destruct (remove_sig kr1 s2) as [e2 kr2]. cbn [fst] in H1, H2. subst e1 e2.
  intros (mounted & -> & E)%bind_ok_inv. revert E.
  destruct mounted; cbn [negb]; intros [= <-]; cbn [r_effects r_counter].
  - split; [destruct s1, s2; cbn; set_solver|]. intros _.
    split_and!; [done|unfold removals; by rewrite app_assoc|]. intros Hc Hn.
    destruct (run_op_spec counter n (if force then Zero else Decrement) Hc Hn) as (c' & E' & Hc').
    destruct force; cbn [run_op counter_spec negb andb] in *; rewrite Ec in E'; injection E' as -> <-.
    + split; [by left|]. by exists c.
    + apply Z.ltb_ge in Ef. split; [right; lia|]. exists c. split; [done|]. by replace 0 with (Z.max 0 (n - 1)) by lia.
  - split; destruct s1, s2; cbn; set_solver.
Qed.

(** C1. The helper never calls [mount] for a user who may not mount.  Where the
    call is made, the program was not called as [umount]; the name of the user is
    harmless in an option string; the alias has no [..]; source and mount point are
    the private directories of the user, or those of an [ecryptfs] entry without
    options in a configuration that the user owns; the lock is a regular file of
    the user; the user owns the directory the run stands in, which is the target of
    the call; every signature is empty or sixteen hexadecimal digits and
    names a key in the keyring of the user.  As far as the mount table could be
    read, it has no [ecryptfs] entry with this source and none with this mount
    point; where it could not be read, or the text of the option could not be
    allocated, the helper mounts all the same.  The call is the only one, comes
    right after the privileges were raised, which are dropped again when it fails, with [nosuid] and [nodev] and the fixed
    options with these signatures, and leaves the keyring alone and the counter one
    higher. *)
Theorem mount_guarded w kr argv r src target flags opt :
  main w kr argv = Ok r -> DoMount src target flags opt ∈ r_effects r ->
  ~ occurs (lit "umount") (default [] (head argv)) /\
  exists name dir alias dest0 dest path s1 s2 rest,
    entitled w argv name dir alias src dest0 dest path /\
    known_sigs w kr dir alias s1 s2 /\
    (w_mounts w = None \/ alloc_ok 147 0 = false \/
     exists l, w_mounts w = Some l /\
       Forall (fun m => mnt_type m = lit "ecryptfs" -> mnt_fsname m <> src /\ mnt_dir m <> dest) l) /\
    r_effects r = Lock path :: RaiseUid :: RaiseGid :: DoMount src target flags opt :: rest /\
    (forall src' target' flags' opt', DoMount src' target' flags' opt' ∉ rest) /\
    w_setreuid_ok w = true /\ w_setregid_ok w = true /\
    (w_mount_ok w = false -> rest = [DropPrivileges] /\ r_exit r = 1) /\
    target = lit "." /\ flags = MS_NOSUID + MS_NODEV /\
    opt = lit "ecryptfs_check_dev_ruid,ecryptfs_cipher=aes,ecryptfs_key_bytes=16,ecryptfs_unlink_sigs,ecryptfs_sig="
          ++ s1 ++ (match s2 with Some s => lit ",ecryptfs_fnek_sig=" ++ s | None => [] end) /\
    r_keyring r = kr /\
    (forall n, counts (w_counter w path) n -> 0 <= n < MAXINT ->
     exists c, r_counter r = Some c /\ counts c (n + 1)).
Proof.
  intros E Hin.
  destruct (main_inv _ _ _ _ E) as [(_ & _ & [Hr|[p Hr]])|(name & dir & alias & src' & dest0 & dest & path & sigs & Hen & Hsig & Hrun)].
  { rewrite Hr in Hin. set_solver. }
  { rewrite Hr in Hin. set_solver. }
  destruct (is_umount argv) eqn:Eu.
  { apply (do_umount_inv _ _ _ _ _ _ _ _ _ _ 0) in Hrun as [Hno _]. by apply Hno in Hin. }
  split.
  { unfold is_umount in Eu. destruct (strstr _ _) eqn:Es; [done|]. by apply strstr_None in Es. }
  destruct Hrun as [Hs Hrun]. destruct sigs as [[s1 s2]|]; [|done]. cbn [fst snd mbind option_bind fmap option_fmap option_map] in Hrun.
  destruct (do_mount_inv _ _ _ _ _ _ _ _ _ 0 Hrun) as [[Hno _]|(Hm & (rest & Heff & Hrest & _ & Hfail) & Hu & Hg & Hkr & _)];
    [by apply Hno in Hin|].
  rewrite Heff, !elem_of_cons in Hin. destruct Hin as [?|[?|[?|[Hd|Hin]]]]; try done; [|by apply Hrest in Hin].
  injection Hd as -> -> -> ->.
  exists name, dir, alias, dest0, dest, path, s1, s2, rest. split_and!; try done.
  - apply is_mounted_mounting in Hm as [[_ ?]|[?|?]]; auto.
  - intros n Hc Hn. destruct (do_mount_inv _ _ _ _ _ _ _ _ _ n Hrun) as [[Hno _]|(_ & _ & _ & _ & _ & Hcount)]; [|by apply Hcount].
    exfalso. apply (Hno src' (lit ".") 6 (mount_opt (Some s1) s2)). rewrite Heff. set_solver.
Qed.


(** With both paths given, the mount table is searched without faults. *)
Lemma is_mounted_ok mounts src dest sig mounting :
  exists b, ecryptfs_private_is_mounted mounts (Some src) (Some dest) sig mounting = Ok b.
Proof.
  unfold ecryptfs_private_is_mounted. destruct (negb _); [by eexists|].
  destruct mounts as [l|]; [|by eexists].
  induction l as [|m l [b IH]]; [by eexists|]. cbn [mounts_loop].
  repeat case_match; eauto; by eexists.
Qed.

Lemma remove_sig_works kr sig :
  sys_works -> remove_sig kr sig =
    (match sig with Some s => [RemoveKey s] | None => [] end,
     match sig with Some s => delete s kr | None => kr end).
Proof.
  intros (_ & _ & _ & _ & _ & Hk). unfold remove_sig, ecryptfs_remove_auth_tok_from_keyring.
  destruct sig as [s|]; [|done]. destruct (kr !! s) eqn:Es; [by rewrite Hk|].
  by rewrite delete_id.
Qed.

(** The unmounting branch in full, with the mount counter at [n]: a run
    that is not forced and not of the last session only decrements the counter
    and fails; every other run sets the counter back, takes both keys from the
    keyring, also when nothing turns out to be mounted, and then unmounts if
    the mount table has the entry. *)
Theorem umount_outcome (w : world) (kr : gmap (list Z) ecryptfs_auth_tok) (path : cstring) counter n
    (force : bool) src dest (s1 s2 : option cstring) :
  sys_works -> counts counter n -> 0 <= n < MAXINT ->
  exists counter' mounted,
    ecryptfs_private_is_mounted (w_mounts w) (Some src) (Some dest) s1 false = Ok mounted /\
    counts counter' (if force then 0 else Z.max 0 (n - 1)) /\
    do_umount w kr (Lock path) counter force src dest s1 s2 = Ok (
      let keys := match s1 with Some s => [RemoveKey s] | None => [] end ++
                  match s2 with Some s => [RemoveKey s] | None => [] end in
      let kr1 := match s1 with Some s => delete s kr | None => kr end in
      let kr2 := match s2 with Some s => delete s kr1 | None => kr1 end in
      if negb force && (1 <? n) then Result 1 [Lock path] (Some counter') kr
      else if mounted : bool
      then Result 0 (Lock path :: keys ++ [ExecUmount]) (Some counter') kr2
      else Result 1 (Lock path :: keys) (Some counter') kr2).
Proof.
  intros Hsys Hc Hn.
  destruct (run_op_spec counter n (if force then Zero else Decrement) Hc Hn) as (c' & E & Hc').
  destruct (is_mounted_ok (w_mounts w) src dest s1 false) as [mounted Em].
  exists c', mounted. split; [exact Em|]. split; [by destruct force|]. unfold do_umount.
  replace (if force then zero counter else decrement counter)
    with (run_op counter (if force then Zero else Decrement)) by (by destruct force).
  rewrite E. cbn [obind]. rewrite (remove_sig_works kr s1 Hsys).
  rewrite remove_sig_works by done.
  replace (negb force && (0 <? counter_spec n (if force then Zero else Decrement)))
    with (negb force && (1 <? n)) by (destruct force; cbn; [done|]; lia).
  destruct (negb force && (1 <? n)); [done|].
  rewrite Em. cbn [obind]. destruct mounted; cbn [negb]; by rewrite ?app_assoc.
Qed.
End Guards.

(** Updating [/etc/mtab] appends the entry of the new mount to the entries
    of the old table and keeps all of them, or leaves the table alone with an
    error, or, when one of the steps after the old table was read to its end
    fails, closes the stream of the old table a second time.  A symbolic link is
    left alone without an error. *)
Theorem update_mtab_correct e dev mnt opt :
  let added := forallb (mt_add_ok e) (seq 0 (length (default [] (mt_old e)))) in
  match update_mtab e dev mnt opt with
  | Ok (0, [WriteMtab l]) =>
      mt_symlink e = false /\
      exists old, mt_old e = Some old /\ l = old ++ [Mntent dev mnt FSTYPE opt]
  | Ok (0, effects) => effects = [] /\ mt_symlink e = true
  | Ok (rc, effects) =>
      rc = 1 /\ (forall l, WriteMtab l ∉ effects) /\
      (mt_lock_ok e = false \/ mt_old e = None \/ mt_new_ok e = false \/ added = false)
  | UB f =>
      f = DoubleFree /\ mt_symlink e = false /\ added = true /\
      exists old, mt_old e = Some old /\
        (mt_add_ok e (length old) = false \/ mt_fchmod_ok e = false \/ mt_rename_ok e = false)
  end.
Proof.
  unfold update_mtab, mret, outcome_ret. destruct (mt_symlink e); [done|].
  destruct (mt_lock_ok e); cbn [negb]; [|by repeat split; [set_solver|left]].
  destruct (mt_old e) as [old|] eqn:Eold; cbn [default]; [|by repeat split; [set_solver|auto]].
  destruct (mt_new_ok e); cbn [negb]; [|by repeat split; [set_solver|auto]].
  destruct (forallb _ _); cbn [negb]; [|by repeat split; [set_solver|auto]].
  destruct (mt_add_ok e (length old)) eqn:Ea; cbn [negb]; [|by eauto 10].
  destruct (mt_fchmod_ok e) eqn:Ef; cbn [negb]; [|by eauto 10].
  destruct (mt_rename_ok e) eqn:Er; cbn [negb]; by eauto 10.
Qed.

(** The option [-f] of the manual page is taken for the alias of a
    configuration first, so that a forced unmount needs a file [-f.conf]. *)
Lemma force_umount_fails `{Heap, Sys} w kr prog name dir :
  w_seteuid_ok w = true -> w_pwd w = Some (name, dir) ->
  w_stat w (dir ++ lit "/.ecryptfs/" ++ lit "-f" ++ lit ".conf") = None ->
  main w kr [prog; lit "-f"] = Ok (Result 1 [] None kr).
Proof.
  intros Es Ep Ef. unfold main, choose_dirs, read_config. rewrite Es, Ep, Ef. cbn [negb].
  by destruct (negb (alloc_ok 62 0)).
Qed.

(** ** Witnesses *)

(** A user with a configured private directory, one key in the keyring and a
    counter at 1. *)
Definition demo_sig : cstring := lit "0123456789abcdef".
Definition demo_tok : ecryptfs_auth_tok :=
  AuthTok 1 0 0 (SessionKey 0 0 0 [] []) [] (TokPassword (Password 0 0 0 0 0 [] [] [])).
Definition demo_keyring : gmap (list Z) ecryptfs_auth_tok := {[demo_sig := demo_tok]}.
Definition demo_world (mounts : list mntent) : world := {|
  w_uid := 1000;
  w_gid := 1000;
  w_seteuid_ok := true;
  w_pwd := Some (lit "jo", lit "/home/jo");
  w_stat := fun _ => None;
  w_fopen := fun f => if streq f (lit "/home/jo/.ecryptfs/Private.sig")
                      then Some (demo_sig ++ [10]) else None;
  w_getmntent := fun _ => None;
  w_lock_open := fun _ => Some (true, 1000);
  w_fdopen_ok := true;
  w_counter := fun _ => lit "1" ++ [10];
  w_chdir_ok := fun _ => true;
  w_dot := Some (true, 1000);
  w_getcwd := Some (lit "/home/jo/Private");
  w_mounts := Some mounts;
  w_setreuid_ok := true;
  w_setregid_ok := true;
  w_mount_ok := true;
  w_mtab := MtabEnv true true None true (fun _ => true) true true
|}.
Definition mount_prog : cstring := lit "/sbin/mount.ecryptfs_private".
Definition demo_opt : cstring :=
  lit "ecryptfs_check_dev_ruid,ecryptfs_cipher=aes,ecryptfs_key_bytes=16,ecryptfs_unlink_sigs,ecryptfs_sig=0123456789abcdef".

Lemma mount_guarded_witness :
  exists r, @main plenty calm_sys (demo_world []) demo_keyring [mount_prog] = Ok r /\
    r_effects r = [Lock (lit "/dev/shm/ecryptfs-jo-Private"); RaiseUid; RaiseGid;
                   DoMount (lit "/home/jo/.Private") (lit ".") 6 demo_opt] /\
    (forall n, counts (lit "1" ++ [10]) n -> 0 <= n < MAXINT -> exists c, r_counter r = Some c /\ counts c (n + 1)).
Proof.
  eexists. split; [vm_compute; reflexivity|]. split; [reflexivity|].
  destruct (@mount_guarded plenty calm_sys (demo_world []) demo_keyring [mount_prog]
    (Result 0 [Lock (lit "/dev/shm/ecryptfs-jo-Private"); RaiseUid; RaiseGid;
               DoMount (lit "/home/jo/.Private") (lit ".") 6 demo_opt] (Some (lit "2" ++ [10])) demo_keyring)
    (lit "/home/jo/.Private") (lit ".") 6 demo_opt)
    as (_ & name & dir & alias & dest0 & dest & path & s1 & s2 & rest & _ & _ & _ & _ & _ & _ & _ & _ & _ & _ & _ & _ & Hcount).
  - vm_compute. reflexivity.
  - cbn [r_effects]. right; right; right; left.
  - exact Hcount.
Defined.


Lemma umount_outcome_witness :
  exists counter' mounted,
    @ecryptfs_private_is_mounted plenty (Some []) (Some (lit "/home/jo/.Private"))
      (Some (lit "/home/jo/Private")) (Some demo_sig) false = Ok mounted /\
    counts counter' 0 /\
    @do_umount plenty calm_sys (demo_world []) demo_keyring (Lock (lit "/dev/shm/c")) (lit "1" ++ [10])
      false (lit "/home/jo/.Private") (lit "/home/jo/Private") (Some demo_sig) None =
    Ok (if mounted then
          Result 0 [Lock (lit "/dev/shm/c"); RemoveKey demo_sig; ExecUmount] (Some counter')
            (delete demo_sig demo_keyring)
        else Result 1 [Lock (lit "/dev/shm/c"); RemoveKey demo_sig] (Some counter')
               (delete demo_sig demo_keyring)).
Proof.
  apply (@umount_outcome plenty calm_sys (demo_world []) demo_keyring (lit "/dev/shm/c")
    (lit "1" ++ [10]) 1 false (lit "/home/jo/.Private") (lit "/home/jo/Private") (Some demo_sig) None).
  - apply calm_sys_works.
  - right. by exists [].
  - split; [lia | reflexivity].
Defined.
