(* ===== verification/UmountEcryptfs.v ===== *)
(** * The unmount helper: [src/utils/umount.ecryptfs.c]

    [/sbin/umount.ecryptfs] takes the keys of a mount out of the keyring, when
    the mount asks for that, and has [/bin/umount] do the rest.  Allocations of
    this file are asked for by line number plus 80000. *)

From S2P Require Import Prelude CLib Ecryptfs PassphraseSig KeyManagement CmdLnParser DecisionGraph PassphraseGraph MountGraph MountEcryptfs MountHelper MountPrivate.

(** ** The value of an option *)
Section Umount.
Context `{Heap, Sys}.

(** The error or the value: from behind the first place where the name occurs to
    the next comma. *)
Definition get_mount_opt_value (k : nat) (mnt_opts name : cstring) : Z + cstring :=
  if negb (bool_decide (last name = Some 61)) then inl EINVAL
  else match strstr mnt_opts name with
  | None => inl EINVAL
  | Some name_start =>
      let val_start := drop (name_start + length name) mnt_opts in
      let val_len := match strstr val_start (lit ",") with
                     | Some n => n | None => length val_start
                     end in
      if negb (alloc_ok 80062 k) then inl ENOMEM else inr (take val_len val_start)
  end.

(** ** The keys *)

(** The first eCryptfs mount on the mount point. *)
Fixpoint find_mount (entries : list mntent) (mnt_point : cstring) : option mntent :=
  match entries with
  | [] => None
  | m :: entries' =>
      if streq (lit "ecryptfs") (mnt_type m) && streq mnt_point (mnt_dir m) then Some m
      else find_mount entries' mnt_point
  end.

(** [ENOKEY] is no failure. *)
Definition remove_key (kr : keyring) (sig : cstring) : Z * keyring :=
  let '(fail, kr) := ecryptfs_remove_auth_tok_from_keyring kr sig in
  ((if fail =? ENOKEY then 0 else fail), kr).

(** The code and the keyring; [mtab] is the mount table, if it opens. *)
Definition unlink_keys_from_keyring (mtab : option (list mntent)) (mnt_point : cstring) (kr : keyring)
    : outcome (Z * keyring) :=
  match mtab with
  | None => mret (EINVAL, kr)
  | Some entries =>
      match find_mount entries mnt_point with
      | None => mret (EINVAL, kr)
      | Some m =>
          if negb (hasmntopt m (lit "ecryptfs_unlink_sigs")) then mret (0, kr)
          else
            let r := get_mount_opt_value 0 (mnt_opts m) (lit "ecryptfs_sig=") in
            let rc := match r with inl rc => rc | inr _ => 0 end in
            let fekek_sig := match r with inl _ => None | inr sig => Some sig end in
            let '(fekek_fail, kr) :=
              match fekek_sig with Some sig => remove_key kr sig | None => (rc, kr) end in
            '(fnek_fail, kr) ←
              match get_mount_opt_value 1 (mnt_opts m) (lit "ecryptfs_fnek_sig=") with
              | inl _ => mret (0, kr)
              | inr fnek_sig =>
                  fekek_sig ← deref_str fekek_sig;
                  if streq fekek_sig fnek_sig then mret (0, kr) else mret (remove_key kr fnek_sig)
              end;
            mret ((if negb (fekek_fail =? 0) then fekek_fail
                   else if negb (fnek_fail =? 0) then fnek_fail else rc), kr)
      end
  end.

(** ** The program *)

(** The error or the arguments; the last one is the null pointer that ends them. *)
Definition construct_umount_args (errno : Z) (argv : list cstring) : Z + list (option cstring) :=
  if negb (alloc_ok 80133 0) then inl errno
  else inr (Some (lit "umount") :: Some (lit "-i") :: (Some <$> drop 1 argv) ++ [None]).

Definition UMOUNT_PATH : cstring := lit "/bin/umount".

(** How the program ends: it exits, returns, or becomes another program. *)
Inductive umount_end :=
  | UsageExit (code : Z)
  | MainReturns (rc : Z)
  | Execv (path : cstring) (args : list (option cstring)).

(** [exec_errno] is why [execv] fails, if it does. *)
Definition main (mtab : option (list mntent)) (errno : Z) (exec_errno : option Z) (argv : list cstring)
    (kr : keyring) : outcome (umount_end * keyring) :=
  match argv with
  | _ :: mnt_point :: _ =>
      '(_, kr) ← unlink_keys_from_keyring mtab mnt_point kr;
      match construct_umount_args errno argv with
      | inl rc => mret (MainReturns rc, kr)
      | inr new_argv =>
          match exec_errno with
          | None => mret (Execv UMOUNT_PATH new_argv, kr)
          | Some e => mret (MainReturns e, kr)
          end
      end
  | _ => mret (UsageExit (- EINVAL), kr)
  end.
End Umount.

(** ** Lemmas *)
Lemma strstr_prefix p r : strstr (p ++ r) p = Some O.
Proof.
  pose proof (prefixb_app p r) as Hp. destruct (p ++ r) as [|c s]; cbn [strstr]; by rewrite Hp.
Qed.

(** The next comma. *)
Lemma strstr_comma v r : Forall (fun c => c <> 44) v -> strstr (v ++ 44 :: r) (lit ",") = Some (length v).
Proof.
  induction 1 as [|c v Hc _ IH]; [done|]. cbn [app strstr length]. change (lit ",") with [44] in *.
  assert (prefixb [44] (c :: v ++ 44 :: r) = false) as ->.
  { apply bool_decide_eq_false. cbn. congruence. }
  by rewrite IH.
Qed.

Lemma strstr_no_comma v : Forall (fun c => c <> 44) v -> strstr v (lit ",") = None.
Proof.
  induction 1 as [|c v Hc _ IH]; [done|]. cbn [strstr]. change (lit ",") with [44] in *.
  assert (prefixb [44] (c :: v) = false) as ->.
  { apply bool_decide_eq_false. cbn. rewrite take_0. congruence. }
  by rewrite IH.
Qed.

(** The value behind the first occurrence of the name, up to a comma or to the
    end. *)
Lemma opt_value_first `{Heap} k pre name v post :
  heap_never_fails -> last name = Some 61 -> Forall (fun c => c <> 44) v ->
  strstr (pre ++ name ++ v ++ post) name = Some (length pre) ->
  post = [] \/ (exists r, post = 44 :: r) ->
  get_mount_opt_value k (pre ++ name ++ v ++ post) name = inr v.
Proof.
  intros Hh Hl Hv Hs Hp. unfold get_mount_opt_value. rewrite bool_decide_eq_true_2, Hs by done. cbn [negb].
  replace (drop (length pre + length name) (pre ++ name ++ v ++ post)) with (v ++ post)
    by (by rewrite <- drop_drop, !drop_app_length).
  rewrite Hh. cbn [negb]. destruct Hp as [->|[r ->]].
  - rewrite app_nil_r, strstr_no_comma by done. by rewrite take_ge.
  - rewrite strstr_comma by done. by rewrite take_app_length.
Qed.

Lemma find_mount_first pre m post mnt_point :
  mnt_type m = lit "ecryptfs" -> mnt_dir m = mnt_point ->
  Forall (fun e => mnt_type e <> lit "ecryptfs" \/ mnt_dir e <> mnt_point) pre ->
  find_mount (pre ++ m :: post) mnt_point = Some m.
Proof.
  intros Ht <- Hpre. induction Hpre as [|e pre He _ IH]; cbn [app find_mount].
  - by rewrite Ht, !streq_refl.
  - rewrite IH. destruct He as [He|He].
    + by rewrite (streq_ne (lit "ecryptfs")) by congruence.
    + by rewrite (streq_ne (mnt_dir m)), andb_false_r by congruence.
Qed.

(** Removing a key when the system lets it: it is gone, others stay. *)
Lemma remove_key_ok `{Sys} kr sig :
  sys_works -> remove_key kr sig = (0, delete sig kr).
Proof.
  intros (_ & _ & _ & Hsearch & _ & Hunlink). unfold remove_key, ecryptfs_remove_auth_tok_from_keyring.
  destruct (kr !! sig) eqn:Hk.
  - by rewrite Hunlink.
  - rewrite Hsearch, Z.eqb_refl. by rewrite delete_id.
Qed.

(** ** Properties *)

(** Unmounting takes exactly the keys of the mount out of the keyring, if the
    mount asks for it and is the first eCryptfs mount on the mount point: the key
    of the files and the key of the file names, which may be the same; keys that
    are gone already are no failure.  Without the request the keyring stays as it
    is.  A mount that names only a key for file names makes the program compare a
    null pointer. *)
Theorem umount_unlinks_keys `{Heap, Sys} pre m post mnt_point kr sig fnek :
  heap_never_fails -> sys_works ->
  mnt_type m = lit "ecryptfs" -> mnt_dir m = mnt_point ->
  Forall (fun e => mnt_type e <> lit "ecryptfs" \/ mnt_dir e <> mnt_point) pre ->
  get_mount_opt_value 1 (mnt_opts m) (lit "ecryptfs_fnek_sig=") = fnek ->
  (hasmntopt m (lit "ecryptfs_unlink_sigs") = false ->
   unlink_keys_from_keyring (Some (pre ++ m :: post)) mnt_point kr = Ok (0, kr)) /\
  (hasmntopt m (lit "ecryptfs_unlink_sigs") = true ->
   get_mount_opt_value 0 (mnt_opts m) (lit "ecryptfs_sig=") = inr sig ->
   unlink_keys_from_keyring (Some (pre ++ m :: post)) mnt_point kr =
   Ok (0, match fnek with inr f => delete f (delete sig kr) | inl _ => delete sig kr end)) /\
  (hasmntopt m (lit "ecryptfs_unlink_sigs") = true ->
   (exists e, get_mount_opt_value 0 (mnt_opts m) (lit "ecryptfs_sig=") = inl e) -> (exists f, fnek = inr f) ->
   unlink_keys_from_keyring (Some (pre ++ m :: post)) mnt_point kr = UB NullDeref).
Proof.
  intros Hh Hs Ht Hd Hpre Hf. unfold unlink_keys_from_keyring. rewrite find_mount_first by done.
  split; [by intros ->|]. split.
  - intros -> ->. cbn [negb]. rewrite Hf, remove_key_ok by done. destruct fnek as [e|f]; cbn [obind mret outcome_ret deref_str].
    + done.
    + destruct (streq sig f) eqn:Heq; cbn [obind mret outcome_ret Z.eqb negb].
      * apply streq_spec in Heq as <-. by rewrite delete_delete_eq.
      * by rewrite remove_key_ok.
  - intros -> [e ->] [f ->]. cbn [negb]. by rewrite Hf.
Qed.

Definition sample_mount (opts : string) : mntent :=
  Mntent (lit "/crypt") (lit "/mnt") (lit "ecryptfs") (lit opts).

Lemma umount_unlinks_keys_witness :
  let m := sample_mount "rw,ecryptfs_sig=aa,ecryptfs_fnek_sig=bb,ecryptfs_unlink_sigs" in
  let kr := @ensure_token toy_nss ∅ default_salt (lit "secret") in
  (hasmntopt m (lit "ecryptfs_unlink_sigs") = false ->
   @unlink_keys_from_keyring plenty calm_sys (Some ([] ++ m :: [])) (lit "/mnt") kr.2 = Ok (0, kr.2)) /\
  (hasmntopt m (lit "ecryptfs_unlink_sigs") = true ->
   @get_mount_opt_value plenty 0 (mnt_opts m) (lit "ecryptfs_sig=") = inr (lit "aa") ->
   @unlink_keys_from_keyring plenty calm_sys (Some ([] ++ m :: [])) (lit "/mnt") kr.2 =
   Ok (0, delete (lit "bb") (delete (lit "aa") kr.2))) /\
  (hasmntopt m (lit "ecryptfs_unlink_sigs") = true ->
   (exists e, @get_mount_opt_value plenty 0 (mnt_opts m) (lit "ecryptfs_sig=") = inl e) ->
   (exists f, @inr Z cstring (lit "bb") = inr f) ->
   @unlink_keys_from_keyring plenty calm_sys (Some ([] ++ m :: [])) (lit "/mnt") kr.2 = UB NullDeref).
Proof.
  apply (@umount_unlinks_keys plenty calm_sys [] (sample_mount "rw,ecryptfs_sig=aa,ecryptfs_fnek_sig=bb,ecryptfs_unlink_sigs")
    [] (lit "/mnt") _ (lit "aa") (inr (lit "bb"))).
  - done.
  - exact calm_sys_works.
  - reflexivity.
  - reflexivity.
  - constructor.
  - vm_compute. reflexivity.
Defined.

(** *** Mounting and unmounting *)

(** Adding a value that does not occur puts it in front. *)
Lemma add_value_new temp val : strstr temp val = None -> temp <> [] -> add_value temp val = val ++ 44 :: temp.
Proof.
  intros Hs Ht. unfold add_value. rewrite Hs. destruct temp as [|c temp]; [done|].
  rewrite zlen_cons. replace (1 + zlen temp =? 0) with false by (pose proof (zlen_nonneg temp); lia). done.
Qed.

Lemma add_value_cases temp val : temp <> [] -> add_value temp val = temp \/ add_value temp val = val ++ 44 :: temp.
Proof.
  intros Ht. unfold add_value. destruct (strstr temp val); [by left|]. right. destruct temp as [|c temp]; [done|].
  rewrite zlen_cons. replace (1 + zlen temp =? 0) with false by (pose proof (zlen_nonneg temp); lia). done.
Qed.

Lemma split_commas_acc s acc :
  split_commas s acc = match split_commas s [] with t :: l => (acc ++ t) :: l | [] => [] end.
Proof.
  revert acc. induction s as [|c s IH]; intros acc; cbn [split_commas]; [by rewrite app_nil_r|].
  destruct (c =? 44); [by rewrite app_nil_r|]. rewrite IH, (IH ([] ++ [c])).
  destruct (split_commas s []); [done|]. by rewrite <- app_assoc.
Qed.

Lemma split_commas_nonempty s acc : split_commas s acc <> [].
Proof. revert acc. induction s as [|c s IH]; intros acc; cbn [split_commas]; [done|]. by case_match. Qed.

(** An option in front of a comma is found in what comes after it, too. *)
Lemma in_split_commas opt v s acc :
  opt ∈ split_commas s [] -> opt ∈ split_commas (v ++ 44 :: s) acc.
Proof.
  intros Hin. revert acc. induction v as [|c v IH]; intros acc; cbn [app split_commas].
  - right. done.
  - destruct (c =? 44); [right; apply IH|apply IH].
Qed.

Lemma split_commas_first v s :
  Forall (fun c => c <> 44) v -> v ∈ split_commas (v ++ 44 :: s) [].
Proof.
  intros Hv. assert (forall acc, (acc ++ v) ∈ split_commas (v ++ 44 :: s) acc) as Hg; [|by apply (Hg [])].
  induction Hv as [|c v Hc _ IH]; intros acc; cbn [app split_commas].
  - rewrite app_nil_r. left.
  - destruct (Z.eqb_spec c 44); [done|]. specialize (IH (acc ++ [c])). by rewrite <- app_assoc in IH.
Qed.

Lemma hasmntopt_in m opt : opt ∈ split_commas (mnt_opts m) [] -> hasmntopt m opt = true.
Proof.
  intros Hin. unfold hasmntopt. apply existsb_exists. exists opt. split; [by apply list_elem_of_In|].
  by rewrite streq_refl.
Qed.

Lemma hex_no_comma s : Forall (fun c => isxdigit c = true) s -> Forall (fun c => c <> 44) s.
Proof. intros Hs. eapply Forall_impl; [exact Hs|]. intros c Hc ->. done. Qed.

(** What the mount helper hands to [/bin/mount]: the signature in front of the
    rest. *)
Section MountOptions.
Context `{Nss} (passwd : cstring).

Definition unsigned_opts : cstring :=
  foldl add_value (passed_on passwd)
    [lit "ecryptfs_unlink_sigs"; lit "ecryptfs_key_bytes=16"; lit "ecryptfs_cipher=aes"].
Definition mount_opts_with : cstring :=
  foldl add_value (passed_on passwd)
    [lit "ecryptfs_unlink_sigs"; lit "ecryptfs_key_bytes=16"; lit "ecryptfs_cipher=aes";
     lit "ecryptfs_sig=" ++ passphrase_sig_hex default_salt passwd].

Lemma passed_on_nonempty : passed_on passwd <> [].
Proof. done. Qed.

Lemma unlink_in_opts :
  strstr (passed_on passwd) (lit "ecryptfs_unlink_sigs") = None ->
  unsigned_opts <> [] /\ lit "ecryptfs_unlink_sigs" ∈ split_commas unsigned_opts [].
Proof.
  intros Hn. unfold unsigned_opts. cbn [foldl].
  rewrite (add_value_new (passed_on passwd)) by (done || apply passed_on_nonempty).
  set (b0 := lit "ecryptfs_unlink_sigs" ++ 44 :: passed_on passwd).
  assert (b0 <> [] /\ lit "ecryptfs_unlink_sigs" ∈ split_commas b0 []) as [H0 Hin].
  { split; [done|]. apply split_commas_first. apply (bool_decide_unpack _). vm_compute. exact I. }
  assert (forall temp val, temp <> [] /\ lit "ecryptfs_unlink_sigs" ∈ split_commas temp [] ->
    add_value temp val <> [] /\ lit "ecryptfs_unlink_sigs" ∈ split_commas (add_value temp val) []) as Hstep.
  { intros temp val [Ht Hi]. destruct (add_value_cases temp val Ht) as [-> | ->]; [done|].
    split; [by destruct val|]. by apply in_split_commas. }
  by apply Hstep, Hstep.
Qed.

Lemma mount_opts_sig :
  strstr (passed_on passwd) (lit "ecryptfs_unlink_sigs") = None ->
  strstr unsigned_opts (lit "ecryptfs_sig=" ++ passphrase_sig_hex default_salt passwd) = None ->
  mount_opts_with = (lit "ecryptfs_sig=" ++ passphrase_sig_hex default_salt passwd) ++ 44 :: unsigned_opts.
Proof.
  intros Hu Hs. change (mount_opts_with) with
    (add_value unsigned_opts (lit "ecryptfs_sig=" ++ passphrase_sig_hex default_salt passwd)).
  apply add_value_new; [done|]. by apply unlink_in_opts.
Qed.
End MountOptions.

(** C15. Unmounting undoes what mounting with a passphrase did to the keyring: when
    the mount table has the options the mount helper handed to [/bin/mount], the
    key it had added is gone afterwards and the other keys stay, but for one that
    the options name for file names; [/bin/umount] is run on the arguments given,
    with the helpers switched off.  (The passphrase must not itself contain the
    options that are looked for.) *)
Theorem umount_undoes_mount `{Heap, Nss, !NssLaws, Sys} pre post src target passwd kr0 errno prog args :
  heap_never_fails -> sys_works -> digest_total ->
  Forall (fun e => mnt_type e <> lit "ecryptfs" \/ mnt_dir e <> target) pre ->
  strstr (passed_on passwd) (lit "ecryptfs_unlink_sigs") = None ->
  strstr (unsigned_opts passwd) (lit "ecryptfs_sig=" ++ passphrase_sig_hex default_salt passwd) = None ->
  let m := Mntent src target (lit "ecryptfs") (mount_opts_with passwd) in
  let kr := (ensure_token kr0 default_salt passwd).2 in
  exists kr', main (Some (pre ++ m :: post)) errno None (prog :: target :: args) kr =
      Ok (Execv UMOUNT_PATH (Some (lit "umount") :: Some (lit "-i") :: (Some <$> target :: args) ++ [None]), kr') /\
    kr' !! passphrase_sig_hex default_salt passwd = None /\
    forall s, s <> passphrase_sig_hex default_salt passwd ->
      get_mount_opt_value 1 (mnt_opts m) (lit "ecryptfs_fnek_sig=") <> inr s -> kr' !! s = kr0 !! s.
Proof.
  intros Hh Hs Hd Hpre Hu Hsig m kr. set (sig := passphrase_sig_hex default_salt passwd) in *.
  pose proof (mount_opts_sig passwd Hu Hsig) as Hopts. fold sig in Hopts.
  assert (hasmntopt m (lit "ecryptfs_unlink_sigs") = true) as Hhas.
  { apply hasmntopt_in. unfold m. cbn [mnt_opts]. rewrite Hopts. apply in_split_commas. by apply unlink_in_opts. }
  assert (get_mount_opt_value 0 (mnt_opts m) (lit "ecryptfs_sig=") = inr sig) as Hval.
  { unfold m. cbn [mnt_opts]. rewrite Hopts, <- app_assoc.
    apply (opt_value_first 0 [] (lit "ecryptfs_sig=") sig (44 :: unsigned_opts passwd)); [done|done| | |].
    - by apply hex_no_comma, passphrase_sig_hex_xdigits.
    - cbn [app length]. apply strstr_prefix.
    - right. by eexists. }
  assert (forall s, s <> sig -> kr !! s = kr0 !! s) as Hkr.
  { intros s Hne. unfold kr, ensure_token. fold sig. destruct (kr0 !! sig); [done|]. cbn [snd]. by rewrite lookup_insert_ne. }
  unfold main, unlink_keys_from_keyring. rewrite find_mount_first by done. rewrite Hhas, Hval. cbn [negb].
  rewrite remove_key_ok by done.
  destruct (get_mount_opt_value 1 (mnt_opts m) (lit "ecryptfs_fnek_sig=")) as [e|f] eqn:Hf;
    cbn [obind mret outcome_ret deref_str].
  - unfold construct_umount_args. rewrite Hh. cbn [negb drop]. eexists. split; [reflexivity|].
    split; [apply lookup_delete_eq|]. intros s Hne _. rewrite lookup_delete_ne by done. by apply Hkr.
  - rewrite remove_key_ok by done. unfold construct_umount_args. rewrite Hh. cbn [negb drop].
    destruct (streq sig f) eqn:Heq; cbn [obind mret outcome_ret]; (eexists; split; [reflexivity|]).
    + split; [apply lookup_delete_eq|]. intros s Hne _. rewrite lookup_delete_ne by done. by apply Hkr.
    + split.
      * destruct (decide (f = sig)) as [->|Hfs]; [apply lookup_delete_eq|].
        rewrite lookup_delete_ne by done. apply lookup_delete_eq.
      * intros s Hne Hsf. rewrite !lookup_delete_ne by congruence. by apply Hkr.
Qed.

Lemma umount_undoes_mount_witness :
  let m := Mntent (lit "/crypt") (lit "/mnt") (lit "ecryptfs") (@mount_opts_with toy_nss (lit "secret")) in
  let kr := (@ensure_token toy_nss ∅ default_salt (lit "secret")).2 in
  exists kr', @main plenty calm_sys (Some ([] ++ m :: [])) 0 None [lit "umount.ecryptfs"; lit "/mnt"] kr =
      Ok (Execv UMOUNT_PATH (Some (lit "umount") :: Some (lit "-i") :: (Some <$> [lit "/mnt"]) ++ [None]), kr') /\
    kr' !! @passphrase_sig_hex toy_nss default_salt (lit "secret") = None /\
    forall s, s <> @passphrase_sig_hex toy_nss default_salt (lit "secret") ->
      @get_mount_opt_value plenty 1 (mnt_opts m) (lit "ecryptfs_fnek_sig=") <> inr s -> kr' !! s = (∅ : gmap (list Z) ecryptfs_auth_tok) !! s.
Proof.
  apply (@umount_undoes_mount plenty toy_nss toy_nss_laws calm_sys [] [] (lit "/crypt") (lit "/mnt") (lit "secret") ∅ 0
    (lit "umount.ecryptfs") []).
  - done.
  - exact calm_sys_works.
  - exact toy_digest_total.
  - constructor.
  - vm_compute. reflexivity.
  - vm_compute. reflexivity.
Defined.
