(* ===== verification/Ecryptfsd.v ===== *)
(** * The daemon program: [src/daemon/main.c]

    Asking the user through a program of his, the start of the daemon around the
    loop of [Miscdev], and the signal that ends it.  System calls are fields of a
    record; what the program does is a list of effects.  Allocations of this file
    are asked for by line number plus 90000. *)

From S2P Require Import Prelude CLib Ecryptfs KeyMod Packets Miscdev DecisionGraph Sysfs.

Definition EPROTONOSUPPORT : Z := 93.
Definition ENOTSUP : Z := 95.
Definition EINTR : Z := 4.
Definition ECRYPTFS_VERSIONING_MISCDEV : Z := 0x40.
Definition ECRYPTFS_MESSAGING_STATE_LISTENING : Z := 1.

(** ** Asking the user *)

(** [prompt_prog]; the errors of [pipe] and [fork]; what [waitpid] returns, with
    [errno]; how the program ended - its status, when it exited; what [read]
    gives of the pipe. *)
Record prompt_world := PromptWorld {
  pr_prog : option cstring;
  pr_pipe : option Z;
  pr_fork : option Z;
  pr_wait : list (Z * Z);
  pr_status : option Z;
  pr_read : Z -> Z + bytes
}.

(** The loop repeats a call that was interrupted; [None] while it waits. *)
Fixpoint wait_child (results : list (Z * Z)) : option (Z * Z) :=
  match results with
  | [] => None
  | (r, errno) :: results' =>
      if (r =? 0) || ((r =? -1) && (errno =? EINTR)) then wait_child results' else Some (r, errno)
  end.

Definition clear_input (input : option bytes) (input_size : Z) : outcome (option bytes) :=
  match input with
  | None => mret None
  | Some b => b ← memset b 0 0 input_size; mret (Some b)
  end.

(** What is done with the answer. *)
Definition store_answer (input : option bytes) (answer : bytes) : outcome bytes :=
  match input with
  | None => UB NullDeref
  | Some b =>
      b ← wr b 0 answer;
      b ← wr b (zlen answer) [0];
      s ← cstr_of b;
      if (0 <? zlen s) && bool_decide (last s = Some 10) then wr b (zlen s - 1) [0] else mret b
  end.

(** The code and the buffer; [None] while the program runs. *)
Definition prompt_callback (w : prompt_world) (prompt_type : cstring) (input : option bytes)
    (input_size : Z) : outcome (option (Z * option bytes)) :=
  input ← clear_input input input_size;
  let fail rc := (input ← clear_input input input_size; mret (Some (rc, input))) in
  match pr_prog w with
  | None => fail (- EINVAL)
  | Some _ =>
      match pr_pipe w with
      | Some errno => fail (- errno)
      | None =>
          match pr_fork w with
          | Some errno => fail (- errno)
          | None =>
              match wait_child (pr_wait w) with
              | None => mret None
              | Some (r, errno) =>
                  if r =? -1 then fail (- errno)
                  else match pr_status w with
                  | None => fail (- EFAULT)
                  | Some status =>
                      if negb (status =? 0) then fail (- EIO)
                      else if negb (streq prompt_type (lit "password")) then mret (Some (0, input))
                      else match pr_read w input_size with
                      | inl errno => fail (- errno)
                      | inr answer => b ← store_answer input answer; mret (Some (0, Some b))
                      end
                  end
              end
          end
      end
  end.

(** ** The start *)
Inductive effect :=
  | SetTermDevice (tty : cstring)
  | ChdirRoot
  | DupNullToStdin
  | CloseDescriptors
  | IgnoreSignals
  | DisableCore
  | Chroot (dir : cstring)
  | WritePid (file : cstring)
  | HandleSigterm
  | HandleSigint
  | SetPrompt
  | OpenDevice (fd : Z)
  | Sent (frame : bytes)
  | Unlink (file : cstring)
  | CloseDevice (fd : Z).

(** The options, as [getopt_long] returns them. *)
Record settings := Settings {
  st_pidfile : option cstring;
  st_foreground : bool;
  st_chroot : option cstring;
  st_prompt_prog : option cstring
}.
Definition no_settings : settings := Settings None false None None.

(** [fork] gives an error, the parent, or the child that goes on. *)
Inductive fork_result := ForkError | ForkParent | ForkChild.

Record daemon_world := DaemonWorld {
  dw_sysfs : sysfs_world;
  dw_tty : option cstring;
  dw_ppid_is_init : bool;
  dw_fork : nat -> fork_result;
  dw_chdir : bool;
  dw_open_null : bool;
  dw_dup2 : nat -> bool;
  dw_ignore : bool;
  dw_setrlimit : option Z;
  dw_chroot_errno : cstring -> option Z;
  dw_pidfile_errno : cstring -> option Z;
  dw_signal : bool * bool;
  dw_open_device : cstring -> Z;
  dw_write_hello : bool;
  dw_write_quit : bool
}.

Section Daemon.
Context `{Heap, Keyring} (big_endian : bool) (w : daemon_world).

(** The exit code of an option that ends the program, or the settings. *)
Fixpoint parse_daemon_options (k : nat) (opts : list (Z * cstring)) (st : settings) : Z + settings :=
  match opts with
  | [] => inr st
  | (c, optarg) :: opts' =>
      let dup line := if alloc_ok line k then Some optarg else None in
      if c =? 112 then
        parse_daemon_options (S k) opts' (Settings (dup 90293) (st_foreground st) (st_chroot st) (st_prompt_prog st))
      else if c =? 102 then
        parse_daemon_options (S k) opts' (Settings (st_pidfile st) true (st_chroot st) (st_prompt_prog st))
      else if c =? 67 then
        parse_daemon_options (S k) opts' (Settings (st_pidfile st) (st_foreground st) (dup 90299) (st_prompt_prog st))
      else if c =? 82 then
        parse_daemon_options (S k) opts' (Settings (st_pidfile st) (st_foreground st) (st_chroot st) (dup 90302))
      else if c =? 86 then inl 0
      else inl 1
  end.

(** The loop over the standard descriptors, which copies the null device to
    standard input each time: did it come to its end, and what was done. *)
Fixpoint dup_null (fds : list nat) : bool * list effect :=
  match fds with
  | [] => (true, [])
  | fd :: fds' =>
      if negb (dw_dup2 w fd) then (false, [])
      else let '(ok, es) := dup_null fds' in (ok, DupNullToStdin :: es)
  end.

(** The exit code, when the process ends here, and what was done. *)
Definition daemonize : option Z * list effect :=
  if dw_ppid_is_init w then (None, [])
  else match dw_fork w 0 with
  | ForkError => (Some 1, [])
  | ForkParent => (Some 0, [])
  | ForkChild =>
      if negb (dw_chdir w) then (Some 1, [])
      else match dw_fork w 1 with
      | ForkError => (Some 1, [ChdirRoot])
      | ForkParent => (Some 0, [ChdirRoot])
      | ForkChild =>
          if negb (dw_open_null w) then (Some 1, [ChdirRoot])
          else
            let '(ok, dups) := dup_null (seq 0 3) in
            if negb ok then (Some 1, ChdirRoot :: dups)
            else
            let done := ChdirRoot :: dups ++ [CloseDescriptors] in
            if negb (dw_ignore w) then (Some 1, done) else (None, done ++ [IgnoreSignals])
      end
  end.

(** [errno] of a call, as a code and what the call does otherwise. *)
Definition attempt (errno : option Z) (code : Z -> Z) (e : effect) (rest : Z * list effect) : Z * list effect :=
  match errno with
  | Some n => (code n, [])
  | None => let '(rc, es) := rest in (rc, e :: es)
  end.

(** From the limit on core files to the handlers. *)
Definition setup (st : settings) : Z * list effect :=
  attempt (dw_setrlimit w) Z.opp DisableCore
    (let pid :=
       let handlers :=
         attempt (if (dw_signal w).1 then None else Some ENOTSUP) Z.opp HandleSigterm
           (attempt (if (dw_signal w).2 then None else Some ENOTSUP) Z.opp HandleSigint (0, [SetPrompt])) in
       match st_pidfile st with
       | None => handlers
       | Some f => attempt (dw_pidfile_errno w f) Z.opp (WritePid f) handlers
       end in
     match st_chroot st with
     | None => pid
     | Some d => attempt (dw_chroot_errno w d) Z.opp (Chroot d) pid
     end).

Definition sent (r : Z * option bytes) : list effect := Sent <$> option_list r.2.

(** The exit code and what is done on the way out. *)
Definition ecryptfsd_exit (st : settings) (mctx : ecryptfs_messaging_ctx) (retval : Z)
    : outcome (Z * list effect) :=
  r ← ecryptfs_send_message big_endian mctx 1 (dw_write_quit w) None ECRYPTFS_MSG_QUIT 0 0;
  mret (retval, (Unlink <$> option_list (st_pidfile st)) ++ sent r ++
                (CloseDevice <$> option_list (ecryptfs_messaging_exit mctx).2)).

Definition zero_mctx : ecryptfs_messaging_ctx := MessagingCtx 0 0 0.

(** How the program stands: it has called [exit] with this argument, or it waits
    for the kernel. *)
Inductive daemon_end := DaemonExit (code : Z) | DaemonWaits.

(** Of the argument the parent sees the low eight bits. *)
Definition exit_status (e : daemon_end) : option Z :=
  match e with DaemonExit code => Some (wrap 8 code) | DaemonWaits => None end.

Section Main.
Context (key_mod_dir : cstring) (builtins : list (option ecryptfs_key_mod_ops)) (dir : option (list dirent))
        (events : list dev_event).

(** From the messaging on; [mctx_mux] is in [sigterm_step] below. *)
Definition serve (st : settings) : outcome (daemon_end * list effect) :=
  let '(rc, mctx) := ecryptfs_init_messaging (dw_open_device w) ECRYPTFS_MESSAGING_TYPE_MISCDEV in
  if negb (rc =? 0) then
    '(code, es) ← ecryptfsd_exit st mctx rc; mret (DaemonExit code, es)
  else
    let opened := [OpenDevice (mctx_miscdev_fd mctx)] in
    '(rc, out) ← ecryptfs_send_message big_endian mctx 0 (dw_write_hello w) None ECRYPTFS_MSG_HELO 0 0;
    let opened := opened ++ sent (rc, out) in
    if negb (rc =? 0) then
      '(code, es) ← ecryptfsd_exit st mctx rc; mret (DaemonExit code, opened ++ es)
    else
      let mctx := MessagingCtx (mctx_type mctx) (Z.lor (mctx_state mctx) ECRYPTFS_MESSAGING_STATE_LISTENING)
                    (mctx_miscdev_fd mctx) in
      '(status, replies) ← ecryptfs_run_daemon big_endian mctx key_mod_dir builtins dir events;
      let opened := opened ++ (Sent <$> replies) in
      match status with
      | Receiving _ => mret (DaemonWaits, opened)
      | Miscdev.Exited rc => '(code, es) ← ecryptfsd_exit st mctx rc; mret (DaemonExit code, opened ++ es)
      end.

(** [main], over the options that [getopt_long] finds. *)
Definition main (opts : list (Z * cstring)) : outcome (daemon_end * list effect) :=
  match parse_daemon_options 0 opts no_settings with
  | inl code => mret (DaemonExit code, [])
  | inr st =>
      '(rc, version) ← ecryptfs_get_version (dw_sysfs w);
      if (rc =? 0) && negb (has_flag (default 0 version) ECRYPTFS_VERSIONING_MISCDEV)
      then mret (DaemonExit (- EPROTONOSUPPORT), [])
      else
        let term := SetTermDevice <$> option_list (dw_tty w) in
        let '(ended, es) := if st_foreground st then (None, []) else daemonize in
        let es := term ++ es in
        match ended with
        | Some code => mret (DaemonExit code, es)
        | None =>
            let '(rc, es') := setup st in
            let es := es ++ es' in
            if negb (rc =? 0) then
              '(code, es') ← ecryptfsd_exit st zero_mctx rc; mret (DaemonExit code, es ++ es')
            else '(status, es') ← serve st; mret (status, es ++ es')
        end
  end.
End Main.
End Daemon.

(** A negative code is seen as its complement. *)
Lemma exit_status_error n : 0 < n < 256 -> exit_status (DaemonExit (- n)) = Some (256 - n).
Proof. intros Hn. cbn. f_equal. unfold wrap. change (2 ^ 8) with 256. symmetry. apply (Z.mod_unique _ _ (-1)); lia. Qed.

(** ** The signal that ends the daemon *)

(** Where the main thread is, from the handlers on; whether the handler runs,
    and waits for the lock or has it; whether the lock is held. *)
Inductive main_phase := Starting | Handshake | Looping | Stopping | Leaving | Gone.
Inductive handler_phase := NotCalled | WaitsForLock | HasLock.
#[export] Instance main_phase_eq_dec : EqDecision main_phase.
Proof. solve_decision. Defined.
#[export] Instance handler_phase_eq_dec : EqDecision handler_phase.
Proof. solve_decision. Defined.
Record sig_state := SigState { ss_main : main_phase; ss_handler : handler_phase; ss_locked : bool }.

(** The handler runs on the stack of the main thread, which goes on only when it
    returns - it does not return: it exits. *)
Inductive sigterm_step : sig_state -> sig_state -> Prop :=
  | step_lock_start : sigterm_step (SigState Starting NotCalled false) (SigState Handshake NotCalled true)
  | step_setup_failed : sigterm_step (SigState Starting NotCalled false) (SigState Leaving NotCalled false)
  | step_refused : sigterm_step (SigState Handshake NotCalled true) (SigState Leaving NotCalled false)
  | step_unlock_start : sigterm_step (SigState Handshake NotCalled true) (SigState Looping NotCalled false)
  | step_lock_stop : sigterm_step (SigState Looping NotCalled false) (SigState Stopping NotCalled true)
  | step_unlock_stop : sigterm_step (SigState Stopping NotCalled true) (SigState Leaving NotCalled false)
  | step_exit : sigterm_step (SigState Leaving NotCalled false) (SigState Gone NotCalled false)
  | step_signal p l : p <> Gone -> sigterm_step (SigState p NotCalled l) (SigState p WaitsForLock l)
  | step_handler_locks p : sigterm_step (SigState p WaitsForLock false) (SigState p HasLock true)
  | step_handler_exits p : sigterm_step (SigState p HasLock true) (SigState Gone HasLock true).

Inductive sig_reach : sig_state -> Prop :=
  | reach_start : sig_reach (SigState Starting NotCalled false)
  | reach_step s s' : sig_reach s -> sigterm_step s s' -> sig_reach s'.

(** ** Asking: lemmas *)
Lemma cstr_of_zero_app a r : cstr_of (a ++ 0 :: r) = cstr_of (a ++ [0]).
Proof. induction a as [|c a IH]; [done|]. cbn. by rewrite IH. Qed.

Lemma cstr_of_ends a : exists s, cstr_of (a ++ [0]) = Ok s.
Proof.
  induction a as [|c a [s IH]]; [by exists []|]. cbn. destruct (c =? 0); [by eexists|]. rewrite IH. by eexists.
Qed.

Lemma clear_ok b size : zlen b = size -> clear_input (Some b) size = Ok (Some (zeros size)).
Proof.
  intros <-. unfold clear_input, memset. pose proof (zlen_nonneg b).
  rewrite wr_ok by (rewrite ?zlen_replicate; lia). cbn [obind mret outcome_ret].
  change (Z.to_nat 0) with 0%nat. rewrite take_0, drop_ge, app_nil_r.
  - done.
  - rewrite length_replicate. unfold zlen. lia.
Qed.

(** A string without its final newline. *)
Definition chomp (s : cstring) : cstring :=
  if (0 <? zlen s) && bool_decide (last s = Some 10) then take (length s - 1) s else s.

(** An answer shorter than the buffer. *)
Lemma store_answer_ok size answer :
  zlen answer < size ->
  exists b s, store_answer (Some (zeros size)) answer = Ok b /\ zlen b = size /\
    cstr_of (answer ++ [0]) = Ok s /\ cstr_of b = Ok (chomp s).
Proof.
  intros Hl. pose proof (zlen_nonneg answer). destruct (cstr_of_ends answer) as [s Hs].
  assert (zeros size = replicate (length answer) 0 ++ [0] ++ zeros (size - zlen answer - 1)) as Hz.
  { unfold zeros. change [0] with (replicate 1 0). rewrite <- !replicate_add. f_equal. unfold zlen in *. lia. }
  unfold store_answer. rewrite Hz.
  pose proof (wr_app3 [] (replicate (length answer) 0) ([0] ++ zeros (size - zlen answer - 1)) 0 answer eq_refl
    ltac:(by rewrite zlen_replicate)) as Hw. cbn [app] in Hw |- *. rewrite Hw, bind_Ok.
  clear Hw. pose proof (wr_app3 answer [0] (zeros (size - zlen answer - 1)) (zlen answer) [0] eq_refl eq_refl) as Hw.
  cbn [app] in Hw. rewrite Hw, bind_Ok. rewrite cstr_of_zero_app, Hs, bind_Ok.
  pose proof (cstr_of_nonzero _ _ Hs) as Hnz.
  pose proof Hs as Hinv. rewrite <- (cstr_of_zero_app answer (zeros (size - zlen answer - 1))) in Hinv.
  destruct (cstr_of_inv _ _ Hinv) as [r Hr]. rewrite Hr.
  assert (zlen (s ++ 0 :: r) = size) as Hsize.
  { rewrite <- Hr, zlen_app, zlen_cons. unfold zeros. rewrite zlen_replicate. lia. }
  destruct ((0 <? zlen s) && bool_decide (last s = Some 10)) eqn:Hc.
  - assert (chomp s = take (length s - 1) s) as Hch by (unfold chomp; by rewrite Hc).
    apply andb_true_iff in Hc as [_ Hc2]. apply bool_decide_eq_true in Hc2. apply last_Some in Hc2 as [s' ->].
    apply Forall_app in Hnz as [Hnz _].
    rewrite <- app_assoc, zlen_app. change (zlen [10]) with 1.
    rewrite (wr_app3 s' [10] (0 :: r) _ [0]) by (done || lia).
    eexists _, _. split; [reflexivity|]. split; [|split; [done|]].
    + rewrite <- Hsize, !zlen_app, !zlen_cons. change (zlen [10]) with 1. change (zlen [0]) with 1. lia.
    + cbn [app]. rewrite cstr_of_app by done. rewrite Hch, length_app. cbn [length].
      replace (length s' + 1 - 1)%nat with (length s') by lia. by rewrite take_app_length.
  - assert (chomp s = s) as Hch by (unfold chomp; by rewrite Hc).
    eexists _, _. split; [reflexivity|]. split; [done|]. split; [done|]. rewrite Hch. by apply cstr_of_app.
Qed.

Lemma store_answer_overflow size answer :
  zlen answer = size -> store_answer (Some (zeros size)) answer = UB BufferOverflow.
Proof.
  intros <-. pose proof (zlen_nonneg answer). unfold store_answer.
  assert (zlen (zeros (zlen answer)) = zlen answer) as Hz by (unfold zeros; rewrite zlen_replicate; lia).
  rewrite wr_ok, bind_Ok by lia. change (Z.to_nat 0) with 0%nat.
  rewrite take_0, drop_ge, app_nil_r by (unfold zeros, zlen; rewrite length_replicate; lia).
  cbn [app]. rewrite (wr_overflow answer (zlen answer) [0]); [done|]. rewrite zlen_cons. pose proof (zlen_nonneg (@nil Z)). lia.
Qed.

(** ** Properties *)

(** C30. Asking the user for a password: an answer that is shorter than the buffer
    is stored inside it, up to its first zero byte and without a final newline; an
    answer that fills the buffer - which [read] may give - is ended one byte past
    it.  Whatever goes wrong before, the buffer is cleared, so that nothing of an
    earlier answer is left. *)
Theorem prompt_callback_bounds w block answer :
  (is_Some (pr_prog w) -> pr_pipe w = None -> pr_fork w = None ->
   (exists r e, wait_child (pr_wait w) = Some (r, e) /\ r <> -1) -> pr_status w = Some 0 ->
   pr_read w (zlen block) = inr answer ->
   (zlen answer < zlen block ->
    exists b s, prompt_callback w (lit "password") (Some block) (zlen block) = Ok (Some (0, Some b)) /\
      zlen b = zlen block /\ cstr_of (answer ++ [0]) = Ok s /\ cstr_of b = Ok (chomp s)) /\
   (zlen answer = zlen block ->
    prompt_callback w (lit "password") (Some block) (zlen block) = UB BufferOverflow)) /\
  (forall prompt_type rc b,
   prompt_callback w prompt_type (Some block) (zlen block) = Ok (Some (rc, Some b)) -> rc <> 0 ->
   b = zeros (zlen block)).
Proof.
  assert (zlen (zeros (zlen block)) = zlen block) as Hz
    by (unfold zeros; rewrite zlen_replicate; pose proof (zlen_nonneg block); lia).
  split.
  - intros [p Hp] Hpipe Hfork (r & e & Hw & Hr) Hst Hread. unfold prompt_callback.
    rewrite clear_ok, bind_Ok, Hp, Hpipe, Hfork, Hw by done.
    replace (r =? -1) with false by lia. rewrite Hst, Hread. cbn [Z.eqb negb].
    change (streq (lit "password") (lit "password")) with true. cbn [negb]. split.
    + intros Hlt. destruct (store_answer_ok (zlen block) answer Hlt) as (b & s & -> & Hb & Hs & Hc).
      rewrite bind_Ok. by exists b, s.
    + intros Heq. by rewrite store_answer_overflow.
  - intros ty rc b. unfold prompt_callback. rewrite clear_ok, bind_Ok, clear_ok by done. cbn [obind mret outcome_ret].
    destruct (pr_prog w); [|by intros [= <- <-]]. destruct (pr_pipe w); [by intros [= <- <-]|].
    destruct (pr_fork w); [by intros [= <- <-]|]. destruct (wait_child (pr_wait w)) as [[r e]|]; [|done].
    destruct (r =? -1); [by intros [= <- <-]|]. destruct (pr_status w) as [st|]; [|by intros [= <- <-]].
    destruct (negb (st =? 0)); [by intros [= <- <-]|].
    destruct (negb (streq ty (lit "password"))); [by intros [= <- <-]|].
    destruct (pr_read w (zlen block)) as [e'|a]; [by intros [= <- <-]|].
    destruct (store_answer (Some (zeros (zlen block))) a); [|done]. by intros [= <- <-].
Qed.

Lemma prompt_callback_bounds_witness :
  let w := PromptWorld (Some (lit "/bin/ask")) None None [(-1, EINTR); (7, 0)] (Some 0) (fun _ => inr (lit "pw" ++ [10])) in
  (is_Some (pr_prog w) -> pr_pipe w = None -> pr_fork w = None ->
   (exists r e, wait_child (pr_wait w) = Some (r, e) /\ r <> -1) -> pr_status w = Some 0 ->
   pr_read w (zlen (zeros 8)) = inr (lit "pw" ++ [10]) ->
   (zlen (lit "pw" ++ [10]) < zlen (zeros 8) ->
    exists b s, prompt_callback w (lit "password") (Some (zeros 8)) (zlen (zeros 8)) = Ok (Some (0, Some b)) /\
      zlen b = zlen (zeros 8) /\ cstr_of ((lit "pw" ++ [10]) ++ [0]) = Ok s /\ cstr_of b = Ok (chomp s)) /\
   (zlen (lit "pw" ++ [10]) = zlen (zeros 8) ->
    prompt_callback w (lit "password") (Some (zeros 8)) (zlen (zeros 8)) = UB BufferOverflow)) /\
  (forall prompt_type rc b,
   prompt_callback w prompt_type (Some (zeros 8)) (zlen (zeros 8)) = Ok (Some (rc, Some b)) -> rc <> 0 ->
   b = zeros (zlen (zeros 8))).
Proof.
  apply (prompt_callback_bounds
    (PromptWorld (Some (lit "/bin/ask")) None None [(-1, EINTR); (7, 0)] (Some 0) (fun _ => inr (lit "pw" ++ [10])))
    (zeros 8) (lit "pw" ++ [10])).
Defined.

(** *** The signal *)

(** The lock is held in the critical sections and by the handler. *)
Lemma sig_reach_lock s :
  sig_reach s ->
  ss_locked s = bool_decide (ss_main s = Handshake \/ ss_main s = Stopping \/ ss_handler s = HasLock) /\
  (ss_main s = Gone -> ss_handler s <> WaitsForLock).
Proof.
  induction 1 as [|s s' _ [Hl Hg] Hstep]; [done|].
  destruct Hstep; cbn [ss_main ss_handler ss_locked] in *; try (split; [done|done]).
  - split; [|done]. rewrite Hl. apply bool_decide_ext. split; intros [?|[?|?]]; auto; done.
  - split; [|done]. by rewrite bool_decide_eq_true_2 by auto.
Qed.

(** A signal that arrives while the daemon serves, or before or after its two
    critical sections, makes it leave: the handler takes the lock and exits,
    whatever else could happen.  One that arrives inside a critical section makes
    it hang: the handler, which runs on the thread that holds the lock, waits for
    that lock for ever. *)
Theorem sigterm_hangs_in_critical_sections s :
  sig_reach s -> ss_handler s = WaitsForLock ->
  ((ss_main s = Handshake \/ ss_main s = Stopping) -> forall s', ~ sigterm_step s s') /\
  (~ (ss_main s = Handshake \/ ss_main s = Stopping) ->
   exists s1 s2, (forall s', sigterm_step s s' <-> s' = s1) /\ (forall s', sigterm_step s1 s' <-> s' = s2) /\
     ss_main s2 = Gone).
Proof.
  intros Hr Hw. destruct (sig_reach_lock s Hr) as [Hl _]. destruct s as [p h l]. cbn [ss_main ss_handler ss_locked] in *.
  subst h. split.
  - intros Hp. rewrite bool_decide_eq_true_2 in Hl by tauto. subst l. intros s' Hs. inversion Hs.
  - intros Hp. rewrite bool_decide_eq_false_2 in Hl by (intros [?|[?|?]]; [tauto..|done]). subst l.
    exists (SigState p HasLock true), (SigState Gone HasLock true). split; [|split; [|done]].
    + intros s'. split; [by inversion 1|]. intros ->. constructor.
    + intros s'. split; [by inversion 1|]. intros ->. constructor.
Qed.

Lemma sigterm_hangs_in_critical_sections_witness :
  ((Handshake = Handshake \/ Handshake = Stopping) -> forall s', ~ sigterm_step (SigState Handshake WaitsForLock true) s') /\
  (~ (Handshake = Handshake \/ Handshake = Stopping) ->
   exists s1 s2, (forall s', sigterm_step (SigState Handshake WaitsForLock true) s' <-> s' = s1) /\
     (forall s', sigterm_step s1 s' <-> s' = s2) /\ ss_main s2 = Gone).
Proof.
  apply (sigterm_hangs_in_critical_sections (SigState Handshake WaitsForLock true)).
  - apply (reach_step (SigState Handshake NotCalled true)); [|by constructor].
    apply (reach_step (SigState Starting NotCalled false)); [apply reach_start|constructor].
  - reflexivity.
Defined.

(** *** The start *)
Section StartLemmas.
Context `{Heap} (be : bool).

Lemma send_signal_ok k type :
  heap_never_fails -> ecryptfs_send_miscdev be k true None type 0 0 = Ok (0, Some (frame type 0 None)).
Proof.
  intros Hh. unfold ecryptfs_send_miscdev. cbn [obind mret outcome_ret Z.eqb negb]. rewrite Hh. cbn [negb].
  change (u32 (1 + 4 + 0 + 0)) with 5.
  assert (length (malloc_block heap_junk 5) = 5%nat) as H5
    by (unfold malloc_block; by rewrite length_fmap, length_seq).
  destruct (malloc_block heap_junk 5) as [|a [|b [|c [|d [|e [|]]]]]]; try discriminate H5.
  by destruct be.
Qed.
End StartLemmas.

(** Traffic on the device. *)
Definition is_traffic (e : effect) : Prop :=
  match e with OpenDevice _ | Sent _ => True | _ => False end.

Section Safety.
Context `{Heap, Keyring} (be : bool) (w : daemon_world).

Lemma daemonize_quiet : Forall (fun e => ~ is_traffic e) (daemonize w).2.
Proof.
  unfold daemonize. cbn [seq dup_null]. repeat case_match; simplify_eq; cbn [snd app]; repeat constructor; by intros [].
Qed.

Lemma attempt_shape errno code e rest :
  (attempt errno code e rest).2 = [] /\ is_Some errno \/ attempt errno code e rest = (rest.1, e :: rest.2).
Proof. unfold attempt. destruct errno; [left; by split|]. right. by destruct rest. Qed.

Lemma setup_quiet st : Forall (fun e => ~ is_traffic e) (setup w st).2.
Proof.
  unfold setup, attempt. repeat case_match; simplify_eq; cbn [snd]; repeat constructor; by intros [].
Qed.

Lemma setup_core st :
  (forall n, dw_setrlimit w = Some n -> n <> 0) -> (setup w st).1 = 0 ->
  exists es, (setup w st).2 = DisableCore :: es.
Proof.
  intros He. unfold setup. destruct (dw_setrlimit w) as [n|] eqn:Hn; cbn [attempt fst].
  - specialize (He n eq_refl). lia.
  - intros _. match goal with |- context [let '(_, _) := ?r in _] => destruct r as [rc es] end. by exists es.
Qed.

(** Leaving before there is a connection sends nothing. *)
Lemma exit_quiet st rc code es :
  ecryptfsd_exit be w st zero_mctx rc = Ok (code, es) -> Forall (fun e => ~ is_traffic e) es.
Proof.
  unfold ecryptfsd_exit, ecryptfs_send_message. cbn. intros [= <- <-].
  destruct (st_pidfile st); repeat constructor; by intros [].
Qed.
End Safety.

(** Nothing that could hold a secret passes before core files are switched off:
    in every run, with whatever system calls failing, the device is opened and
    frames are sent only after the limit on core files is zero. *)
Theorem daemon_no_core_before_traffic `{Heap, Keyring} be w key_mod_dir builtins dir events opts status es i e :
  (forall n, dw_setrlimit w = Some n -> n <> 0) ->
  main be w key_mod_dir builtins dir events opts = Ok (status, es) ->
  es !! i = Some e -> is_traffic e ->
  exists j, (j < i)%nat /\ es !! j = Some DisableCore.
Proof.
  intros Herr Hmain Hi Ht. unfold main in Hmain.
  destruct (parse_daemon_options 0 opts no_settings) as [code|st]; [injection Hmain as <- <-; by rewrite lookup_nil in Hi|].
  apply bind_ok_inv in Hmain as ([rc version] & _ & Hmain).
  destruct ((rc =? 0) && negb (has_flag (default 0 version) ECRYPTFS_VERSIONING_MISCDEV)); [injection Hmain as <- <-; by rewrite lookup_nil in Hi|].
  assert (exists front ended, (if st_foreground st then (None, []) else daemonize w) = (ended, front) /\
    Forall (fun e => ~ is_traffic e) front) as (front & ended & Hd & Hfront).
  { destruct (st_foreground st); [by exists [], None|].
    pose proof (daemonize_quiet w). destruct (daemonize w) as [en fr]. by exists fr, en. }
  rewrite Hd in Hmain. set (term := SetTermDevice <$> option_list (dw_tty w)) in *.
  assert (Forall (fun e => ~ is_traffic e) (term ++ front)) as Hquiet.
  { apply Forall_app. split; [|done]. unfold term. destruct (dw_tty w); repeat constructor. by intros []. }
  destruct ended as [code|]; [injection Hmain as <- <-; rewrite Forall_lookup in Hquiet; exfalso; by eapply Hquiet|].
  pose proof (setup_quiet w st) as Hsetup. pose proof (setup_core w st Herr) as Hcore.
  destruct (setup w st) as [src ses]. cbn [fst snd] in *.
  destruct (Z.eqb_spec src 0) as [->|Hne]; cbn [negb] in Hmain.
  - apply bind_ok_inv in Hmain as ([st' es'] & _ & [= _ <-]). destruct (Hcore eq_refl) as [tl ->].
    set (quiet := term ++ front) in *.
    assert (((quiet ++ DisableCore :: tl) ++ es') !! length quiet = Some DisableCore) as Hat.
    { rewrite lookup_app_l by (rewrite length_app; cbn [length]; lia). by apply list_lookup_middle. }
    exists (length quiet). split; [|exact Hat].
    destruct (decide (i < length quiet)%nat) as [Hlt|Hge].
    + exfalso. rewrite !lookup_app_l in Hi by (rewrite ?length_app; cbn [length]; lia).
      rewrite Forall_lookup in Hquiet. by eapply Hquiet.
    + destruct (decide (i = length quiet)) as [->|]; [|lia]. rewrite Hat in Hi. by injection Hi as <-.
  - exfalso. apply bind_ok_inv in Hmain as ([code es'] & Hx & [= _ <-]).
    apply exit_quiet in Hx. assert (Forall (fun e => ~ is_traffic e) (((term ++ front) ++ ses) ++ es')) as Hall
      by (rewrite !Forall_app; rewrite Forall_app in Hquiet; tauto).
    rewrite Forall_lookup in Hall. by apply (Hall i e).
Qed.

(** *** A whole run *)

(** Every system call up to the loop works; the process becomes a daemon unless
    it was told to stay in the foreground. *)
Record daemon_works `{Heap} (w : daemon_world) (st : settings) (fd : Z) : Prop := DaemonWorks {
  dwk_version : exists rc version, ecryptfs_get_version (dw_sysfs w) = Ok (rc, version) /\
    (rc <> 0 \/ has_flag (default 0 version) ECRYPTFS_VERSIONING_MISCDEV = true);
  dwk_fork : st_foreground st = false -> dw_ppid_is_init w = false /\ (forall k, dw_fork w k = ForkChild) /\
    dw_chdir w = true /\ dw_open_null w = true /\ (forall k, dw_dup2 w k = true) /\ dw_ignore w = true;
  dwk_limits : dw_setrlimit w = None /\ (forall d, dw_chroot_errno w d = None) /\ (forall f, dw_pidfile_errno w f = None);
  dwk_signal : dw_signal w = (true, true);
  dwk_device : dw_open_device w ECRYPTFS_DEFAULT_MISCDEV_FULLPATH_0 = fd /\ fd <> -1 /\
    dw_write_hello w = true /\ dw_write_quit w = true
}.

(** Before the device is opened, and on the way out. *)
Definition start_effects (w : daemon_world) (st : settings) : list effect :=
  (SetTermDevice <$> option_list (dw_tty w)) ++
  (if st_foreground st then []
   else [ChdirRoot; DupNullToStdin; DupNullToStdin; DupNullToStdin; CloseDescriptors; IgnoreSignals]) ++
  DisableCore :: (Chroot <$> option_list (st_chroot st)) ++ (WritePid <$> option_list (st_pidfile st)) ++
  [HandleSigterm; HandleSigint; SetPrompt].
Definition end_effects (st : settings) (fd : Z) : list effect :=
  (Unlink <$> option_list (st_pidfile st)) ++ [Sent (frame ECRYPTFS_MSG_QUIT 0 None); CloseDevice fd].

Lemma setup_works `{Heap} w st fd :
  daemon_works w st fd ->
  setup w st = (0, DisableCore :: (Chroot <$> option_list (st_chroot st)) ++
                   (WritePid <$> option_list (st_pidfile st)) ++ [HandleSigterm; HandleSigint; SetPrompt]).
Proof.
  intros [_ _ (Hl & Hc & Hp) Hs _]. unfold setup. rewrite Hl, Hs. cbn [fst snd attempt].
  destruct (st_chroot st) as [d|], (st_pidfile st) as [f|]; rewrite ?Hc, ?Hp; reflexivity.
Qed.

Lemma daemonize_works `{Heap} w st fd :
  daemon_works w st fd ->
  (if st_foreground st then (None, []) else daemonize w) =
  (None, if st_foreground st then []
   else [ChdirRoot; DupNullToStdin; DupNullToStdin; DupNullToStdin; CloseDescriptors; IgnoreSignals]).
Proof.
  intros [_ Hd _ _ _]. destruct (st_foreground st); [done|].
  destruct (Hd eq_refl) as (Hi & Hf & Hc & Hn & Hdup & Hsig). unfold daemonize.
  rewrite Hi, !Hf, Hc, Hn. cbn [negb seq dup_null]. by rewrite !Hdup, Hsig.
Qed.

(** C29. A whole run of the daemon when the system lets it: the effects are, in this
    order, the start (into the background or not, core files off, root directory,
    pid file, handlers), the device and the hello to the kernel, the replies of
    the loop; and when the loop ends the pid file is removed, the kernel is told,
    the device is closed, and the code of the loop is the code of the program. *)
Theorem daemon_whole_run `{Heap, Keyring} be w key_mod_dir builtins dir events opts st fd status replies :
  heap_never_fails -> parse_daemon_options 0 opts no_settings = inr st -> daemon_works w st fd ->
  ecryptfs_run_daemon be (MessagingCtx ECRYPTFS_MESSAGING_TYPE_MISCDEV ECRYPTFS_MESSAGING_STATE_LISTENING fd)
    key_mod_dir builtins dir events = Ok (status, replies) ->
  let session := [OpenDevice fd; Sent (frame ECRYPTFS_MSG_HELO 0 None)] ++ (Sent <$> replies) in
  main be w key_mod_dir builtins dir events opts =
  Ok (match status with
      | Receiving _ => (DaemonWaits, start_effects w st ++ session)
      | Miscdev.Exited rc => (DaemonExit rc, start_effects w st ++ session ++ end_effects st fd)
      end).
Proof.
  intros Hh Hopts Hw Hrun session. unfold main. rewrite Hopts.
  destruct (dwk_version _ _ _ Hw) as (rc & version & Hv & Hok). rewrite Hv, bind_Ok.
  assert ((rc =? 0) && negb (has_flag (default 0 version) ECRYPTFS_VERSIONING_MISCDEV) = false) as ->.
  { destruct Hok as [Hrc| ->]; [by replace (rc =? 0) with false by lia|by rewrite andb_false_r]. }
  rewrite (daemonize_works w st fd Hw), (setup_works w st fd Hw). cbn [Z.eqb negb].
  destruct (dwk_device _ _ _ Hw) as (Hfd & Hne & Hhello & Hquit).
  assert (forall rc, ecryptfsd_exit be w st (MessagingCtx ECRYPTFS_MESSAGING_TYPE_MISCDEV
      ECRYPTFS_MESSAGING_STATE_LISTENING fd) rc = Ok (rc, end_effects st fd)) as Hexit.
  { intros r. unfold ecryptfsd_exit, ecryptfs_send_message. cbn [mctx_type].
    change (ECRYPTFS_MESSAGING_TYPE_MISCDEV =? ECRYPTFS_MESSAGING_TYPE_MISCDEV) with true. cbn match.
    by rewrite Hquit, send_signal_ok, bind_Ok by done. }
  unfold serve, ecryptfs_init_messaging, ecryptfs_init_miscdev. rewrite Hfd.
  change (ECRYPTFS_MESSAGING_TYPE_MISCDEV =? ECRYPTFS_MESSAGING_TYPE_MISCDEV) with true. cbn match.
  replace (fd =? -1) with false by lia. cbn [Z.eqb negb]. cbn [mctx_type mctx_state mctx_miscdev_fd].
  unfold ecryptfs_send_message at 1. cbn [mctx_type].
  change (ECRYPTFS_MESSAGING_TYPE_MISCDEV =? ECRYPTFS_MESSAGING_TYPE_MISCDEV) with true. cbn match.
  rewrite Hhello, send_signal_ok, bind_Ok by done. cbn [Z.eqb negb].
  change (Z.lor 0 ECRYPTFS_MESSAGING_STATE_LISTENING) with ECRYPTFS_MESSAGING_STATE_LISTENING.
  rewrite Hrun, bind_Ok. unfold start_effects, session, sent. cbn [option_list fmap list_fmap app snd].
  destruct status as [d|r].
  - cbn [obind mret outcome_ret]. f_equal. f_equal. by rewrite <- !app_assoc.
  - rewrite Hexit. cbn [obind mret outcome_ret]. f_equal. f_equal. by rewrite <- !app_assoc.
Qed.

(** ** Witnesses *)
Definition sample_daemon_world : daemon_world :=
  DaemonWorld (SysfsWorld (fun _ => inr [MountEntry (lit "ext4") (lit "/"); MountEntry (lit "sysfs") (lit "/sys")])
    (fun k _ => match k with O => inl ENOENT | _ => inr (lit "983" ++ [10]) end) 0 false)
    (Some (lit "/dev/tty1")) false (fun _ => ForkChild) true true (fun _ => true) true None (fun _ => None)
    (fun _ => None) (true, true) (fun _ => 4) true true.
Definition sample_options : list (Z * cstring) := [(112, lit "/run/ecryptfsd.pid")].
Definition sample_settings : settings := Settings (Some (lit "/run/ecryptfsd.pid")) false None None.

Lemma sample_daemon_works : @daemon_works plenty sample_daemon_world sample_settings 4.
Proof.
  split; [|done..]. exists 0, (Some 983). split; [vm_compute; reflexivity|]. right. vm_compute. reflexivity.
Qed.

(** The kernel says goodbye. *)
Definition quit_event : dev_event := DevEvent (Some (frame ECRYPTFS_MSG_QUIT 0 None)) true.

Lemma daemon_whole_run_witness :
  @main plenty toy_keyring false sample_daemon_world (lit "/lib") [] (Some []) [quit_event] sample_options =
  Ok (DaemonExit 0,
      start_effects sample_daemon_world sample_settings ++
      [OpenDevice 4; Sent (frame ECRYPTFS_MSG_HELO 0 None)] ++ end_effects sample_settings 4).
Proof.
  apply (@daemon_whole_run plenty toy_keyring false sample_daemon_world (lit "/lib") [] (Some []) [quit_event]
    sample_options sample_settings 4 (Miscdev.Exited 0) []).
  - done.
  - vm_compute. reflexivity.
  - exact sample_daemon_works.
  - vm_compute. reflexivity.
Defined.

Lemma daemon_no_core_before_traffic_witness :
  exists j, (j < 13)%nat /\
    (start_effects sample_daemon_world sample_settings ++
      [OpenDevice 4; Sent (frame ECRYPTFS_MSG_HELO 0 None)] ++ end_effects sample_settings 4) !! j = Some DisableCore.
Proof.
  apply (@daemon_no_core_before_traffic plenty toy_keyring false sample_daemon_world (lit "/lib") [] (Some []) [quit_event]
    sample_options (DaemonExit 0) (start_effects sample_daemon_world sample_settings ++
      [OpenDevice 4; Sent (frame ECRYPTFS_MSG_HELO 0 None)] ++ end_effects sample_settings 4) 13
    (Sent (frame ECRYPTFS_MSG_HELO 0 None))).
  - done.
  - vm_compute. reflexivity.
  - vm_compute. reflexivity.
  - exact I.
Defined.
