(* ===== verification/Pam.v ===== *)
(** * The PAM module: [src/pam_ecryptfs/pam_ecryptfs.c]

    Authentication puts the keys of the user into the keyring, a session mounts
    the private directory, a change of the login password wraps the passphrase
    again.  The functions are run on the files, the keyring and the credentials
    of the process that calls them. *)

From S2P Require Import Prelude CLib Ecryptfs PassphraseSig KeyMod KeyPayload KeyManagement.
From S2P Require Import CmdLnParser MountPrivate.

Definition PAM_SUCCESS : Z := 0.
Definition PAM_AUTHTOK_RECOVER_ERR : Z := 21.
Definition PAM_PRELIM_CHECK : Z := 0x4000.
Definition PRIVATE_DIR : cstring := lit "Private".
Definition ECRYPTFS_DEFAULT_WRAPPED_PASSPHRASE_FILENAME : cstring := lit "wrapped-passphrase".

(** The members of [struct passwd] the module reads. *)
Record passwd := Passwd {
  pw_name : cstring;
  pw_uid : Z;
  pw_gid : Z;
  pw_dir : cstring
}.

(** The effective credentials of a process. *)
Record creds := Creds {
  c_euid : Z;
  c_egid : Z;
  c_groups : list Z
}.
Inductive cred_call := SetEuid | SetEgid | SetGroups | SetIds.

(** What the module meets: the answers of PAM and of the user database, which
    calls work ([e_cred_ok] and [e_fork_ok] by source line), why [stat] fails on
    a file that is there, owner and kind of the files, the mount table and the
    rc file. *)
Record pam_env := PamEnv {
  e_get_user : Z + option cstring;
  e_getpwnam : cstring -> option passwd;
  e_getgroups_ok : bool;
  e_cred_ok : Z -> cred_call -> bool;
  e_fork_ok : Z -> bool;
  e_oldauthtok : Z * option cstring;
  e_authtok : Z * option cstring;
  e_prompt : Z * option cstring;
  e_stat_errno : cstring -> option Z;
  e_regular : cstring -> bool;
  e_owner : cstring -> Z;
  e_mounts : option (list mntent);
  e_keyctl_link : Z;
  e_rc_home : option cstring;
  e_rc_open : cstring -> Z + ((Z + filestat) * (nat -> option Z) * bytes)
}.

(** [stat]: an errno, or whether the file is regular and its owner. *)
Definition stat (e : pam_env) (fs : files) (f : cstring) : Z + (bool * Z) :=
  match e_stat_errno e f with
  | Some errno => inl errno
  | None => match fs !! f with None => inl ENOENT | Some _ => inr (e_regular e f, e_owner e f) end
  end.
Definition stat_ok (e : pam_env) (fs : files) (f : cstring) : bool :=
  match stat e fs f with inl _ => false | inr _ => true end.

(** ** Credentials

    The calls return whether they worked and the credentials afterwards. *)
Definition set_euid (e : pam_env) (line uid : Z) (c : creds) : bool * creds :=
  if e_cred_ok e line SetEuid then (true, Creds uid (c_egid c) (c_groups c)) else (false, c).
Definition set_egid (e : pam_env) (line gid : Z) (c : creds) : bool * creds :=
  if e_cred_ok e line SetEgid then (true, Creds (c_euid c) gid (c_groups c)) else (false, c).
Definition set_groups (e : pam_env) (line : Z) (gs : list Z) (c : creds) : bool * creds :=
  if e_cred_ok e line SetGroups then (true, Creds (c_euid c) (c_egid c) gs) else (false, c).

(** To the user, and back; the results of the way back are not looked at. *)
Definition become_user (e : pam_env) (line uid gid : Z) (c : creds) : bool * creds :=
  let '(ok, c) := set_egid e line gid c in
  if negb ok then (false, c)
  else
    let '(ok, c) := set_groups e line [gid] c in
    if negb ok then (false, c) else set_euid e line uid c.

Definition restore (e : pam_env) (line oeuid oegid : Z) (groups : list Z) (c : creds) : creds :=
  let '(_, c) := set_euid e line oeuid c in
  let '(_, c) := set_egid e (line + 1) oegid c in
  let '(_, c) := set_groups e (line + 2) groups c in
  c.

Section Pam.
Context `{Heap, Nss, Sys}.

(** ** Helpers *)
Definition file_exists_dotecryptfs (e : pam_env) (fs : files) (k : nat)
    (homedir : option cstring) (filename : cstring) : Z :=
  if negb (alloc_ok 81 k) then - ENOMEM
  else match stat e fs (show_str homedir ++ lit "/.ecryptfs/" ++ filename) with
  | inl errno => if negb (errno =? ENOENT) then - errno else 0
  | inr _ => 1
  end.

(** The [setuid] to the user changes nothing here: the effective user is the
    user already. *)
Definition wrap_passphrase_if_necessary (e : pam_env) (fs : files) (username : cstring) (uid : Z)
    (wrapped_pw_filename : cstring) (passphrase : option cstring) (salt : bytes)
    : outcome (Z * files) :=
  if negb (alloc_ok 100 0) then mret (- ENOMEM, fs)
  else
    let unwrapped_pw_filename := lit "/dev/shm/.ecryptfs-" ++ username in
    if match stat e fs unwrapped_pw_filename with inr (_, owner) => owner =? uid | inl _ => false end
       && negb (stat_ok e fs wrapped_pw_filename)
       && negb (zlen username =? 0)
    then match passphrase with
    | None => mret (0, fs)
    | Some p =>
        if zlen p =? 0 then mret (0, fs)
        else ecryptfs_wrap_passphrase_file fs wrapped_pw_filename p salt unwrapped_pw_filename
    end
    else mret (0, fs).

(** The salt of the rc file of the real user, or the default one, with the code
    of reading it. *)
Definition session_salt (e : pam_env) : outcome (Z * bytes) := rc_salt (e_rc_home e) (e_rc_open e).

(** [getpwnam], into the variables of the callers. *)
Definition user_entry (e : pam_env) (username : cstring) : Z * Z * option cstring :=
  match e_getpwnam e username with
  | Some pwd => (pw_uid pwd, pw_gid pwd, Some (pw_dir pwd))
  | None => (0, 0, None)
  end.

Definition wrapped_file (homedir : option cstring) : cstring :=
  show_str homedir ++ lit "/.ecryptfs/" ++ ECRYPTFS_DEFAULT_WRAPPED_PASSPHRASE_FILENAME.

Definition fopen (fs : files) (f : cstring) : option bytes :=
  if sys_open_read f then fs !! f else None.

(** ** Authentication *)

(** The files, the keyring, and whether a process was started that registers
    the placeholder of the session. *)
Definition auth_state : Type := files * keyring * bool.

Definition is_unwrap (argv : list cstring) : outcome bool :=
  match argv with
  | [a] => b ← rd (a ++ [0]) 0 7; mret (bool_decide (b = lit "unwrap" ++ [0]))
  | _ => mret false
  end.

(** The child of [pam_sm_authenticate]. *)
Definition auth_child (e : pam_env) (argv : list cstring) (fs : files) (kr : keyring)
    (username : cstring) (uid : Z) (homedir : option cstring) (passphrase : option cstring)
    (auth_tok_sig salt : bytes) : outcome auth_state :=
  if negb (e_cred_ok e 199 SetIds) then mret (fs, kr, false)
  else match passphrase with
  | None => mret (fs, kr, false)
  | Some p =>
      let _ := ecryptfs_validate_keyring (e_keyctl_link e) in
      unwrap ← is_unwrap argv;
      if unwrap : bool then
        if negb (alloc_ok 217 0) then mret (fs, kr, false)
        else
          let wrapped_pw_filename := wrapped_file homedir in
          '(rc, fs) ← wrap_passphrase_if_necessary e fs username uid wrapped_pw_filename (Some p) salt;
          if negb (rc =? 0) then mret (fs, kr, false)
          else
            '(rc, _, kr) ← ecryptfs_insert_wrapped_passphrase_into_keyring fs kr auth_tok_sig
               wrapped_pw_filename p salt (malloc_block heap_junk (ECRYPTFS_MAX_PASSPHRASE_BYTES + 1));
            mret (fs, kr, (rc =? 0) && e_fork_ok e 246)
      else
        '(rc, _, kr) ← ecryptfs_add_passphrase_key_to_keyring 0 kr auth_tok_sig p salt;
        mret (fs, kr, (rc =? 0) && e_fork_ok e 246)
  end.

(** From the check for [auto-mount] to the wait for the child. *)
Definition auth_body (e : pam_env) (argv : list cstring) (fs : files) (kr : keyring)
    (username : cstring) (uid : Z) (homedir : option cstring) : outcome auth_state :=
  if file_exists_dotecryptfs e fs 0 homedir (lit "auto-mount") =? 0 then mret (fs, kr, false)
  else
    private_mnt ← ecryptfs_fetch_private_mnt (fopen fs) (show_str homedir);
    mounted ← ecryptfs_private_is_mounted (e_mounts e) None private_mnt None true;
    if mounted : bool then mret (fs, kr, false)
    else
      let '(rc, passphrase) :=
        if file_exists_dotecryptfs e fs 1 homedir (lit "wrapping-independent") =? 1
        then e_prompt e else e_authtok e in
      if negb (rc =? PAM_SUCCESS) then mret (fs, kr, false)
      else if negb (alloc_ok 184 0) then mret (fs, kr, false)
      else
        let auth_tok_sig := malloc_block heap_junk (ECRYPTFS_SIG_SIZE_HEX + 1) in
        '(_, salt) ← session_salt e;
        if negb (e_fork_ok e 195) then mret (fs, kr, false)
        else auth_child e argv fs kr username uid homedir passphrase auth_tok_sig salt.

(** The code, the state and the credentials. *)
Definition pam_sm_authenticate (e : pam_env) (argv : list cstring) (fs : files) (kr : keyring)
    (c : creds) : outcome (Z * auth_state * creds) :=
  match e_get_user e with
  | inl _ => mret (PAM_SUCCESS, (fs, kr, false), restore e 260 0 0 [] c)
  | inr None => UB NullDeref
  | inr (Some username) =>
      let '(uid, gid, homedir) := user_entry e username in
      if negb (e_getgroups_ok e) then mret (PAM_SUCCESS, (fs, kr, false), c)
      else
        let back := restore e 260 (c_euid c) (c_egid c) (c_groups c) in
        let '(ok, c) := become_user e 161 uid gid c in
        if negb ok then mret (PAM_SUCCESS, (fs, kr, false), back c)
        else
          st ← auth_body e argv fs kr username uid homedir;
          mret (PAM_SUCCESS, st, back c)
  end.

Definition pam_sm_setcred : Z := PAM_SUCCESS.

(** ** Sessions *)

(** How the child of [private_dir] ends: it exits, becomes another program, or
    returns to the caller of the module a second time. *)
Inductive child_end :=
  | ChildExit (status : Z)
  | ChildExec (program argv0 : cstring) (uid gid : Z)
  | ChildReturn (rc : Z).
(** Whether the child asked for a notification to record the passphrase, and
    its end. *)
Definition child_run : Type := bool * child_end.

Definition fetch_pwd (e : pam_env) : option passwd :=
  match e_get_user e with inr (Some username) => e_getpwnam e username | _ => None end.

(** Taking on the user for good, and the program to run; [exec] returns only
    when it fails. *)
Definition exec_as_user (e : pam_env) (line : Z) (pwd : passwd) (program argv0 : cstring)
    (exec_ok : bool) : child_end :=
  if negb (e_cred_ok e line SetGroups) || negb (e_cred_ok e line SetIds) then ChildReturn (-1)
  else if negb (e_cred_ok e (line + 3) SetIds) then ChildReturn (-1)
  else if exec_ok then ChildExec program argv0 (pw_uid pwd) (pw_gid pwd)
  else ChildExit 1.

(** The code of the parent, and the run of the child, if there is one. *)
Definition private_dir (e : pam_env) (fs : files) (mount : bool) (exec_ok : bool)
    : Z * option child_run :=
  match fetch_pwd e with
  | None => (1, None)
  | Some pwd =>
      let a := if mount then lit "auto-mount" else lit "auto-umount" in
      if negb (alloc_ok 320 0) then (1, None)
      else
        let autofile := pw_dir pwd ++ lit "/.ecryptfs/" ++ a in
        if negb (alloc_ok 326 0) then (1, None)
        else
          let sigfile := pw_dir pwd ++ lit "/.ecryptfs/" ++ PRIVATE_DIR ++ lit ".sig" in
          match stat e fs sigfile with
          | inl _ => (0, None)
          | inr (regular, _) =>
              if negb regular then (0, None)
              else if negb (e_fork_ok e 339) then (1, None)
              else (0, Some (
                if mount then
                  if negb (alloc_ok 345 0) then (false, ChildExit 1)
                  else
                    let recorded := pw_dir pwd ++ lit "/.ecryptfs/.wrapped-passphrase.recorded" in
                    let notify := negb (stat_ok e fs recorded) &&
                      stat_ok e fs (lit "/usr/share/ecryptfs-utils/ecryptfs-record-passphrase") in
                    if negb (stat_ok e fs autofile) then (notify, ChildExit 0)
                    else (notify, exec_as_user e 364 pwd (lit "/sbin/mount.ecryptfs_private")
                                    (lit "mount.ecryptfs_private") exec_ok)
                else if negb (stat_ok e fs autofile) then (false, ChildExit 0)
                else (false, exec_as_user e 378 pwd (lit "/sbin/umount.ecryptfs_private")
                               (lit "umount.ecryptfs_private") exec_ok)))
          end
  end.

(** The results the application sees: that of the process itself and, when the
    child returns, a second one. *)
Definition pam_session (e : pam_env) (fs : files) (mount exec_ok : bool) : list Z * option child_run :=
  let '(_, child) := private_dir e fs mount exec_ok in
  (PAM_SUCCESS :: match child with Some (_, ChildReturn _) => [PAM_SUCCESS] | _ => [] end, child).
Definition pam_sm_open_session (e : pam_env) (fs : files) (exec_ok : bool) :=
  pam_session e fs true exec_ok.
Definition pam_sm_close_session (e : pam_env) (fs : files) (exec_ok : bool) :=
  pam_session e fs false exec_ok.

(** ** Change of the password *)

(** The child: it always exits with 0. *)
Definition chauthtok_child (e : pam_env) (fs : files) (wrapped_pw_filename : cstring)
    (old_passphrase new_passphrase : cstring) (salt : bytes) : outcome files :=
  if negb (e_cred_ok e 517 SetIds) then mret fs
  else
    '(rc, passphrase) ← ecryptfs_unwrap_passphrase fs
       (malloc_block heap_junk (ECRYPTFS_MAX_PASSWORD_LENGTH + 1)) wrapped_pw_filename
       old_passphrase salt;
    if negb (rc =? 0) then mret fs
    else
      p ← cstr_of passphrase;
      '(_, fs) ← ecryptfs_wrap_passphrase fs wrapped_pw_filename new_passphrase salt p;
      mret fs.

(** From the old passphrase to the wait for the child: code and files. *)
Definition chauthtok_body (e : pam_env) (flags : Z) (fs : files) (username : cstring) (uid : Z)
    (homedir : option cstring) : outcome (Z * files) :=
  let '(rc, old_passphrase) := e_oldauthtok e in
  if negb (rc =? PAM_SUCCESS) then mret (rc, fs)
  else if negb (Z.land flags PAM_PRELIM_CHECK =? 0) then
    mret (match old_passphrase with None => PAM_AUTHTOK_RECOVER_ERR | Some _ => rc end, fs)
  else
    let '(rc, new_passphrase) := e_authtok e in
    if negb (rc =? PAM_SUCCESS) then mret (rc, fs)
    else if negb (alloc_ok 487 0) then mret (- ENOMEM, fs)
    else
      let wrapped_pw_filename := wrapped_file homedir in
      '(rc, salt) ← session_salt e;
      '(wrap_rc, fs) ← wrap_passphrase_if_necessary e fs username uid wrapped_pw_filename
         new_passphrase salt;
      if negb (wrap_rc =? 0) then mret (rc, fs)
      else match old_passphrase, new_passphrase with
      | Some old_passphrase, Some new_passphrase =>
          if zlen new_passphrase =? 0 then mret (PAM_AUTHTOK_RECOVER_ERR, fs)
          else if negb (e_fork_ok e 511) then mret (PAM_SUCCESS, fs)
          else
            fs ← chauthtok_child e fs wrapped_pw_filename old_passphrase new_passphrase salt;
            mret (PAM_SUCCESS, fs)
      | _, _ => mret (PAM_AUTHTOK_RECOVER_ERR, fs)
      end.

(** The code, the files and the credentials. *)
Definition pam_sm_chauthtok (e : pam_env) (flags : Z) (fs : files) (c : creds)
    : outcome (Z * files * creds) :=
  match e_get_user e with
  | inl rc => mret (rc, fs, restore e 540 0 0 [] c)
  | inr None => UB NullDeref
  | inr (Some username) =>
      let '(uid, gid, homedir) := user_entry e username in
      if negb (e_getgroups_ok e) then mret (PAM_SUCCESS, fs, c)
      else
        let back := restore e 540 (c_euid c) (c_egid c) (c_groups c) in
        let '(ok, c) := become_user e 461 uid gid c in
        if negb ok then mret (PAM_SUCCESS, fs, back c)
        else
          '(rc, fs) ← chauthtok_body e flags fs username uid homedir;
          mret (rc, fs, back c)
  end.
End Pam.

(** ** Lemmas *)

(** A user whose calls work. *)
Record pam_calm (e : pam_env) (username : cstring) (pwd : passwd) : Prop := {
  calm_user : e_get_user e = inr (Some username);
  calm_pwd : e_getpwnam e username = Some pwd;
  calm_groups : e_getgroups_ok e = true;
  calm_creds line k : e_cred_ok e line k = true;
  calm_fork line : e_fork_ok e line = true
}.

(** The calls on the way back work. *)
Definition way_back_ok (e : pam_env) (line : Z) : Prop :=
  e_cred_ok e line SetEuid = true /\ e_cred_ok e (line + 1) SetEgid = true /\
  e_cred_ok e (line + 2) SetGroups = true.

Lemma restore_ok e line oeuid oegid groups c :
  way_back_ok e line -> restore e line oeuid oegid groups c = Creds oeuid oegid groups.
Proof.
  intros (H1 & H2 & H3). unfold restore, set_euid, set_egid, set_groups. by rewrite H1, H2, H3.
Qed.

Lemma restore_self e line c c' :
  way_back_ok e line -> restore e line (c_euid c) (c_egid c) (c_groups c) c' = c.
Proof. intros Hb. rewrite restore_ok by done. by destruct c. Qed.

Lemma become_user_ok e line uid gid c :
  (forall l k, e_cred_ok e l k = true) -> become_user e line uid gid c = (true, Creds uid gid [gid]).
Proof. intros Ho. unfold become_user, set_egid, set_groups, set_euid. by rewrite !Ho. Qed.

Section PamLemmas.
Context `{Heap, Nss, !NssLaws, Sys}.

Lemma session_salt_length e rc salt : session_salt e = Ok (rc, salt) -> zlen salt = 8.
Proof. apply rc_salt_length. Qed.

(** A wrapped file that is there is left as it is. *)
Lemma no_wrap_needed e fs username uid f passphrase salt :
  heap_never_fails -> stat_ok e fs f = true ->
  wrap_passphrase_if_necessary e fs username uid f passphrase salt = Ok (0, fs).
Proof.
  intros Hh Hf. unfold wrap_passphrase_if_necessary. rewrite (Hh 100), Hf. cbn [negb].
  by rewrite andb_false_r.
Qed.

(** [pam_sm_chauthtok] of a user whose wrapped file is there comes down to the
    child. *)
Lemma chauthtok_child_runs e flags fs c username pwd old new rc0 salt :
  heap_never_fails -> pam_calm e username pwd -> Z.land flags PAM_PRELIM_CHECK = 0 ->
  e_oldauthtok e = (PAM_SUCCESS, Some old) -> e_authtok e = (PAM_SUCCESS, Some new) ->
  session_salt e = Ok (rc0, salt) -> 0 < zlen new ->
  stat_ok e fs (wrapped_file (Some (pw_dir pwd))) = true ->
  pam_sm_chauthtok e flags fs c =
    (fs' ← chauthtok_child e fs (wrapped_file (Some (pw_dir pwd))) old new salt;
     Ok (PAM_SUCCESS, fs', c)).
Proof.
  intros Hh [Hu Hp Hg Hc Hf] Hfl Ho Hn Hs Hnew Hst. unfold pam_sm_chauthtok, user_entry.
  rewrite Hu, Hp, Hg. cbn [negb]. rewrite become_user_ok by done. cbn [negb].
  rewrite restore_self by (by split). unfold chauthtok_body. rewrite Ho, Hn, Hfl.
  cbn [Z.eqb negb PAM_SUCCESS]. rewrite (Hh 487). cbn [negb]. rewrite Hs. cbn [obind].
  rewrite no_wrap_needed by done. cbn [obind Z.eqb negb].
  decide_test (zlen new =? 0). rewrite Hf. cbn [negb].
  by destruct (chauthtok_child _ _ _ _ _ _).
Qed.
End PamLemmas.

(** ** Properties *)

(** C2. A change of the login password keeps the private directory open: when
    the wrapped file holds a passphrase wrapped with the old password, the
    module returns success, gives the process its credentials back, changes no
    other file, and leaves the same passphrase wrapped with the new password:
    unwrapping with the new password returns it. *)
Theorem chauthtok_rewraps `{Heap, Nss, !NssLaws, Sys} e flags fs c username pwd old new p rc0 salt :
  heap_never_fails -> nss_works -> sys_works -> pam_calm e username pwd ->
  Z.land flags PAM_PRELIM_CHECK = 0 ->
  e_oldauthtok e = (PAM_SUCCESS, Some old) -> e_authtok e = (PAM_SUCCESS, Some new) ->
  session_salt e = Ok (rc0, salt) ->
  zlen old <= 64 -> 0 < zlen new <= 64 -> 0 < zlen p <= 64 -> is_cstring p ->
  let f := wrapped_file (Some (pw_dir pwd)) in
  stat_ok e fs f = true -> fs !! f = Some (wrapped_content salt old p) ->
  exists fs',
    pam_sm_chauthtok e flags fs c = Ok (PAM_SUCCESS, fs', c) /\
    (forall g, g <> f -> fs' !! g = fs !! g) /\
    forall junk, 65 <= zlen junk ->
      exists buf, ecryptfs_unwrap_passphrase fs' junk f new salt = Ok (0, buf) /\ cstr_of buf = Ok p.
Proof.
  intros Hh Hn Hs He Hfl Ho Hnw Hsalt Hold Hnew Hp Hc f Hst Hf.
  pose proof (session_salt_length _ _ _ Hsalt) as H8.
  exists (<[f := wrapped_content salt new p]> fs). split_and!.
  - rewrite (chauthtok_child_runs e flags fs c username pwd old new rc0 salt) by (assumption || lia).
    unfold chauthtok_child. rewrite (calm_creds _ _ _ He). cbn [negb].
    rewrite (unwrap_wrapped _ _ _ _ _ p)
      by (assumption || lia || (rewrite zlen_malloc_block; vm_compute; congruence)).
    rewrite bind_Ok. cbn [Z.eqb negb]. rewrite cstr_of_padded, bind_Ok by (assumption || lia).
    rewrite wrap_passphrase_ok by (assumption || lia). reflexivity.
  - intros g Hg. by rewrite lookup_insert_ne.
  - intros junk Hj. exists (p ++ zeros (65 - zlen p) ++ drop 65 junk). split.
    + apply unwrap_wrapped; [exact Hn|exact Hs|lia|lia|exact Hp|exact Hj|apply lookup_insert_eq].
    + apply cstr_of_padded; [assumption|lia].
Qed.

(** When the old password does not open the wrapped file, the module still
    reports success and leaves the file as it was: the login password changes,
    and the passphrase stays wrapped with another one. *)
Theorem chauthtok_silent_failure `{Heap, Nss, !NssLaws, Sys}
    e flags fs c username pwd old wp new p rc0 salt :
  heap_never_fails -> nss_works -> sys_works -> pam_calm e username pwd ->
  Z.land flags PAM_PRELIM_CHECK = 0 ->
  e_oldauthtok e = (PAM_SUCCESS, Some old) -> e_authtok e = (PAM_SUCCESS, Some new) ->
  session_salt e = Ok (rc0, salt) ->
  zlen old <= 64 -> 0 < zlen new <= 64 -> 0 < zlen p <= 64 ->
  let f := wrapped_file (Some (pw_dir pwd)) in
  stat_ok e fs f = true -> fs !! f = Some (wrapped_content salt wp p) ->
  passphrase_sig_hex salt old <> passphrase_sig_hex salt wp ->
  pam_sm_chauthtok e flags fs c = Ok (PAM_SUCCESS, fs, c).
Proof.
  intros Hh Hn Hs He Hfl Ho Hnw Hsalt Hold Hnew Hp f Hst Hf Hne.
  pose proof (session_salt_length _ _ _ Hsalt) as H8.
  rewrite (chauthtok_child_runs e flags fs c username pwd old new rc0 salt) by (assumption || lia).
  unfold chauthtok_child. rewrite (calm_creds _ _ _ He). cbn [negb].
  destruct (length_wrapped_content salt wp p Hn Hp) as (ct & Ec & Ewc & Hl & Hsig & Hc & Hmod).
  rewrite Ewc in Hf. rewrite (unwrap_derived _ _ _ _ _ _ _ Hn Hs) with (2 := Hold) (3 := Hf);
    try (assumption || lia || (rewrite zlen_malloc_block; vm_compute; congruence)).
  rewrite bool_decide_eq_false_2 by congruence. reflexivity.
Qed.

(** C36. Logging in with the login password, the option [unwrap], an [auto-mount]
    file and nothing mounted puts both tokens of the wrapped passphrase into
    the keyring, changes no file, starts the placeholder of the session exactly
    when the token was not there before, and gives the process its credentials
    back. *)
Theorem authenticate_loads_keys `{Heap, Nss, !NssLaws, Sys}
    e fs kr c username pwd wp p rc0 salt mnt :
  heap_never_fails -> nss_works -> sys_works -> pam_calm e username pwd ->
  let home := Some (pw_dir pwd) in
  file_exists_dotecryptfs e fs 0 home (lit "auto-mount") = 1 ->
  ecryptfs_fetch_private_mnt (fopen fs) (pw_dir pwd) = Ok mnt ->
  ecryptfs_private_is_mounted (e_mounts e) None mnt None true = Ok false ->
  (if file_exists_dotecryptfs e fs 1 home (lit "wrapping-independent") =? 1
   then e_prompt e else e_authtok e) = (PAM_SUCCESS, Some wp) ->
  session_salt e = Ok (rc0, salt) ->
  zlen wp <= 64 -> 0 < zlen p <= 64 -> is_cstring p ->
  let f := wrapped_file home in
  stat_ok e fs f = true -> fs !! f = Some (wrapped_content salt wp p) ->
  let kr1 := (ensure_token kr (lit "9988776655443322" ++ [0]) p).2 in
  pam_sm_authenticate e [lit "unwrap"] fs kr c =
  Ok (PAM_SUCCESS,
      (fs, (ensure_token kr1 salt p).2, (ensure_token kr1 salt p).1 =? 0), c).
Proof.
  intros Hh Hn Hs [Hu Hpw Hg Hcr Hfk] home Ham Hmnt Hmd Htok Hsalt Hwp Hp Hc f Hst Hf kr1.
  pose proof (session_salt_length _ _ _ Hsalt) as H8.
  unfold pam_sm_authenticate, user_entry. rewrite Hu, Hpw, Hg. cbn [negb].
  rewrite become_user_ok by done. cbn [negb]. rewrite restore_self by (by split).
  unfold auth_body. fold home. rewrite Ham. cbn [Z.eqb].
  change (show_str home) with (pw_dir pwd). rewrite Hmnt, bind_Ok, Hmd, bind_Ok.
  rewrite Htok. cbn [Z.eqb negb PAM_SUCCESS]. rewrite (Hh 184). cbn [negb].
  rewrite Hsalt, bind_Ok, Hfk. cbn [negb]. unfold auth_child. rewrite Hcr. cbn [negb].
  change (is_unwrap [lit "unwrap"]) with (Ok true). rewrite bind_Ok, (Hh 217). cbn [negb]. fold f.
  rewrite no_wrap_needed, bind_Ok by assumption. cbn [Z.eqb negb].
  destruct (insert_wrapped_ok fs kr f wp salt p (malloc_block heap_junk (ECRYPTFS_SIG_SIZE_HEX + 1))
    (malloc_block heap_junk (ECRYPTFS_MAX_PASSPHRASE_BYTES + 1))) as (sig & E & _);
    try (assumption || lia || (rewrite zlen_malloc_block; vm_compute; congruence)).
  rewrite E. cbn [obind mret outcome_ret]. fold kr1. rewrite Hfk, andb_true_r.
  reflexivity.
Qed.

(** C37. Authentication and password change give the process its effective user,
    group and supplementary groups back, on every path on which PAM names the
    user; when it does not, both make the process user 0, group 0, without
    supplementary groups. *)
Theorem credentials_restored `{Heap, Nss, Sys} e argv flags fs kr c :
  way_back_ok e 260 -> way_back_ok e 540 ->
  match e_get_user e with
  | inr _ =>
      (forall r, pam_sm_authenticate e argv fs kr c = Ok r -> r.2 = c) /\
      (forall r, pam_sm_chauthtok e flags fs c = Ok r -> r.2 = c)
  | inl rc =>
      pam_sm_authenticate e argv fs kr c = Ok (PAM_SUCCESS, (fs, kr, false), Creds 0 0 []) /\
      pam_sm_chauthtok e flags fs c = Ok (rc, fs, Creds 0 0 [])
  end.
Proof.
  intros Ha Hc. unfold pam_sm_authenticate, pam_sm_chauthtok, mret, outcome_ret.
  destruct (e_get_user e) as [rc|[username|]]; [by rewrite !restore_ok| |by split].
  destruct (user_entry e username) as [[uid gid] home].
  destruct (e_getgroups_ok e); cbn [negb]; [|by split; intros r [= <-]].
  split; intros r; destruct (become_user _ _ _ _ _) as [ok c']; destruct ok; cbn [negb].
  - intros (st & _ & [= <-])%bind_ok_inv. cbn [snd]. by apply restore_self.
  - intros [= <-]. cbn [snd]. by apply restore_self.
  - intros ([rc st] & _ & [= <-])%bind_ok_inv. cbn [snd]. by apply restore_self.
  - intros [= <-]. cbn [snd]. by apply restore_self.
Qed.

(** A session runs the mount helper only as the user, for a user with a
    regular signature file and an [auto-mount] (or [auto-umount]) file, and
    under the name that makes the helper mount (or unmount).  The module
    returns once, except when the child cannot take on the credentials of the
    user: then the child returns as well, and two processes go on with the
    session. *)
Theorem session_helper `{Heap} e fs mount exec_ok :
  match pam_session e fs mount exec_ok with
  | (rcs, Some (_, ChildExec program argv0 uid gid)) =>
      rcs = [PAM_SUCCESS] /\ is_umount [argv0] = negb mount /\
      exists pwd owner, fetch_pwd e = Some pwd /\ uid = pw_uid pwd /\ gid = pw_gid pwd /\
        stat e fs (pw_dir pwd ++ lit "/.ecryptfs/" ++ PRIVATE_DIR ++ lit ".sig") = inr (true, owner) /\
        stat_ok e fs (pw_dir pwd ++ lit "/.ecryptfs/" ++
                      if mount : bool then lit "auto-mount" else lit "auto-umount") = true
  | (rcs, Some (_, ChildReturn rc)) =>
      rc = -1 /\ rcs = [PAM_SUCCESS; PAM_SUCCESS] /\
      exists line k, e_cred_ok e line k = false
  | (rcs, _) => rcs = [PAM_SUCCESS]
  end.
Proof.
  unfold pam_session, private_dir. destruct (fetch_pwd e) as [pwd|] eqn:Epwd; [|done].
  destruct (negb (alloc_ok 320 0)); [done|]. destruct (negb (alloc_ok 326 0)); [done|].
  destruct (stat e fs (pw_dir pwd ++ lit "/.ecryptfs/" ++ PRIVATE_DIR ++ lit ".sig"))
    as [?|[regular owner]] eqn:Esig; [done|].
  destruct regular; cbn [negb]; [|done]. destruct (negb (e_fork_ok e 339)); [done|].
  destruct mount.
  - destruct (negb (alloc_ok 345 0)); [done|]. destruct (stat_ok e fs _) eqn:Eauto; cbn [negb]; [|done].
    unfold exec_as_user. destruct (e_cred_ok e 364 SetGroups) eqn:E1; cbn [negb orb]; [|by eauto].
    destruct (e_cred_ok e 364 SetIds) eqn:E2; cbn [negb]; [|by eauto].
    destruct (e_cred_ok e (364 + 3) SetIds) eqn:E3; cbn [negb]; [|by eauto].
    destruct exec_ok; [|done]. split; [done|]. split; [done|]. by exists pwd, owner.
  - destruct (stat_ok e fs _) eqn:Eauto; cbn [negb]; [|done].
    unfold exec_as_user. destruct (e_cred_ok e 378 SetGroups) eqn:E1; cbn [negb orb]; [|by eauto].
    destruct (e_cred_ok e 378 SetIds) eqn:E2; cbn [negb]; [|by eauto].
    destruct (e_cred_ok e (378 + 3) SetIds) eqn:E3; cbn [negb]; [|by eauto].
    destruct exec_ok; [|done]. split; [done|]. split; [done|]. by exists pwd, owner.
Qed.

(** ** Witnesses *)

(** A user who logs in with the password ["login"] and changes it to
    ["fresh"]; no rc file, nothing mounted. *)
Definition demo_pwd : passwd := Passwd (lit "jo") 1000 1000 (lit "/home/jo").
Definition demo_env (old new : cstring) : pam_env := {|
  e_get_user := inr (Some (lit "jo"));
  e_getpwnam := fun _ => Some demo_pwd;
  e_getgroups_ok := true;
  e_cred_ok := fun _ _ => true;
  e_fork_ok := fun _ => true;
  e_oldauthtok := (PAM_SUCCESS, Some old);
  e_authtok := (PAM_SUCCESS, Some new);
  e_prompt := (PAM_SUCCESS, None);
  e_stat_errno := fun _ => None;
  e_regular := fun _ => true;
  e_owner := fun _ => 1000;
  e_mounts := Some [];
  e_keyctl_link := 0;
  e_rc_home := None;
  e_rc_open := fun _ => inl ENOENT
|}.
Definition demo_salt : bytes := [0; 17; 34; 51; 68; 85; 102; 119].
Definition demo_file : cstring := lit "/home/jo/.ecryptfs/wrapped-passphrase".
Definition demo_auto : cstring := lit "/home/jo/.ecryptfs/auto-mount".

Lemma demo_calm old new : pam_calm (demo_env old new) (lit "jo") demo_pwd.
Proof. done. Qed.

Lemma demo_session_salt old new :
  @session_salt plenty (demo_env old new) = Ok (- EIO, demo_salt).
Proof. vm_compute. reflexivity. Qed.

Lemma demo_stat old new fs content :
  stat_ok (demo_env old new) (<[demo_file := content]> fs) (wrapped_file (Some (pw_dir demo_pwd))) = true.
Proof.
  unfold stat_ok, stat. change (wrapped_file (Some (pw_dir demo_pwd))) with demo_file.
  by rewrite lookup_insert_eq.
Qed.

Lemma chauthtok_rewraps_witness :
  let fs := <[demo_file := @wrapped_content toy_nss demo_salt (lit "login") (lit "secret")]> ∅ in
  exists fs',
    @pam_sm_chauthtok plenty toy_nss calm_sys (demo_env (lit "login") (lit "fresh")) 0 fs (Creds 0 0 [4; 24]) =
      Ok (PAM_SUCCESS, fs', Creds 0 0 [4; 24]) /\
    (forall g, g <> demo_file -> fs' !! g = fs !! g) /\
    forall junk, 65 <= zlen junk ->
      exists buf, @ecryptfs_unwrap_passphrase toy_nss calm_sys fs' junk demo_file (lit "fresh") demo_salt =
        Ok (0, buf) /\ cstr_of buf = Ok (lit "secret").
Proof.
  intros fs.
  apply (@chauthtok_rewraps plenty toy_nss toy_nss_laws calm_sys (demo_env (lit "login") (lit "fresh")) 0 fs
    (Creds 0 0 [4; 24]) (lit "jo") demo_pwd (lit "login") (lit "fresh") (lit "secret") (- EIO) demo_salt).
  - intros line k. reflexivity.
  - apply toy_nss_works.
  - apply calm_sys_works.
  - apply demo_calm.
  - reflexivity.
  - reflexivity.
  - reflexivity.
  - apply demo_session_salt.
  - vm_compute; congruence.
  - split; vm_compute; congruence.
  - split; vm_compute; congruence.
  - repeat constructor.
  - apply demo_stat.
  - apply lookup_insert_eq.
Defined.

Lemma eighth_sigs_differ_here :
  @passphrase_sig_hex eighth_nss demo_salt (lit "guess") <>
  @passphrase_sig_hex eighth_nss demo_salt (lit "login").
Proof.
  assert (bool_decide (@passphrase_sig_hex eighth_nss demo_salt (lit "guess") =
    @passphrase_sig_hex eighth_nss demo_salt (lit "login")) = false) as E by (vm_compute; reflexivity).
  by apply bool_decide_eq_false_1 in E.
Qed.

Lemma chauthtok_silent_failure_witness :
  let fs := <[demo_file := @wrapped_content eighth_nss demo_salt (lit "login") (lit "secret")]> ∅ in
  @pam_sm_chauthtok plenty eighth_nss calm_sys (demo_env (lit "guess") (lit "fresh")) 0 fs (Creds 0 0 []) =
  Ok (PAM_SUCCESS, fs, Creds 0 0 []).
Proof.
  intros fs.
  apply (@chauthtok_silent_failure plenty eighth_nss eighth_nss_laws calm_sys
    (demo_env (lit "guess") (lit "fresh")) 0 fs (Creds 0 0 []) (lit "jo") demo_pwd (lit "guess") (lit "login")
    (lit "fresh") (lit "secret") (- EIO) demo_salt).
  - intros line k. reflexivity.
  - apply eighth_nss_works.
  - apply calm_sys_works.
  - apply demo_calm.
  - reflexivity.
  - reflexivity.
  - reflexivity.
  - apply demo_session_salt.
  - vm_compute; congruence.
  - split; vm_compute; congruence.
  - split; vm_compute; congruence.
  - apply demo_stat.
  - apply lookup_insert_eq.
  - apply eighth_sigs_differ_here.
Defined.

Lemma authenticate_loads_keys_witness :
  let fs := <[demo_file := @wrapped_content toy_nss demo_salt (lit "login") (lit "secret")]>
              (<[demo_auto := []]> ∅) in
  let kr1 := (@ensure_token toy_nss (∅ : gmap (list Z) ecryptfs_auth_tok)
                (lit "9988776655443322" ++ [0]) (lit "secret")).2 in
  @pam_sm_authenticate plenty toy_nss calm_sys (demo_env (lit "x") (lit "login")) [lit "unwrap"] fs ∅
    (Creds 0 0 [4; 24]) =
  Ok (PAM_SUCCESS,
      (fs, (@ensure_token toy_nss kr1 demo_salt (lit "secret")).2,
       (@ensure_token toy_nss kr1 demo_salt (lit "secret")).1 =? 0),
      Creds 0 0 [4; 24]).
Proof.
  intros fs kr1. subst kr1.
  assert (forall f, f <> demo_file -> f <> demo_auto -> fs !! f = None) as Hno.
  { intros f H1 H2. unfold fs. by rewrite !lookup_insert_ne. }
  apply (@authenticate_loads_keys plenty toy_nss toy_nss_laws calm_sys (demo_env (lit "x") (lit "login")) fs ∅
    (Creds 0 0 [4; 24]) (lit "jo") demo_pwd (lit "login") (lit "secret") (- EIO) demo_salt
    (Some (lit "/home/jo/Private"))).
  - intros line k. reflexivity.
  - apply toy_nss_works.
  - apply calm_sys_works.
  - apply demo_calm.
  - unfold file_exists_dotecryptfs, stat, fs. cbn [e_stat_errno demo_env alloc_ok plenty negb].
    change (show_str (Some (pw_dir demo_pwd)) ++ lit "/.ecryptfs/" ++ lit "auto-mount") with demo_auto.
    rewrite lookup_insert_ne by discriminate. by rewrite lookup_insert_eq.
  - unfold ecryptfs_fetch_private_mnt, fopen. cbn [alloc_ok plenty negb sys_open_read calm_sys].
    rewrite Hno by discriminate. reflexivity.
  - reflexivity.
  - unfold file_exists_dotecryptfs, stat. cbn [e_stat_errno demo_env alloc_ok plenty negb].
    rewrite Hno by discriminate. reflexivity.
  - apply demo_session_salt.
  - vm_compute; congruence.
  - split; vm_compute; congruence.
  - repeat constructor.
  - apply demo_stat.
  - apply lookup_insert_eq.
Defined.

Lemma credentials_restored_witness :
  exists r, @pam_sm_authenticate plenty toy_nss calm_sys (demo_env (lit "x") (lit "login")) [] ∅ ∅
      (Creds 0 50 [4; 24]) = Ok r /\ r.2 = Creds 0 50 [4; 24].
Proof.
  eexists. split; [vm_compute; reflexivity|].
  apply (@credentials_restored plenty toy_nss calm_sys (demo_env (lit "x") (lit "login")) [] 0 ∅ ∅
    (Creds 0 50 [4; 24])); [by repeat split..|]. vm_compute. reflexivity.
Defined.
